(* ===== verification/_CoqProject ===== *)
-Q . S2P
Prelude.v
Hash.v
Sdk.v
Proposals.v
SkipListFacts.v
Concrete.v
PriorityNonce.v
PriorityNonceFacts.v
PriorityNonceIteration.v
PriorityNonceProps.v
LaneMempool.v
Stored.v
LaneOrder.v
Lane.v
LaneFacts.v
Mempool.v
MempoolFacts.v
AuctionLane.v
AuctionFacts.v
Lanes.v
Abci.v
AbciFacts.v
BuilderTypes.v
Wire.v
WireFacts.v
BuilderWire.v
BuilderWireFacts.v
BuilderProto.v
Pulsar.v
PulsarMessages.v
PulsarFacts.v
PulsarWire.v
PulsarWireFacts.v
PulsarConcrete.v
PulsarProps.v
Descriptor.v
PulsarDescriptors.v
PulsarDescriptorFacts.v
PulsarAccessors.v
Builder.v
BuilderFacts.v
BuilderState.v
Grpc.v
ApiGrpc.v
Gateway.v
GrpcFacts.v
Codec.v
Testutils.v
TestutilsFacts.v
Rewards.v
Mocks.v
Module.v
Cli.v
Effects.v
Consensus.v
App.v
AnteChain.v
AppFacts.v
BestBid.v
Settlement.v
