(* ===== verification/Prelude.v ===== *)
(** * Verification of POB, the protocol-owned builder (skip-mev/pob)

    POB is a set of Go packages for Cosmos SDK chains.  Users bid, with an ordinary transaction,
    for a bundle of transactions to be at the top of the next block; the chain itself, not an
    external relay, runs the auction.  A block is shared between lanes: the auction lane takes the
    best valid bid and its bundle, a free lane staking transactions, a default lane the rest.  Every
    lane has a mempool of its own and its own rules for what it puts into a proposal and what it
    accepts in one.  The builder module keeps the parameters of the auction, checks bids in the
    ante handler and takes the payment when a bid is executed.

    ** The parts and how they interact

<<
   CheckTx ----------> AuctionLane (check_tx.go) --> lane mempools      Mempool (registry of lanes)
                              |                          ^                        ^
                              v                          |                        |
                         ante handler ------------> builder decorator       BaseApp (SDK)
                              ^                          |
                              |                          v
   PrepareProposal --> Abci (chain of lanes) --> Lane / AuctionLane --> Proposals
   ProcessProposal --> Abci (chain of lanes) --> Lane / AuctionLane
>>

    - Library code: Prelude (error results, Go panics, the state monad [ST], machine integers,
      automation), Hash (SHA-256, hex, strings), Sdk (everything third-party, as classes of operations
      and classes of laws), SkipListFacts, Concrete (an instance of the third-party classes, for the
      witnesses).
    - blockbuster/proposals.go, utils/utils.go: Proposals.
    - blockbuster/priority_nonce.go: PriorityNonce; its facts in PriorityNonceFacts (invariant and
      effect of each method), PriorityNonceIteration (the iterator) and PriorityNonceProps
      (refinement of a finite map).
    - blockbuster/lane_mempool.go: LaneMempool, with the cache of hashes; Stored (what a lane
      mempool holds, for any priorities) and LaneOrder (its order, when the priorities are coins of
      one denomination).
    - blockbuster/types.go, lane_*.go: Lane and LaneFacts.  lane_interface.go is the record
      [Lanes.Lane] and the class [LaneMempool].
    - blockbuster/mempool.go: Mempool and MempoolFacts.
    - blockbuster/lanes/auction: AuctionLane and AuctionFacts; lanes/base, lanes/free,
      lanes/terminator and utils/ante.go: Lanes.
    - blockbuster/abci/abci.go: Abci and AbciFacts.
    - x/builder/types: BuilderTypes; its generated encodings (genesis.pb.go, tx.pb.go, query.pb.go):
      Wire, BuilderWire, WireFacts, BuilderWireFacts, and BuilderProto for their methods that are not
      encoders or decoders; codec.go: Codec; the gRPC clients, servers and
      service descriptors of tx.pb.go and query.pb.go: Grpc; the HTTP gateway (tx.pb.gw.go,
      query.pb.gw.go): Gateway.
    - x/builder/keeper, rewards, ante: Builder and BuilderFacts, BuilderState (what the store of the
      module holds at any time); expected_keepers.go and the providers as values: Rewards;
      x/builder/module.go: Module; x/builder/client/cli: Cli.
    - api/pob: Pulsar (what the five generated files share), PulsarMessages (the messages),
      PulsarFacts, PulsarWire, PulsarWireFacts, PulsarConcrete, PulsarProps; the raw descriptors and
      the registration of the files: PulsarDescriptors and PulsarDescriptorFacts, against Descriptor,
      a reading of descriptors; the methods of each message that only call the runtime, or answer
      from a descriptor: PulsarAccessors; the gRPC stubs: ApiGrpc.
    - GrpcFacts is about both packages' clients and the keeper's servers.
    - tests/app/app.go, ante.go: App, AnteChain and AppFacts, the lanes, the ante handler and the
      mempool put together, and the requests to a node as a step relation.
    - testutils/utils.go: Testutils and TestutilsFacts; testutils/mocks.go: Mocks.
    - Consensus, Effects, BestBid and Settlement are about the parts together: a proposal of one node
      before another one, what code may add to the mempool of a lane, which bid gets into a block,
      and what an accepted bid pays when the block is executed.

    ** State

    A Go value that code mutates through a pointer is a value that is passed on.  The chain state
    is [Store]; the mempools are a map from the identity of a lane to its state ([Lane.State]);
    lanes point to each other by identity, in the heap [Lanes].  A function that may panic returns
    an [outcome]; one that may fail returns a [result] or an optional error, as in Go.  [recover],
    [with_cache] and [on_committed] are defer/recover, CacheContext and a branch of the committed
    state: what a panic or a discarded cache leaves behind is part of the model.  Integers are Z
    with the wrap-around written where Go has it.

    ** What is shown

    - A block of an honest node is accepted, and takes every validator to the chain state its
      transactions lead to: for chains of lanes with the auction handlers and the default ones
      ([honest_proposal_accepted]), and in the application, whatever the history of the node
      ([app_proposal_accepted]); the invariant behind the latter is [lanes_keep_their_transactions],
      and the verdict of its ante handler is composed from those of its decorators
      ([app_ante_deterministic]).  The conditions are needed: [priority_inversion_rejected],
      [failed_writes_rejected].
    - The auction is live: the best valid bid of a node is at the top of its block
      ([best_bid_is_included]); and what a node accepts is paid: the bid of an accepted block passed
      the ante handler with its bundle, and when the block is delivered, if the ante handler accepts
      the bid there and the bidder can spend it, its message moves the bid to the rewards and the
      escrow accounts ([accepted_block_pays_its_bid]); a bid of coins that are locked is accepted
      and not paid ([locked_bid_fails]).
    - What is in an accepted block ([accepted_proposal_is_verified], [auction_check_order_iff],
      [default_check_order_iff]) and in a prepared one ([prepare_proposal_size],
      [auction_prepare_selects_one_bid], [default_prepare_selects]); the nested closures, caches
      and recoveries of the chain are a fold over the lanes ([prepare_chain_refines_fold]) that
      never fails ([prepare_proposal_never_fails]), and in which the turn of a lane is all or nothing
      ([prepare_lanes_atomic]).
    - The priority-nonce mempool is a finite map with an iterator that visits it once, by sender
      and nonce, and by priority as far as that allows ([priority_mempool_refines_map] and after).
    - The registry sends a transaction to one lane ([mutex_insert_single_lane]) and shares out at
      most the block ([mempool_block_space]).
    - Bids: who may bid what ([ValidateAuctionBid_iff]), which bundles ([ValidateAuctionBundle_spec]),
      what is paid ([AuctionBid_moves_the_bid]), what the ante handler and CheckTx let through
      ([AnteHandle_accepts], [check_tx_bid_committed_state]), who changes the parameters
      ([UpdateParams_authority]), what the store may hold ([module_stays_well_typed]), genesis
      ([module_genesis_roundtrip]).
    - Encodings: sizes, round trips, total decoders, unknown fields; the generated API and the chain
      agree byte for byte ([api_encoding_is_chain_encoding]); reflection is one lens per field; the
      raw descriptors describe the messages ([descriptors_describe_messages]) and the services, the
      clients and the routes ([services_match_descriptors]).
    - From outside: a call of a generated client runs the method of the keeper
      ([clients_reach_the_keeper]); the commands broadcast the bid that was entered and print the
      stored parameters ([auction_bid_command], [params_command_prints_the_parameters]); the bids of
      the test generators are bids ([CreateAuctionTx_is_a_bid]).
    - Several theorems state defects of the code (a stale cache entry, an oversized bundle that
      blocks its lane, a nil dereference, a transaction the iterator skips after a replacement
      ([replacement_skips_tx]), a bid of locked coins, the two rejected proposals above).

    ** Fuel and bounds

    Recursion is structural wherever the code's loop is over a list.  [drain] gets one step more
    than there are elements in the sender indices; [priority_mempool_select_complete] shows the
    iteration ends within it.  [Match] gets one call more than there are lanes, enough for ignore
    lists without a cycle ([MempoolFacts.Match_mutex]); with a cycle Go's stack overflows.  Varints
    have ten groups; the loops of Unmarshal and skip get one step per byte, and [Unmarshal_total]
    shows that they end.  Sizes of encodings are below 2^62, where Go's int does not wrap; block
    sizes are within int64.

    ** Hypotheses

    Third-party code is a parameter: class [Sdk] and the law classes of its documented behaviour
    (decimals, coins, bank, store, addresses), [SkipListLib]/[SkipListLaws], [WireLib]/[WireLaws],
    [ParamsCodec], [GenesisCodec], the runtime of the generated API ([PulsarLib], [ProtoImpl]), the
    grpc package ([GrpcServer], [ClientConn]), the gateway runtime ([GatewayLib]), the codecs
    ([CodecLib]), cobra and the client package ([CliLib]), the transaction builder ([TxLib]), the
    proto package of x/builder/types ([GogoProto]), the text and the compression of messages of the
    generated API ([MessageText]) and the controller of gomock ([GoMock]).
    Concrete, PulsarConcrete and the files themselves instantiate them, so that every witness
    evaluates.

    The bank's SendCoins succeeds up to the coins the account can spend, which may be less than its
    balance ([BankLaws], [spendable]).  The genesis codec reads back the valid genesis states it
    writes ([GenesisCodecLaws]).

    Of the decorators of the auth module, [AppFacts.AnteLaws] says that they do to the mempools what
    the next handler does.  [AnteChain.AuthVerdicts] says that in the blocks of a height each judges
    by the chain state, the transaction and the gas meter of its context, and writes by these too;
    the first sets the meter, so that their composition does not depend on the gas the context
    comes with.  The context of a proposal has no transaction bytes ([AnteChain.in_block]); at
    delivery it has, and more gas is charged, which is why [accepted_block_pays_its_bid] asks that
    the ante handler accepts the bid there.  Nothing is assumed of what a decorator writes: fees may
    go to any account.  [AnteChain.AuthCalm], for liveness only, says that the decorators panic for
    lack of gas only and keep the parameters of the auction; [AnteChain.hands_on], that what a
    decorator accepts, the next handler accepted.

    The default selection keeps what a rejected transaction wrote, and the validators do not see it.
    Where a theorem needs that this makes no difference, it says so of the block at hand: it is the
    one the lanes would prepare if they discarded those writes ([Consensus.residue_is_harmless],
    [AppFacts.discarding_proposals]).  The mempools of the lanes compare sums of coins as text: where
    a theorem needs their order, the bids and, lane by lane, the fees are in one denomination
    ([AppFacts.comparable_txs]); LaneOrder shows that Compare is then an order.  Stored and Effects
    assume nothing about priorities.

    ** Not modelled

    Logging; options of gRPC calls and the cancelling of request contexts; aliasing of the backing
    arrays of Go slices; what a message holds after Unmarshal has failed; the wiring of SDK modules
    in the test application, its configuration, export and command, which call the SDK only; the
    mocks mockery generated; the tests.

    ** Limits

    The lanes, the chain of handlers, the auction, the module and the generated files are modelled
    as far as the source goes.  The execution of a block is modelled as far as the program has code
    in it: the ante handlers and the message of a bid.  That the bundled transactions then succeed
    depends on the modules of the chain, and their messages are not in this repository.  The auth
    decorators are laws, not definitions, for the same reason.  The gas the keepers' own reads and
    writes of the store cost, the time of a block and the consensus parameters are not modelled. *)
From stdpp Require Export base gmap strings list numbers decidable countable.
From Stdlib Require Export ZArith Lia.
From Stdlib Require Export Strings.Byte.
From Stdlib Require Export Strings.Ascii Strings.String.
From stdpp Require Export base gmap strings list numbers.

#[global] Open Scope Z_scope.

(** ** Go errors, panics and stateful calls *)

(** A Go [error] value.  [Errorf] is [errors.New]/[fmt.Errorf] without a cause, [Wrap] is
    [fmt.Errorf("...: %w", err)] or [errors.Wrap]; the two sentinels are the values of the
    SDK mempool package that the code compares against; [FrontRunning] is the error type of
    x/builder/keeper/errors.go.  A message keeps the static text of the format only. *)
Inductive error : Type :=
| Errorf (msg : string)
| Wrap (msg : string) (cause : error)
| ErrTxNotFound
| ErrMempoolTxMaxCapacity
| FrontRunning.

#[global] Instance error_eq_dec : EqDecision error.
Proof. solve_decision. Defined.

(** [errors.Is]: the error or one of the causes it wraps is the target. *)
Fixpoint errors_Is (e target : error) : bool :=
  bool_decide (e = target) || match e with Wrap _ c => errors_Is c target | _ => false end.

(** The pair [(value, err)] of a Go call whose value is the zero value when [err] is set. *)
Inductive result (A : Type) : Type :=
| Ok (a : A)
| Err (e : error).
Arguments Ok {A} a.
Arguments Err {A} e.

#[global] Instance result_eq_dec `{EqDecision A} : EqDecision (result A).
Proof. solve_decision. Defined.

#[global] Instance result_ret : MRet result := fun A a => Ok a.
#[global] Instance result_bind : MBind result := fun A B f m =>
  match m with Ok a => f a | Err e => Err e end.

(** The outcome of running code that may panic. *)
Inductive outcome (A : Type) : Type :=
| Ret (a : A)
| Panic (why : string).
Arguments Ret {A} a.
Arguments Panic {A} why.

#[global] Instance outcome_ret : MRet outcome := fun A a => Ret a.
#[global] Instance outcome_bind : MBind outcome := fun A B f m =>
  match m with Ret a => f a | Panic w => Panic w end.

(** Stateful code: it runs in a state that survives a panic. *)
Definition ST (S A : Type) : Type := S -> outcome A * S.

#[global] Instance ST_ret {S} : MRet (ST S) := fun A a s => (Ret a, s).
#[global] Instance ST_bind {S} : MBind (ST S) := fun A B f m s =>
  match m s with
  | (Ret a, s') => f a s'
  | (Panic w, s') => (Panic w, s')
  end.

Definition st_get {S} : ST S S := fun s => (Ret s, s).
Definition st_put {S} (s : S) : ST S unit := fun _ => (Ret tt, s).
Definition st_gets {S A} (f : S -> A) : ST S A := fun s => (Ret (f s), s).
Definition st_modify {S} (f : S -> S) : ST S unit := fun s => (Ret tt, f s).
Definition st_panic {S A} (why : string) : ST S A := fun s => (Panic why, s).
Definition st_lift {S A} (o : outcome A) : ST S A := fun s => (o, s).

(** [defer func() { if r := recover(); r != nil { ... } }()]: a panic of [m] is turned into
    the result of [h], in the state the panic left behind. *)
Definition recover {S A} (m : ST S A) (h : string -> ST S A) : ST S A := fun s =>
  match m s with
  | (Panic w, s') => h w s'
  | r => r
  end.

(** ** Machine integers *)

Definition wrap_u32 (z : Z) : Z := z mod 2 ^ 32.
Definition wrap_u64 (z : Z) : Z := z mod 2 ^ 64.
Definition wrap_i32 (z : Z) : Z := (z + 2 ^ 31) mod 2 ^ 32 - 2 ^ 31.
Definition wrap_i64 (z : Z) : Z := (z + 2 ^ 63) mod 2 ^ 64 - 2 ^ 63.
Definition max_int64 : Z := 2 ^ 63 - 1.
Definition in_i64 (z : Z) : Prop := - 2 ^ 63 <= z < 2 ^ 63.
Definition in_u64 (z : Z) : Prop := 0 <= z < 2 ^ 64.
Definition in_u32 (z : Z) : Prop := 0 <= z < 2 ^ 32.

(** ** Bytes *)

Abbreviation bytes := (list Byte.byte).

#[global] Instance byte_eq_dec : EqDecision Byte.byte := Byte.byte_eq_dec.

#[global] Program Instance byte_countable : Countable Byte.byte :=
  inj_countable Byte.to_N Byte.of_N _.
Next Obligation. intros b. apply Byte.of_to_N. Qed.

Definition byte_Z (b : Byte.byte) : Z := Z.of_N (Byte.to_N b).
Definition Z_byte (z : Z) : Byte.byte :=
  match Byte.of_N (Z.to_N (z mod 256)) with Some b => b | None => x00 end.

(** Go's [len] as an [int]. *)
Definition len {A} (l : list A) : Z := Z.of_nat (length l).

#[global] Arguments len : simpl never.
#[global] Arguments wrap_u32 : simpl never.
#[global] Arguments wrap_u64 : simpl never.
#[global] Arguments wrap_i32 : simpl never.
#[global] Arguments wrap_i64 : simpl never.
#[global] Arguments byte_Z : simpl never.
#[global] Arguments Z_byte : simpl never.

(** ** Shared lemmas *)

Lemma wrap_i64_id z : in_i64 z -> wrap_i64 z = z.
Proof. unfold in_i64, wrap_i64. intros H. rewrite Z.mod_small; lia. Qed.

Lemma wrap_i64_range z : in_i64 (wrap_i64 z).
Proof.
  unfold in_i64, wrap_i64. pose proof (Z.mod_pos_bound (z + 2 ^ 63) (2 ^ 64)). lia.
Qed.

Lemma wrap_u64_id z : in_u64 z -> wrap_u64 z = z.
Proof. unfold in_u64, wrap_u64. intros H. apply Z.mod_small. lia. Qed.

Lemma wrap_u32_id z : in_u32 z -> wrap_u32 z = z.
Proof. unfold in_u32, wrap_u32. intros H. apply Z.mod_small. lia. Qed.

Lemma byte_Z_range b : 0 <= byte_Z b < 256.
Proof. unfold byte_Z. pose proof (Byte.to_N_bounded b). lia. Qed.

Lemma Z_byte_Z b : Z_byte (byte_Z b) = b.
Proof.
  unfold Z_byte. pose proof (byte_Z_range b).
  rewrite Z.mod_small by lia. unfold byte_Z. rewrite N2Z.id, Byte.of_to_N. reflexivity.
Qed.

Lemma byte_Z_byte z : byte_Z (Z_byte z) = z mod 256.
Proof.
  unfold Z_byte, byte_Z. pose proof (Z.mod_pos_bound z 256 ltac:(lia)) as Hz.
  destruct (Byte.of_N (Z.to_N (z mod 256))) as [b|] eqn:E.
  - apply Byte.to_of_N in E. rewrite E. lia.
  - apply Byte.of_N_None_iff in E. lia.
Qed.

Lemma len_nonneg {A} (l : list A) : 0 <= len l.
Proof. unfold len. lia. Qed.

Lemma len_app {A} (l k : list A) : len (l ++ k) = len l + len k.
Proof. unfold len. rewrite length_app. lia. Qed.

Lemma len_nil {A} : len (@nil A) = 0.
Proof. reflexivity. Qed.

Lemma len_cons {A} (x : A) l : len (x :: l) = 1 + len l.
Proof. unfold len. cbn [length]. lia. Qed.

(** A list without duplicate names has one element of each name. *)
Lemma NoDup_map_inj {A B} (f : A -> B) l x y :
  NoDup (map f l) -> In x l -> In y l -> f x = f y -> x = y.
Proof.
  induction l as [|z l IH]; [done|]. cbn. intros Hd. apply list.NoDup_cons in Hd as [Hz Hd].
  rewrite list_elem_of_In in Hz.
  intros [->|Hx] [->|Hy] E; [done| | |auto]; destruct Hz.
  - rewrite E. by apply in_map.
  - rewrite <- E. by apply in_map.
Qed.

(** ** Automation *)

Create HintDb pob.
Create Rewrite HintDb pob.
#[export] Hint Resolve wrap_i64_range byte_Z_range len_nonneg : pob.
#[export] Hint Rewrite @len_app @len_nil @len_cons : pob.
#[export] Hint Rewrite Z_byte_Z byte_Z_byte : pob.

(** Split the innermost matches and conditionals of the goal or the hypotheses. *)
Ltac break_match_goal :=
  match goal with
  | |- context [match ?x with _ => _ end] =>
      lazymatch x with
      | context [match _ with _ => _ end] => fail
      | _ => destruct x eqn:?
      end
  end.
Ltac break_match_hyp H :=
  match type of H with
  | context [match ?x with _ => _ end] =>
      lazymatch x with
      | context [match _ with _ => _ end] => fail
      | _ => destruct x eqn:?
      end
  end.
(** Run the monadic code of the goal one layer: binds, state access, recovery. *)
Ltac st_unfold :=
  cbv beta iota delta [mbind mret ST_bind ST_ret st_get st_put st_gets st_modify st_panic st_lift
    recover outcome_bind outcome_ret result_bind result_ret].
Tactic Notation "st_unfold" "in" hyp(H) :=
  cbv beta iota delta [mbind mret ST_bind ST_ret st_get st_put st_gets st_modify st_panic st_lift
    recover outcome_bind outcome_ret result_bind result_ret] in H.
(** Evaluate the result of a run whose final state is [snd] of the run. *)
Ltac eval_run :=
  lazymatch goal with
  | |- ?x = (?r, _) =>
      etransitivity; [apply (surjective_pairing x)|];
      apply (f_equal (fun a => (a, snd x))); vm_compute; reflexivity
  end.
Ltac break_match := break_match_goal.
Ltac pob_simpl := cbn in *; autorewrite with pob in *; simplify_eq/=.
Ltac pob := repeat (pob_simpl || break_match); eauto with pob; try lia.
