(* ===== verification/Hash.v ===== *)
(** * The parts of Go's standard library the code computes with

    [crypto/sha256] (FIPS 180-4) and [encoding/hex], as executable functions on bytes, and
    [strings.Join]/[strings.Split].  The transaction hash string used as a cache key by the
    proposal (blockbuster/proposals.go), the lane mempools (blockbuster/lane_mempool.go) and
    the auction event (x/builder/keeper/msg_server.go) is [hex_EncodeToString (Sum256 tx)]. *)
From S2P Require Import Prelude.

(** ** SHA-256 *)

Section Sha256.
#[local] Notation "a ⊕ b" := (Z.lxor a b) (at level 45, left associativity).
#[local] Notation "a & b" := (Z.land a b) (at level 44, left associativity).

(** The constants are the first 32 bits of the fractional parts of roots of primes: the
    square roots of the first 8 primes, the cube roots of the first 64 (FIPS 180-4, 4.2.2 and
    5.3.3).  They are computed once, here. *)
Definition first_primes (n bound : nat) : list Z :=
  take n (filter (fun p => forallb (fun d => negb (p mod d =? 0)) (map Z.of_nat (seq 2 (Z.to_nat p - 2))))
            (map Z.of_nat (seq 2 bound))).

(** The largest [r + x] with [x < 2 ^ bits] and [(r + x) ^ k <= n], from the highest bit down. *)
Fixpoint int_root (bits : nat) (k n r : Z) : Z :=
  match bits with
  | O => r
  | S bits =>
      let r' := r + 2 ^ Z.of_nat bits in
      int_root bits k n (if r' ^ k <=? n then r' else r)
  end.
Definition root_fraction (k p : Z) : Z := int_root 40 k (p * 2 ^ (32 * k)) 0 mod 2 ^ 32.

Definition sha_K : list Z := Eval vm_compute in map (root_fraction 3) (first_primes 64 320).
Definition sha_H0 : list Z := Eval vm_compute in map (root_fraction 2) (first_primes 8 32).

Definition rotr32 (n x : Z) : Z := Z.lor (Z.shiftr x n) (wrap_u32 (Z.shiftl x (32 - n))).
Definition big_sigma0 (x : Z) : Z := rotr32 2 x ⊕ rotr32 13 x ⊕ rotr32 22 x.
Definition big_sigma1 (x : Z) : Z := rotr32 6 x ⊕ rotr32 11 x ⊕ rotr32 25 x.
Definition small_sigma0 (x : Z) : Z := rotr32 7 x ⊕ rotr32 18 x ⊕ Z.shiftr x 3.
Definition small_sigma1 (x : Z) : Z := rotr32 17 x ⊕ rotr32 19 x ⊕ Z.shiftr x 10.
Definition sha_ch (x y z : Z) : Z := (x & y) ⊕ ((0xffffffff ⊕ x) & z).
Definition sha_maj (x y z : Z) : Z := (x & y) ⊕ (x & z) ⊕ (y & z).

(** Big-endian bytes of a word and back. *)
Fixpoint be_bytes (n : nat) (z : Z) : bytes :=
  match n with
  | O => []
  | S m => Z_byte (Z.shiftr z (8 * Z.of_nat m)) :: be_bytes m z
  end.
Definition be_word (l : bytes) : Z := fold_left (fun acc b => acc * 256 + byte_Z b) l 0.

(** The message, a 1 bit, zeros, and the bit length in 64 bits: a multiple of 64 bytes. *)
Definition sha_pad (m : bytes) : bytes :=
  m ++ [x80] ++ repeat x00 (Z.to_nat ((55 - len m) mod 64)) ++ be_bytes 8 (8 * len m).

Fixpoint chunks {A} (fuel n : nat) (l : list A) : list (list A) :=
  match fuel, l with
  | O, _ | _, [] => []
  | S fuel, _ => take n l :: chunks fuel n (drop n l)
  end.

(** The schedule is kept reversed: the word [t - k] is at index [k - 1]. *)
Fixpoint sha_extend (k : nat) (w : list Z) : list Z :=
  match k with
  | O => w
  | S k =>
      let wt := wrap_u32 (small_sigma1 (nth 1 w 0) + nth 6 w 0
                          + small_sigma0 (nth 14 w 0) + nth 15 w 0) in
      sha_extend k (wt :: w)
  end.
Definition sha_schedule (block : bytes) : list Z :=
  rev (sha_extend 48 (rev (map be_word (chunks 16 4 block)))).

Definition sha_round (st : list Z) (kw : Z * Z) : list Z :=
  match st with
  | [a; b; c; d; e; f; g; h] =>
      let t1 := h + big_sigma1 e + sha_ch e f g + fst kw + snd kw in
      let t2 := big_sigma0 a + sha_maj a b c in
      [wrap_u32 (t1 + t2); a; b; c; wrap_u32 (d + t1); e; f; g]
  | _ => st
  end.
Definition sha_compress (h : list Z) (block : bytes) : list Z :=
  zip_with (fun x y => wrap_u32 (x + y)) h
           (fold_left sha_round (zip sha_K (sha_schedule block)) h).

(** [sha256.Sum256]. *)
Definition Sum256 (m : bytes) : bytes :=
  let p := sha_pad m in
  concat (map (be_bytes 4)
    (fold_left sha_compress (chunks (length p) 64 p) sha_H0)).
End Sha256.

(** ** encoding/hex *)

Definition hex_digit (z : Z) : ascii :=
  ascii_of_N (Z.to_N (if z <? 10 then 48 + z else 87 + z)).

Fixpoint hex_EncodeToString (l : bytes) : string :=
  match l with
  | [] => EmptyString
  | b :: l => String (hex_digit (byte_Z b / 16))
                (String (hex_digit (byte_Z b mod 16)) (hex_EncodeToString l))
  end.

Definition hex_value (a : ascii) : option Z :=
  let c := Z.of_N (N_of_ascii a) in
  if (48 <=? c) && (c <=? 57) then Some (c - 48)
  else if (97 <=? c) && (c <=? 102) then Some (c - 87)
  else if (65 <=? c) && (c <=? 70) then Some (c - 55)
  else None.

(** [hex.DecodeString]: an invalid digit or an odd length is an error. *)
Fixpoint hex_DecodeString (s : string) : result bytes :=
  match s with
  | EmptyString => Ok []
  | String a EmptyString =>
      match hex_value a with
      | Some _ => Err (Errorf "encoding/hex: odd length hex string")
      | None => Err (Errorf "encoding/hex: invalid byte")
      end
  | String a (String b s) =>
      match hex_value a, hex_value b with
      | Some x, Some y => rest ← hex_DecodeString s; Ok (Z_byte (16 * x + y) :: rest)
      | _, _ => Err (Errorf "encoding/hex: invalid byte")
      end
  end.

(** ** strings *)

(** [strings.Join]. *)
Definition strings_Join (elems : list string) (sep : string) : string :=
  String.concat sep elems.

(** [strings.Split] for a separator of one character. *)
Fixpoint strings_Split (s : string) (sep : ascii) : list string :=
  match s with
  | EmptyString => [EmptyString]
  | String a s =>
      if bool_decide (a = sep) then EmptyString :: strings_Split s sep
      else match strings_Split s sep with
           | [] => [String a EmptyString]
           | x :: xs => String a x :: xs
           end
  end.

(** The hash string of transaction bytes. *)
Definition tx_hash (tx : bytes) : string := hex_EncodeToString (Sum256 tx).

(** ** Facts *)

Fixpoint string_bytes (s : string) : bytes :=
  match s with
  | EmptyString => []
  | String a s => byte_of_ascii a :: string_bytes s
  end.

Fixpoint bytes_string (l : bytes) : string :=
  match l with
  | [] => EmptyString
  | b :: l => String (ascii_of_byte b) (bytes_string l)
  end.

Lemma string_bytes_string s : bytes_string (string_bytes s) = s.
Proof. induction s as [|a s IH]; cbn; [done|]. by rewrite ascii_of_byte_of_ascii, IH. Qed.

Lemma bytes_string_bytes l : string_bytes (bytes_string l) = l.
Proof. induction l as [|b l IH]; cbn; [done|]. by rewrite byte_of_ascii_of_byte, IH. Qed.

Example Sum256_abc :
  tx_hash (string_bytes "abc") =
  "ba7816bf8f01cfea414140de5dae2223b00361a396177a9cb410ff61f20015ad"%string.
Proof. vm_compute. reflexivity. Qed.

Example Sum256_two_blocks :
  tx_hash (string_bytes "abcdbcdecdefdefgefghfghighijhijkijkljklmklmnlmnomnopnopq") =
  "248d6a61d20638b8e5c026930c3e6039a33ce45964ff2167f6ecedd419db06c1"%string.
Proof. vm_compute. reflexivity. Qed.

Lemma hex_value_digit z : 0 <= z < 16 -> hex_value (hex_digit z) = Some z.
Proof.
  intros H. assert (Hz : In z (map Z.of_nat (seq 0 16))).
  { apply in_map_iff. exists (Z.to_nat z). rewrite in_seq. lia. }
  cbn in Hz. repeat (destruct Hz as [<-|Hz]; [reflexivity|]). destruct Hz.
Qed.

Lemma hex_decode_encode l : hex_DecodeString (hex_EncodeToString l) = Ok l.
Proof.
  induction l as [|b l IH]; [reflexivity|]. cbn.
  pose proof (byte_Z_range b).
  rewrite !hex_value_digit by (split; [apply Z.div_pos || apply Z.mod_pos_bound | ]; lia ||
    (apply Z.div_lt_upper_bound; lia) || (apply Z.mod_pos_bound; lia)).
  rewrite IH. cbn. do 2 f_equal.
  rewrite <- (Z_byte_Z b) at 3. f_equal. pose proof (Z.div_mod (byte_Z b) 16). lia.
Qed.

Lemma hex_encode_inj l1 l2 : hex_EncodeToString l1 = hex_EncodeToString l2 -> l1 = l2.
Proof.
  intros H. apply (f_equal hex_DecodeString) in H. rewrite !hex_decode_encode in H.
  congruence.
Qed.

(** Two transactions have the same hash string exactly when SHA-256 collides on them. *)
Lemma tx_hash_eq t1 t2 : tx_hash t1 = tx_hash t2 <-> Sum256 t1 = Sum256 t2.
Proof. unfold tx_hash. split; [apply hex_encode_inj | congruence]. Qed.

Lemma be_bytes_length n z : length (be_bytes n z) = n.
Proof. induction n; cbn; auto. Qed.

(** Reading a word back gives it modulo its width. *)
Lemma be_word_app l k : be_word (l ++ k) = fold_left (fun acc b => acc * 256 + byte_Z b) k (be_word l).
Proof. apply fold_left_app. Qed.

Lemma be_word_shift l a :
  fold_left (fun acc b => acc * 256 + byte_Z b) l a = a * 256 ^ Z.of_nat (length l) + be_word l.
Proof.
  revert a. induction l as [|b l IH]; intros a; cbn [fold_left length]; [cbn; lia|].
  unfold be_word. cbn [fold_left]. rewrite !IH.
  rewrite Nat2Z.inj_succ, Z.pow_succ_r by lia. lia.
Qed.

Lemma be_word_bytes n z : be_word (be_bytes n z) = z mod 256 ^ Z.of_nat n.
Proof.
  induction n as [|n IH]; cbn [be_bytes]; [cbn; by rewrite Z.mod_1_r|].
  unfold be_word. cbn [fold_left]. rewrite be_word_shift, IH, be_bytes_length, byte_Z_byte.
  rewrite Z.shiftr_div_pow2, Nat2Z.inj_succ, Z.pow_succ_r by lia.
  replace (2 ^ (8 * Z.of_nat n)) with (256 ^ Z.of_nat n) by (rewrite Z.pow_mul_r by lia; done).
  rewrite (Z.mul_comm 256), Z.rem_mul_r by lia. lia.
Qed.
