(* ===== verification/Sdk.v ===== *)
(** * The third-party code as parameters: Cosmos SDK, cosmossdk.io/math, huandu/skiplist

    The class [Sdk] collects the types and operations of the Cosmos SDK that the code calls;
    nothing under src/ defines them, so every definition of the development takes them as an
    argument.  What the code relies on is stated by the law classes below ([DecLaws],
    [CoinLaws], [CoinsLaws], [DecCoinLaws], [BankLaws], [AddressLaws], [StoreLaws]); a theorem names the
    law classes it uses.  [SkipListLib] and [SkipListLaws] do the same for
    github.com/huandu/skiplist.  The file also declares the plain data that crosses these
    interfaces: coins, signatures, messages, bid information and the execution context. *)
From S2P Require Import Prelude.
From Stdlib Require Import Sorting.Sorted.

(** ** Plain data *)

(** [sdk.Coin]: a denomination and a [math.Int], which is nil or an integer. *)
Record Coin : Type := MkCoin { Denom : string; Amount : option Z }.
#[global] Instance coin_eq_dec : EqDecision Coin.
Proof. solve_decision. Defined.

(** [sdk.Coins] is a slice of coins, nil or not. *)
Abbreviation Coins := (option (list Coin)).
Definition coins_list (cs : Coins) : list Coin := default [] cs.

(** What the mempool reads of a [signing.SignatureV2]. *)
Record SignatureV2 : Type := MkSig { PubKey_Address : bytes; Sequence : Z }.
#[global] Instance signature_eq_dec : EqDecision SignatureV2.
Proof. solve_decision. Defined.

(** [types.MsgAuctionBid] of x/builder/types/tx.pb.go. *)
Record MsgAuctionBid : Type := MkMsgAuctionBid {
  msg_Bidder : string;
  msg_Bid : Coin;
  msg_Transactions : list bytes }.
#[global] Instance auction_bid_eq_dec : EqDecision MsgAuctionBid.
Proof. solve_decision. Defined.

(** The message types the code distinguishes with a type switch; every other [sdk.Msg] is
    an [OtherMsg]. *)
Inductive Msg : Type :=
| AuctionBidMsg (m : MsgAuctionBid)
| MsgDelegate
| MsgBeginRedelegate
| MsgCancelUnbondingDelegation
| OtherMsg (type_url : string).
#[global] Instance msg_eq_dec : EqDecision Msg.
Proof. solve_decision. Defined.

(** [types.BidInfo] of x/builder/types/bid_info.go. *)
Record BidInfo : Type := MkBidInfo {
  Bidder : bytes;
  Bid : Coin;
  Transactions : list bytes;
  Timeout : Z;
  Signers : list (gset string) }.

(** The values of an [sdk.Context] the code reads; the multi-store behind it is the mutable
    [Store] below. *)
Record Context : Type := MkContext {
  ctx_BlockHeight : Z;
  ctx_IsCheckTx : bool;
  ctx_IsReCheckTx : bool;
  ctx_Priority : Z;
  ctx_TxBytes : bytes;
  ctx_GasLimit : Z;
  ctx_GasConsumed : Z }.

(** ** The Cosmos SDK *)

Class Sdk : Type := {
  (** [sdk.Tx] and the interfaces a transaction may implement ([None]: it does not). *)
  Tx : Type;
  GetMsgs : Tx -> list Msg;
  GetSignaturesV2 : Tx -> option (result (list SignatureV2));
  GetSigners : Tx -> option (result (list bytes));
  GetTimeoutHeight : Tx -> option Z;
  GetFee : Tx -> option Coins;

  (** Addresses: [sdk.AccAddress.String], [sdk.AccAddressFromBech32]. *)
  AccAddress_String : bytes -> string;
  AccAddressFromBech32 : string -> result bytes;

  (** [math.LegacyDec] and [math.Int.Int64]. *)
  Dec : Type;
  Dec_IsNil : Dec -> bool;
  Dec_IsNegative : Dec -> bool;
  Dec_IsZero : Dec -> bool;
  Dec_GT : Dec -> Dec -> bool;
  Dec_LT : Dec -> Dec -> bool;
  Dec_Add : Dec -> Dec -> Dec;
  Dec_MulInt64 : Dec -> Z -> Dec;
  Dec_TruncateInt : Dec -> Z;
  LegacyZeroDec : Dec;
  LegacyOneDec : Dec;
  Int_Int64 : Z -> outcome Z;

  (** [sdk.Coin] and [sdk.Coins]. *)
  Coin_IsNil : Coin -> bool;
  Coin_IsGTE : Coin -> Coin -> outcome bool;
  Coin_IsLTE : Coin -> Coin -> outcome bool;
  Coin_Add : Coin -> Coin -> outcome Coin;
  Coin_Validate : Coin -> option error;
  Coin_String : Coin -> string;
  NewCoin : string -> Z -> outcome Coin;
  NewCoins : list Coin -> outcome Coins;
  Coins_String : Coins -> string;
  ParseCoinsNormalized : string -> Coins * option error;
  Coins_IsAllGT : Coins -> Coins -> bool;
  Coins_IsAllLT : Coins -> Coins -> bool;

  (** [sdk.DecCoins]. *)
  DecCoins : Type;
  NewDecCoinsFromCoins : list Coin -> outcome DecCoins;
  DecCoins_MulDecTruncate : DecCoins -> Dec -> DecCoins;
  DecCoins_TruncateDecimal : DecCoins -> Coins * DecCoins;
  DecCoins_Sub : DecCoins -> DecCoins -> outcome DecCoins;

  (** The chain state: the builder module's KV store, the bank, distribution and staking
      keepers. *)
  Store : Type;
  kv_Get : Store -> bytes -> bytes;
  kv_Set : bytes -> bytes -> Store -> Store;
  bank_SendCoins : bytes -> bytes -> Coins -> ST Store (option error);
  bank_GetBalance : Store -> bytes -> string -> Coin;
  GetPreviousProposerConsAddr : Store -> result bytes;
  GetValidatorByConsAddr : Store -> bytes -> result bytes
}.

(** [sdk.TxEncoder], [sdk.TxDecoder]. *)
Definition TxEncoder `{Sdk} : Type := Tx -> result bytes.
Definition TxDecoder `{Sdk} : Type := bytes -> result Tx.

(** ** What the code relies on *)

(** The denominator of [math.LegacyDec]: 18 decimal places. *)
Definition dec_one : Z := 10 ^ 18.

Class DecLaws `(S : Sdk) : Type := {
  (** The scaled integer of a decimal, or [None] for the nil decimal. *)
  dec_val : Dec -> option Z;
  dec_isnil d : Dec_IsNil d = bool_decide (dec_val d = None);
  dec_isneg d v : dec_val d = Some v -> Dec_IsNegative d = (v <? 0);
  dec_iszero d v : dec_val d = Some v -> Dec_IsZero d = (v =? 0);
  dec_gt d e v w : dec_val d = Some v -> dec_val e = Some w -> Dec_GT d e = (w <? v);
  dec_lt d e v w : dec_val d = Some v -> dec_val e = Some w -> Dec_LT d e = (v <? w);
  dec_add d e v w : dec_val d = Some v -> dec_val e = Some w ->
    Z.abs (v + w) < 2 ^ 256 -> dec_val (Dec_Add d e) = Some (v + w);
  dec_mul_int64 d v n : dec_val d = Some v -> in_i64 n ->
    Z.abs (v * n) < 2 ^ 256 -> dec_val (Dec_MulInt64 d n) = Some (v * n);
  dec_truncate d v : dec_val d = Some v -> Dec_TruncateInt d = Z.quot v dec_one;
  dec_zero : dec_val LegacyZeroDec = Some 0;
  dec_one_val : dec_val LegacyOneDec = Some dec_one;
  int_int64 z : in_i64 z -> Int_Int64 z = Ret z
}.

(** Coins of one denomination compare and add by amount; comparing or adding coins of two
    denominations panics. *)
Class CoinLaws `(S : Sdk) : Prop := {
  coin_isnil c : Coin_IsNil c = bool_decide (Amount c = None);
  coin_gte d a b : Coin_IsGTE (MkCoin d (Some a)) (MkCoin d (Some b)) = Ret (b <=? a);
  coin_lte d a b : Coin_IsLTE (MkCoin d (Some a)) (MkCoin d (Some b)) = Ret (a <=? b);
  coin_add d a b : Z.abs (a + b) < 2 ^ 256 ->
    Coin_Add (MkCoin d (Some a)) (MkCoin d (Some b)) = Ret (MkCoin d (Some (a + b)));
  coin_add_mismatch c1 c2 : Denom c1 <> Denom c2 -> exists w, Coin_Add c1 c2 = Panic w;
  coin_validate c : Coin_Validate c = None ->
    exists a, Amount c = Some a /\ 0 <= a < 2 ^ 256;
  coin_validate_denom d a b : Coin_Validate (MkCoin d (Some a)) = None -> 0 <= b < 2 ^ 256 ->
    Coin_Validate (MkCoin d (Some b)) = None;
  coin_new d a : 0 <= a < 2 ^ 256 -> Coin_Validate (MkCoin d (Some a)) = None ->
    NewCoin d a = Ret (MkCoin d (Some a))
}.

(** A set of one coin is all greater than another one when the denominations agree and its
    amount is larger; the empty string parses to no coins. *)
Class CoinsLaws `(S : Sdk) : Prop := {
  coins_all_gt d e a b : 0 <= a -> 0 <= b ->
    Coins_IsAllGT (Some [MkCoin d (Some a)]) (Some [MkCoin e (Some b)]) = bool_decide (d = e) && (b <? a);
  coins_all_lt d e a b : 0 <= a -> 0 <= b ->
    Coins_IsAllLT (Some [MkCoin d (Some a)]) (Some [MkCoin e (Some b)]) = bool_decide (d = e) && (a <? b);
  coins_parse_empty : fst (ParseCoinsNormalized "") = None
}.

(** [DecCoins] hold one decimal per denomination.  [MulDecTruncate] truncates each product,
    [TruncateDecimal] keeps the integer parts, [Sub] panics on a negative result. *)
Class DecCoinLaws `(S : Sdk) {DL : DecLaws S} : Type := {
  (** The amount of a denomination in a set of coins, and the scaled amount in a set of
      decimal coins. *)
  amount_of : Coins -> string -> Z;
  dec_amount_of : DecCoins -> string -> Z;
  (** [Coins.IsValid]: sorted, without duplicates, positive. *)
  coins_valid : Coins -> Prop;
  new_coins_spec c a : Amount c = Some a -> 0 <= a -> Coin_Validate c = None ->
    exists cs, NewCoins [c] = Ret cs /\ coins_valid cs /\
      forall d, amount_of cs d = if decide (d = Denom c) then a else 0;
  dec_from_coin c a : Amount c = Some a -> Coin_Validate c = None ->
    exists ds, NewDecCoinsFromCoins [c] = Ret ds /\
      forall d, dec_amount_of ds d = if decide (d = Denom c) then a * dec_one else 0;
  mul_dec_truncate ds f v d : dec_val f = Some v -> 0 <= v <= dec_one ->
    (forall d, 0 <= dec_amount_of ds d) ->
    dec_amount_of (DecCoins_MulDecTruncate ds f) d = dec_amount_of ds d * v / dec_one;
  truncate_decimal ds d : (forall d, 0 <= dec_amount_of ds d) ->
    amount_of (fst (DecCoins_TruncateDecimal ds)) d = dec_amount_of ds d / dec_one;
  (** The coins [TruncateDecimal] returns are a valid set, so they convert back. *)
  truncate_valid ds : (forall d, 0 <= dec_amount_of ds d) -> coins_valid (fst (DecCoins_TruncateDecimal ds));
  dec_from_truncated ds : (forall d, 0 <= dec_amount_of ds d) ->
    exists es, NewDecCoinsFromCoins (coins_list (fst (DecCoins_TruncateDecimal ds))) = Ret es /\
      forall d, dec_amount_of es d
                = amount_of (fst (DecCoins_TruncateDecimal ds)) d * dec_one;
  dec_sub ds es : (forall d, 0 <= dec_amount_of es d <= dec_amount_of ds d) ->
    exists rs, DecCoins_Sub ds es = Ret rs /\
      forall d, dec_amount_of rs d = dec_amount_of ds d - dec_amount_of es d
}.

(** The bank.  The balance read back is the ledger's; what an account can spend is its balance less the
    coins that are locked, those of a vesting account for example.  [SendCoins] of a valid set of coins
    succeeds when the sender can spend them, and not when it can spend less.  A success moves the coins,
    the locked ones staying locked; neither a success nor a failure touches the builder's KV store. *)
Class BankLaws `(S : Sdk) {DL : DecLaws S} {CL : DecCoinLaws S} : Type := {
  balance : Store -> bytes -> string -> Z;
  spendable : Store -> bytes -> string -> Z;
  bank_balance s a d : bank_GetBalance s a d = MkCoin d (Some (balance s a d));
  bank_spendable s a d : 0 <= spendable s a d;
  bank_send_ok from to cs s s' :
    bank_SendCoins from to cs s = (Ret None, s') ->
    forall a d, balance s' a d =
      balance s a d - (if decide (a = from) then amount_of cs d else 0)
                    + (if decide (a = to) then amount_of cs d else 0);
  bank_send_enough from to cs s : coins_valid cs ->
    (forall d, 0 <= amount_of cs d <= spendable s from d) ->
    exists s', bank_SendCoins from to cs s = (Ret None, s');
  bank_send_locked from to cs s d : coins_valid cs -> spendable s from d < amount_of cs d ->
    exists err s', bank_SendCoins from to cs s = (Ret (Some err), s');
  bank_send_spendable from to cs s s' :
    bank_SendCoins from to cs s = (Ret None, s') ->
    forall a d, spendable s a d - (if decide (a = from) then amount_of cs d else 0) <= spendable s' a d;
  bank_send_spent from to cs s s' d : from <> to ->
    bank_SendCoins from to cs s = (Ret None, s') ->
    spendable s' from d = spendable s from d - amount_of cs d;
  bank_send_frame from to cs s r s' k :
    bank_SendCoins from to cs s = (r, s') -> kv_Get s' k = kv_Get s k
}.

Class StoreLaws `(S : Sdk) : Prop := {
  kv_get_set s k v : kv_Get (kv_Set k v s) k = v;
  kv_get_set_ne s k k' v : k <> k' -> kv_Get (kv_Set k v s) k' = kv_Get s k'
}.

(** Addresses print to Bech32 strings that parse back to them. *)
Class AddressLaws `(S : Sdk) : Prop := {
  address_roundtrip a : a <> [] -> AccAddressFromBech32 (AccAddress_String a) = Ok a
}.

(** ** The protobuf methods of [sdk.Coin] and [math.LegacyDec]

    [MarshalToSizedBuffer] writes at the end of the slice it is given and returns the number of
    bytes, [MarshalTo] at its start; [Unmarshal] merges into the value it is called on. *)
Class WireLib `{Sdk} : Type := {
  Coin_Size : Coin -> Z;
  Coin_MarshalToSizedBuffer : Coin -> ST bytes (result Z);
  Coin_Unmarshal : bytes -> Coin -> result Coin;
  Dec_Size : Dec -> Z;
  Dec_MarshalTo : Dec -> ST bytes (result Z);
  Dec_Unmarshal : bytes -> Dec -> result Dec;
  (** The zero value of [math.LegacyDec]. *)
  Dec_zero_value : Dec
}.

(** The zero value of [sdk.Coin]. *)
Definition Coin_zero_value : Coin := {| Denom := ""; Amount := None |}.

(** A coin with an amount, and a decimal that is not nil, survive encoding. *)
Class WireLaws `{S : Sdk} {DL : DecLaws S} (W : WireLib) : Type := {
  coin_bytes : Coin -> bytes;
  dec_bytes : Dec -> bytes;
  coin_size c : Coin_Size c = len (coin_bytes c);
  dec_size d : Dec_Size d = len (dec_bytes d);
  coin_marshal c a : Amount c = Some a -> Z.abs a < 2 ^ 256 ->
    forall pre slot, length slot = length (coin_bytes c) ->
    Coin_MarshalToSizedBuffer c (pre ++ slot) = (Ret (Ok (len (coin_bytes c))), pre ++ coin_bytes c);
  coin_unmarshal c a : Amount c = Some a -> Z.abs a < 2 ^ 256 ->
    Coin_Unmarshal (coin_bytes c) Coin_zero_value = Ok c;
  dec_marshal d v : dec_val d = Some v -> Z.abs v < 2 ^ 256 ->
    forall slot rest, length slot = length (dec_bytes d) ->
    Dec_MarshalTo d (slot ++ rest) = (Ret (Ok (len (dec_bytes d))), dec_bytes d ++ rest);
  dec_unmarshal d v : dec_val d = Some v -> Z.abs v < 2 ^ 256 ->
    Dec_Unmarshal (dec_bytes d) Dec_zero_value = Ok d
}.

(** ** github.com/huandu/skiplist *)

(** An element: the pointer the library returns for it, its key and its value. *)
Record Element (K V : Type) : Type := MkElement { e_id : nat; e_key : K; e_value : V }.
Arguments MkElement {K V}. Arguments e_id {K V}. Arguments e_key {K V}. Arguments e_value {K V}.

(** A list is created with a comparable; [sl_elements] is the sequence of elements from
    [Front()] along [Next()]. *)
Class SkipListLib : Type := {
  SkipList : Type -> Type -> Type;
  LessThanFunc : forall {K : Type}, (K -> K -> Z) -> (K -> K -> Z);
  skiplist_Int64_Compare : Z -> Z -> Z;
  skiplist_Uint64_Compare : Z -> Z -> Z;
  skiplist_String_Compare : string -> string -> Z;
  sl_New : forall {K V : Type}, (K -> K -> Z) -> SkipList K V;
  sl_Len : forall {K V : Type}, SkipList K V -> Z;
  sl_elements : forall {K V : Type}, SkipList K V -> list (Element K V);
  sl_Get : forall {K V : Type}, SkipList K V -> K -> option (Element K V);
  sl_Set : forall {K V : Type}, SkipList K V -> K -> V -> SkipList K V * Element K V;
  sl_Remove : forall {K V : Type}, SkipList K V -> K -> SkipList K V
}.

(** [Front()] of a list. *)
Definition sl_Front `{SkipListLib} {K V} (l : SkipList K V) : option (Element K V) :=
  head (sl_elements l).

(** A comparison function is a total preorder: swapping the arguments flips the sign, and
    [<=] is transitive. *)
Record CmpOrder {K} (cmp : K -> K -> Z) : Prop := {
  cmp_flip a b : Z.sgn (cmp a b) = - Z.sgn (cmp b a);
  cmp_trans a b c : cmp a b <= 0 -> cmp b c <= 0 -> cmp a c <= 0
}.

(** A new element goes before the first element whose key is larger. *)
Fixpoint ref_insert {K V} (cmp : K -> K -> Z) (x : Element K V) (l : list (Element K V))
  : list (Element K V) :=
  match l with
  | [] => [x]
  | y :: l' => if cmp (e_key x) (e_key y) <? 0 then x :: l else y :: ref_insert cmp x l'
  end.

Definition ref_find {K V} (cmp : K -> K -> Z) (k : K) (l : list (Element K V))
  : option (Element K V) :=
  List.find (fun x => cmp k (e_key x) =? 0) l.

Definition ref_update {K V} (x : Element K V) (l : list (Element K V)) : list (Element K V) :=
  map (fun y => if Nat.eqb (e_id y) (e_id x) then x else y) l.

Definition ref_remove {K V} (cmp : K -> K -> Z) (k : K) (l : list (Element K V))
  : list (Element K V) :=
  List.filter (fun x => negb (cmp k (e_key x) =? 0)) l.

(** Strictly sorted elements. *)
Definition elem_lt {K V} (cmp : K -> K -> Z) (x y : Element K V) : Prop :=
  cmp (e_key x) (e_key y) < 0.
Definition strict_sorted {K V} (cmp : K -> K -> Z) (l : list (Element K V)) : Prop :=
  StronglySorted (elem_lt cmp) l.

(** A list is in the order [c], and its comparable [cmp] agrees with [c] on the keys of its
    elements and on the key at hand. *)
Record sorted_by {K V} (c cmp : K -> K -> Z) (k : K) (l : list (Element K V)) : Prop := {
  by_order : CmpOrder c;
  by_agrees a b : In a (k :: map e_key l) -> In b (k :: map e_key l) -> cmp a b = c a b;
  by_sorted : strict_sorted c l }.

(** The documented behaviour of the library, for lists in the order of their comparable:
    [Set] inserts a new element in order or updates the value of the element with an equal key
    and returns it, [Remove] unlinks that element, [Get] finds it.  The comparable only has to
    order the keys in play.  Whether the update also replaces the stored key is left to the
    library ([sl_rekey]).  Whatever the comparable, an element only gets a value by a [Set]. *)
Class SkipListLaws `(L : SkipListLib) : Type := {
  sl_cmp : forall {K V : Type}, SkipList K V -> K -> K -> Z;
  sl_rekey : forall {K : Type}, K -> K -> K;
  sl_rekey_spec K (old new : K) : sl_rekey old new = old \/ sl_rekey old new = new;
  less_than_func K (f : K -> K -> Z) a b : LessThanFunc f a b = - f a b;
  int64_compare a b : skiplist_Int64_Compare a b = Z.sgn (a - b);
  uint64_compare a b : skiplist_Uint64_Compare a b = Z.sgn (a - b);
  string_compare_order : CmpOrder skiplist_String_Compare;
  string_compare_eq a b : skiplist_String_Compare a b = 0 <-> a = b;
  sl_cmp_new K V c : sl_cmp (@sl_New _ K V c) = c;
  sl_cmp_set K V (l : SkipList K V) k v : sl_cmp (fst (sl_Set l k v)) = sl_cmp l;
  sl_cmp_remove K V (l : SkipList K V) k : sl_cmp (sl_Remove l k) = sl_cmp l;
  sl_elements_new K V c : sl_elements (@sl_New _ K V c) = [];
  sl_len K V (l : SkipList K V) : sl_Len l = len (sl_elements l);
  sl_get K V (l : SkipList K V) c k : sorted_by c (sl_cmp l) k (sl_elements l) ->
    sl_Get l k = ref_find c k (sl_elements l);
  sl_set_new K V (l : SkipList K V) c k v : sorted_by c (sl_cmp l) k (sl_elements l) ->
    ref_find c k (sl_elements l) = None ->
    exists id, ~ In id (map e_id (sl_elements l)) /\
      snd (sl_Set l k v) = MkElement id k v /\
      sl_elements (fst (sl_Set l k v)) = ref_insert c (MkElement id k v) (sl_elements l);
  sl_set_old K V (l : SkipList K V) c k v e : sorted_by c (sl_cmp l) k (sl_elements l) ->
    ref_find c k (sl_elements l) = Some e ->
    let x := MkElement (e_id e) (sl_rekey (e_key e) k) v in
    snd (sl_Set l k v) = x /\ sl_elements (fst (sl_Set l k v)) = ref_update x (sl_elements l);
  sl_remove K V (l : SkipList K V) c k : sorted_by c (sl_cmp l) k (sl_elements l) ->
    sl_elements (sl_Remove l k) = ref_remove c k (sl_elements l);
  sl_set_values K V (l : SkipList K V) k v x :
    In x (map e_value (sl_elements (fst (sl_Set l k v)))) ->
    x = v \/ In x (map e_value (sl_elements l));
  sl_remove_values K V (l : SkipList K V) k x :
    In x (map e_value (sl_elements (sl_Remove l k))) -> In x (map e_value (sl_elements l))
}.
