(* ===== verification/Proposals.v ===== *)
(** * blockbuster/proposals.go and blockbuster/utils/utils.go

    The block proposal under construction ([Proposal]) and the helpers of the utils package.
    A proposal is one shared mutable object; its methods are state-passing functions. *)
From S2P Require Import Prelude Hash Sdk.

(** ** utils.go *)

Section Utils.
Context `{sdk : Sdk}.

Definition GetTxHashStr (txEncoder : TxEncoder) (tx : Tx) : result (bytes * string) :=
  match txEncoder tx with
  | Err err => Err (Wrap "failed to encode transaction" err)
  | Ok txBz =>
      let txHash := Sum256 txBz in
      let txHashStr := hex_EncodeToString txHash in
      Ok (txBz, txHashStr)
  end.

Fixpoint GetDecodedTxs (txDecoder : TxDecoder) (txs : list bytes) : result (list Tx) :=
  match txs with
  | [] => Ok []
  | txBz :: txs =>
      match txDecoder txBz with
      | Err err => Err (Wrap "failed to decode transaction" err)
      | Ok tx => decodedTxs ← GetDecodedTxs txDecoder txs; Ok (tx :: decodedTxs)
      end
  end.

(** [mempool.Remove] of the lane's mempool acts on the state [M]; the first error stops. *)
Fixpoint RemoveTxsFromLane {M} (Remove : Tx -> ST M (option error)) (txs : list Tx)
  : ST M (option error) :=
  match txs with
  | [] => mret None
  | tx :: txs =>
      err ← Remove tx;
      match err with
      | Some err => mret (Some err)
      | None => RemoveTxsFromLane Remove txs
      end
  end.

Definition GetMaxTxBytesForLane (maxTxBytes totalTxBytes : Z) (ratio : Dec) : outcome Z :=
  if Dec_IsZero ratio then
    let remainder := wrap_i64 (maxTxBytes - totalTxBytes) in
    if remainder <? 0 then Ret 0 else Ret remainder
  else Int_Int64 (Dec_TruncateInt (Dec_MulInt64 ratio maxTxBytes)).
End Utils.

(** ** proposals.go *)

(** The part of a lane a proposal reads. *)
Record LaneProposal `{sdk : Sdk} : Type := MkLaneProposal {
  lp_Name : string;
  lp_GetMaxBlockSpace : Dec }.

Record Proposal : Type := MkProposal {
  txs : list bytes;
  voteExtensions : list bytes;
  cache : gset string;
  totalTxBytes : Z;
  maxTxBytes : Z }.

Definition NewProposal (maxTxBytes : Z) : Proposal :=
  {| txs := []; voteExtensions := []; cache := ∅; totalTxBytes := 0;
     maxTxBytes := maxTxBytes |}.

Definition GetMaxTxBytes (p : Proposal) : Z := maxTxBytes p.
Definition GetTotalTxBytes (p : Proposal) : Z := totalTxBytes p.
Definition GetTxs (p : Proposal) : list bytes := txs p.
Definition GetNumTxs (p : Proposal) : Z := len (txs p).
Definition GetVoteExtensions (p : Proposal) : list bytes := voteExtensions p.
Definition GetProposal (p : Proposal) : list bytes := voteExtensions p ++ txs p.

Definition AddVoteExtension (voteExtension : bytes) (p : Proposal) : Proposal :=
  {| txs := txs p; voteExtensions := voteExtensions p ++ [voteExtension]; cache := cache p;
     totalTxBytes := totalTxBytes p; maxTxBytes := maxTxBytes p |}.

Definition Contains (p : Proposal) (tx : bytes) : bool :=
  let txHash := Sum256 tx in
  let txHashStr := hex_EncodeToString txHash in
  bool_decide (txHashStr ∈ cache p).

(** The loop [for _, tx := range txs { size += int64(len(tx)) }]. *)
Definition partial_size (l : list bytes) : Z :=
  fold_left (fun size tx => wrap_i64 (size + len tx)) l 0.

(** The loop that adds the hash of every transaction to the cache. *)
Definition cache_add (l : list bytes) (c : gset string) : gset string :=
  fold_left (fun c tx => {[ hex_EncodeToString (Sum256 tx) ]} ∪ c) l c.

Definition UpdateProposal `{sdk : Sdk} (lane : LaneProposal) (partialProposalTxs : list bytes)
  : ST Proposal (option error) := fun p =>
  if bool_decide (length partialProposalTxs = 0%nat) then (Ret None, p) else
  let partialProposalSize := partial_size partialProposalTxs in
  match GetMaxTxBytesForLane (GetMaxTxBytes p) (GetTotalTxBytes p)
          (lp_GetMaxBlockSpace lane) with
  | Panic w => (Panic w, p)
  | Ret maxTxBytesForLane =>
      if maxTxBytesForLane <? partialProposalSize then
        (Ret (Some (Errorf "lane prepared a partial proposal that is too large")), p)
      else
      let updatedSize := wrap_i64 (totalTxBytes p + partialProposalSize) in
      if maxTxBytes p <? updatedSize then
        (Ret (Some (Errorf "lane prepared a block proposal that is too large")), p)
      else
        (Ret None,
         {| txs := txs p ++ partialProposalTxs;
            voteExtensions := voteExtensions p;
            cache := cache_add partialProposalTxs (cache p);
            totalTxBytes := updatedSize;
            maxTxBytes := maxTxBytes p |})
  end.

(** ** The invariant of a proposal *)

Fixpoint total_len (l : list bytes) : Z :=
  match l with [] => 0 | tx :: l => len tx + total_len l end.

(** The byte count is the size of the transactions and within the limit, and the cache holds
    exactly the hashes of the transactions. *)
Record proposal_wf (p : Proposal) : Prop := {
  wf_total : totalTxBytes p = total_len (txs p);
  wf_limit : totalTxBytes p <= maxTxBytes p;
  wf_max : 0 <= maxTxBytes p <= max_int64;
  wf_cache : cache p = list_to_set (map tx_hash (txs p)) }.

Lemma total_len_nonneg l : 0 <= total_len l.
Proof. induction l as [|x l IH]; cbn; [lia|]. pose proof (len_nonneg x). lia. Qed.

Lemma total_len_app l k : total_len (l ++ k) = total_len l + total_len k.
Proof. induction l as [|x l IH]; cbn; [lia|]. rewrite IH. lia. Qed.

#[export] Hint Resolve total_len_nonneg : pob.
#[export] Hint Rewrite total_len_app : pob.

(** The wrapping sum is the true size when that fits an int64. *)
Lemma partial_size_total l : total_len l <= max_int64 -> partial_size l = total_len l.
Proof.
  unfold partial_size. intros H.
  enough (G : forall acc, 0 <= acc -> acc + total_len l <= max_int64 ->
    fold_left (fun size tx => wrap_i64 (size + len tx)) l acc = acc + total_len l).
  { rewrite G; lia. }
  clear H. induction l as [|x l IH]; intros acc Ha Hb; cbn in *; [lia|].
  pose proof (len_nonneg x). pose proof (total_len_nonneg l).
  rewrite wrap_i64_id by (unfold in_i64, max_int64 in *; lia). rewrite IH; lia.
Qed.

Lemma cache_add_spec l c : cache_add l c = list_to_set (map tx_hash l) ∪ c.
Proof.
  unfold cache_add. revert c. induction l as [|x l IH]; intros c; cbn; [set_solver|].
  rewrite IH. unfold tx_hash. set_solver.
Qed.

Lemma NewProposal_wf m : 0 <= m <= max_int64 -> proposal_wf (NewProposal m).
Proof. intros H. split; cbn; lia || set_solver. Qed.

Section Laws.
Context `{sdk : Sdk} {DL : DecLaws sdk}.

(** The byte limit of a lane: the remaining bytes for ratio 0, the truncated share of the
    block otherwise. *)
Lemma max_tx_bytes_zero m t r :
  dec_val r = Some 0 -> in_i64 (m - t) ->
  GetMaxTxBytesForLane m t r = Ret (Z.max 0 (m - t)).
Proof.
  intros Hr Hi. unfold GetMaxTxBytesForLane.
  rewrite (dec_iszero _ 0), wrap_i64_id by done. cbn.
  destruct (m - t <? 0) eqn:E; f_equal; lia.
Qed.

Lemma max_tx_bytes_ratio m t r v :
  dec_val r = Some v -> 0 < v <= dec_one -> 0 <= m <= max_int64 ->
  GetMaxTxBytesForLane m t r = Ret (v * m / dec_one).
Proof.
  intros Hr Hv Hm. unfold GetMaxTxBytesForLane, max_int64, dec_one in *.
  rewrite (dec_iszero _ v) by done.
  destruct (v =? 0) eqn:E; [lia|].
  assert (Hb : 0 <= v * m <= 10 ^ 18 * (2 ^ 63 - 1)) by nia.
  rewrite (dec_truncate _ (v * m)) by (apply dec_mul_int64; unfold in_i64; lia || done).
  unfold dec_one. rewrite Z.quot_div_nonneg by lia. apply int_int64.
  assert (0 <= v * m / 10 ^ 18 <= 2 ^ 63 - 1); [|unfold in_i64; lia].
  split; [apply Z.div_pos; lia|]. apply Z.div_le_upper_bound; lia.
Qed.

Lemma max_tx_bytes_bound m t r v :
  dec_val r = Some v -> 0 <= v <= dec_one -> 0 <= m <= max_int64 -> 0 <= t <= max_int64 ->
  exists n, GetMaxTxBytesForLane m t r = Ret n /\ 0 <= n <= m.
Proof.
  intros Hr Hv Hm Ht. destruct (decide (v = 0)) as [->|Hne].
  - rewrite (max_tx_bytes_zero _ _ r) by (unfold in_i64, max_int64 in *; lia || done).
    eexists; split; [reflexivity|]. lia.
  - rewrite (max_tx_bytes_ratio _ _ r v) by (done || lia). eexists; split; [reflexivity|].
    unfold dec_one in *. split; [apply Z.div_pos; nia|]. apply Z.div_le_upper_bound; nia.
Qed.

(** A failing call leaves the proposal as it was; a successful one keeps the invariant. *)
Lemma UpdateProposal_cases lane l p :
  proposal_wf p -> total_len (txs p) + total_len l <= max_int64 ->
  (exists r, UpdateProposal lane l p = (r, p) /\ r <> Ret None) \/
  (l = [] /\ UpdateProposal lane l p = (Ret None, p)) \/
  (exists n, GetMaxTxBytesForLane (maxTxBytes p) (totalTxBytes p)
               (lp_GetMaxBlockSpace lane) = Ret n
     /\ total_len l <= n
     /\ totalTxBytes p + total_len l <= maxTxBytes p
     /\ UpdateProposal lane l p =
        (Ret None, {| txs := txs p ++ l; voteExtensions := voteExtensions p;
                      cache := list_to_set (map tx_hash l) ∪ cache p;
                      totalTxBytes := totalTxBytes p + total_len l;
                      maxTxBytes := maxTxBytes p |})).
Proof.
  intros [Ht Hl Hm Hc] Hfit. pose proof (total_len_nonneg l). pose proof (total_len_nonneg (txs p)).
  unfold UpdateProposal, GetMaxTxBytes, GetTotalTxBytes. case_bool_decide as E.
  { right; left. apply nil_length_inv in E. auto. }
  destruct (GetMaxTxBytesForLane _ _ _) as [n|w]; [|left; eexists; split; done].
  rewrite partial_size_total by lia.
  rewrite wrap_i64_id by (unfold in_i64, max_int64 in *; lia).
  destruct (n <? total_len l) eqn:E1; [left; eexists; split; done|].
  destruct (maxTxBytes p <? _) eqn:E2; [left; eexists; split; done|].
  right; right. exists n. rewrite cache_add_spec. repeat split; lia || done.
Qed.

Lemma UpdateProposal_preserves lane l p r p' :
  proposal_wf p -> total_len (txs p) + total_len l <= max_int64 ->
  UpdateProposal lane l p = (r, p') -> proposal_wf p'.
Proof.
  intros Hp Hfit E. destruct (UpdateProposal_cases lane l p Hp Hfit)
    as [[r0 [H _]]|[[_ H]|[n [_ [Hn [Hu H]]]]]]; rewrite H in E; simplify_eq; try done.
  destruct Hp as [Ht Hl Hm Hc].
  split; cbn; try lia.
  - rewrite total_len_app. lia.
  - rewrite Hc, map_app, list_to_set_app_L. set_solver.
Qed.
End Laws.
