(* ===== verification/SkipListFacts.v ===== *)
(** * Sorted element lists: the reference behaviour of a skip list

    Facts about comparison functions that are total preorders and about the reference
    functions [ref_insert], [ref_find], [ref_update] and [ref_remove] of [Sdk] on strictly
    sorted element lists. *)
From S2P Require Import Prelude Sdk.
From Stdlib Require Import Sorting.Sorted.

(** ** Comparison functions *)

Section Order.
Context {K : Type} {cmp : K -> K -> Z} (O : CmpOrder cmp).

Lemma cmp_refl a : cmp a a = 0.
Proof. pose proof (cmp_flip _ O a a). destruct (cmp a a); cbn in *; lia. Qed.

Lemma cmp_lt_gt a b : cmp a b < 0 <-> 0 < cmp b a.
Proof.
  pose proof (cmp_flip _ O a b). destruct (cmp a b), (cmp b a); cbn in *; lia.
Qed.

Lemma cmp_eq_sym a b : cmp a b = 0 <-> cmp b a = 0.
Proof.
  pose proof (cmp_flip _ O a b). destruct (cmp a b), (cmp b a); cbn in *; lia.
Qed.

Lemma cmp_le_ge a b : cmp a b <= 0 <-> 0 <= cmp b a.
Proof.
  pose proof (cmp_flip _ O a b). destruct (cmp a b), (cmp b a); cbn in *; lia.
Qed.

Lemma cmp_lt_le_trans a b c : cmp a b < 0 -> cmp b c <= 0 -> cmp a c < 0.
Proof.
  intros H1 H2. destruct (Z.lt_ge_cases (cmp a c) 0) as [|H3]; [done|]. exfalso.
  apply cmp_le_ge in H3. pose proof (cmp_trans _ O b c a H2 H3) as H4.
  apply cmp_lt_gt in H1. lia.
Qed.

Lemma cmp_le_lt_trans a b c : cmp a b <= 0 -> cmp b c < 0 -> cmp a c < 0.
Proof.
  intros H1 H2. destruct (Z.lt_ge_cases (cmp a c) 0) as [|H3]; [done|]. exfalso.
  apply cmp_le_ge in H3. pose proof (cmp_trans _ O c a b H3 H1) as H4.
  apply cmp_lt_gt in H2. lia.
Qed.

(** Equal keys compare alike. *)
Lemma cmp_eq_l a b c : cmp a b = 0 -> Z.sgn (cmp a c) = Z.sgn (cmp b c).
Proof.
  intros H. assert (H' : cmp b a = 0) by (by apply cmp_eq_sym).
  destruct (Z.lt_trichotomy (cmp b c) 0) as [E|[E|E]].
  - assert (cmp a c < 0) by (apply (cmp_le_lt_trans a b c); lia). lia.
  - assert (cmp a c <= 0) by (apply (cmp_trans _ O a b c); lia).
    assert (cmp c a <= 0).
    { apply (cmp_trans _ O c b a); [|lia]. apply Z.eq_le_incl. by apply cmp_eq_sym. }
    assert (0 <= cmp a c) by (by apply cmp_le_ge). lia.
  - apply cmp_lt_gt in E. assert (H2 : cmp c a < 0) by (apply (cmp_lt_le_trans c b a); lia).
    apply cmp_lt_gt in H2. apply cmp_lt_gt in E. lia.
Qed.
End Order.

Lemma cmp_order_neg {K} (f : K -> K -> Z) : CmpOrder f -> CmpOrder (fun a b => - f a b).
Proof.
  intros O. split.
  - intros a b. pose proof (cmp_flip _ O a b). lia.
  - intros a b c H1 H2. assert (f c a <= 0) as H.
    { apply (cmp_trans _ O c b a); apply (cmp_le_ge O); lia. }
    apply (cmp_le_ge O) in H. lia.
Qed.

Lemma cmp_order_preimage {K A} (g : A -> K) (f : K -> K -> Z) :
  CmpOrder f -> CmpOrder (fun a b => f (g a) (g b)).
Proof.
  intros O. split; [intros; apply (cmp_flip _ O) | intros a b c; apply (cmp_trans _ O)].
Qed.

Definition cmp_lex {K} (f g : K -> K -> Z) : K -> K -> Z :=
  fun a b => if negb (f a b =? 0) then f a b else g a b.

Lemma cmp_order_lex {K} (f g : K -> K -> Z) :
  CmpOrder f -> CmpOrder g -> CmpOrder (cmp_lex f g).
Proof.
  intros F G. split; unfold cmp_lex.
  - intros a b. pose proof (cmp_flip _ F a b). pose proof (cmp_flip _ G a b).
    destruct (f a b =? 0) eqn:E1, (f b a =? 0) eqn:E2; cbn; lia.
  - intros a b c.
    destruct (f a b =? 0) eqn:E1, (f b c =? 0) eqn:E2; cbn; intros H1 H2.
    + pose proof (cmp_eq_l F a b c ltac:(lia)) as H3.
      replace (f a c =? 0) with true by lia. cbn. by apply (cmp_trans _ G a b c).
    + pose proof (cmp_eq_l F a b c ltac:(lia)) as H3.
      replace (f a c =? 0) with false by lia. cbn. lia.
    + assert (f a c < 0) by (apply (cmp_lt_le_trans F a b c); lia).
      replace (f a c =? 0) with false by lia. cbn. lia.
    + assert (f a c < 0) by (apply (cmp_lt_le_trans F a b c); lia).
      replace (f a c =? 0) with false by lia. cbn. lia.
Qed.

Lemma cmp_order_sgn_sub : CmpOrder (fun a b => Z.sgn (a - b)).
Proof. split; intros; lia. Qed.

Lemma cmp_order_ext {K} (f g : K -> K -> Z) :
  (forall a b, f a b = g a b) -> CmpOrder g -> CmpOrder f.
Proof.
  intros E O. split; intros *; rewrite !E; [apply (cmp_flip _ O) | apply (cmp_trans _ O)].
Qed.

#[export] Hint Resolve cmp_order_neg cmp_order_preimage cmp_order_lex cmp_order_sgn_sub : pob.

(** ** Strictly sorted element lists *)

Section Lists.
Context {K V : Type} {cmp : K -> K -> Z} (O : CmpOrder cmp).
Implicit Types (l : list (Element K V)) (x y : Element K V).

Lemma ref_insert_perm x l : ref_insert cmp x l ≡ₚ x :: l.
Proof.
  induction l as [|y l IH]; cbn; [done|]. destruct (_ <? 0); [done|].
  rewrite IH. apply perm_swap.
Qed.

Lemma strict_sorted_filter (P : Element K V -> bool) l :
  strict_sorted cmp l -> strict_sorted cmp (List.filter P l).
Proof.
  unfold strict_sorted. induction 1 as [|x l _ IH Hx]; cbn; [constructor|].
  destruct (P x); [|done]. constructor; [done|].
  rewrite List.Forall_forall in *. intros y Hy. apply filter_In in Hy as [? _]. auto.
Qed.

(** Two elements with equal keys are the same element. *)
Lemma strict_sorted_unique l x y :
  strict_sorted cmp l -> In x l -> In y l -> cmp (e_key x) (e_key y) = 0 -> x = y.
Proof.
  unfold strict_sorted. induction 1 as [|z l Hl IH Hz]; [done|].
  rewrite List.Forall_forall in Hz. intros [->|Hx] [->|Hy] E; try done.
  - apply Hz in Hy. unfold elem_lt in Hy. lia.
  - apply Hz in Hx. unfold elem_lt in Hx. apply (cmp_eq_sym O) in E. lia.
  - by apply IH.
Qed.

Lemma strict_sorted_NoDup l : strict_sorted cmp l -> List.NoDup l.
Proof.
  unfold strict_sorted. induction 1 as [|z l Hl IH Hz]; constructor; [|done].
  rewrite List.Forall_forall in Hz. intros Hin. apply Hz in Hin. unfold elem_lt in Hin.
  rewrite (cmp_refl O) in Hin. lia.
Qed.

Lemma ref_insert_sorted x l :
  strict_sorted cmp l -> (forall y, In y l -> cmp (e_key x) (e_key y) <> 0) ->
  strict_sorted cmp (ref_insert cmp x l).
Proof.
  unfold strict_sorted. induction 1 as [|y l Hl IH Hy]; intros Hne; cbn.
  { repeat constructor. }
  rewrite List.Forall_forall in Hy. destruct (cmp (e_key x) (e_key y) <? 0) eqn:E.
  - constructor; [by constructor; [|apply List.Forall_forall]|].
    apply List.Forall_forall. intros z [<-|Hz]; unfold elem_lt; [lia|].
    apply Hy in Hz. unfold elem_lt in Hz. apply (cmp_lt_le_trans O _ (e_key y)); lia.
  - constructor; [apply IH; intros z Hz; apply Hne; by right|].
    apply List.Forall_forall. intros z Hz.
    apply (Permutation_in z (ref_insert_perm x l)) in Hz as [<-|Hz]; [|auto].
    unfold elem_lt. apply (cmp_lt_gt O). pose proof (Hne y (or_introl eq_refl)). lia.
Qed.

Lemma ref_find_Some k l x : ref_find cmp k l = Some x -> In x l /\ cmp k (e_key x) = 0.
Proof. unfold ref_find. intros H. apply find_some in H as [? ?]. split; [done|lia]. Qed.

Lemma ref_find_None k l : ref_find cmp k l = None <-> forall y, In y l -> cmp k (e_key y) <> 0.
Proof.
  unfold ref_find. split.
  - intros H y Hy E. apply (find_none _ _ H) in Hy. cbn in Hy. lia.
  - intros H. destruct (List.find _ l) eqn:E; [|done]. apply find_some in E as [Hin E].
    apply H in Hin. lia.
Qed.

Lemma ref_find_in k l x :
  strict_sorted cmp l -> In x l -> cmp k (e_key x) = 0 -> ref_find cmp k l = Some x.
Proof.
  intros Hs Hin E. destruct (ref_find cmp k l) as [y|] eqn:F.
  - apply ref_find_Some in F as [Hy Ey]. f_equal. apply (strict_sorted_unique l); try done.
    pose proof (cmp_eq_l O k (e_key y) (e_key x) Ey). lia.
  - rewrite ref_find_None in F. by apply F in Hin.
Qed.

Lemma in_ref_remove k l y : In y (ref_remove cmp k l) <-> In y l /\ cmp k (e_key y) <> 0.
Proof. unfold ref_remove. rewrite filter_In. split; intros [? ?]; split; try done; lia. Qed.

Lemma ref_remove_none k l :
  (forall y, In y l -> cmp k (e_key y) <> 0) -> ref_remove cmp k l = l.
Proof.
  unfold ref_remove. induction l as [|y l IH]; cbn; [done|]. intros H.
  pose proof (H y (or_introl eq_refl)). replace (cmp k (e_key y) =? 0) with false by lia.
  cbn. f_equal. apply IH. intros z Hz. apply H. by right.
Qed.

(** Removing a present key takes exactly its element out. *)
Lemma ref_remove_perm k l x :
  strict_sorted cmp l -> In x l -> cmp k (e_key x) = 0 -> l ≡ₚ x :: ref_remove cmp k l.
Proof.
  unfold strict_sorted, ref_remove. induction 1 as [|y l Hl IH Hy]; [done|].
  rewrite List.Forall_forall in Hy. intros [->|Hin] E; cbn.
  - rewrite E, Z.eqb_refl. cbn. constructor.
    enough (List.filter (fun z => negb (cmp k (e_key z) =? 0)) l = l) as -> by done.
    clear IH. induction l as [|z l IH]; [done|]. cbn.
    assert (Hz : elem_lt cmp x z) by (apply Hy; by left). unfold elem_lt in Hz.
    pose proof (cmp_eq_l O k (e_key x) (e_key z) E).
    replace (cmp k (e_key z) =? 0) with false by lia. cbn. f_equal. apply IH.
    + by apply StronglySorted_inv in Hl as [? _].
    + intros w Hw. apply Hy. by right.
  - assert (Hyx : elem_lt cmp y x) by auto. unfold elem_lt in Hyx.
    pose proof (cmp_eq_l O k (e_key x) (e_key y) E). apply (cmp_lt_gt O) in Hyx.
    replace (cmp k (e_key y) =? 0) with false by lia. cbn. rewrite (IH Hin E) at 1.
    apply perm_swap.
Qed.

(** Updating in place: same identities, and sorted when the key stays equal. *)
Lemma ref_update_ids x l : map e_id (ref_update x l) = map e_id l.
Proof.
  unfold ref_update. induction l as [|y l IH]; [done|]. cbn. f_equal; [|done].
  destruct (Nat.eqb (e_id y) (e_id x)) eqn:E; [|done]. apply Nat.eqb_eq in E. done.
Qed.

Lemma in_ref_update x l y : In y (ref_update x l) ->
  (y = x /\ exists z, In z l /\ e_id z = e_id x) \/ (In y l /\ e_id y <> e_id x).
Proof.
  unfold ref_update. intros H. apply in_map_iff in H as [z [Ez Hz]].
  destruct (Nat.eqb (e_id z) (e_id x)) eqn:E; subst.
  - apply Nat.eqb_eq in E. left. eauto.
  - apply Nat.eqb_neq in E. by right.
Qed.

Lemma ref_update_keeps x l y : In y l -> e_id y <> e_id x -> In y (ref_update x l).
Proof.
  intros Hy E. unfold ref_update. apply in_map_iff. exists y. split; [|done].
  apply Nat.eqb_neq in E. by rewrite E.
Qed.

Lemma ref_update_has x l z : In z l -> e_id z = e_id x -> In x (ref_update x l).
Proof.
  intros Hz E. unfold ref_update. apply in_map_iff. exists z. split; [|done].
  by rewrite E, Nat.eqb_refl.
Qed.

Lemma ref_update_sorted x z l :
  strict_sorted cmp l -> List.NoDup (map e_id l) -> In z l -> e_id z = e_id x ->
  cmp (e_key z) (e_key x) = 0 -> strict_sorted cmp (ref_update x l).
Proof.
  intros Hs Hd Hz Ez E. unfold strict_sorted in *.
  assert (Hcmp : forall a b, In a l -> In b l -> elem_lt cmp a b ->
            elem_lt cmp (if Nat.eqb (e_id a) (e_id x) then x else a)
                        (if Nat.eqb (e_id b) (e_id x) then x else b)).
  { intros a b Ha Hb Hab. unfold elem_lt in *.
    assert (Hid : forall c, In c l -> e_id c = e_id x -> c = z).
    { intros c Hc Ec. rewrite <- Ez in Ec. clear - Hd Hc Hz Ec.
      induction l as [|d l IH]; [done|]. cbn in Hd. apply NoDup_cons_iff in Hd as [Hn Hd].
      destruct Hc as [->|Hc], Hz as [->|Hz]; try done; [| |by apply IH].
      - rewrite Ec in Hn. destruct Hn. by apply in_map.
      - rewrite <- Ec in Hn. destruct Hn. by apply in_map. }
    destruct (Nat.eqb_spec (e_id a) (e_id x)) as [Ea|Ea],
             (Nat.eqb_spec (e_id b) (e_id x)) as [Eb|Eb]; try done.
    - rewrite (Hid a Ha Ea), (Hid b Hb Eb), (cmp_refl O) in Hab. lia.
    - rewrite (Hid a Ha Ea) in Hab. pose proof (cmp_eq_l O _ _ (e_key b) E). lia.
    - rewrite (Hid b Hb Eb) in Hab. apply (cmp_lt_gt O) in Hab. apply (cmp_lt_gt O).
      pose proof (cmp_eq_l O _ _ (e_key a) E). lia. }
  clear Hz Hd. unfold ref_update. induction Hs as [|y l Hl IH Hy]; cbn; [constructor|].
  rewrite List.Forall_forall in Hy. constructor.
  - apply IH. intros a b Ha Hb. apply Hcmp; by right.
  - apply List.Forall_forall. intros w Hw. apply in_map_iff in Hw as [b [<- Hb]].
    apply Hcmp; [by left | by right | by apply Hy].
Qed.
End Lists.

(** ** Comparables that agree on the keys in play *)

Section Agree.
Context {K V : Type} {c c' : K -> K -> Z}.
Implicit Types (l : list (Element K V)) (k : K).

Lemma ref_find_agree k l : (forall y, In y l -> c k (e_key y) = c' k (e_key y)) ->
  ref_find c k l = ref_find c' k l.
Proof.
  unfold ref_find. induction l as [|y l IH]; intros E; [done|]. cbn.
  rewrite E by (by left). rewrite IH; [done|]. intros z Hz. apply E. by right.
Qed.

Lemma ref_remove_agree k l : (forall y, In y l -> c k (e_key y) = c' k (e_key y)) ->
  ref_remove c k l = ref_remove c' k l.
Proof.
  intros E. unfold ref_remove. apply filter_ext_in. intros y Hy. by rewrite E.
Qed.

Lemma ref_insert_agree (x : Element K V) l :
  (forall y, In y l -> c (e_key x) (e_key y) = c' (e_key x) (e_key y)) ->
  ref_insert c x l = ref_insert c' x l.
Proof.
  induction l as [|y l IH]; intros E; [done|]. cbn.
  rewrite E by (by left). rewrite IH; [done|]. intros z Hz. apply E. by right.
Qed.
End Agree.

Lemma sorted_by_agree {K V} (c cmp : K -> K -> Z) k (l : list (Element K V)) y :
  sorted_by c cmp k l -> In y l -> cmp k (e_key y) = c k (e_key y).
Proof.
  intros S Hy. apply (by_agrees _ _ _ _ S); [by left|right]. by apply in_map.
Qed.

(** ** The library's operations on sorted lists *)

(** A list in use: its keys are in a domain on which its comparable agrees with the order [c],
    its elements are strictly sorted by [c] and have distinct identities. *)
Record sl_ok `{L : SkipListLib} {SL : SkipListLaws L} {K V} (D : K -> Prop) (c : K -> K -> Z)
    (l : SkipList K V) : Prop := {
  ok_order : CmpOrder c;
  ok_agrees a b : D a -> D b -> sl_cmp l a b = c a b;
  ok_keys e : In e (sl_elements l) -> D (e_key e);
  ok_sorted : strict_sorted c (sl_elements l);
  ok_ids : List.NoDup (map e_id (sl_elements l)) }.

Section Ops.
Context `{L : SkipListLib} {SL : SkipListLaws L} {K V : Type} {D : K -> Prop} {c : K -> K -> Z}.
Implicit Types (l : SkipList K V) (k : K) (v : V).

Lemma sl_New_ok (cmp : K -> K -> Z) : CmpOrder c -> (forall a b, D a -> D b -> cmp a b = c a b) ->
  sl_ok D c (@sl_New _ K V cmp).
Proof.
  intros O A. split; rewrite ?sl_cmp_new, ?sl_elements_new; try done; constructor.
Qed.

Lemma NoDup_map_filter {A B} (f : A -> B) (P : A -> bool) (l : list A) :
  List.NoDup (map f l) -> List.NoDup (map f (List.filter P l)).
Proof.
  induction l as [|x l IH]; cbn; [done|]. intros H. apply NoDup_cons_iff in H as [Hx Hl].
  destruct (P x); cbn; [|auto]. constructor; [|auto]. intros Hin. apply Hx.
  apply in_map_iff in Hin as [y [<- Hy]]. apply filter_In in Hy as [Hy _]. by apply in_map.
Qed.

Lemma sl_ok_sorted_by l k : sl_ok D c l -> D k -> sorted_by c (sl_cmp l) k (sl_elements l).
Proof.
  intros [O A Hk Hs _] Dk.
  assert (Hin : forall a, In a (k :: map e_key (sl_elements l)) -> D a).
  { intros a [<-|(e & <- & He)%in_map_iff]; auto. }
  split; auto.
Qed.

Lemma sl_Remove_ok l k : sl_ok D c l -> D k ->
  sl_ok D c (sl_Remove l k) /\ sl_elements (sl_Remove l k) = ref_remove c k (sl_elements l).
Proof.
  intros W Dk. pose proof (sl_remove _ _ l c k (sl_ok_sorted_by l k W Dk)) as E.
  split; [|done]. destruct W as [O A Hk Hs Hd]. split; rewrite ?sl_cmp_remove, ?E; [done..| | |].
  - intros e [He _]%in_ref_remove. auto.
  - by apply strict_sorted_filter.
  - by apply NoDup_map_filter.
Qed.

(** [Set] puts one element with the key and value in place of any element with an equal key. *)
Lemma sl_Set_ok l k v : sl_ok D c l -> D k ->
  let l' := fst (sl_Set l k v) in
  let el := snd (sl_Set l k v) in
  sl_ok D c l' /\ e_value el = v /\
  sl_elements l' ≡ₚ el :: ref_remove c k (sl_elements l) /\
  match ref_find c k (sl_elements l) with
  | None => e_key el = k
  | Some old => e_key el = sl_rekey (e_key old) k
  end.
Proof.
  intros W Dk l' el. pose proof (sl_ok_sorted_by l k W Dk) as B. destruct W as [O A Hk Hs Hd].
  subst l' el. destruct (ref_find c k (sl_elements l)) as [old|] eqn:F.
  - destruct (sl_set_old _ _ l c k v old B F) as [Hel Hl].
    apply ref_find_Some in F as [Hin E].
    set (x := MkElement (e_id old) (sl_rekey (e_key old) k) v) in *.
    assert (Dx : D (e_key x)).
    { cbn. destruct (sl_rekey_spec K (e_key old) k) as [->| ->]; auto. }
    assert (Ex : c (e_key old) (e_key x) = 0).
    { cbn. destruct (sl_rekey_spec K (e_key old) k) as [->| ->]; [apply (cmp_refl O)|].
      by apply (cmp_eq_sym O). }
    rewrite Hel, Hl. split; [|split; [done|split; [|done]]].
    + split; rewrite ?sl_cmp_set, ?Hl; [done..| | |by rewrite ref_update_ids].
      * intros e [[-> _]|[He _]]%in_ref_update; auto.
      * by apply (ref_update_sorted O x old).
    + pose proof (ref_remove_perm O k _ old Hs Hin E) as P.
      assert (Hd' : ~ In (e_id old) (map e_id (ref_remove c k (sl_elements l)))).
      { apply (Permutation_map e_id) in P. apply (Permutation_NoDup P) in Hd. cbn in Hd.
        by apply NoDup_cons_iff in Hd as [? _]. }
      unfold ref_update at 1. rewrite P at 1. cbn. rewrite Nat.eqb_refl. constructor.
      apply Permutation_refl'. etransitivity; [|apply map_id].
      apply map_ext_in. intros y Hy. destruct (Nat.eqb_spec (e_id y) (e_id old)) as [Ey|]; [|done].
      destruct Hd'. rewrite <- Ey. by apply in_map.
  - destruct (sl_set_new _ _ l c k v B F) as [id [Hid [Hel Hl]]].
    rewrite Hel, Hl. pose proof (proj1 (ref_find_None _ _) F) as F'.
    split; [|split; [done|split; [|done]]].
    + split; rewrite ?sl_cmp_set, ?Hl; [done..| |by apply (ref_insert_sorted O)|].
      * intros e He. apply (Permutation_in e (ref_insert_perm _ _)) in He as [<-|He]; auto.
      * eapply Permutation_NoDup; [symmetry; apply Permutation_map, ref_insert_perm|].
        cbn. by constructor.
    + rewrite ref_insert_perm, ref_remove_none by done. done.
Qed.

Lemma sl_Get_ok l k : sl_ok D c l -> D k -> sl_Get l k = ref_find c k (sl_elements l).
Proof. intros W Dk. by apply sl_get, sl_ok_sorted_by. Qed.
End Ops.
