(* ===== verification/Concrete.v ===== *)
(** * A concrete instance of the third-party interfaces

    A sorted list for the skip list and a small ledger for the SDK.  They satisfy the law
    classes of [Sdk], so the hypotheses of the theorems hold of a concrete function, and the
    witnesses evaluate on them. *)
From S2P Require Import Prelude Hash Sdk SkipListFacts.
From stdpp Require Import pretty.
#[local] Open Scope Z_scope.

(** ** The skip list *)

Record CSkipList (K V : Type) : Type := MkCSkipList {
  c_cmp : K -> K -> Z;
  c_elems : list (Element K V) }.
Arguments MkCSkipList {K V}. Arguments c_cmp {K V}. Arguments c_elems {K V}.

Fixpoint c_string_compare (a b : string) : Z :=
  match a, b with
  | EmptyString, EmptyString => 0
  | EmptyString, _ => -1
  | _, EmptyString => 1
  | String x a, String y b =>
      let c := Z.sgn (Z.of_N (N_of_ascii x) - Z.of_N (N_of_ascii y)) in
      if negb (c =? 0) then c else c_string_compare a b
  end.

Definition c_fresh {K V} (l : list (Element K V)) : nat := S (list_max (map e_id l)).

Definition c_Set {K V} (l : CSkipList K V) (k : K) (v : V) : CSkipList K V * Element K V :=
  match ref_find (c_cmp l) k (c_elems l) with
  | Some e =>
      let x := MkElement (e_id e) (e_key e) v in
      ({| c_cmp := c_cmp l; c_elems := ref_update x (c_elems l) |}, x)
  | None =>
      let x := MkElement (c_fresh (c_elems l)) k v in
      ({| c_cmp := c_cmp l; c_elems := ref_insert (c_cmp l) x (c_elems l) |}, x)
  end.

#[export] Instance concrete_skiplist : SkipListLib := {
  SkipList := CSkipList;
  LessThanFunc K f := fun a b => - f a b;
  skiplist_Int64_Compare a b := Z.sgn (a - b);
  skiplist_Uint64_Compare a b := Z.sgn (a - b);
  skiplist_String_Compare := c_string_compare;
  sl_New K V c := {| c_cmp := c; c_elems := [] |};
  sl_Len K V l := len (c_elems l);
  sl_elements K V l := c_elems l;
  sl_Get K V l k := ref_find (c_cmp l) k (c_elems l);
  sl_Set K V l k v := c_Set l k v;
  sl_Remove K V l k := {| c_cmp := c_cmp l; c_elems := ref_remove (c_cmp l) k (c_elems l) |}
}.

Lemma c_string_compare_eq a b : c_string_compare a b = 0 <-> a = b.
Proof.
  revert b. induction a as [|x a IH]; intros [|y b]; cbn; try done.
  destruct (Z.sgn _ =? 0) eqn:E; cbn.
  - rewrite IH. assert (N_of_ascii x = N_of_ascii y) as Hxy by lia.
    apply (f_equal ascii_of_N) in Hxy. rewrite !ascii_N_embedding in Hxy. subst.
    split; [by intros ->|congruence].
  - split; [lia|]. intros [= -> ->]. lia.
Qed.

Lemma c_string_compare_order : CmpOrder c_string_compare.
Proof.
  split.
  - intros a. induction a as [|x a IH]; intros [|y b]; cbn; try done.
    destruct (Z.sgn _ =? 0) eqn:E1, (Z.sgn (Z.of_N (N_of_ascii y) - _) =? 0) eqn:E2;
      cbn; rewrite ?IH; lia.
  - intros a. induction a as [|x a IH]; intros [|y b] [|z c]; cbn; try done || lia.
    destruct (Z.sgn (Z.of_N (N_of_ascii x) - Z.of_N (N_of_ascii y)) =? 0) eqn:E1,
      (Z.sgn (Z.of_N (N_of_ascii y) - Z.of_N (N_of_ascii z)) =? 0) eqn:E2,
      (Z.sgn (Z.of_N (N_of_ascii x) - Z.of_N (N_of_ascii z)) =? 0) eqn:E3; cbn; try lia.
    apply IH.
Qed.

Lemma c_fresh_spec {K V} (l : list (Element K V)) : ~ In (c_fresh l) (map e_id l).
Proof.
  unfold c_fresh. intros Hin.
  pose proof (proj1 (list_max_le (map e_id l) (list_max (map e_id l))) (le_n _)) as Hl.
  rewrite List.Forall_forall in Hl. apply Hl in Hin. lia.
Qed.

#[export] Instance concrete_skiplist_laws : SkipListLaws concrete_skiplist.
Proof.
  refine {| sl_cmp := fun K V (l : SkipList (SkipListLib := concrete_skiplist) K V) => c_cmp l;
            sl_rekey := fun K old new => old |}; try done.
  - by left.
  - apply c_string_compare_order.
  - apply c_string_compare_eq.
  - intros K V l k v. cbn. unfold c_Set. by destruct (ref_find _ _ _).
  - intros K V l c k B. apply ref_find_agree. intros y. by apply (sorted_by_agree c).
  - intros K V l c k v B F. exists (c_fresh (c_elems l)).
    change (sl_Set l k v) with (c_Set l k v). unfold c_Set.
    rewrite (ref_find_agree (c' := c)) by (intros y; by apply (sorted_by_agree c)).
    change (ref_find c k (c_elems l) = None) in F. rewrite F.
    split; [apply c_fresh_spec|]. split; [done|]. cbn. apply ref_insert_agree.
    intros y. by apply (sorted_by_agree c).
  - intros K V l c k v e B F. change (sl_Set l k v) with (c_Set l k v). unfold c_Set.
    rewrite (ref_find_agree (c' := c)) by (intros y; by apply (sorted_by_agree c)).
    change (ref_find c k (c_elems l) = Some e) in F. by rewrite F.
  - intros K V l c k B. apply ref_remove_agree. intros y. by apply (sorted_by_agree c).
  - intros K V l k v x. change (sl_Set l k v) with (c_Set l k v). unfold c_Set.
    destruct (ref_find _ _ _) as [e|]; cbn.
    + intros (y & <- & Hy)%in_map_iff. unfold ref_update in Hy. apply in_map_iff in Hy as (z & Hz & Hin).
      destruct (Nat.eqb _ _) in Hz; subst y; [by left|right; by apply in_map].
    + intros Hx. eapply Permutation_in in Hx; [|apply Permutation_map, ref_insert_perm].
      destruct Hx as [<-|Hx]; [by left|by right].
  - intros K V l k x (y & <- & [Hy _]%filter_In)%in_map_iff. by apply in_map.
Defined.

(** ** Transactions, coins and decimals *)

Record CTx : Type := MkTx {
  c_msgs : list Msg;
  c_sigs : option (result (list SignatureV2));
  c_signers : option (result (list bytes));
  c_timeout : option Z;
  c_fee : option Coins;
  c_bytes : bytes }.
#[export] Instance ctx_eq_dec : EqDecision CTx.
Proof. solve_decision. Defined.

Record CStore : Type := MkStore {
  c_kv : gmap bytes bytes;
  c_bal : bytes -> string -> Z;
  c_locked : bytes -> string -> Z;
  c_proposer : result bytes }.

Definition amt (c : Coin) : Z := default 0 (Amount c).
Definition coins_map (cs : list Coin) : gmap string Z :=
  list_to_map (map (fun c => (Denom c, amt c)) cs).
Definition map_coins (m : gmap string Z) : list Coin :=
  map (fun p => MkCoin p.1 (Some p.2)) (map_to_list m).
Definition c_amount_of (cs : Coins) (d : string) : Z := default 0 (coins_map (coins_list cs) !! d).

Definition c_validate (c : Coin) : option error :=
  match Amount c with
  | Some a => if (0 <=? a) && (a <? 2 ^ 256) && negb (bool_decide (Denom c = ""))
              then None else Some (Errorf "invalid coin")
  | None => Some (Errorf "amount is nil")
  end.

Definition same_denom {A} (c1 c2 : Coin) (k : Z -> Z -> outcome A) : outcome A :=
  if bool_decide (Denom c1 = Denom c2) then
    match Amount c1, Amount c2 with
    | Some a, Some b => k a b
    | _, _ => Panic "nil pointer"
    end
  else Panic "invalid coin denominations".

Definition c_coin_string (c : Coin) : string := pretty (amt c) +:+ Denom c.

(** The digits at the front of a string and what follows. *)
Fixpoint parse_digits (acc : Z) (s : string) : Z * string :=
  match s with
  | EmptyString => (acc, s)
  | String a s' =>
      let c := Z.of_N (N_of_ascii a) in
      if (48 <=? c) && (c <=? 57) then parse_digits (10 * acc + (c - 48)) s' else (acc, s)
  end.
Definition c_parse_coins (s : string) : Coins * option error :=
  if bool_decide (s = "") then (None, None)
  else (Some (map (fun t => let '(a, d) := parse_digits 0 t in MkCoin d (Some a))
                  (strings_Split s ",")), None).

Definition c_all_gt (a b : Coins) : bool :=
  negb (bool_decide (coins_list a = [])) &&
  forallb (fun c => amt c <? c_amount_of a (Denom c)) (coins_list b).

(** An account can spend what is not locked. *)
Definition c_spendable (s : CStore) (a : bytes) (d : string) : Z := Z.max 0 (c_bal s a d - c_locked s a d).

Definition c_send (from to : bytes) (cs : Coins) : ST CStore (option error) := fun s =>
  if forallb (fun c => (0 <=? c_amount_of cs (Denom c)) &&
                       (c_amount_of cs (Denom c) <=? c_spendable s from (Denom c))) (coins_list cs)
  then (Ret None,
        {| c_kv := c_kv s;
           c_bal := fun a d => c_bal s a d - (if decide (a = from) then c_amount_of cs d else 0)
                                           + (if decide (a = to) then c_amount_of cs d else 0);
           c_locked := c_locked s; c_proposer := c_proposer s |})
  else (Ret (Some (Errorf "insufficient funds")), s).

Definition c_dec_sub (m n : gmap string Z) : outcome (gmap string Z) :=
  let r := merge (fun x y => Some (default 0 x - default 0 y)) m n in
  if forallb (fun p => 0 <=? p.2) (map_to_list r) then Ret r else Panic "negative coin amount".

#[export] Instance concrete_sdk : Sdk := {
  Tx := CTx;
  GetMsgs := c_msgs;
  GetSignaturesV2 := c_sigs;
  GetSigners := c_signers;
  GetTimeoutHeight := c_timeout;
  GetFee := c_fee;
  AccAddress_String := hex_EncodeToString;
  AccAddressFromBech32 s :=
    if bool_decide (s = "") then Err (Errorf "empty address string is not allowed")
    else hex_DecodeString s;
  Dec := option Z;
  Dec_IsNil d := bool_decide (d = None);
  Dec_IsNegative d := default 0 d <? 0;
  Dec_IsZero d := default 1 d =? 0;
  Dec_GT d e := default 0 e <? default 0 d;
  Dec_LT d e := default 0 d <? default 0 e;
  Dec_Add d e := v ← d; w ← e; Some (v + w);
  Dec_MulInt64 d n := v ← d; Some (v * n);
  Dec_TruncateInt d := Z.quot (default 0 d) dec_one;
  LegacyZeroDec := Some 0;
  LegacyOneDec := Some dec_one;
  Int_Int64 z := if (- 2 ^ 63 <=? z) && (z <? 2 ^ 63) then Ret z else Panic "Int64() out of bound";
  Coin_IsNil c := bool_decide (Amount c = None);
  Coin_IsGTE c1 c2 := same_denom c1 c2 (fun a b => Ret (b <=? a));
  Coin_IsLTE c1 c2 := same_denom c1 c2 (fun a b => Ret (a <=? b));
  Coin_Add c1 c2 := same_denom c1 c2 (fun a b => Ret (MkCoin (Denom c1) (Some (a + b))));
  Coin_Validate := c_validate;
  Coin_String := c_coin_string;
  NewCoin d a := match c_validate (MkCoin d (Some a)) with
                 | None => Ret (MkCoin d (Some a))
                 | Some _ => Panic "invalid coin"
                 end;
  NewCoins cs := Ret (Some (List.filter (fun c => negb (amt c =? 0)) cs));
  Coins_String cs := strings_Join (map c_coin_string (coins_list cs)) ",";
  ParseCoinsNormalized := c_parse_coins;
  Coins_IsAllGT := c_all_gt;
  Coins_IsAllLT a b := c_all_gt b a;
  DecCoins := gmap string Z;
  NewDecCoinsFromCoins cs := Ret ((fun a => a * dec_one) <$> coins_map cs);
  DecCoins_MulDecTruncate m d := (fun a => a * default 0 d / dec_one) <$> m;
  DecCoins_TruncateDecimal m :=
    (Some (map_coins ((fun a => a / dec_one) <$> m)), (fun a => a mod dec_one) <$> m);
  DecCoins_Sub := c_dec_sub;
  Store := CStore;
  kv_Get s k := default [] (c_kv s !! k);
  kv_Set k v s := {| c_kv := <[k := v]> (c_kv s); c_bal := c_bal s;
                  c_locked := c_locked s; c_proposer := c_proposer s |};
  bank_SendCoins := c_send;
  bank_GetBalance s a d := MkCoin d (Some (c_bal s a d));
  GetPreviousProposerConsAddr := c_proposer;
  GetValidatorByConsAddr s a := Ok a
}.

(** ** The laws hold of the concrete SDK *)

#[export] Instance concrete_dec_laws : DecLaws concrete_sdk.
Proof.
  refine {| dec_val := fun d : Dec (Sdk := concrete_sdk) => d |}; cbn; intros; subst; try done.
  unfold in_i64 in *. by replace ((- 2 ^ 63 <=? z) && (z <? 2 ^ 63)) with true by lia.
Defined.

#[export] Instance concrete_coin_laws : CoinLaws concrete_sdk.
Proof.
  split; cbn; unfold same_denom; cbn.
  - done.
  - intros. by rewrite bool_decide_eq_true_2.
  - intros. by rewrite bool_decide_eq_true_2.
  - intros. by rewrite bool_decide_eq_true_2.
  - intros c1 c2 Hne. rewrite bool_decide_eq_false_2 by done. eauto.
  - intros c. unfold c_validate. destruct (Amount c) as [a|]; [|done].
    destruct (0 <=? a) eqn:E1, (a <? 2 ^ 256) eqn:E2; try done. intros _. exists a. split; [done|lia].
  - intros d a b. unfold c_validate. cbn [Amount Denom].
    destruct (0 <=? a), (a <? 2 ^ 256), (bool_decide (d = "")); try done. intros _ Hb.
    by replace ((0 <=? b) && (b <? 2 ^ 256)) with true by lia.
  - intros d a _ ->. done.
Qed.

Lemma c_all_gt_single d e a b : 0 <= a -> 0 <= b ->
  c_all_gt (Some [MkCoin d (Some a)]) (Some [MkCoin e (Some b)]) = bool_decide (d = e) && (b <? a).
Proof.
  intros Ha Hb. unfold c_all_gt, c_amount_of, coins_map, amt. cbn [coins_list default map forallb Amount Denom
    list_to_map foldr fst snd]. unfold default, id, coins_list. cbn.
  rewrite andb_true_r, lookup_insert, lookup_empty.
  case_decide; [by rewrite bool_decide_eq_true_2|].
  rewrite bool_decide_eq_false_2 by done. cbn. destruct (Z.ltb_spec b 0); [lia|done].
Qed.

#[export] Instance concrete_coins_laws : CoinsLaws concrete_sdk.
Proof.
  split; [intros d e a b Ha Hb..|done].
  - by apply c_all_gt_single.
  - change (Coins_IsAllLT ?x ?y) with (c_all_gt y x). rewrite c_all_gt_single by done.
    f_equal. by apply bool_decide_ext.
Qed.

#[export] Instance concrete_store_laws : StoreLaws concrete_sdk.
Proof.
  split; cbn; intros; [by rewrite lookup_insert_eq|by rewrite lookup_insert_ne].
Qed.

#[export] Instance concrete_address_laws : AddressLaws concrete_sdk.
Proof.
  split. cbn. intros a Ha. rewrite bool_decide_eq_false_2; [apply hex_decode_encode|].
  by destruct a.
Qed.

Lemma coins_map_coins m : coins_map (map_coins m) = m.
Proof.
  unfold coins_map, map_coins. rewrite map_map. cbn. unfold amt. cbn.
  rewrite (map_ext _ (fun x => x)) by (by intros []). rewrite map_id.
  apply list_to_map_to_list.
Qed.

Lemma amount_of_map_coins m d : c_amount_of (Some (map_coins m)) d = default 0 (m !! d).
Proof. unfold c_amount_of, coins_list. cbn [default]. unfold default, id. by rewrite coins_map_coins. Qed.

#[export] Instance concrete_dec_coin_laws : DecCoinLaws concrete_sdk.
Proof.
  refine {| amount_of := c_amount_of;
            dec_amount_of := fun (m : DecCoins (Sdk := concrete_sdk)) d => default 0 ((m : gmap string Z) !! d);
            coins_valid := fun cs => forall d, 0 <= c_amount_of cs d |}; cbn.
  - intros c a Ha Hpos _. unfold amt. rewrite Ha. cbn. eexists; split; [done|].
    enough (H : forall d, c_amount_of (Some (if negb (a =? 0) then [c] else [])) d = if decide (d = Denom c) then a else 0).
    { split; [|exact H]. intros d. rewrite H. case_decide; lia. }
    intros d. destruct (a =? 0) eqn:E; cbn; unfold c_amount_of; cbn.
    + rewrite lookup_empty. cbn. case_decide; lia.
    + unfold coins_map, amt; cbn. rewrite Ha, lookup_insert. cbn.
      repeat case_decide; cbn; congruence || done.
  - intros c a Ha _. eexists; split; [done|]. intros d. unfold coins_map, amt. cbn. rewrite Ha.
    rewrite lookup_fmap, lookup_insert. cbn. repeat case_decide; cbn; congruence || done.
  - intros ds f v d Hf Hv Hpos. rewrite lookup_fmap. rewrite Hf. cbn.
    destruct (ds !! d); cbn; [done|]. by rewrite Z.div_0_l by done.
  - intros ds d _. rewrite amount_of_map_coins, lookup_fmap. by destruct (ds !! d).
  - intros ds Hpos d. rewrite amount_of_map_coins, lookup_fmap. specialize (Hpos d).
    destruct (ds !! d) as [a|]; cbn in *; [apply Z.div_pos; [done|unfold dec_one; lia]|done].
  - intros ds _. eexists; split; [done|]. intros d. rewrite amount_of_map_coins.
    match goal with |- context [list_to_map (map _ (map_coins ?x))] =>
      change (list_to_map (map _ (map_coins x))) with (coins_map (map_coins x)) end.
    rewrite coins_map_coins, !lookup_fmap. by destruct (ds !! d).
  - intros ds es Hle. unfold c_dec_sub.
    assert (Hm : forall d, merge (fun x y : option Z => Some (default 0 x - default 0 y)) ds es !! d =
              match ds !! d, es !! d with
              | None, None => None
              | x, y => Some (default 0 x - default 0 y)
              end).
    { intros d. rewrite lookup_merge. unfold diag_None. by destruct (ds !! d), (es !! d). }
    replace (forallb _ _) with true.
    + eexists; split; [done|]. intros d. rewrite Hm. by destruct (ds !! d), (es !! d).
    + symmetry. apply forallb_forall. intros [d a] Hin.
      apply list_elem_of_In, elem_of_map_to_list in Hin. rewrite Hm in Hin. cbn.
      specialize (Hle d). destruct (ds !! d), (es !! d); cbn in *; simplify_eq; lia.
Defined.

(** The denominations of a set of coins. *)
Lemma amount_of_other cs d : ~ In d (map Denom (coins_list cs)) -> c_amount_of cs d = 0.
Proof.
  unfold c_amount_of, coins_map. intros Hn. rewrite not_elem_of_list_to_map_1; [done|].
  rewrite map_map. cbn. rewrite list_elem_of_In. exact Hn.
Qed.

Lemma c_send_cases from to cs s :
  (forall d, 0 <= c_amount_of cs d <= c_spendable s from d) /\ (exists s', c_send from to cs s = (Ret None, s')) \/
  (exists d, c_amount_of cs d < 0 \/ c_spendable s from d < c_amount_of cs d) /\
  exists err, c_send from to cs s = (Ret (Some err), s).
Proof.
  unfold c_send. destruct (forallb _ (coins_list cs)) eqn:E.
  - left. rewrite forallb_forall in E. split; [|by eexists]. intros d.
    destruct (decide (d ∈ map Denom (coins_list cs))) as [Hin%list_elem_of_In|Hn].
    + apply in_map_iff in Hin as (c & <- & Hc). specialize (E c Hc). lia.
    + rewrite amount_of_other by (by rewrite <- list_elem_of_In). unfold c_spendable. lia.
  - right. split; [|by eexists]. apply Bool.not_true_iff_false in E.
    destruct (decide (Exists (fun c => c_amount_of cs (Denom c) < 0 \/ c_spendable s from (Denom c) < c_amount_of cs (Denom c))
      (coins_list cs))) as [H|H].
    + apply List.Exists_exists in H as (c & _ & H). by exists (Denom c).
    + exfalso. apply E, forallb_forall. intros c Hc. apply andb_true_iff. rewrite !Z.leb_le.
      split; apply Z.le_ngt; intros Hlt; apply H, List.Exists_exists; exists c; auto.
Qed.

#[export] Instance concrete_bank_laws : BankLaws concrete_sdk.
Proof.
  assert (Hok : forall from to cs s s', c_send from to cs s = (Ret None, s') ->
    s' = {| c_kv := c_kv s;
            c_bal := fun a d => c_bal s a d - (if decide (a = from) then c_amount_of cs d else 0)
                                            + (if decide (a = to) then c_amount_of cs d else 0);
            c_locked := c_locked s; c_proposer := c_proposer s |}).
  { intros from to cs s s'. unfold c_send. destruct (forallb _ _); by intros [= <-]. }
  refine {| balance := fun s : Store (Sdk := concrete_sdk) => c_bal s; spendable := c_spendable |}; cbn.
  - done.
  - unfold c_spendable. lia.
  - intros from to cs s s' H. by rewrite (Hok _ _ _ _ _ H).
  - intros from to cs s Hv Hle. destruct (c_send_cases from to cs s) as [[_ ?]|[[d Hd] _]]; [done|].
    specialize (Hle d). lia.
  - intros from to cs s d Hv Hlt. destruct (c_send_cases from to cs s) as [[Hle _]|[_ [err ->]]]; [|by eexists _, _].
    specialize (Hle d). lia.
  - intros from to cs s s' H a d. destruct (c_send_cases from to cs s) as [[Hle _]|[_ [err E]]]; [|congruence].
    specialize (Hle d). rewrite (Hok _ _ _ _ _ H). unfold c_spendable in *. cbn. repeat case_decide; subst; lia.
  - intros from to cs s s' d Hne H. destruct (c_send_cases from to cs s) as [[Hle _]|[_ [err E]]]; [|congruence].
    specialize (Hle d). rewrite (Hok _ _ _ _ _ H). unfold c_spendable in *. cbn.
    rewrite decide_True by done. rewrite decide_False by done. destruct (Z.leb_spec (c_bal s from d - c_locked s from d) 0); lia.
  - intros from to cs s r s' k. unfold c_send. destruct (forallb _ _); intros [= <- <-]; done.
Defined.

(** ** Encodings of coins and decimals: a shifted amount in 40 bytes, then the denomination *)

Definition c_int_bytes (a : Z) : bytes := be_bytes 40 (a + 2 ^ 300).
Definition c_coin_bytes (c : Coin) : bytes := c_int_bytes (amt c) ++ string_bytes (Denom c).
Definition c_dec_bytes (d : option Z) : bytes := from_option c_int_bytes [] d.

(** Writing at the end, or at the start, of a buffer. *)
Definition c_put_end (b : bytes) : ST bytes (result Z) := fun buf =>
  if Nat.leb (length b) (length buf) then
    (Ret (Ok (len b)), take (length buf - length b) buf ++ b)
  else (Panic "slice bounds out of range", buf).
Definition c_put_start (b : bytes) : ST bytes (result Z) := fun buf =>
  (Ret (Ok (len b)), take (length buf) b ++ drop (length b) buf).

Definition c_read_int (b : bytes) : option Z :=
  if Nat.leb 40 (length b) then Some (be_word (take 40 b) - 2 ^ 300) else None.

#[export] Instance concrete_wire : WireLib (H := concrete_sdk) := {
  Coin_Size c := len (c_coin_bytes c);
  Coin_MarshalToSizedBuffer c := c_put_end (c_coin_bytes c);
  Coin_Unmarshal b c :=
    match c_read_int b with
    | Some a => Ok (MkCoin (bytes_string (drop 40 b)) (Some a))
    | None => Err (Errorf "unexpected EOF")
    end;
  Dec_Size d := len (c_dec_bytes d);
  Dec_MarshalTo d := c_put_start (c_dec_bytes d);
  Dec_Unmarshal b d := Ok (c_read_int b);
  Dec_zero_value := None
}.

Lemma c_read_int_bytes a rest :
  Z.abs a < 2 ^ 256 -> c_read_int (c_int_bytes a ++ rest) = Some a.
Proof.
  intros Ha. unfold c_read_int, c_int_bytes.
  assert (Hl : length (be_bytes 40 (a + 2 ^ 300)) = 40%nat) by apply be_bytes_length.
  replace (Nat.leb _ _) with true by (rewrite length_app, Hl; symmetry; apply Nat.leb_le; lia).
  rewrite take_app_length' by done. rewrite be_word_bytes, Z.mod_small by lia. f_equal. lia.
Qed.

Lemma c_put_end_spec b (pre slot : bytes) :
  length slot = length b -> c_put_end b (pre ++ slot) = (Ret (Ok (len b)), pre ++ b).
Proof.
  intros H. unfold c_put_end. rewrite length_app, H.
  replace (Nat.leb _ _) with true by (symmetry; apply Nat.leb_le; lia).
  by rewrite take_app_length' by lia.
Qed.

#[export] Instance concrete_wire_laws : WireLaws (DL := concrete_dec_laws) concrete_wire.
Proof.
  refine {| coin_bytes := c_coin_bytes; dec_bytes := fun d : Dec (Sdk := concrete_sdk) => c_dec_bytes d |};
    try done.
  - intros c a _ _ pre slot. apply c_put_end_spec.
  - intros [d m] a Ha Hb. cbn in Ha. subst m. unfold c_coin_bytes, amt.
    cbn [Coin_Unmarshal concrete_wire Amount Denom default]. unfold default, id. rewrite c_read_int_bytes by done.
    rewrite drop_app_length' by (symmetry; apply be_bytes_length). by rewrite string_bytes_string.
  - intros d v _ _ slot rest Hl. cbn [Dec_MarshalTo concrete_wire]. unfold c_put_start.
    rewrite (take_ge (c_dec_bytes d)) by (rewrite length_app; lia).
    by rewrite drop_app_length' by lia.
  - intros d v Hv Hb. cbn in Hv. subst d. cbn [Dec_Unmarshal concrete_wire c_dec_bytes from_option].
    f_equal. rewrite <- (app_nil_r (c_int_bytes v)). by apply c_read_int_bytes.
Defined.

(** ** Sample values for the witnesses *)

Definition ex_addr (n : Z) : bytes := [Z_byte n].

(** A transaction signed by account [a] with the given nonce and encoding. *)
Definition ex_tx (a nonce : Z) (bz : list Z) : Tx :=
  {| c_msgs := []; c_sigs := Some (Ok [MkSig (ex_addr a) nonce]);
     c_signers := Some (Ok [ex_addr a]); c_timeout := Some 0; c_fee := Some (Some []);
     c_bytes := map Z_byte bz |} : CTx.

Definition ex_ctx (priority : Z) : Context :=
  {| ctx_BlockHeight := 10; ctx_IsCheckTx := false; ctx_IsReCheckTx := false;
     ctx_Priority := priority; ctx_TxBytes := []; ctx_GasLimit := 0; ctx_GasConsumed := 0 |}.

Definition ex_store : Store :=
  {| c_kv := ∅; c_bal := fun _ _ => 0; c_locked := fun _ _ => 0; c_proposer := Ok (ex_addr 99) |} : CStore.
