(* ===== verification/PriorityNonce.v ===== *)
(** * blockbuster/priority_nonce.go: the priority-nonce mempool

    Transactions are stored in one priority-ordered skip list and one nonce-ordered skip list
    per sender, with the score of every (nonce, sender) kept in a map.  The skip lists are the
    library interface [SkipListLib]; an element pointer held by a [txMeta] is the identity of
    the element in its sender's list.  A cursor of an iterator is the sequence of elements
    from it along [Next()]: nothing changes the lists while an iterator is in use. *)
From S2P Require Import Prelude Sdk.

Section PriorityNonce.
Context {sdk : Sdk} {L : SkipListLib}.
(** The comparable priority type and its zero value. *)
Context {C : Type} `{Countable C} (zero : C).

(** ** Data *)

Record TxPriority : Type := MkTxPriority {
  GetTxPriority : Context -> Tx -> outcome C;
  Compare : C -> C -> Z;
  MinValue : C }.

Record PriorityNonceMempoolConfig : Type := MkConfig {
  cfg_TxPriority : TxPriority;
  OnRead : option (Tx -> unit);
  TxReplacement : option (C -> C -> Tx -> Tx -> bool);
  MaxTx : Z }.

Record txMeta : Type := MkTxMeta {
  nonce : Z;
  priority : C;
  sender : string;
  weight : C;
  senderElement : option nat }.

Abbreviation elem := (Element txMeta Tx).
Abbreviation skip_list := (SkipList txMeta Tx).

(** The keys of [scores] are the [txMeta] values with only the nonce and the sender set. *)
Abbreviation score_key := (Z * string)%type.

Record PriorityNonceMempool : Type := MkMempool {
  priorityIndex : skip_list;
  priorityCounts : gmap C Z;
  senderIndices : gmap string skip_list;
  scores : gmap score_key txMeta;
  cfg : PriorityNonceMempoolConfig }.

Record PriorityNonceIterator : Type := MkIterator {
  it_mempool : PriorityNonceMempool;
  priorityNode : list elem;
  senderCursors : gmap string (list elem);
  it_sender : string;
  nextPriority : C }.

Record reorderKey : Type := MkReorderKey {
  deleteKey : txMeta;
  insertKey : txMeta;
  rk_tx : Tx }.

(** ** Comparators *)

Definition skiplistComparable (txPriority : TxPriority) : txMeta -> txMeta -> Z :=
  LessThanFunc (fun keyA keyB =>
    let res := Compare txPriority (priority keyA) (priority keyB) in
    if negb (res =? 0) then res else
    let res := Compare txPriority (weight keyA) (weight keyB) in
    if negb (res =? 0) then res else
    let res := skiplist_String_Compare (sender keyA) (sender keyB) in
    if negb (res =? 0) then res else
    skiplist_Uint64_Compare (nonce keyA) (nonce keyB)).

(** The comparable of a sender index, inline in [Insert]. *)
Definition senderComparable : txMeta -> txMeta -> Z :=
  LessThanFunc (fun a b => skiplist_Uint64_Compare (nonce b) (nonce a)).

Definition NewPriorityMempool (cfg : PriorityNonceMempoolConfig) : PriorityNonceMempool :=
  {| priorityIndex := sl_New (skiplistComparable (cfg_TxPriority cfg));
     priorityCounts := ∅;
     senderIndices := ∅;
     scores := ∅;
     cfg := cfg |}.

(** Reading a count that is not in the map gives 0. *)
Definition count_of (mp : PriorityNonceMempool) (p : C) : Z := default 0 (priorityCounts mp !! p).
Definition count_add (n : Z) (p : C) (counts : gmap C Z) : gmap C Z :=
  <[p := default 0 (counts !! p) + n]> counts.

Definition CountTx (mp : PriorityNonceMempool) : Z := sl_Len (priorityIndex mp).

(** A sender with an index but no element left makes [cursor.Value] a nil dereference. *)
Definition NextSenderTx (mp : PriorityNonceMempool) (sender : string) : outcome (option Tx) :=
  match senderIndices mp !! sender with
  | None => Ret None
  | Some senderIndex =>
      match sl_Front senderIndex with
      | None => Panic "invalid memory address or nil pointer dereference"
      | Some cursor => Ret (Some (e_value cursor))
      end
  end.

(** ** Insert *)

(** The first signature of a transaction. *)
Definition first_signature (none_msg : string) (tx : Tx) : outcome (result SignatureV2) :=
  match GetSignaturesV2 tx with
  | None => Panic "interface conversion: not a SigVerifiableTx"
  | Some (Err err) => Ret (Err err)
  | Some (Ok []) => Ret (Err (Errorf none_msg))
  | Some (Ok (sig :: _)) => Ret (Ok sig)
  end.

Definition set_scores (f : gmap score_key txMeta -> gmap score_key txMeta)
    (mp : PriorityNonceMempool) : PriorityNonceMempool :=
  {| priorityIndex := priorityIndex mp; priorityCounts := priorityCounts mp;
     senderIndices := senderIndices mp; scores := f (scores mp); cfg := cfg mp |}.
Definition set_priorityIndex (f : skip_list -> skip_list) (mp : PriorityNonceMempool)
    : PriorityNonceMempool :=
  {| priorityIndex := f (priorityIndex mp); priorityCounts := priorityCounts mp;
     senderIndices := senderIndices mp; scores := scores mp; cfg := cfg mp |}.
Definition set_priorityCounts (f : gmap C Z -> gmap C Z) (mp : PriorityNonceMempool)
    : PriorityNonceMempool :=
  {| priorityIndex := priorityIndex mp; priorityCounts := f (priorityCounts mp);
     senderIndices := senderIndices mp; scores := scores mp; cfg := cfg mp |}.
Definition set_senderIndex (s : string) (l : skip_list) (mp : PriorityNonceMempool)
    : PriorityNonceMempool :=
  {| priorityIndex := priorityIndex mp; priorityCounts := priorityCounts mp;
     senderIndices := <[s := l]> (senderIndices mp); scores := scores mp; cfg := cfg mp |}.

(** The tail of [Insert]: count the priority, set the element of the sender index, record the
    score and index the transaction by priority. *)
Definition insert_key (key : txMeta) (tx : Tx) (senderIndex : skip_list)
    (mp : PriorityNonceMempool) : PriorityNonceMempool :=
  let mp := set_priorityCounts (count_add 1 (priority key)) mp in
  let '(senderIndex, element) := sl_Set senderIndex key tx in
  let mp := set_senderIndex (sender key) senderIndex mp in
  let key := {| nonce := nonce key; priority := priority key; sender := sender key;
                weight := weight key; senderElement := Some (e_id element) |} in
  let mp := set_scores <[(nonce key, sender key) :=
              {| nonce := 0; priority := priority key; sender := ""; weight := zero;
                 senderElement := None |}]> mp in
  set_priorityIndex (fun index => fst (sl_Set index key tx)) mp.

Definition Insert (ctx : Context) (tx : Tx) : ST PriorityNonceMempool (option error) :=
  fun mp =>
  if (0 <? MaxTx (cfg mp)) && (MaxTx (cfg mp) <=? CountTx mp) then
    (Ret (Some ErrMempoolTxMaxCapacity), mp)
  else if MaxTx (cfg mp) <? 0 then (Ret None, mp)
  else
  match first_signature "tx must have at least one signer" tx with
  | Panic w => (Panic w, mp)
  | Ret (Err err) => (Ret (Some err), mp)
  | Ret (Ok sig) =>
      let tx_sender := AccAddress_String (PubKey_Address sig) in
      match GetTxPriority (cfg_TxPriority (cfg mp)) ctx tx with
      | Panic w => (Panic w, mp)
      | Ret tx_priority =>
          let tx_nonce := Sequence sig in
          let key := {| nonce := tx_nonce; priority := tx_priority; sender := tx_sender;
                        weight := zero; senderElement := None |} in
          let senderIndex := match senderIndices mp !! tx_sender with
                             | Some senderIndex => senderIndex
                             | None => sl_New senderComparable
                             end in
          let mp := set_senderIndex tx_sender senderIndex mp in
          let sk := (tx_nonce, tx_sender) in
          match scores mp !! sk with
          | None => (Ret None, insert_key key tx senderIndex mp)
          | Some oldScore =>
              let replace :=
                let mp := set_priorityIndex (fun index => sl_Remove index
                  {| nonce := tx_nonce; priority := priority oldScore;
                     sender := tx_sender; weight := weight oldScore;
                     senderElement := None |}) mp in
                let mp := set_priorityCounts
                  (count_add (-1) (priority oldScore)) mp in
                (Ret None, insert_key key tx senderIndex mp) in
              match TxReplacement (cfg mp) with
              | None => replace
              | Some rule =>
                  match sl_Get senderIndex key with
                  | None => (Panic "invalid memory address or nil pointer dereference", mp)
                  | Some old =>
                      if rule (priority oldScore) tx_priority (e_value old) tx
                      then replace
                      else (Ret (Some (Errorf "tx doesn't fit the replacement rule")), mp)
                  end
              end
          end
      end
  end.

(** ** Remove *)

Definition Remove (tx : Tx) : ST PriorityNonceMempool (option error) := fun mp =>
  match first_signature "attempted to remove a tx with no signatures" tx with
  | Panic w => (Panic w, mp)
  | Ret (Err err) => (Ret (Some err), mp)
  | Ret (Ok sig) =>
      let tx_sender := AccAddress_String (PubKey_Address sig) in
      let tx_nonce := Sequence sig in
      let scoreKey := (tx_nonce, tx_sender) in
      match scores mp !! scoreKey with
      | None => (Ret (Some ErrTxNotFound), mp)
      | Some score =>
          let tk := {| nonce := tx_nonce; priority := priority score; sender := tx_sender;
                       weight := weight score; senderElement := None |} in
          match senderIndices mp !! tx_sender with
          | None => (Ret (Some (Errorf "sender not found")), mp)
          | Some senderTxs =>
              let mp := set_priorityIndex (fun index => sl_Remove index tk) mp in
              let mp := set_senderIndex tx_sender (sl_Remove senderTxs tk) mp in
              let mp := set_scores (delete scoreKey) mp in
              let mp := set_priorityCounts (count_add (-1) (priority score)) mp in
              (Ret None, mp)
          end
      end
  end.

(** ** Ordering of ties *)

(** The elements from a pointer on; the pointer is nil or its element is not in the list:
    no element. *)
Fixpoint from_pointer (p : option nat) (l : list elem) : list elem :=
  match p, l with
  | None, _ | _, [] => []
  | Some id, e :: l' => if Nat.eqb (e_id e) id then l else from_pointer p l'
  end.

(** The loop of [senderWeight] over the elements after the cursor. *)
Definition weight_loop (txPriority : TxPriority) (weight : C) (l : list elem) : C :=
  fold_left (fun weight e =>
    let p := priority (e_key e) in
    if negb (Compare txPriority p weight =? 0) then p else weight) l weight.

Definition senderWeight (txPriority : TxPriority) (senderCursor : list elem) : C :=
  match senderCursor with
  | [] => MinValue txPriority
  | e :: rest => weight_loop txPriority (priority (e_key e)) rest
  end.

(** The element pointer of a key lives in the index of its sender. *)
Definition sender_cursor (mp : PriorityNonceMempool) (key : txMeta) : list elem :=
  match senderIndices mp !! sender key with
  | Some l => from_pointer (senderElement key) (sl_elements l)
  | None => []
  end.

Definition reordering (mp : PriorityNonceMempool) : list reorderKey :=
  flat_map (fun node =>
    let key := e_key node in
    if 1 <? count_of mp (priority key) then
      let newKey := {| nonce := nonce key; priority := priority key; sender := sender key;
                       weight := senderWeight (cfg_TxPriority (cfg mp)) (sender_cursor mp key);
                       senderElement := senderElement key |} in
      [{| deleteKey := key; insertKey := newKey; rk_tx := e_value node |}]
    else []) (sl_elements (priorityIndex mp)).

Definition reorder_one (mp : PriorityNonceMempool) (k : reorderKey) : PriorityNonceMempool :=
  let mp := set_priorityIndex (fun index => sl_Remove index (deleteKey k)) mp in
  let mp := set_scores (delete (nonce (deleteKey k), sender (deleteKey k))) mp in
  let mp := set_priorityIndex (fun index => fst (sl_Set index (insertKey k) (rk_tx k))) mp in
  set_scores <[(nonce (insertKey k), sender (insertKey k)) := insertKey k]> mp.

Definition reorderPriorityTies (mp : PriorityNonceMempool) : PriorityNonceMempool :=
  fold_left reorder_one (reordering mp) mp.

(** ** Iteration *)

(** The weight the scores map holds for a key; a missing entry reads as the zero value. *)
Definition score_weight (mp : PriorityNonceMempool) (key : txMeta) : C :=
  match scores mp !! (nonce key, sender key) with
  | Some score => weight score
  | None => zero
  end.

(** [Next] at a priority node that is not nil; [iteratePriority] is its continuation, called
    with the cursors. *)
Definition next_at (mp : PriorityNonceMempool) (pn : list elem)
    (cursors : gmap string (list elem)) (cur : string) (nextP : C)
    (iteratePriority : unit -> option PriorityNonceIterator) : option PriorityNonceIterator :=
  let cursor := match cursors !! cur with
                | None => match senderIndices mp !! cur with
                          | Some index => sl_elements index
                          | None => []
                          end
                | Some cursor => tail cursor
                end in
  match cursor with
  | [] => iteratePriority tt
  | e :: _ =>
      let key := e_key e in
      let found := Some {| it_mempool := mp; priorityNode := pn;
                           senderCursors := <[cur := cursor]> cursors;
                           it_sender := cur; nextPriority := nextP |} in
      match tail pn with
      | [] => found
      | next :: _ =>
          let cmp := Compare (cfg_TxPriority (cfg mp)) in
          if cmp (priority key) nextP <? 0 then iteratePriority tt
          else if cmp (priority key) nextP =? 0 then
            if cmp (score_weight mp key) (weight (e_key next)) <? 0 then iteratePriority tt
            else found
          else found
      end
  end.

(** [iteratePriority] entering the first node of [nodes] (all nodes from the front, or those
    after the current one). *)
Fixpoint iteratePriority (mp : PriorityNonceMempool) (cursors : gmap string (list elem))
    (nodes : list elem) : option PriorityNonceIterator :=
  match nodes with
  | [] => None
  | node :: rest =>
      let nextP := match rest with
                   | next :: _ => priority (e_key next)
                   | [] => MinValue (cfg_TxPriority (cfg mp))
                   end in
      next_at mp nodes cursors (sender (e_key node)) nextP
        (fun _ => iteratePriority mp cursors rest)
  end.

Definition Next (i : PriorityNonceIterator) : option PriorityNonceIterator :=
  match priorityNode i with
  | [] => None
  | _ :: rest =>
      next_at (it_mempool i) (priorityNode i) (senderCursors i) (it_sender i) (nextPriority i)
        (fun _ => iteratePriority (it_mempool i) (senderCursors i) rest)
  end.

Definition it_Tx (i : PriorityNonceIterator) : option Tx :=
  match senderCursors i !! it_sender i with
  | Some (e :: _) => Some (e_value e)
  | _ => None
  end.

Definition Select (mp : PriorityNonceMempool)
    : option PriorityNonceIterator * PriorityNonceMempool :=
  if sl_Len (priorityIndex mp) =? 0 then (None, mp)
  else
    let mp := reorderPriorityTies mp in
    (iteratePriority mp ∅ (sl_elements (priorityIndex mp)), mp).

(** The loop [for it := Select(...); it != nil; it = it.Next() { ... it.Tx() ... }]: the
    transactions it visits, with a bound on the number of steps. *)
Fixpoint drain (fuel : nat) (i : option PriorityNonceIterator) : list Tx :=
  match fuel, i with
  | O, _ | _, None => []
  | S fuel, Some i => option_list (it_Tx i) ++ drain fuel (Next i)
  end.

(** Every step visits one more element of a sender index. *)
Definition sender_elements (mp : PriorityNonceMempool) : list elem :=
  concat (map (fun sl => sl_elements (snd sl)) (map_to_list (senderIndices mp))).

Definition SelectAll (mp : PriorityNonceMempool) : list Tx * PriorityNonceMempool :=
  let '(i, mp) := Select mp in (drain (S (length (sender_elements mp))) i, mp).

(** ** IsEmpty *)

Definition IsEmpty (mp : PriorityNonceMempool) : option error :=
  if negb (sl_Len (priorityIndex mp) =? 0) then Some (Errorf "priorityIndex not empty")
  else if existsb (fun kv => negb (snd kv =? 0)) (map_to_list (priorityCounts mp))
  then Some (Errorf "priorityCounts not zero")
  else if existsb (fun kv => negb (sl_Len (snd kv) =? 0)) (map_to_list (senderIndices mp))
  then Some (Errorf "senderIndex not empty for sender")
  else None.
End PriorityNonce.

(** ** The default priority: the priority of the context *)

Section Default.
Context {sdk : Sdk} {L : SkipListLib}.

Definition min_int64 : Z := - 2 ^ 63.

Definition NewDefaultTxPriority : TxPriority (C := Z) :=
  {| GetTxPriority := fun goCtx _ => Ret (ctx_Priority goCtx);
     Compare := fun a b => skiplist_Int64_Compare a b;
     MinValue := min_int64 |}.

Definition DefaultPriorityNonceMempoolConfig : PriorityNonceMempoolConfig (C := Z) :=
  {| cfg_TxPriority := NewDefaultTxPriority; OnRead := None; TxReplacement := None;
     MaxTx := 0 |}.

Definition DefaultPriorityMempool : PriorityNonceMempool (C := Z) :=
  NewPriorityMempool DefaultPriorityNonceMempoolConfig.
End Default.
