(* ===== verification/PriorityNonceFacts.v ===== *)
(** * The priority-nonce mempool implements a map from (nonce, sender)

    [wf] is the representation invariant of [PriorityNonceMempool]; the lemmas of this file
    give the effect of [Insert], [Remove] and [reorderPriorityTies] on it. *)
From S2P Require Import Prelude Sdk SkipListFacts PriorityNonce.

(** The priority comparator totally orders the priorities of a domain [Pr]: those the
    transactions at hand have. *)
Record PriorityOrder `{sdk : Sdk} {C} (Pr : C -> Prop) (tp : TxPriority (C := C)) : Prop := {
  po_flip a b : Pr a -> Pr b -> Z.sgn (Compare tp a b) = - Z.sgn (Compare tp b a);
  po_trans a b c : Pr a -> Pr b -> Pr c -> Compare tp a b <= 0 -> Compare tp b c <= 0 ->
    Compare tp a c <= 0;
  po_eq a b : Pr a -> Pr b -> Compare tp a b = 0 -> a = b;
  po_min : Pr (MinValue tp) }.

(** A comparator that orders a domain, extended to a total order: the domain comes first, and
    the rest is ordered by an encoding. *)
Section Total.
Context {sdk : Sdk} {C : Type} `{Countable C} (Pr : C -> Prop) `{!forall c, Decision (Pr c)}.
Implicit Types (tp : TxPriority (C := C)).

Definition total (f : C -> C -> Z) : C -> C -> Z := fun a b =>
  match decide (Pr a), decide (Pr b) with
  | left _, left _ => f a b
  | left _, right _ => -1
  | right _, left _ => 1
  | right _, right _ => Z.sgn (Zpos (encode a) - Zpos (encode b))
  end.

Definition totalize (tp : TxPriority (C := C)) : TxPriority (C := C) :=
  {| GetTxPriority := GetTxPriority tp; Compare := total (Compare tp); MinValue := MinValue tp |}.

Lemma total_agrees f a b : Pr a -> Pr b -> total f a b = f a b.
Proof. intros Ha Hb. unfold total. by repeat case_decide. Qed.

Lemma total_order tp : PriorityOrder Pr tp -> CmpOrder (total (Compare tp)).
Proof.
  intros O. split; unfold total.
  - intros a b. repeat case_decide; [by apply (po_flip _ _ O)|done|done|lia].
  - intros a b c. repeat case_decide; try lia. by apply (po_trans _ _ O).
Qed.

Lemma total_eq tp a b : PriorityOrder Pr tp -> total (Compare tp) a b = 0 <-> a = b.
Proof.
  intros O. split.
  - unfold total. repeat case_decide; [by apply (po_eq _ _ O)|done|done|].
    intros E. apply (inj encode). lia.
  - intros <-. apply (cmp_refl (total_order tp O)).
Qed.
End Total.

Section Facts.
Context {sdk : Sdk} {L : SkipListLib} {SL : SkipListLaws L}.
Context {C : Type} `{Countable C} (zero : C) {Pr : C -> Prop} `{!forall c, Decision (Pr c)}.

Abbreviation mempool := (PriorityNonceMempool (C := C)).
Abbreviation meta := (txMeta (C := C)).
Abbreviation elt := (Element meta Tx).
Implicit Types (mp : mempool) (e : elt) (k : Z * string) (tp : TxPriority (C := C)).

(** ** Views of the state *)

Definition pelems (mp : mempool) : list elt := sl_elements (priorityIndex mp).
Definition selems (mp : mempool) (s : string) : list elt :=
  match senderIndices mp !! s with Some l => sl_elements l | None => [] end.
Definition meta_key (m : meta) : Z * string := (nonce m, sender m).
Definition ekey (e : elt) : Z * string := meta_key (e_key e).
Definition txp (mp : mempool) : TxPriority := cfg_TxPriority (cfg mp).

(** The keys of the two kinds of index, and the order of the priority index. *)
Definition pkey (m : meta) : Prop := Pr (priority m) /\ Pr (weight m).
Definition skey (m : meta) : Prop := Pr (priority m).
Definition porder (tp : TxPriority) : meta -> meta -> Z := skiplistComparable (totalize Pr tp).
Definition pindex_ok (tp : TxPriority) (l : SkipList meta Tx) : Prop := sl_ok pkey (porder tp) l.
Definition sindex_ok (l : SkipList meta Tx) : Prop := sl_ok skey senderComparable l.

(** The elements for other keys. *)
Definition without (k : Z * string) (l : list elt) : list elt :=
  List.filter (fun e => negb (bool_decide (ekey e = k))) l.

(** How many elements have a priority. *)
Definition cnt (p : C) (l : list elt) : Z :=
  len (List.filter (fun e => bool_decide (priority (e_key e) = p)) l).

(** ** The invariant *)

Record wf (mp : mempool) : Prop := {
  wf_order : PriorityOrder Pr (txp mp);
  wf_pindex : pindex_ok (txp mp) (priorityIndex mp);
  wf_sindex s l : senderIndices mp !! s = Some l -> sindex_ok l;
  (** Every indexed transaction has a score with its priority and weight, *)
  wf_score e : In e (pelems mp) -> exists sc, scores mp !! ekey e = Some sc /\
    priority sc = priority (e_key e) /\ weight sc = weight (e_key e);
  (** every score belongs to an indexed transaction, *)
  wf_scored k sc : scores mp !! k = Some sc -> exists e, In e (pelems mp) /\ ekey e = k;
  (** the pointer of an indexed key leads to the same transaction in its sender's index, *)
  wf_sender e : In e (pelems mp) -> exists e', In e' (selems mp (sender (e_key e))) /\
    senderElement (e_key e) = Some (e_id e') /\ ekey e' = ekey e /\ e_value e' = e_value e;
  (** every transaction of a sender's index is that sender's and is indexed by priority, *)
  wf_indexed s e' : In e' (selems mp s) -> sender (e_key e') = s /\
    exists e, In e (pelems mp) /\ ekey e = ekey e';
  (** and the counts are the numbers of indexed transactions of each priority. *)
  wf_counts p : count_of mp p = cnt p (pelems mp) }.

(** The priority a sender index holds for a transaction is the one it is indexed by. *)
Definition priorities_agree (mp : mempool) : Prop := forall s e e',
  In e' (selems mp s) -> In e (pelems mp) -> ekey e = ekey e' ->
  priority (e_key e') = priority (e_key e).

(** ** Comparators *)

Lemma porder_order tp : PriorityOrder Pr tp -> CmpOrder (porder tp).
Proof.
  intros O. pose proof (total_order Pr tp O) as T.
  apply (cmp_order_ext _ (fun a b => -
    (cmp_lex (fun x y : meta => Compare (totalize Pr tp) (priority x) (priority y))
    (cmp_lex (fun x y => Compare (totalize Pr tp) (weight x) (weight y))
    (cmp_lex (fun x y => skiplist_String_Compare (sender x) (sender y))
             (fun x y => skiplist_Uint64_Compare (nonce x) (nonce y))))) a b)).
  { intros a b. unfold porder, skiplistComparable. rewrite less_than_func. reflexivity. }
  pose proof string_compare_order.
  assert (CmpOrder skiplist_Uint64_Compare)
    by (eapply cmp_order_ext; [apply uint64_compare|auto with pob]).
  cbn. auto 10 with pob.
Qed.

Lemma porder_eq tp a b : PriorityOrder Pr tp ->
  porder tp a b = 0 <->
  priority a = priority b /\ weight a = weight b /\ meta_key a = meta_key b.
Proof.
  intros O. unfold porder, skiplistComparable, meta_key. rewrite less_than_func. cbn [totalize Compare].
  pose proof (total_eq Pr tp (priority a) (priority b) O) as Hp.
  pose proof (total_eq Pr tp (weight a) (weight b) O) as Hw.
  pose proof (string_compare_eq (sender a) (sender b)) as Hs.
  pose proof (uint64_compare (nonce a) (nonce b)) as Hu.
  split.
  - destruct (total Pr (Compare tp) (priority a) (priority b) =? 0) eqn:E1; cbn; [|lia].
    destruct (total Pr (Compare tp) (weight a) (weight b) =? 0) eqn:E2; cbn; [|lia].
    destruct (skiplist_String_Compare _ _ =? 0) eqn:E3; cbn; [|lia]. intros E4.
    split; [apply Hp; lia|]. split; [apply Hw; lia|]. f_equal; [lia|]. apply Hs. lia.
  - intros (Ep & Ew & E). injection E as E1 E2. apply Hs in E2. apply Hp in Ep. apply Hw in Ew.
    rewrite Ep, Ew, E2, uint64_compare, E1. cbn. lia.
Qed.

Lemma porder_agrees tp a b : pkey a -> pkey b -> skiplistComparable tp a b = porder tp a b.
Proof.
  intros [? ?] [? ?]. unfold porder, skiplistComparable. rewrite !less_than_func.
  cbn [totalize Compare]. by rewrite !total_agrees.
Qed.

Lemma senderComparable_spec (a b : meta) : senderComparable a b = Z.sgn (nonce a - nonce b).
Proof. unfold senderComparable. rewrite less_than_func, uint64_compare. lia. Qed.

Lemma senderComparable_order : CmpOrder (senderComparable (C := C)).
Proof.
  eapply cmp_order_ext; [apply senderComparable_spec|].
  apply (cmp_order_preimage nonce (fun a b => Z.sgn (a - b))). auto with pob.
Qed.

Lemma senderComparable_eq (a b : meta) : senderComparable a b = 0 <-> nonce a = nonce b.
Proof. rewrite senderComparable_spec. lia. Qed.

(** ** Lists of elements *)

Lemma in_without k e l : In e (without k l) <-> In e l /\ ekey e <> k.
Proof.
  unfold without. rewrite filter_In, negb_true_iff, bool_decide_eq_false. done.
Qed.

Lemma without_id k l : (forall e, In e l -> ekey e <> k) -> without k l = l.
Proof.
  unfold without. induction l as [|e l IH]; cbn; [done|]. intros Hl.
  rewrite bool_decide_eq_false_2 by (apply Hl; by left). cbn. f_equal. apply IH.
  intros x Hx. apply Hl. by right.
Qed.

Lemma cnt_perm p l l' : l ≡ₚ l' -> cnt p l = cnt p l'.
Proof.
  intros P. unfold cnt, len. f_equal. apply Permutation_length.
  induction P as [|x l l' _ IH|x y l|l l' l'' _ IH1 _ IH2]; cbn; [done| | |by rewrite IH1];
    repeat case_bool_decide; rewrite ?IH; auto using perm_swap.
Qed.

Lemma cnt_cons p e l : cnt p (e :: l) = (if decide (priority (e_key e) = p) then 1 else 0) + cnt p l.
Proof.
  unfold cnt. cbn. case_bool_decide; case_decide; rewrite ?len_cons; done || lia.
Qed.

Lemma count_add_spec n p (m : gmap C Z) q :
  default 0 (count_add n p m !! q) = default 0 (m !! q) + (if decide (p = q) then n else 0).
Proof.
  unfold count_add. case_decide; [subst; by rewrite lookup_insert_eq|].
  rewrite lookup_insert_ne by done. lia.
Qed.

Lemma selems_set mp s l s' :
  selems (set_senderIndex s l mp) s' = if decide (s = s') then sl_elements l else selems mp s'.
Proof.
  unfold selems, set_senderIndex. cbn. case_decide; [subst; by rewrite lookup_insert_eq|].
  by rewrite lookup_insert_ne.
Qed.

(** ** Consequences of the invariant *)

Section Wf.
Context {mp : mempool} (W : wf mp).

Lemma wf_pelem_unique e1 e2 : In e1 (pelems mp) -> In e2 (pelems mp) -> ekey e1 = ekey e2 -> e1 = e2.
Proof.
  intros H1 H2 E. destruct (wf_pindex _ W) as [O _ _ Hs _].
  apply (strict_sorted_unique O (pelems mp)); [done..|].
  apply porder_eq; [apply (wf_order _ W)|].
  destruct (wf_score _ W e1 H1) as (s1 & L1 & P1 & W1).
  destruct (wf_score _ W e2 H2) as (s2 & L2 & P2 & W2).
  rewrite E in L1. rewrite L1 in L2. injection L2 as ->. split; [congruence|].
  split; [congruence|done].
Qed.

(** Removing the key built from the score of [k] takes out exactly the element of [k]. *)
Lemma wf_remove_score k sc sp :
  scores mp !! k = Some sc ->
  ref_remove (porder (txp mp))
    {| nonce := k.1; priority := priority sc; sender := k.2; weight := weight sc;
       senderElement := sp |} (pelems mp) = without k (pelems mp).
Proof.
  intros Hk. unfold ref_remove, without. apply filter_ext_in. intros e He. f_equal.
  destruct (wf_score _ W e He) as (s & Hs & Hp & Hw).
  apply Bool.eq_iff_eq_true. rewrite bool_decide_eq_true, Z.eqb_eq, porder_eq
    by apply (wf_order _ W). cbn. unfold ekey, meta_key; cbn. split.
  - intros (_ & _ & E). destruct k. cbn in E. congruence.
  - intros E. unfold ekey, meta_key in Hs. rewrite E, Hk in Hs. injection Hs as ->.
    destruct k; cbn in *. done.
Qed.

Lemma wf_without_perm e : In e (pelems mp) -> pelems mp ≡ₚ e :: without (ekey e) (pelems mp).
Proof.
  intros He. destruct (wf_score _ W e He) as (s & Hs & Hp & Hw).
  rewrite <- (wf_remove_score (ekey e) s (senderElement (e_key e)) Hs).
  destruct (wf_pindex _ W) as [O _ _ Hso _]. apply (ref_remove_perm O); [done..|].
  apply porder_eq; [apply (wf_order _ W)|]. done.
Qed.

(** The score of an indexed transaction is a key of the domain. *)
Lemma wf_score_pkey k sc n s sp : scores mp !! k = Some sc ->
  pkey {| nonce := n; priority := priority sc; sender := s; weight := weight sc; senderElement := sp |}.
Proof.
  intros Hk. destruct (wf_scored _ W _ _ Hk) as (e & He & <-).
  destruct (wf_score _ W e He) as (sc' & Hsc & Hp & Hw). rewrite Hk in Hsc. injection Hsc as <-.
  unfold pkey. cbn. rewrite Hp, Hw. by apply (ok_keys _ _ _ (wf_pindex _ W)).
Qed.

Lemma wf_unscored k : scores mp !! k = None -> without k (pelems mp) = pelems mp.
Proof.
  intros Hk. apply without_id. intros e He E.
  destruct (wf_score _ W e He) as (s & Hs & _). congruence.
Qed.

Lemma wf_sender_unique s e1 e2 :
  In e1 (selems mp s) -> In e2 (selems mp s) -> nonce (e_key e1) = nonce (e_key e2) -> e1 = e2.
Proof.
  unfold selems. destruct (senderIndices mp !! s) as [l|] eqn:E; [|done]. intros H1 H2 En.
  destruct (wf_sindex _ W s l E) as [O _ _ Hs _].
  apply (strict_sorted_unique O (sl_elements l)); [done..|]. by apply senderComparable_eq.
Qed.
End Wf.

Lemma sindex_New : sindex_ok (sl_New senderComparable).
Proof. apply sl_New_ok; [apply senderComparable_order|done]. Qed.

Lemma NewPriorityMempool_wf cfg : PriorityOrder Pr (cfg_TxPriority cfg) ->
  wf (NewPriorityMempool cfg).
Proof.
  intros O. unfold NewPriorityMempool.
  split; unfold txp, pelems, selems, count_of; cbn;
    rewrite ?sl_cmp_new, ?sl_elements_new, ?lookup_empty; try done.
  - apply sl_New_ok; [by apply porder_order|by apply porder_agrees].
Qed.

(** ** Insert *)

(** The state in which [insert_key] runs: the old element of the key is out of the priority
    index and of the counts, everything else is as before. *)
Record insert_pre (mp0 mp1 : mempool) (k : Z * string) (index : SkipList meta Tx) : Prop := {
  ip_cfg : cfg mp1 = cfg mp0;
  ip_scores : scores mp1 = scores mp0;
  ip_selems s : selems mp1 s = selems mp0 s;
  ip_sindex s l : senderIndices mp1 !! s = Some l -> sindex_ok l;
  ip_pindex : pindex_ok (txp mp0) (priorityIndex mp1);
  ip_pelems : pelems mp1 = without k (pelems mp0);
  ip_counts p : count_of mp1 p = cnt p (pelems mp1);
  ip_index : sindex_ok index /\ sl_elements index = selems mp0 k.2 }.

(** The new element of the sender index and the new element of the priority index. *)
Record insert_post (mp0 mp2 : mempool) (k : Z * string) (p : C) (tx : Tx) (el x : elt) : Prop := {
  io_cfg : cfg mp2 = cfg mp0;
  io_pindex : pindex_ok (txp mp0) (priorityIndex mp2);
  io_sindex s l : senderIndices mp2 !! s = Some l -> sindex_ok l;
  io_pelems : pelems mp2 ≡ₚ x :: without k (pelems mp0);
  io_x : ekey x = k /\ priority (e_key x) = p /\ weight (e_key x) = zero /\ e_value x = tx /\
         senderElement (e_key x) = Some (e_id el);
  io_selems s : selems mp2 s ≡ₚ
    if decide (s = k.2) then el :: List.filter (fun e => negb (nonce (e_key e) =? k.1)) (selems mp0 s)
    else selems mp0 s;
  io_el : ekey el = k /\ e_value el = tx /\
    match List.find (fun e => nonce (e_key e) =? k.1) (selems mp0 k.2) with
    | None => priority (e_key el) = p
    | Some old => e_key el = sl_rekey (e_key old)
        {| nonce := k.1; priority := p; sender := k.2; weight := zero; senderElement := None |}
    end;
  io_scores : scores mp2 = <[k := {| nonce := 0; priority := p; sender := ""; weight := zero;
                                     senderElement := None |}]> (scores mp0);
  io_counts q : count_of mp2 q = cnt q (pelems mp2) }.

Lemma sender_find (l : list elt) n p s :
  ref_find senderComparable
    {| nonce := n; priority := p; sender := s; weight := zero; senderElement := None |} l
  = List.find (fun e => nonce (e_key e) =? n) l.
Proof.
  unfold ref_find. induction l as [|e l IH]; cbn; [done|].
  rewrite senderComparable_spec, IH. cbn.
  replace (Z.sgn (n - nonce (e_key e)) =? 0) with (nonce (e_key e) =? n) by lia. done.
Qed.

Lemma sender_remove (l : list elt) m :
  ref_remove senderComparable m l = List.filter (fun e => negb (nonce (e_key e) =? nonce m)) l.
Proof.
  unfold ref_remove. apply filter_ext. intros e. rewrite senderComparable_spec. f_equal. lia.
Qed.

Lemma insert_key_effect mp0 mp1 n s p tx index :
  Pr zero -> Pr p -> wf mp0 -> insert_pre mp0 mp1 (n, s) index ->
  exists el x, insert_post mp0
    (insert_key zero {| nonce := n; priority := p; sender := s; weight := zero;
                        senderElement := None |} tx index mp1) (n, s) p tx el x.
Proof.
  intros Dz Dp W [Icfg Isc Ise Isi Ipo Ipe Ict [Iok Iel]].
  set (key := {| nonce := n; priority := p; sender := s; weight := zero; senderElement := None |}).
  pose proof (sl_Set_ok index key tx Iok Dp) as HS. unfold insert_key.
  destruct (sl_Set index key tx) as [index' el] eqn:ES. cbn in HS.
  destruct HS as (Hok & Hv & Hperm & Hrk). cbn in Iel.
  cbn [nonce priority sender weight] in *. subst key. cbn [nonce priority sender weight].
  rewrite sender_find, Iel in Hrk. rewrite sender_remove, Iel in Hperm. cbn [nonce] in Hperm.
  set (key' := {| nonce := n; priority := p; sender := s; weight := zero;
                  senderElement := Some (e_id el) |}).
  pose proof (sl_Set_ok (priorityIndex mp1) key' tx Ipo (conj Dp Dz)) as HP. cbn in HP.
  destruct HP as (Pok & Pv & Pperm & Prk).
  assert (Hno : forall y, In y (sl_elements (priorityIndex mp1)) ->
            porder (txp mp0) key' (e_key y) <> 0).
  { intros y Hy E. apply porder_eq in E; [|apply (wf_order _ W)].
    change (sl_elements (priorityIndex mp1)) with (pelems mp1) in Hy. rewrite Ipe in Hy.
    apply in_without in Hy as [_ Hy]. apply Hy. unfold ekey. destruct E as (_ & _ & <-). done. }
  rewrite ref_remove_none in Pperm by done. rewrite (proj2 (ref_find_None _ _) Hno) in Prk.
  set (x := snd (sl_Set (priorityIndex mp1) key' tx)) in *.
  assert (Hel : ekey el = (n, s)).
  { destruct (List.find _ (selems mp0 s)) as [old|] eqn:F; rewrite ?Hrk; [|unfold ekey, meta_key; by rewrite Hrk].
    apply find_some in F as [Hin Hn]. destruct (wf_indexed _ W s old Hin) as [Hs _].
    unfold ekey, meta_key. rewrite Hrk.
    destruct (sl_rekey_spec _ (e_key old)
      {| nonce := n; priority := p; sender := s; weight := zero; senderElement := None |})
      as [->| ->]; cbn; [f_equal; [lia|done]|done]. }
  exists el, x. split.
  - cbn. done.
  - exact Pok.
  - intros s' l. cbn. rewrite lookup_insert. case_decide; [|apply Isi]. by intros [= <-].
  - unfold pelems at 1. cbn. rewrite Pperm. constructor. by rewrite <- Ipe.
  - rewrite Prk, Pv. subst x. unfold ekey. rewrite Prk. done.
  - intros s'. unfold selems at 1. cbn. rewrite lookup_insert.
    destruct (decide (s = s')) as [<-|]; [by rewrite decide_True|].
    rewrite decide_False by done. fold (selems mp1 s'). by rewrite Ise.
  - split; [done|]. split; [done|]. cbn. destruct (List.find _ _); [done|]. by rewrite Hrk.
  - cbn. by rewrite Isc.
  - intros q. unfold count_of. cbn. rewrite count_add_spec. fold (count_of mp1 q).
    rewrite Ict. unfold pelems at 2. cbn. rewrite (cnt_perm _ _ _ Pperm), cnt_cons, Prk. cbn.
    unfold pelems. lia.
Qed.

Lemma insert_post_wf mp0 mp2 k p tx el x :
  wf mp0 -> insert_post mp0 mp2 k p tx el x -> wf mp2.
Proof.
  intros W [Ocfg Opo Osi Ope (Xk & Xp & Xw & Xv & Xe) Ose (Ek & Ev & Er) Osc Oct].
  assert (Hin : forall e, In e (pelems mp2) <-> e = x \/ (In e (pelems mp0) /\ ekey e <> k)).
  { intros e. rewrite <- (in_without k). split; intros He.
    - apply (Permutation_in _ Ope) in He as [<-|He]; auto.
    - apply (Permutation_in _ (symmetry Ope)). destruct He as [->|He]; [by left|by right]. }
  assert (Hse : forall s e', In e' (selems mp2 s) <->
            (s = k.2 /\ e' = el) \/ (In e' (selems mp0 s) /\ ekey e' <> k)).
  { intros s e'. transitivity (In e' (if decide (s = k.2) then el :: List.filter
      (fun e => negb (nonce (e_key e) =? k.1)) (selems mp0 s) else selems mp0 s)).
    { split; apply Permutation_in; [apply Ose|symmetry; apply Ose]. }
    destruct (decide (s = k.2)) as [->|Hne]; cbn.
    - rewrite filter_In. split.
      + intros [<-|[H1 H2]]; [auto|right]. split; [done|]. intros <-. cbn in H2. lia.
      + intros [[_ ->]|[H1 H2]]; [auto|right]. split; [done|].
        destruct (wf_indexed _ W _ _ H1) as [Hs _]. apply negb_true_iff, Z.eqb_neq.
        intros Hn. apply H2. unfold ekey, meta_key. rewrite Hn, Hs. by destruct k.
    - split; [|tauto]. intros H1. right. split; [done|]. intros <-.
      destruct (wf_indexed _ W _ _ H1) as [Hs _]. cbn in Hne. congruence. }
  split; unfold txp in *; rewrite ?Ocfg; try done.
  - apply (wf_order _ W).
  - intros e He. rewrite Osc. apply Hin in He as [->|[He Hk]].
    + rewrite Xk, lookup_insert_eq. eexists. split; [done|]. cbn. done.
    + rewrite lookup_insert_ne by done. by apply wf_score.
  - intros k' sc. rewrite Osc, lookup_insert. case_decide as Hk.
    + intros _. exists x. rewrite Hin. subst. auto.
    + intros H1. destruct (wf_scored _ W _ _ H1) as (e & He & <-). exists e. rewrite Hin. auto.
  - intros e He. apply Hin in He as [->|[He Hk]].
    + exists el. rewrite Hse. split; [left; split; [by rewrite <- Xk|done]|]. by rewrite Xk, Xv.
    + destruct (wf_sender _ W e He) as (e' & H1 & H2 & H3 & H4). exists e'. rewrite Hse.
      split; [right; split; [done|congruence]|done].
  - intros s e' He. apply Hse in He as [[-> ->]|[He Hk]].
    + split; [by rewrite <- Ek|]. exists x. rewrite Hin. split; [auto|congruence].
    + destruct (wf_indexed _ W s e' He) as [H1 (e & H2 & H3)]. split; [done|].
      exists e. rewrite Hin. split; [right; split; [done|congruence]|done].
Qed.

(** The sender index [Insert] uses: the existing one or a new empty one. *)
Definition index_for (mp : mempool) (s : string) : SkipList meta Tx :=
  match senderIndices mp !! s with Some l => l | None => sl_New senderComparable end.

Lemma index_for_ok mp s : wf mp ->
  sindex_ok (index_for mp s) /\ sl_elements (index_for mp s) = selems mp s.
Proof.
  intros W. unfold index_for, selems. destruct (senderIndices mp !! s) as [l|] eqn:E.
  - split; [by apply (wf_sindex _ W s)|done].
  - split; [apply sindex_New|apply sl_elements_new].
Qed.

Lemma selems_index_for mp s s' : selems (set_senderIndex s (index_for mp s) mp) s' = selems mp s'.
Proof.
  rewrite selems_set. case_decide; [subst|done]. unfold index_for, selems.
  destruct (senderIndices mp !! s'); [done|]. apply sl_elements_new.
Qed.

Lemma sindex_index_for mp s s' l : wf mp ->
  senderIndices (set_senderIndex s (index_for mp s) mp) !! s' = Some l ->
  sindex_ok l.
Proof.
  intros W. cbn. rewrite lookup_insert. case_decide; [|apply (wf_sindex _ W)].
  intros [= <-]. by apply (index_for_ok mp s W).
Qed.

(** A fresh key: [insert_key] runs in the state with the sender index in place. *)
Lemma insert_pre_fresh mp n s : wf mp -> scores mp !! (n, s) = None ->
  insert_pre mp (set_senderIndex s (index_for mp s) mp) (n, s) (index_for mp s).
Proof.
  intros W Hk. split; try done.
  - intros s'. apply selems_index_for.
  - intros s' l. by apply sindex_index_for.
  - apply (wf_pindex _ W).
  - by rewrite wf_unscored.
  - apply (wf_counts _ W).
  - by apply index_for_ok.
Qed.

(** A known key: the old element leaves the priority index and its priority's count. *)
Lemma insert_pre_replace mp n s sc : wf mp -> scores mp !! (n, s) = Some sc ->
  insert_pre mp
    (set_priorityCounts (count_add (-1) (priority sc))
      (set_priorityIndex (fun index => sl_Remove index
        {| nonce := n; priority := priority sc; sender := s; weight := weight sc;
           senderElement := None |})
        (set_senderIndex s (index_for mp s) mp))) (n, s) (index_for mp s).
Proof.
  intros W Hk.
  destruct (sl_Remove_ok (priorityIndex mp)
    {| nonce := n; priority := priority sc; sender := s; weight := weight sc;
       senderElement := None |} (wf_pindex _ W) (wf_score_pkey W _ _ _ _ _ Hk)) as [Hok Hel].
  pose proof (wf_remove_score W (n, s) sc None Hk) as Hwo. cbn in Hwo.
  fold (pelems mp) in Hel. rewrite Hwo in Hel.
  split; try done.
  - intros s'. apply selems_index_for.
  - intros s' l. by apply sindex_index_for.
  - intros q. unfold count_of. cbn. rewrite count_add_spec. fold (count_of mp q).
    rewrite (wf_counts _ W).
    destruct (wf_scored _ W _ _ Hk) as (e & He & Ek).
    destruct (wf_score _ W e He) as (sc' & Hsc & Hp & _). rewrite Ek, Hk in Hsc.
    injection Hsc as <-. unfold pelems at 2. cbn. rewrite Hel, <- Ek.
    rewrite (cnt_perm _ _ _ (wf_without_perm W e He)), cnt_cons, Ek, Hp.
    case_decide; lia.
  - by apply index_for_ok.
Qed.

(** The replacement rule accepts the transaction for a key already present. *)
Definition replace_ok (mp : mempool) (k : Z * string) (p : C) (tx : Tx) : Prop :=
  match TxReplacement (cfg mp) with
  | None => True
  | Some rule => forall e, In e (pelems mp) -> ekey e = k ->
      rule (priority (e_key e)) p (e_value e) tx = true
  end.

(** The sender index holds the transaction of every key with a score. *)
Lemma wf_sender_get mp n s p sc : wf mp -> Pr p -> scores mp !! (n, s) = Some sc ->
  exists e e', In e (pelems mp) /\ ekey e = (n, s) /\ priority (e_key e) = priority sc /\
    e_value e' = e_value e /\
    sl_Get (index_for mp s) {| nonce := n; priority := p; sender := s; weight := zero;
                               senderElement := None |} = Some e'.
Proof.
  intros W Dp Hk. destruct (wf_scored _ W _ _ Hk) as (e & He & Ek).
  destruct (wf_score _ W e He) as (sc' & Hsc & Hp & _). rewrite Ek, Hk in Hsc.
  injection Hsc as <-. destruct (wf_sender _ W e He) as (e' & Hin & _ & Ek' & Hv).
  exists e, e'. split; [done|]. split; [done|]. split; [done|]. split; [done|].
  destruct (index_for_ok mp s W) as (Hok & Hel).
  replace (sender (e_key e)) with s in Hin by (unfold ekey, meta_key in Ek; congruence).
  rewrite (sl_Get_ok _ _ Hok) by done. destruct Hok as [O _ _ Hs _].
  apply (ref_find_in O); [done|by rewrite Hel|]. rewrite senderComparable_spec. cbn.
  rewrite Ek in Ek'. unfold ekey, meta_key in Ek'. injection Ek' as -> _. lia.
Qed.

(** The priority the transaction gets, if any, is one of the domain. *)
Definition in_domain tp (ctx : Context) (tx : Tx) : Prop := forall p,
  GetTxPriority tp ctx tx = Ret p -> Pr p.

Lemma Insert_ok ctx tx mp sig p :
  Pr zero -> Pr p -> wf mp -> ~ (0 < MaxTx (cfg mp) <= CountTx mp) -> 0 <= MaxTx (cfg mp) ->
  first_signature "tx must have at least one signer" tx = Ret (Ok sig) ->
  GetTxPriority (txp mp) ctx tx = Ret p ->
  let k := (Sequence sig, AccAddress_String (PubKey_Address sig)) in
  replace_ok mp k p tx ->
  exists mp' el x, Insert zero ctx tx mp = (Ret None, mp') /\ insert_post mp mp' k p tx el x.
Proof.
  intros Dz Dp W Hcap Hmax Hsig Hp k Hrule. unfold Insert.
  replace ((0 <? MaxTx (cfg mp)) && (MaxTx (cfg mp) <=? CountTx mp)) with false by lia.
  replace (MaxTx (cfg mp) <? 0) with false by lia.
  rewrite Hsig. unfold txp in Hp. rewrite Hp.
  set (s := AccAddress_String (PubKey_Address sig)) in *. set (n := Sequence sig) in *.
  fold (index_for mp s). cbn [scores set_senderIndex cfg].
  destruct (scores mp !! (n, s)) as [sc|] eqn:Hk.
  - destruct (insert_key_effect mp _ n s p tx _ Dz Dp W (insert_pre_replace mp n s sc W Hk))
      as (el & x & Hpost).
    destruct (TxReplacement (cfg mp)) as [rule|] eqn:Hr; [|eauto].
    destruct (wf_sender_get mp n s p sc W Dp Hk) as (e & e' & He & Ek & Hpr & Hv & ->).
    unfold replace_ok in Hrule. rewrite Hr in Hrule.
    rewrite Hv, <- Hpr, (Hrule e He Ek), Hpr. eauto.
  - destruct (insert_key_effect mp _ n s p tx _ Dz Dp W (insert_pre_fresh mp n s W Hk))
      as (el & x & Hpost). eauto.
Qed.

(** Putting the index of a sender in place changes nothing the invariant sees. *)
Lemma set_index_for_wf mp s : wf mp -> wf (set_senderIndex s (index_for mp s) mp).
Proof.
  intros W. pose proof W as [Wo Wp Wi Wsc Wsd Wse Win Wct].
  split; unfold txp, pelems, count_of in *; cbn; try done.
  - intros s' l. by apply sindex_index_for.
  - intros e He. destruct (Wse e He) as (e' & H1 & H2). exists e'. by rewrite selems_index_for.
  - intros s' e' He. rewrite selems_index_for in He. by apply Win.
Qed.

(** Every other run of [Insert] keeps the indexed transactions. *)
Lemma Insert_cases ctx tx mp : Pr zero -> wf mp -> in_domain (txp mp) ctx tx ->
  (exists r mp', Insert zero ctx tx mp = (r, mp') /\ wf mp' /\ cfg mp' = cfg mp /\
     pelems mp' = pelems mp /\ (forall s, selems mp' s = selems mp s) /\ scores mp' = scores mp /\
     (r = Ret None -> MaxTx (cfg mp) < 0)) \/
  (exists sig p mp' el x, Insert zero ctx tx mp = (Ret None, mp') /\
     first_signature "tx must have at least one signer" tx = Ret (Ok sig) /\
     GetTxPriority (txp mp) ctx tx = Ret p /\
     ~ (0 < MaxTx (cfg mp) <= CountTx mp) /\ 0 <= MaxTx (cfg mp) /\
     insert_post mp mp' (Sequence sig, AccAddress_String (PubKey_Address sig)) p tx el x).
Proof.
  intros Dz W Hdom.
  destruct (decide (0 < MaxTx (cfg mp) <= CountTx mp)) as [Hcap|Hcap].
  { left. unfold Insert.
    replace ((0 <? MaxTx (cfg mp)) && (MaxTx (cfg mp) <=? CountTx mp)) with true by lia.
    eexists _, mp. split; [done|]. split; [exact W|]. repeat split; done. }
  destruct (decide (MaxTx (cfg mp) < 0)) as [Hneg|Hneg].
  { left. unfold Insert.
    replace ((0 <? MaxTx (cfg mp)) && (MaxTx (cfg mp) <=? CountTx mp)) with false by lia.
    replace (MaxTx (cfg mp) <? 0) with true by lia.
    eexists _, mp. split; [done|]. split; [exact W|]. repeat split; done. }
  destruct (first_signature "tx must have at least one signer" tx) as [[sig|err]|w] eqn:Hsig;
    cycle 1.
  1,2: left; unfold Insert;
    replace ((0 <? MaxTx (cfg mp)) && (MaxTx (cfg mp) <=? CountTx mp)) with false by lia;
    replace (MaxTx (cfg mp) <? 0) with false by lia; rewrite Hsig;
    eexists _, mp; split; [done|]; split; [exact W|]; repeat split; done.
  destruct (GetTxPriority (txp mp) ctx tx) as [p|w] eqn:Hp; cycle 1.
  { left. unfold Insert.
    replace ((0 <? MaxTx (cfg mp)) && (MaxTx (cfg mp) <=? CountTx mp)) with false by lia.
    replace (MaxTx (cfg mp) <? 0) with false by lia. unfold txp in Hp. rewrite Hsig, Hp.
    eexists _, mp. split; [done|]. split; [exact W|]. repeat split; done. }
  set (s := AccAddress_String (PubKey_Address sig)). set (n := Sequence sig).
  pose proof (Hdom p Hp) as Dp.
  assert (Hgo : replace_ok mp (n, s) p tx \/
    (exists sc e e' rule, scores mp !! (n, s) = Some sc /\ TxReplacement (cfg mp) = Some rule /\
       In e (pelems mp) /\ priority (e_key e) = priority sc /\ e_value e' = e_value e /\
       sl_Get (index_for mp s) {| nonce := n; priority := p; sender := s; weight := zero;
                                  senderElement := None |} = Some e' /\
       rule (priority sc) p (e_value e') tx = false)).
  { unfold replace_ok. destruct (TxReplacement (cfg mp)) as [rule|]; [|by left].
    destruct (scores mp !! (n, s)) as [sc|] eqn:Hk.
    - destruct (wf_sender_get mp n s p sc W Dp Hk) as (e & e' & He & Ek & Hpr & Hv & Hg).
      destruct (rule (priority sc) p (e_value e') tx) eqn:Hr; [left|right].
      + intros e2 He2 Ek2. rewrite (wf_pelem_unique W e2 e He2 He) by congruence.
        by rewrite Hpr, <- Hv.
      + exists sc, e, e', rule. done.
    - left. intros e He Ek. destruct (wf_score _ W e He) as (sc & Hs & _). congruence. }
  destruct Hgo as [Hgo|(sc & e & e' & rule & Hk & Hr & He & Hpr & Hv & Hg & Hf)].
  - right. destruct (Insert_ok ctx tx mp sig p Dz Dp W Hcap ltac:(lia) Hsig Hp Hgo)
      as (mp' & el & x & HI & Hpost). exists sig, p, mp', el, x.
    split; [done|]. split; [done|]. split; [done|]. split; [done|]. split; [lia|done].
  - left. unfold Insert.
    replace ((0 <? MaxTx (cfg mp)) && (MaxTx (cfg mp) <=? CountTx mp)) with false by lia.
    replace (MaxTx (cfg mp) <? 0) with false by lia. unfold txp in Hp. rewrite Hsig, Hp.
    fold s n. fold (index_for mp s). cbn [scores set_senderIndex cfg]. rewrite Hk, Hr, Hg, Hf.
    eexists _, _. split; [done|]. split; [by apply set_index_for_wf|].
    split; [done|]. split; [done|]. split; [apply selems_index_for|]. split; done.
Qed.

(** ** Remove *)

Record remove_post (mp mp' : mempool) (k : Z * string) (e : elt) : Prop := {
  ro_in : In e (pelems mp);
  ro_key : ekey e = k;
  ro_wf : wf mp';
  ro_cfg : cfg mp' = cfg mp;
  ro_pelems : pelems mp' = without k (pelems mp);
  ro_selems s : selems mp' s =
    if decide (s = k.2) then List.filter (fun e => negb (nonce (e_key e) =? k.1)) (selems mp s)
    else selems mp s;
  ro_scores : scores mp' = delete k (scores mp) }.

Lemma Remove_ok tx mp sig :
  wf mp -> first_signature "attempted to remove a tx with no signatures" tx = Ret (Ok sig) ->
  let k := (Sequence sig, AccAddress_String (PubKey_Address sig)) in
  is_Some (scores mp !! k) ->
  exists mp' e, Remove tx mp = (Ret None, mp') /\ remove_post mp mp' k e.
Proof.
  intros W Hsig k [sc Hk]. unfold Remove. rewrite Hsig. fold k. cbn [fst snd] in *.
  set (s := AccAddress_String (PubKey_Address sig)) in *. set (n := Sequence sig) in *.
  rewrite Hk. destruct (wf_scored _ W _ _ Hk) as (e & He & Ek).
  destruct (wf_sender _ W e He) as (e1 & He1 & _).
  change (sender (e_key e)) with ((ekey e).2) in He1. rewrite Ek in He1. cbn in He1.
  unfold selems in He1. destruct (senderIndices mp !! s) as [l|] eqn:Hl; [|done].
  set (tk := {| nonce := n; priority := priority sc; sender := s; weight := weight sc;
                senderElement := None |}).
  pose proof (wf_remove_score W k sc None Hk) as Hwo. cbn in Hwo. fold tk in Hwo.
  pose proof (wf_score_pkey W _ _ n s None Hk) as Htk. fold tk in Htk.
  destruct (sl_Remove_ok (priorityIndex mp) tk (wf_pindex _ W) Htk) as [Pok Pel].
  fold (pelems mp) in Pel. rewrite Hwo in Pel.
  destruct (sl_Remove_ok l tk (wf_sindex _ W s l Hl) (proj1 Htk)) as [Sok Sel].
  rewrite sender_remove in Sel. cbn [nonce tk] in Sel.
  eexists _, e. split; [reflexivity|].
  match goal with |- remove_post _ ?m _ _ => set (mp' := m) end.
  assert (Hpe : pelems mp' = without k (pelems mp)) by (subst mp'; unfold pelems at 1; done).
  assert (Hse : forall s', selems mp' s' =
    if decide (s' = k.2) then List.filter (fun e => negb (nonce (e_key e) =? k.1)) (selems mp s')
    else selems mp s').
  { intros s'. subst mp'. unfold selems. cbn. rewrite lookup_insert.
    destruct (decide (s = s')) as [<-|]; [by rewrite decide_True, Hl|].
    by rewrite decide_False. }
  assert (Hin : forall s' e', In e' (selems mp' s') <-> In e' (selems mp s') /\ ekey e' <> k).
  { intros s' e'. rewrite Hse. destruct (decide (s' = k.2)) as [->|Hne].
    - rewrite filter_In. split; intros [H1 H2]; (split; [done|]).
      + intros E. rewrite <- E in H2. cbn in H2. lia.
      + destruct (wf_indexed _ W _ _ H1) as [Hs _]. apply negb_true_iff, Z.eqb_neq.
        intros E. apply H2. unfold ekey, meta_key. rewrite E, Hs. done.
    - split; [|tauto]. intros H1. split; [done|]. intros E.
      destruct (wf_indexed _ W _ _ H1) as [Hs _]. apply Hne. rewrite <- E. done. }
  split; try done. split; rewrite ?Hpe; unfold txp in *; cbn [cfg mp']; try done.
  - apply (wf_order _ W).
  - intros s' l'. cbn. rewrite lookup_insert. case_decide; [by intros [= <-]|].
    apply (wf_sindex _ W).
  - intros e' [He' Hne]%in_without. cbn. rewrite lookup_delete_ne by done. by apply wf_score.
  - intros k' sc'. cbn. rewrite lookup_delete. case_decide as Hne; [done|].
    intros H1. destruct (wf_scored _ W _ _ H1) as (e' & H2 & <-).
    exists e'. rewrite in_without. auto.
  - intros e' [He' Hne]%in_without. destruct (wf_sender _ W e' He') as (e'' & H1 & H2 & H3 & H4).
    exists e''. rewrite Hin. split; [split; [done|by rewrite H3]|done].
  - intros s' e' [H1 H2]%Hin. destruct (wf_indexed _ W s' e' H1) as [H3 (e'' & H4 & H5)].
    split; [done|]. exists e''. rewrite in_without. split; [split; [done|by rewrite H5]|done].
  - intros q. unfold count_of. cbn. rewrite count_add_spec. fold (count_of mp q).
    rewrite (wf_counts _ W). rewrite (cnt_perm _ _ _ (wf_without_perm W e He)), cnt_cons, Ek.
    destruct (wf_score _ W e He) as (sc' & Hsc & Hp & _). rewrite Ek, Hk in Hsc.
    injection Hsc as <-. rewrite Hp. case_decide; lia.
Qed.

(** The other runs of [Remove] change nothing. *)
Lemma Remove_cases tx mp : wf mp ->
  (exists r, Remove tx mp = (r, mp) /\ r <> Ret None) \/
  (exists sig mp' e, Remove tx mp = (Ret None, mp') /\
     first_signature "attempted to remove a tx with no signatures" tx = Ret (Ok sig) /\
     remove_post mp mp' (Sequence sig, AccAddress_String (PubKey_Address sig)) e).
Proof.
  intros W. destruct (first_signature "attempted to remove a tx with no signatures" tx)
    as [[sig|err]|w] eqn:Hsig; cycle 1.
  1,2: left; unfold Remove; rewrite Hsig; eexists; split; done.
  destruct (scores mp !! (Sequence sig, AccAddress_String (PubKey_Address sig))) as [sc|] eqn:Hk.
  - right. destruct (Remove_ok tx mp sig W Hsig) as (mp' & e & HR & Hpost); [by eexists|].
    exists sig, mp', e. done.
  - left. unfold Remove. rewrite Hsig. rewrite Hk. eexists; split; done.
Qed.

(** ** Reordering of ties *)

Definition with_weight (w : C) (m : meta) : meta :=
  {| nonce := nonce m; priority := priority m; sender := sender m; weight := w;
     senderElement := senderElement m |}.

(** A pending reordering of an indexed element: its key with another weight. *)
Definition reorder_pending (mp : mempool) (k : reorderKey (C := C)) : Prop :=
  exists e w, In e (pelems mp) /\ Pr w /\ deleteKey k = e_key e /\
    insertKey k = with_weight w (e_key e) /\ rk_tx k = e_value e.

Definition kv (e : elt) : meta * Tx := (e_key e, e_value e).

Record reorder_post (mp mp' : mempool) : Prop := {
  rr_wf : wf mp';
  rr_cfg : cfg mp' = cfg mp;
  rr_sindices : senderIndices mp' = senderIndices mp;
  rr_pcounts : priorityCounts mp' = priorityCounts mp }.

Lemma reorder_one_effect mp (k : reorderKey (C := C)) : wf mp -> reorder_pending mp k ->
  reorder_post mp (reorder_one mp k) /\
  exists x, kv x = (insertKey k, rk_tx k) /\
    pelems (reorder_one mp k) ≡ₚ x :: without (meta_key (deleteKey k)) (pelems mp).
Proof.
  intros W (e & w & He & Dw & Hd & Hi & Ht). unfold reorder_one. rewrite Hd, Hi, Ht.
  set (m := e_key e) in *. set (q := with_weight w m).
  pose proof (ok_keys _ _ _ (wf_pindex _ W) e He) as Hmk. fold m in Hmk.
  destruct (sl_Remove_ok (priorityIndex mp) m (wf_pindex _ W) Hmk) as [Pok Pel].
  fold (pelems mp) in Pel.
  destruct (wf_score _ W e He) as (sc & Hsc & Hp & Hw).
  assert (Hm : ref_remove (porder (txp mp)) m (pelems mp) = without (meta_key m) (pelems mp)).
  { rewrite <- (wf_remove_score W (meta_key m) sc (senderElement m)) by done. f_equal.
    rewrite Hp, Hw. subst m. by destruct (e_key e). }
  rewrite Hm in Pel.
  set (index := sl_Remove (priorityIndex mp) m) in *.
  pose proof (sl_Set_ok index q (e_value e) Pok (conj (proj1 Hmk) Dw)) as HS. cbn in HS.
  destruct HS as (Sok & Sv & Sperm & Srk). rewrite Pel in *.
  assert (Hno : forall y, In y (without (meta_key m) (pelems mp)) ->
            porder (txp mp) q (e_key y) <> 0).
  { intros y [_ Hy]%in_without E. apply porder_eq in E; [|apply (wf_order _ W)].
    apply Hy. unfold ekey. destruct E as (_ & _ & <-). done. }
  rewrite ref_remove_none in Sperm by done. rewrite (proj2 (ref_find_None _ _) Hno) in Srk.
  set (x := snd (sl_Set index q (e_value e))) in *.
  match goal with |- reorder_post _ ?m' /\ _ => set (mp' := m') end.
  assert (Hpe : pelems mp' ≡ₚ x :: without (meta_key m) (pelems mp)) by exact Sperm.
  assert (Hin : forall y, In y (pelems mp') <-> y = x \/ (In y (pelems mp) /\ ekey y <> meta_key m)).
  { intros y. rewrite <- in_without. split; intros Hy.
    - apply (Permutation_in _ Hpe) in Hy as [<-|Hy]; auto.
    - apply (Permutation_in _ (symmetry Hpe)). destruct Hy as [->|Hy]; [by left|by right]. }
  assert (Hx : e_key x = q) by done.
  assert (Hkx : ekey x = meta_key m) by (unfold ekey; by rewrite Hx).
  assert (Hsc' : scores mp' = <[meta_key m := q]> (scores mp)).
  { subst mp'. cbn. apply insert_delete_eq. }
  split; [|exists x; split; [unfold kv; by rewrite Hx, Sv|done]].
  split; [|done..]. split; unfold txp; cbn [cfg mp' set_scores set_priorityIndex]; try done.
  - apply (wf_order _ W).
  - apply (wf_sindex _ W).
  - intros y Hy. rewrite Hsc'. apply Hin in Hy as [->|[Hy Hne]].
    + rewrite Hkx, lookup_insert_eq. eexists. split; [done|]. by rewrite Hx.
    + rewrite lookup_insert_ne by done. by apply wf_score.
  - intros k' sc'. rewrite Hsc', lookup_insert. case_decide as Hk.
    + intros _. exists x. rewrite Hin. subst. auto.
    + intros H1. destruct (wf_scored _ W _ _ H1) as (y & Hy & <-). exists y. rewrite Hin. auto.
  - intros y Hy. apply Hin in Hy as [->|[Hy Hne]]; [|by apply (wf_sender _ W)].
    rewrite Hkx, Hx, Sv. apply (wf_sender _ W e He).
  - intros s e' He'. destruct (wf_indexed _ W s e' He') as [Hs (y & Hy & Ey)].
    split; [done|]. destruct (decide (ekey y = meta_key m)) as [E|E].
    + exists x. rewrite Hin, Hkx. split; [auto|congruence].
    + exists y. rewrite Hin. auto.
  - intros p. change (count_of mp' p) with (count_of mp p). rewrite (wf_counts _ W).
    rewrite (cnt_perm _ _ _ Hpe), cnt_cons, Hx. cbn.
    rewrite (cnt_perm _ _ _ (wf_without_perm W e He)), cnt_cons. done.
Qed.

Definition rkey (k : reorderKey (C := C)) : Z * string := meta_key (deleteKey k).

Lemma reorder_fold_effect (ks : list (reorderKey (C := C))) mp :
  wf mp -> List.NoDup (map rkey ks) ->
  (forall k : reorderKey (C := C), In k ks -> reorder_pending mp k) ->
  reorder_post mp (fold_left reorder_one ks mp) /\
  forall x, (exists e, In e (pelems (fold_left reorder_one ks mp)) /\ kv e = x) <->
    (exists k : reorderKey (C := C), In k ks /\ (insertKey k, rk_tx k) = x) \/
    (exists e, In e (pelems mp) /\ kv e = x /\
       forall k : reorderKey (C := C), In k ks -> ekey e <> meta_key (deleteKey k)).
Proof.
  revert mp. induction ks as [|k ks IH]; intros mp W Hd Hp; cbn [fold_left].
  { split; [by split|]. intros x. split; [|intros [(? & [] & _)|(e & ? & ? & _)]; eauto].
    intros (e & He & Ek). right. exists e. split; [done|]. split; [done|]. by intros k []. }
  cbn [map] in Hd. apply NoDup_cons_iff in Hd as [Hk Hd].
  destruct (reorder_one_effect mp k W (Hp k (or_introl eq_refl))) as [R (x0 & Hx0 & Hpe)].
  assert (Hin : forall y, In y (pelems (reorder_one mp k)) <->
      y = x0 \/ (In y (pelems mp) /\ ekey y <> meta_key (deleteKey k))).
  { intros y. rewrite <- in_without. split; intros Hy.
    - apply (Permutation_in _ Hpe) in Hy as [<-|Hy]; auto.
    - apply (Permutation_in _ (symmetry Hpe)). destruct Hy as [->|Hy]; [by left|by right]. }
  destruct (Hp k (or_introl eq_refl)) as (e0 & w0 & He0 & _ & Hd0 & Hi0 & Ht0).
  assert (Hkx0 : ekey x0 = meta_key (deleteKey k)).
  { unfold kv in Hx0. injection Hx0 as E _. unfold ekey. by rewrite E, Hi0, Hd0. }
  destruct (IH (reorder_one mp k) (rr_wf _ _ R) Hd) as [R' Hx].
  { intros k' Hk'. destruct (Hp k' (or_intror Hk')) as (e & w & He & Dw & Hde & Hie & Hte).
    exists e, w. split; [|done]. apply Hin. right. split; [done|].
    intros E. apply Hk. unfold rkey at 1. rewrite <- E. unfold ekey. rewrite <- Hde. by apply (in_map rkey). }
  split.
  { destruct R, R'. split; congruence || done. }
  intros x. rewrite Hx. clear Hx IH. split.
  - intros [(k' & Hk' & E)|(e & He & E & Hne)].
    + left. exists k'. split; [by right|done].
    + apply Hin in He as [->|[He Hek]].
      * left. exists k. split; [by left|congruence].
      * right. exists e. split; [done|]. split; [done|]. intros k' [<-|Hk']; auto.
  - intros [(k' & [<-|Hk'] & E)|(e & He & E & Hne)].
    + right. exists x0. split; [apply Hin; auto|]. split; [congruence|].
      intros k' Hk' E'. apply Hk. unfold rkey at 1. rewrite <- Hkx0, E'.
      by apply (in_map rkey).
    + left. eauto.
    + right. exists e. split; [apply Hin; right; split; [done|]; apply Hne; by left|].
      split; [done|]. intros k' Hk'. apply Hne. by right.
Qed.
End Facts.
