(* ===== verification/PriorityNonceIteration.v ===== *)
(** * Iterating over the priority-nonce mempool

    The iterator of [Select] visits every transaction exactly once and the transactions of one
    sender in the order of their nonces; the number of elements of the sender indices bounds
    the number of steps. *)
From S2P Require Import Prelude Sdk SkipListFacts PriorityNonce PriorityNonceFacts.
From Stdlib Require Import Sorting.Sorted.

Section Iteration.
Context {sdk : Sdk} {L : SkipListLib} {SL : SkipListLaws L}.
Context {C : Type} `{Countable C} (zero : C) {Pr : C -> Prop} `{!forall c, Decision (Pr c)}.

Abbreviation mempool := (PriorityNonceMempool (C := C)).
Abbreviation meta := (txMeta (C := C)).
Abbreviation elt := (Element meta Tx).
Abbreviation cursors := (gmap string (list elt)).
Abbreviation iterator := (PriorityNonceIterator (C := C)).

(** What is still to be visited of a sender. *)
Definition remaining (mp : mempool) (cs : cursors) (s : string) : list elt :=
  match cs !! s with None => selems mp s | Some c => tail c end.

(** The guard of [Next]: the element waits for the next priority node. *)
Definition waits (mp : mempool) (rest : list elt) (e : elt) : bool :=
  match rest with
  | [] => false
  | next :: _ =>
      let cmp := Compare (txp mp) (priority (e_key e)) (priority (e_key next)) in
      (cmp <? 0) ||
      (cmp =? 0) &&
      (Compare (txp mp) (score_weight zero mp (e_key e)) (weight (e_key next)) <? 0)
  end.

Definition node_priority (mp : mempool) (rest : list elt) : C :=
  match rest with next :: _ => priority (e_key next) | [] => MinValue (txp mp) end.

Lemma next_at_spec mp n rest cs cur k :
  next_at zero mp (n :: rest) cs cur (node_priority mp rest) k =
  match remaining mp cs cur with
  | [] => k tt
  | e :: r => if waits mp rest e then k tt
              else Some {| it_mempool := mp; priorityNode := n :: rest;
                           senderCursors := <[cur := e :: r]> cs; it_sender := cur;
                           nextPriority := node_priority mp rest |}
  end.
Proof.
  unfold next_at, remaining, selems, waits, node_priority, txp. cbn [tail].
  destruct (cs !! cur) as [[|x [|e r]]|]; cbn; try done.
  2: destruct (senderIndices mp !! cur) as [l|]; [|done]; destruct (sl_elements l) as [|e r]; [done|].
  all: destruct rest as [|m rest]; [done|];
    destruct (Compare _ (priority (e_key e)) _ <? 0), (Compare _ (priority (e_key e)) _ =? 0);
    cbn; try done; by destruct (_ <? 0).
Qed.

(** A sender none of whose nodes is left has nothing to be visited. *)
Definition no_leftover (mp : mempool) (cs : cursors) (nodes : list elt) : Prop :=
  forall s, (forall x, In x nodes -> sender (e_key x) <> s) -> remaining mp cs s = [].

(** Cursors are at suffixes of the sender's elements. *)
Definition cursors_ok (mp : mempool) (cs : cursors) : Prop :=
  forall s e, In e (remaining mp cs s) -> In e (selems mp s).

(** The iterator moved to the first remaining element of a sender. *)
Definition steps_to (mp : mempool) (cs : cursors) (i : iterator) : Prop :=
  exists n rest e r, remaining mp cs (sender (e_key n)) = e :: r /\
    i = {| it_mempool := mp; priorityNode := n :: rest;
           senderCursors := <[sender (e_key n) := e :: r]> cs; it_sender := sender (e_key n);
           nextPriority := node_priority mp rest |} /\
    (exists pre, pelems mp = pre ++ n :: rest) /\
    no_leftover mp (<[sender (e_key n) := e :: r]> cs) (n :: rest).

Section Run.
Context {mp : mempool} (W : wf (Pr := Pr) mp) (A : priorities_agree mp).

Lemma remaining_insert cs s e r s' :
  remaining mp (<[s := e :: r]> cs) s' = if decide (s = s') then r else remaining mp cs s'.
Proof.
  unfold remaining. rewrite lookup_insert. by case_decide.
Qed.

Lemma cursors_ok_insert cs s e r :
  cursors_ok mp cs -> remaining mp cs s = e :: r -> cursors_ok mp (<[s := e :: r]> cs).
Proof.
  intros Hc Hr s' x. rewrite remaining_insert. case_decide; [subst|apply Hc].
  intros Hx. apply Hc. rewrite Hr. by right.
Qed.

(** An element whose node comes before the next node does not wait. *)
Lemma processed_no_wait pre m rest s e :
  pelems mp = pre ++ m :: rest -> In e (selems mp s) ->
  (forall x, In x (m :: rest) -> sender (e_key x) <> s) -> waits mp (m :: rest) e = false.
Proof.
  intros Hp He Hs. destruct (wf_indexed _ W s e He) as [Hse (x & Hx & Ek)].
  assert (Hpre : In x pre).
  { rewrite Hp in Hx. apply in_app_iff in Hx as [|Hx]; [done|]. destruct (Hs x Hx).
    unfold ekey, meta_key in Ek. congruence. }
  destruct (wf_pindex _ W) as [O _ Hkeys Hsort _].
  assert (Hm : In m (pelems mp)) by (rewrite Hp; apply in_app_iff; right; by left).
  change (sl_elements (priorityIndex mp)) with (pelems mp) in Hsort. rewrite Hp in Hsort.
  assert (Hlt : elem_lt (porder (Pr := Pr) (txp mp)) x m).
  { clear - Hsort Hpre. unfold strict_sorted in Hsort. induction pre as [|y pre IH]; [done|].
    cbn in Hsort. apply StronglySorted_inv in Hsort as [H1 H2]. destruct Hpre as [->|Hpre]; [|auto].
    rewrite List.Forall_forall in H2. apply H2. apply in_app_iff. right. by left. }
  unfold elem_lt in Hlt. rewrite <- porder_agrees in Hlt by (by apply Hkeys).
  unfold skiplistComparable in Hlt. rewrite less_than_func in Hlt.
  rewrite <- (A s x e He Hx Ek) in Hlt.
  destruct (wf_score _ W x Hx) as (sc & Hsc & _ & Hw).
  assert (Hsw : score_weight zero mp (e_key e) = weight (e_key x)).
  { unfold score_weight. fold (meta_key (e_key e)). fold (ekey e). by rewrite <- Ek, Hsc. }
  unfold waits. rewrite Hsw.
  destruct (Compare (txp mp) (priority (e_key e)) (priority (e_key m)) =? 0) eqn:E1; cbn in Hlt.
  - destruct (Compare (txp mp) (weight (e_key x)) (weight (e_key m)) =? 0) eqn:E2; cbn in Hlt; lia.
  - lia.
Qed.

(** Leaving a node keeps [no_leftover]. *)
Lemma leave_node cs pre n rest :
  pelems mp = pre ++ n :: rest -> cursors_ok mp cs -> no_leftover mp cs (n :: rest) ->
  (forall e r, remaining mp cs (sender (e_key n)) = e :: r -> waits mp rest e = true) ->
  no_leftover mp cs rest.
Proof.
  intros Hp Hc Hl Hw s Hs. destruct (decide (sender (e_key n) = s)) as [<-|Hne].
  - destruct (remaining mp cs (sender (e_key n))) as [|e r] eqn:Hr; [done|].
    pose proof (Hw e r eq_refl) as Hwe. destruct rest as [|m rest]; [done|].
    rewrite (processed_no_wait (pre ++ [n]) m rest (sender (e_key n)) e) in Hwe; [done| | |done].
    + by rewrite <- app_assoc.
    + apply Hc. rewrite Hr. by left.
  - apply Hl. intros x [<-|Hx]; auto.
Qed.

Lemma iteratePriority_spec cs pre nodes :
  pelems mp = pre ++ nodes -> cursors_ok mp cs -> no_leftover mp cs nodes ->
  match iteratePriority zero mp cs nodes with
  | None => forall s, remaining mp cs s = []
  | Some i => steps_to mp cs i
  end.
Proof.
  revert pre. induction nodes as [|n rest IH]; intros pre Hp Hc Hl; cbn.
  { intros s. by apply Hl. }
  fold (txp mp). fold (node_priority mp rest). rewrite next_at_spec.
  destruct (remaining mp cs (sender (e_key n))) as [|e r] eqn:Hr.
  - apply (IH (pre ++ [n])); [by rewrite <- app_assoc|done|].
    apply (leave_node cs pre n rest); try done. intros e r. by rewrite Hr.
  - destruct (waits mp rest e) eqn:Hw.
    + apply (IH (pre ++ [n])); [by rewrite <- app_assoc|done|].
      apply (leave_node cs pre n rest); try done. intros e' r'. rewrite Hr. by intros [= <- <-].
    + exists n, rest, e, r. split; [done|]. split; [done|]. split; [by exists pre|].
      intros s Hs. rewrite remaining_insert. case_decide; [|by apply Hl].
      subst. destruct (Hs n (or_introl eq_refl) eq_refl).
Qed.

Lemma Next_spec cs i :
  steps_to mp cs i -> cursors_ok mp (senderCursors i) ->
  match Next zero i with
  | None => forall s, remaining mp (senderCursors i) s = []
  | Some i' => steps_to mp (senderCursors i) i'
  end.
Proof.
  intros (n & rest & e & r & Hr & -> & [pre Hp] & Hl) Hc. unfold Next. cbn [priorityNode
    it_mempool senderCursors it_sender nextPriority] in *. rewrite next_at_spec.
  destruct (remaining mp (<[sender (e_key n) := e :: r]> cs) (sender (e_key n))) as [|e' r'] eqn:Hr'.
  - apply (iteratePriority_spec _ (pre ++ [n])); [by rewrite <- app_assoc|done|].
    apply (leave_node _ pre n rest); try done. intros e' r'. by rewrite Hr'.
  - destruct (waits mp rest e') eqn:Hw.
    + apply (iteratePriority_spec _ (pre ++ [n])); [by rewrite <- app_assoc|done|].
      apply (leave_node _ pre n rest); try done. intros e1 r1. rewrite Hr'. by intros [= <- <-].
    + exists n, rest, e', r'. split; [done|]. split; [done|]. split; [by exists pre|].
      intros s Hs. rewrite remaining_insert. case_decide; [|by apply Hl].
      subst. destruct (Hs n (or_introl eq_refl) eq_refl).
Qed.

(** ** The whole run *)

(** The number of elements still to be visited. *)
Definition senders : list string := map fst (map_to_list (senderIndices mp)).
Definition todo (cs : cursors) : nat := sum_list_with (fun s => length (remaining mp cs s)) senders.

Lemma senders_NoDup : NoDup senders.
Proof. apply NoDup_fst_map_to_list. Qed.

Lemma in_senders s e : In e (selems mp s) -> s ∈ senders.
Proof.
  unfold selems, senders. destruct (senderIndices mp !! s) as [l|] eqn:E; [|done]. intros _.
  apply list_elem_of_fmap. exists (s, l). split; [done|]. by apply elem_of_map_to_list.
Qed.

Lemma sum_list_with_update (f g : string -> nat) s l :
  NoDup l -> s ∈ l -> f s = S (g s) -> (forall s', s' <> s -> f s' = g s') ->
  sum_list_with f l = S (sum_list_with g l).
Proof.
  intros Hd Hin Hs Hne. induction l as [|x l IH]; [by apply not_elem_of_nil in Hin|].
  apply list.NoDup_cons in Hd as [Hx Hd]. cbn. apply elem_of_cons in Hin as [->|Hin].
  - rewrite Hs. cbn. f_equal. f_equal. clear IH Hd.
    induction l as [|y l IH]; [done|]. cbn. rewrite Hne by set_solver. rewrite IH by set_solver. done.
  - rewrite IH by done. rewrite Hne by set_solver. lia.
Qed.

Lemma todo_step cs s e r : cursors_ok mp cs -> remaining mp cs s = e :: r ->
  todo cs = S (todo (<[s := e :: r]> cs)).
Proof.
  intros Hc Hr. apply (sum_list_with_update _ _ s); [apply senders_NoDup| | |].
  - apply (in_senders s e). apply Hc. rewrite Hr. by left.
  - rewrite Hr, remaining_insert, decide_True by done. done.
  - intros s' Hne. by rewrite remaining_insert, decide_False.
Qed.

(** The elements of a sender in a list. *)
Definition of_sender (s : string) (D : list elt) : list elt :=
  List.filter (fun e => bool_decide (sender (e_key e) = s)) D.

Lemma of_sender_cons s e D : of_sender s (e :: D) =
  if decide (sender (e_key e) = s) then e :: of_sender s D else of_sender s D.
Proof. unfold of_sender. cbn. case_bool_decide; by case_decide. Qed.

(** From an iterator on, the run visits the current element and what remains, sender by
    sender in order. *)
Lemma drain_spec fuel cs i :
  cursors_ok mp cs -> steps_to mp cs i -> (todo cs <= fuel)%nat ->
  exists D, drain zero fuel (Some i) = map e_value D /\
    forall s, of_sender s D = remaining mp cs s.
Proof.
  revert cs i. induction fuel as [|fuel IH]; intros cs i Hc Hi Hf.
  { exfalso. destruct Hi as (n & rest & e & r & Hr & _).
    rewrite (todo_step cs _ e r Hc Hr) in Hf. lia. }
  pose proof Hi as (n & rest & e & r & Hr & Ei & _).
  assert (Hcs : senderCursors i = <[sender (e_key n) := e :: r]> cs) by (subst i; done).
  assert (Hc' : cursors_ok mp (senderCursors i)) by (rewrite Hcs; by apply cursors_ok_insert).
  assert (Hse : sender (e_key e) = sender (e_key n)).
  { apply (wf_indexed _ W). apply Hc. rewrite Hr. by left. }
  assert (Htx : it_Tx i = Some (e_value e))
    by (subst i; unfold it_Tx; cbn; by rewrite lookup_insert_eq).
  cbn [drain]. rewrite Htx. cbn.
  pose proof (Next_spec cs i Hi Hc') as HN. destruct (Next zero i) as [i'|].
  - destruct (IH (senderCursors i) i' Hc' HN) as (D & HD & Hs).
    { rewrite (todo_step cs _ e r) in Hf by done. rewrite Hcs. lia. }
    exists (e :: D). split; [cbn; by rewrite HD|]. intros s.
    rewrite of_sender_cons, Hs, Hcs, Hse, remaining_insert. case_decide; [|done].
    subst. by rewrite Hr.
  - exists [e]. split; [cbn; by destruct fuel|]. intros s.
    rewrite of_sender_cons, Hse. specialize (HN s). rewrite Hcs, remaining_insert in HN.
    case_decide; subst; by rewrite ?Hr, ?HN.
Qed.

Lemma sender_elements_todo : length (sender_elements mp) = todo ∅.
Proof.
  unfold sender_elements, todo, senders.
  assert (Hl : forall l, (forall s sl, In (s, sl) l -> senderIndices mp !! s = Some sl) ->
    length (concat (map (fun sl => sl_elements (snd sl)) l))
    = sum_list_with (fun s => length (remaining mp ∅ s)) (map fst l)).
  { intros l. induction l as [|[s sl] l IH]; intros Hl; [done|]. cbn.
    rewrite length_app, IH by (intros; apply Hl; by right). f_equal.
    unfold remaining, selems. by rewrite lookup_empty, (Hl s sl (or_introl eq_refl)). }
  apply Hl. intros s sl Hin. apply elem_of_map_to_list. by apply list_elem_of_In.
Qed.

Lemma iterate_all :
  exists D, drain zero (S (length (sender_elements mp)))
      (iteratePriority zero mp ∅ (pelems mp)) = map e_value D /\
    forall s, of_sender s D = selems mp s.
Proof.
  assert (Hc : cursors_ok mp ∅) by (intros s e; unfold remaining; by rewrite lookup_empty).
  assert (Hr : forall s, remaining mp ∅ s = selems mp s)
    by (intros s; unfold remaining; by rewrite lookup_empty).
  assert (Hl : no_leftover mp ∅ (pelems mp)).
  { intros s Hs. rewrite Hr. destruct (selems mp s) as [|e l] eqn:E; [done|].
    destruct (wf_indexed _ W s e) as [Hse (x & Hx & Ek)]; [rewrite E; by left|].
    destruct (Hs x Hx). unfold ekey, meta_key in Ek. congruence. }
  pose proof (iteratePriority_spec ∅ [] (pelems mp) eq_refl Hc Hl) as HI.
  destruct (iteratePriority zero mp ∅ (pelems mp)) as [i|].
  - destruct (drain_spec (S (length (sender_elements mp))) ∅ i Hc HI) as (D & HD & Hs).
    { rewrite sender_elements_todo. lia. }
    exists D. split; [done|]. intros s. by rewrite Hs, Hr.
  - exists []. split; [done|]. intros s. cbn. rewrite <- Hr. by rewrite HI.
Qed.
End Run.
End Iteration.
