(* ===== verification/PriorityNonceProps.v ===== *)
(** * The contract of the priority-nonce mempool

    The abstract mempool is a finite map from (nonce, sender) to a priority and a transaction.
    Every method refines an operation on the map, for any sequence of calls, and an iteration
    visits the map's transactions exactly once. *)
From S2P Require Import Prelude Sdk SkipListFacts Concrete PriorityNonce PriorityNonceFacts PriorityNonceIteration.
From Stdlib Require Import Sorting.Sorted.

Section Abstract.
Context {sdk : Sdk} {L : SkipListLib} {SL : SkipListLaws L}.
Context {C : Type} `{Countable C} (zero : C) {Pr : C -> Prop} `{!forall c, Decision (Pr c)}.

Abbreviation mempool := (PriorityNonceMempool (C := C)).
Abbreviation elt := (Element (txMeta (C := C)) Tx).
Abbreviation amap := (gmap (Z * string) (C * Tx)).
Abbreviation config := (PriorityNonceMempoolConfig (C := C)).
Abbreviation wf := (wf (Pr := Pr)).

(** ** The abstract mempool *)

Definition entry (e : elt) : (Z * string) * (C * Tx) :=
  (ekey e, (priority (e_key e), e_value e)).
Definition model (mp : mempool) : amap := list_to_map (map entry (pelems mp)).

Definition tx_key (sig : SignatureV2) : Z * string :=
  (Sequence sig, AccAddress_String (PubKey_Address sig)).

(** The replacement rule against what is stored under the key. *)
Definition rule_accepts (c : config) (old : option (C * Tx)) (p : C) (tx : Tx) : bool :=
  match TxReplacement c, old with
  | Some rule, Some (p0, tx0) => rule p0 p tx0 tx
  | _, _ => true
  end.

Definition spec_Insert (c : config) (ctx : Context) (tx : Tx) : ST amap (option error) := fun M =>
  if (0 <? MaxTx c) && (MaxTx c <=? Z.of_nat (size M)) then (Ret (Some ErrMempoolTxMaxCapacity), M)
  else if MaxTx c <? 0 then (Ret None, M)
  else match first_signature "tx must have at least one signer" tx with
  | Panic w => (Panic w, M)
  | Ret (Err err) => (Ret (Some err), M)
  | Ret (Ok sig) =>
      match GetTxPriority (cfg_TxPriority c) ctx tx with
      | Panic w => (Panic w, M)
      | Ret p =>
          if rule_accepts c (M !! tx_key sig) p tx then (Ret None, <[tx_key sig := (p, tx)]> M)
          else (Ret (Some (Errorf "tx doesn't fit the replacement rule")), M)
      end
  end.

Definition spec_Remove (tx : Tx) : ST amap (option error) := fun M =>
  match first_signature "attempted to remove a tx with no signatures" tx with
  | Panic w => (Panic w, M)
  | Ret (Err err) => (Ret (Some err), M)
  | Ret (Ok sig) =>
      match M !! tx_key sig with
      | None => (Ret (Some ErrTxNotFound), M)
      | Some _ => (Ret None, delete (tx_key sig) M)
      end
  end.

(** ** Runs *)

(** A caller's use of the mempool: the iterations of [Select] reorder ties. *)
Inductive op : Type :=
| OpInsert (ctx : Context) (tx : Tx)
| OpRemove (tx : Tx)
| OpSelect.

Definition run_op (o : op) : ST mempool (option error) :=
  match o with
  | OpInsert ctx tx => Insert zero ctx tx
  | OpRemove tx => Remove tx
  | OpSelect => fun mp => (Ret None, snd (Select zero mp))
  end.

Definition spec_op (c : config) (o : op) : ST amap (option error) :=
  match o with
  | OpInsert ctx tx => spec_Insert c ctx tx
  | OpRemove tx => spec_Remove tx
  | OpSelect => mret None
  end.

(** The results of the calls, a panic included, and the final state. *)
Fixpoint run {S R} (step : op -> ST S R) (ops : list op) (s : S) : list (outcome R) * S :=
  match ops with
  | [] => ([], s)
  | o :: ops =>
      let '(r, s) := step o s in
      let '(rs, s) := run step ops s in
      (r :: rs, s)
  end.

(** No insertion of the run replaces a transaction by one with another priority. *)
Definition keeps_priority (c : config) (M : amap) (o : op) : Prop :=
  match o with
  | OpInsert ctx tx => forall sig p p0 tx0,
      first_signature "tx must have at least one signer" tx = Ret (Ok sig) ->
      GetTxPriority (cfg_TxPriority c) ctx tx = Ret p ->
      M !! tx_key sig = Some (p0, tx0) -> p0 = p
  | _ => True
  end.

Fixpoint run_keeps_priority (c : config) (ops : list op) (M : amap) : Prop :=
  match ops with
  | [] => True
  | o :: ops => keeps_priority c M o /\ run_keeps_priority c ops (snd (spec_op c o M))
  end.

(** The priorities of the inserted transactions are in the domain of the comparator. *)
Definition op_in_domain (tp : TxPriority (C := C)) (o : op) : Prop :=
  match o with OpInsert ctx tx => in_domain (Pr := Pr) tp ctx tx | _ => True end.

(** What a complete visit of a map is: every entry once, those of a sender by nonce. *)
Record visits (M : amap) (D : list ((Z * string) * Tx)) : Prop := {
  visits_once : NoDup (map fst D);
  visits_all k tx : In (k, tx) D <-> exists p, M !! k = Some (p, tx);
  visits_nonces s : StronglySorted (fun a b => a.1.1 < b.1.1)
    (List.filter (fun x => bool_decide (x.1.2 = s)) D) }.

(** ** The model of a well-formed mempool *)

Lemma wf_keys_NoDup (mp : mempool) : wf mp -> NoDup (map ekey (pelems mp)).
Proof.
  intros W. destruct (wf_pindex _ W) as [O _ _ Hs _].
  pose proof (strict_sorted_NoDup O _ Hs) as Hd. fold (pelems mp) in Hd.
  pose proof (wf_pelem_unique W) as Hu.
  induction (pelems mp) as [|e l IH]; cbn; [constructor|].
  apply NoDup_cons_iff in Hd as [He Hd]. constructor.
  - intros Hin. apply list_elem_of_In, in_map_iff in Hin as (e' & Ek & Hin).
    apply He. rewrite (Hu e e'); [done|by left|by right|done].
  - apply IH; [done|]. intros e1 e2 H1 H2. apply Hu; by right.
Qed.

Lemma map_entry_keys (l : list elt) : (map entry l).*1 = map ekey l.
Proof. induction l; cbn; congruence. Qed.

Lemma model_lookup (mp : mempool) k p tx : wf mp ->
  model mp !! k = Some (p, tx) <->
  exists e, In e (pelems mp) /\ ekey e = k /\ priority (e_key e) = p /\ e_value e = tx.
Proof.
  intros W. unfold model. rewrite <- elem_of_list_to_map
    by (rewrite map_entry_keys; by apply wf_keys_NoDup).
  rewrite list_elem_of_In, in_map_iff. unfold entry. split.
  - intros (e & [= <- <- <-] & He). eauto.
  - intros (e & He & <- & <- & <-). eauto.
Qed.

Lemma model_scores (mp : mempool) k : wf mp -> model mp !! k = None <-> scores mp !! k = None.
Proof.
  intros W. split; intros Hk.
  - destruct (scores mp !! k) as [sc|] eqn:Hs; [|done].
    destruct (wf_scored _ W _ _ Hs) as (e & He & Ek).
    assert (model mp !! k = Some (priority (e_key e), e_value e))
      by (apply model_lookup; eauto). congruence.
  - destruct (model mp !! k) as [[p tx]|] eqn:Hm; [|done].
    apply (model_lookup _ _ _ _ W) in Hm as (e & He & <- & _).
    destruct (wf_score _ W e He) as (sc & Hs & _). congruence.
Qed.

Lemma model_size (mp : mempool) : wf mp -> Z.of_nat (size (model mp)) = CountTx mp.
Proof.
  intros W. unfold CountTx. rewrite sl_len. fold (pelems mp). unfold model, len. f_equal.
  rewrite <- (length_map entry), <- length_map_to_list.
  apply Permutation_length, map_to_list_to_map. rewrite map_entry_keys. by apply wf_keys_NoDup.
Qed.

Lemma model_ext (mp mp' : mempool) : wf mp -> wf mp' ->
  (forall x, In x (map entry (pelems mp)) <-> In x (map entry (pelems mp'))) ->
  model mp = model mp'.
Proof.
  intros W W' Hx.
  assert (Hl : forall k x, model mp !! k = Some x <-> model mp' !! k = Some x).
  { intros k x. unfold model.
    rewrite <- !elem_of_list_to_map by (rewrite map_entry_keys; by apply wf_keys_NoDup).
    rewrite !list_elem_of_In. apply Hx. }
  apply map_eq. intros k. destruct (model mp !! k) as [x|] eqn:E.
  - symmetry. by apply Hl.
  - destruct (model mp' !! k) as [x|] eqn:E'; [|done]. apply Hl in E'. congruence.
Qed.

Lemma model_without (mp mp' : mempool) k : wf mp -> wf mp' ->
  pelems mp' = without k (pelems mp) -> model mp' = delete k (model mp).
Proof.
  intros W W' Hp. apply map_eq. intros k'. apply option_eq. intros [p tx].
  rewrite model_lookup, lookup_delete_Some, model_lookup, Hp by done.
  setoid_rewrite in_without. split.
  - intros (e & [He Hne] & <- & ?). split; [done|eauto].
  - intros (Hne & e & He & <- & ?). exists e. split; [split; [done|congruence]|done].
Qed.

Lemma model_insert (mp mp' : mempool) k p tx el x : wf mp -> wf mp' ->
  insert_post (Pr := Pr) zero mp mp' k p tx el x -> model mp' = <[k := (p, tx)]> (model mp).
Proof.
  intros W W' Po. destruct (io_x _ _ _ _ _ _ _ _ Po) as (Ek & Ep & _ & Ev & _).
  assert (Hin : forall y, In y (pelems mp') <-> y = x \/ (In y (pelems mp) /\ ekey y <> k)).
  { intros y. rewrite <- in_without. pose proof (io_pelems _ _ _ _ _ _ _ _ Po) as P.
    split; intros Hy.
    - apply (Permutation_in _ P) in Hy as [<-|Hy]; auto.
    - apply (Permutation_in _ (symmetry P)). destruct Hy as [->|Hy]; [by left|by right]. }
  apply map_eq. intros k'. apply option_eq. intros [q t].
  rewrite model_lookup, lookup_insert_Some, model_lookup by done. split.
  - intros (e & He & Ek' & Ep' & Ev'). apply Hin in He as [->|[He Hne]].
    + left. split; [congruence|]. congruence.
    + right. split; [congruence|eauto].
  - intros [[<- [= <- <-]]|(Hne & e & He & <- & ?)].
    + exists x. rewrite Hin. auto.
    + exists e. rewrite Hin. split; [right; split; [done|congruence]|done].
Qed.

(** ** Insert and Remove *)

(** The result of [Insert] is the one of the abstract operation. *)
Lemma Insert_result ctx tx (mp : mempool) : wf mp -> in_domain (Pr := Pr) (txp mp) ctx tx ->
  fst (Insert zero ctx tx mp) = fst (spec_Insert (cfg mp) ctx tx (model mp)).
Proof.
  intros W Hd. unfold Insert, spec_Insert. rewrite (model_size mp W).
  destruct ((0 <? MaxTx (cfg mp)) && _); [done|]. destruct (MaxTx (cfg mp) <? 0); [done|].
  destruct (first_signature _ tx) as [[sig|err]|w]; [|done..].
  destruct (GetTxPriority (cfg_TxPriority (cfg mp)) ctx tx) as [p|w] eqn:Hp; [|done].
  cbn [scores set_senderIndex cfg]. fold (tx_key sig).
  fold (index_for mp (AccAddress_String (PubKey_Address sig))).
  destruct (scores mp !! tx_key sig) as [sc|] eqn:Hk.
  - destruct (wf_sender_get zero mp _ _ p sc W (Hd p Hp) Hk) as (e & e' & He & Ek & Hpr & Hv & Hg).
    assert (model mp !! tx_key sig = Some (priority sc, e_value e')) as ->
      by (apply model_lookup; [done|]; exists e; by rewrite Ek).
    unfold rule_accepts. destruct (TxReplacement (cfg mp)) as [rule|]; [|done].
    rewrite Hg. by destruct (rule _ _ _ _).
  - apply (model_scores mp _ W) in Hk. rewrite Hk. unfold rule_accepts.
    by destruct (TxReplacement (cfg mp)).
Qed.

(** A run of the abstract insertion that does not insert keeps the map. *)
Lemma spec_Insert_keeps c ctx tx M :
  snd (spec_Insert c ctx tx M) = M \/
  (0 <= MaxTx c /\ ~ (0 < MaxTx c <= Z.of_nat (size M)) /\
   fst (spec_Insert c ctx tx M) = Ret None).
Proof.
  unfold spec_Insert. destruct (_ && _) eqn:E; [by left|]. destruct (MaxTx c <? 0) eqn:E2; [by left|].
  destruct (first_signature _ tx) as [[sig|err]|w]; [|by left..].
  destruct (GetTxPriority _ ctx tx); [|by left].
  destruct (rule_accepts _ _ _ _); [right|by left]. split; [lia|]. split; [lia|done].
Qed.

Lemma Insert_step ctx tx (mp : mempool) : Pr zero -> wf mp -> in_domain (Pr := Pr) (txp mp) ctx tx ->
  let '(r, mp') := Insert zero ctx tx mp in
  wf mp' /\ cfg mp' = cfg mp /\ spec_Insert (cfg mp) ctx tx (model mp) = (r, model mp').
Proof.
  intros Dz W Hd. pose proof (Insert_result ctx tx mp W Hd) as Hr.
  destruct (Insert_cases zero ctx tx mp Dz W Hd)
    as [(r & mp' & HI & W' & Hc & Hp & _ & _ & Hn)|(sig & p & mp' & el & x & HI & Hs & Hp & H1 & H2 & Po)].
  - rewrite HI in *. cbn in Hr. split; [done|]. split; [done|].
    rewrite (surjective_pairing (spec_Insert _ _ _ _)), <- Hr. f_equal.
    unfold model at 2. rewrite Hp. fold (model mp).
    destruct (spec_Insert_keeps (cfg mp) ctx tx (model mp)) as [|(H1 & H2 & H3)]; [done|].
    rewrite <- Hr in H3. apply Hn in H3. lia.
  - rewrite HI in *. cbn in Hr. fold (tx_key sig) in Po.
    assert (W' : wf mp') by (by eapply insert_post_wf).
    split; [done|]. split; [apply (io_cfg _ _ _ _ _ _ _ _ Po)|].
    rewrite (model_insert mp mp' _ _ _ _ _ W W' Po).
    revert Hr. unfold spec_Insert. rewrite (model_size mp W).
    replace ((0 <? MaxTx (cfg mp)) && _) with false by lia.
    replace (MaxTx (cfg mp) <? 0) with false by lia. rewrite Hs. unfold txp in Hp. rewrite Hp.
    by destruct (rule_accepts _ _ _ _).
Qed.

Lemma Remove_step tx (mp : mempool) : wf mp ->
  let '(r, mp') := Remove tx mp in
  wf mp' /\ cfg mp' = cfg mp /\ spec_Remove tx (model mp) = (r, model mp').
Proof.
  intros W.
  destruct (first_signature "attempted to remove a tx with no signatures" tx)
    as [[sig|err]|w] eqn:Hs; cycle 1.
  1,2: unfold Remove, spec_Remove; rewrite Hs; auto.
  destruct (scores mp !! tx_key sig) as [sc|] eqn:Hk.
  - destruct (Remove_ok tx mp sig W Hs) as (mp' & e & -> & Po); [by eexists|].
    pose proof (ro_wf _ _ _ _ Po) as W'. split; [done|]. split; [apply (ro_cfg _ _ _ _ Po)|].
    unfold spec_Remove. rewrite Hs. rewrite (model_without mp mp' (tx_key sig)); try done.
    2: apply (ro_pelems _ _ _ _ Po).
    destruct (model mp !! tx_key sig) eqn:Hm; [done|]. apply (model_scores mp _ W) in Hm. congruence.
  - unfold Remove, spec_Remove. rewrite Hs. fold (tx_key sig).
    rewrite (proj2 (model_scores mp _ W) Hk), Hk. auto.
Qed.

(** ** Select *)

Lemma from_pointer_in q (l : list elt) e : In e (from_pointer q l) -> In e l.
Proof.
  induction l as [|y l IH]; destruct q as [id|]; cbn; try done.
  destruct (Nat.eqb _ _); [done|]. intros He. right. by apply IH.
Qed.

Lemma senderWeight_domain tp (l : list elt) : PriorityOrder Pr tp ->
  (forall e, In e l -> Pr (priority (e_key e))) -> Pr (senderWeight tp l).
Proof.
  intros O. destruct l as [|e l]; cbn; [intros _; apply (po_min _ _ O)|]. intros Hl.
  assert (Hw : Pr (priority (e_key e))) by auto. revert Hw.
  assert (Hl' : forall x, In x l -> Pr (priority (e_key x))) by auto. clear Hl.
  unfold weight_loop. generalize (priority (e_key e)) as w.
  induction l as [|x l IH]; intros w Hw; cbn; [done|].
  apply IH; [intros y Hy; apply Hl'; by right|]. destruct (negb _); [apply Hl'; by left|done].
Qed.

Lemma sender_cursor_domain (mp : mempool) key e : wf mp -> In e (sender_cursor mp key) ->
  Pr (priority (e_key e)).
Proof.
  intros W. unfold sender_cursor. destruct (senderIndices mp !! sender key) as [l|] eqn:E; [|done].
  intros He%from_pointer_in. by apply (ok_keys _ _ _ (wf_sindex _ W _ l E)).
Qed.

Lemma reordering_pending (mp : mempool) k : wf mp -> In k (reordering mp) ->
  reorder_pending (Pr := Pr) mp k.
Proof.
  intros W. unfold reordering. intros (e & He & Hk)%in_flat_map.
  destruct (1 <? _); [|done]. destruct Hk as [<-|[]].
  exists e. eexists. split; [exact He|]. split; [|split; [done|]; split; done].
  apply senderWeight_domain; [apply (wf_order _ W)|]. intros x. by apply sender_cursor_domain.
Qed.

Lemma reordering_keys (mp : mempool) : wf mp -> List.NoDup (map rkey (reordering mp)).
Proof.
  intros W. pose proof (wf_keys_NoDup mp W) as Hd. apply NoDup_ListNoDup in Hd.
  unfold reordering. fold (pelems mp).
  induction (pelems mp) as [|e l IH]; cbn; [constructor|].
  apply NoDup_cons_iff in Hd as [He Hd]. destruct (1 <? _); [|auto].
  cbn. constructor; [|auto]. intros Hin. apply He.
  apply in_map_iff in Hin as (k & Ek & Hin). apply in_flat_map in Hin as (e' & He' & Hk).
  destruct (1 <? _); [|done]. destruct Hk as [<-|[]]. apply in_map_iff. exists e'. done.
Qed.

Lemma kv_entry (e : elt) m t : kv e = (m, t) -> entry e = (meta_key m, (priority m, t)).
Proof. unfold kv, entry, ekey. by intros [= -> ->]. Qed.

Lemma reorderPriorityTies_effect (mp : mempool) : wf mp ->
  reorder_post (Pr := Pr) mp (reorderPriorityTies mp) /\
  (forall x, In x (map entry (pelems (reorderPriorityTies mp))) <-> In x (map entry (pelems mp))).
Proof.
  intros W.
  destruct (reorder_fold_effect (reordering mp) mp W (reordering_keys mp W)) as [R Hx].
  { intros k. by apply reordering_pending. }
  fold (reorderPriorityTies mp) in R, Hx. split; [done|].
  assert (Hk : forall k, In k (reordering mp) -> exists e, In e (pelems mp) /\
    deleteKey k = e_key e /\ ekey e = meta_key (insertKey k) /\
    entry e = (meta_key (insertKey k), (priority (insertKey k), rk_tx k))).
  { intros k Hkin. destruct (reordering_pending mp k W Hkin) as (e & w & He & _ & Hd & Hi & Ht). exists e.
    rewrite Hi. unfold entry, ekey, with_weight, meta_key. cbn. rewrite Ht. done. }
  intros x. rewrite !in_map_iff. split.
  - intros (e & <- & He).
    destruct (proj1 (Hx (kv e)) (ex_intro _ e (conj He eq_refl))) as [(k & Hkin & E)|(e0 & He0 & E & _)].
    + destruct (Hk k Hkin) as (e0 & He0 & _ & _ & E0). exists e0. split; [|done].
      rewrite E0. by rewrite (kv_entry e _ _ (eq_sym E)).
    + exists e0. split; [|done]. by rewrite (kv_entry e _ _ (eq_sym E)).
  - intros (e & <- & He).
    destruct (decide (ekey e ∈ map rkey (reordering mp))) as [Hin|Hno].
    + apply list_elem_of_In, in_map_iff in Hin as (k & Ek & Hkin).
      destruct (Hk k Hkin) as (e0 & He0 & Hd0 & Ek0 & E0).
      assert (e = e0) as -> by (apply (wf_pelem_unique W); [done..|]; rewrite <- Ek; unfold rkey; by rewrite Hd0).
      destruct (proj2 (Hx (insertKey k, rk_tx k))) as (y & Hy & Ey); [left; eauto|].
      exists y. split; [|done]. by rewrite E0, (kv_entry y _ _ Ey).
    + destruct (proj2 (Hx (kv e))) as (y & Hy & Ey).
      * right. exists e. split; [done|]. split; [done|]. intros k Hkin E. apply Hno.
        apply list_elem_of_In, in_map_iff. exists k. done.
      * exists y. split; [|done]. by rewrite (kv_entry y _ _ Ey).
Qed.

Lemma Select_step (mp : mempool) : wf mp ->
  let mp' := snd (Select zero mp) in
  wf mp' /\ cfg mp' = cfg mp /\ model mp' = model mp.
Proof.
  intros W. unfold Select. destruct (_ =? 0); [done|]. cbn [snd].
  destruct (reorderPriorityTies_effect mp W) as [[W' Hc _ _] Hx].
  split; [done|]. split; [done|]. apply model_ext; [done..|]. intros x. apply Hx.
Qed.

Lemma op_step o (mp : mempool) : Pr zero -> wf mp -> op_in_domain (txp mp) o ->
  let '(r, mp') := run_op o mp in
  wf mp' /\ cfg mp' = cfg mp /\ spec_op (cfg mp) o (model mp) = (r, model mp').
Proof.
  intros Dz W Hd. destruct o as [ctx tx|tx|]; [by apply Insert_step|by apply Remove_step|].
  cbn. destruct (Select_step mp W) as (W' & Hc & Hm). split; [done|]. split; [done|].
  by rewrite Hm.
Qed.

(** ** The priorities of the two indices *)

Lemma insert_agree (mp mp' : mempool) k p tx el x : wf mp -> wf mp' -> priorities_agree mp ->
  insert_post (Pr := Pr) zero mp mp' k p tx el x ->
  (forall p0 tx0, model mp !! k = Some (p0, tx0) -> p0 = p) -> priorities_agree mp'.
Proof.
  intros W W' A Po Hk.
  destruct (io_x _ _ _ _ _ _ _ _ Po) as (Ex & Px & _). destruct (io_el _ _ _ _ _ _ _ _ Po) as (Eel & _ & Pel).
  assert (Hel : priority (e_key el) = p).
  { destruct (List.find _ _) as [old|] eqn:F; [|done]. rewrite Pel.
    apply find_some in F as [Ho Eo]. apply Z.eqb_eq in Eo.
    destruct (wf_indexed _ W _ _ Ho) as [Hs (e0 & He0 & E0)].
    assert (Hok : ekey old = k) by (destruct k; unfold ekey, meta_key; cbn in *; congruence).
    assert (Hp : priority (e_key old) = p).
    { rewrite (A _ _ _ Ho He0 E0). apply (Hk _ (e_value e0)). apply model_lookup; [done|].
      exists e0. split; [done|]. split; [congruence|done]. }
    by destruct (sl_rekey_spec _ (e_key old)
      {| nonce := k.1; priority := p; sender := k.2; weight := zero; senderElement := None |}) as [->| ->]. }
  assert (Hin : forall y, In y (pelems mp') -> y = x \/ (In y (pelems mp) /\ ekey y <> k)).
  { intros y Hy. rewrite <- in_without. apply (Permutation_in _ (io_pelems _ _ _ _ _ _ _ _ Po)) in Hy.
    destruct Hy; auto. }
  intros s e e' He' He E. apply (Permutation_in _ (io_selems _ _ _ _ _ _ _ _ Po s)) in He'.
  assert (Hcase : e' = el \/ (In e' (selems mp s) /\ ekey e' <> k)).
  { case_decide as Hs; [destruct He' as [<-|He']; [by left|]|].
    - right. apply filter_In in He' as [H1 H2]. split; [done|]. intros <-. cbn in H2. lia.
    - right. split; [done|]. intros <-. destruct (wf_indexed _ W _ _ He') as [Hs' _]. done. }
  destruct Hcase as [->|[He0 Hne]]; destruct (Hin e He) as [->|[He1 Hne1]]; try congruence.
  by apply (A s).
Qed.

Lemma Select_agree (mp : mempool) : wf mp -> priorities_agree mp ->
  priorities_agree (snd (Select zero mp)).
Proof.
  intros W A. unfold Select. destruct (_ =? 0); [done|]. cbn.
  destruct (reorderPriorityTies_effect mp W) as [[_ _ Hs _] Hx].
    intros s e e' He' He E. unfold selems in He'. rewrite Hs in He'.
    pose proof (proj1 (Hx (entry e)) (in_map _ _ _ He)) as He1.
    apply in_map_iff in He1 as (e1 & E1 & He1). pose proof (f_equal fst E1) as K1. pose proof (f_equal (fun y => y.2.1) E1) as P1. cbn in K1, P1.
    rewrite <- P1. apply (A s); [done..|congruence].
Qed.

Lemma op_agree o (mp : mempool) : Pr zero -> wf mp -> op_in_domain (txp mp) o ->
  priorities_agree mp -> keeps_priority (cfg mp) (model mp) o -> priorities_agree (snd (run_op o mp)).
Proof.
  intros Dz W Hd A Hk. destruct o as [ctx tx|tx|]; cbn.
  - pose proof (Insert_step ctx tx mp Dz W Hd) as HS.
    destruct (Insert_cases zero ctx tx mp Dz W Hd)
      as [(r & mp' & HI & W' & Hc & Hp & Hs & _)|(sig & p & mp' & el & x & HI & Hs & Hp & _ & _ & Po)];
      rewrite HI in *; cbn.
    + intros s e e'. rewrite Hp, Hs. apply A.
    + destruct HS as [W' _]. apply (insert_agree mp mp' _ p tx el x W W' A Po).
      intros p0 tx0. by apply (Hk sig p p0 tx0).
  - destruct (Remove_cases tx mp W) as [(r & -> & _)|(sig & mp' & e0 & -> & _ & Po)]; [done|].
    cbn. intros s e e' He' He E. rewrite (ro_pelems _ _ _ _ Po) in He. apply in_without in He as [He _].
    rewrite (ro_selems _ _ _ _ Po) in He'. case_decide.
    + apply filter_In in He' as [He' _]. by apply (A s).
    + by apply (A s).
  - by apply Select_agree.
Qed.
(** What holds of every state of a run. *)
Lemma run_wf ops (mp : mempool) : Pr zero -> wf mp -> Forall (op_in_domain (txp mp)) ops ->
  let '(rs, mp') := run run_op ops mp in
  wf mp' /\ cfg mp' = cfg mp /\ run (spec_op (cfg mp)) ops (model mp) = (rs, model mp').
Proof.
  intros Dz. revert mp. induction ops as [|o ops IH]; intros mp W; cbn; [done|].
  intros [Hd Hds]%Forall_cons_1.
  pose proof (op_step o mp Dz W Hd) as HS. destruct (run_op o mp) as [r mp1].
  destruct HS as (W1 & C1 & ->). specialize (IH mp1 W1). unfold txp in IH; rewrite C1 in IH. specialize (IH Hds).
  destruct (run run_op ops mp1) as [rs mp2]. destruct IH as (W2 & C2 & ->).
  split; [done|]. split; [congruence|done].
Qed.

Lemma run_agree ops (mp : mempool) : Pr zero -> wf mp -> Forall (op_in_domain (txp mp)) ops ->
  priorities_agree mp ->
  run_keeps_priority (cfg mp) ops (model mp) -> priorities_agree (snd (run run_op ops mp)).
Proof.
  intros Dz. revert mp. induction ops as [|o ops IH]; intros mp W Hds A; cbn; [done|]. intros [Hk Hr].
  apply Forall_cons_1 in Hds as [Hd Hds].
  pose proof (op_agree o mp Dz W Hd A Hk) as A1. pose proof (op_step o mp Dz W Hd) as HS.
  destruct (run_op o mp) as [r mp1]. destruct HS as (W1 & C1 & HS). rewrite HS in Hr. cbn in *.
  specialize (IH mp1 W1). unfold txp in IH; rewrite C1 in IH. specialize (IH Hds A1 Hr).
  by destruct (run run_op ops mp1).
Qed.

Lemma NewPriorityMempool_agree c : priorities_agree (NewPriorityMempool (C := C) c).
Proof. intros s e e'. unfold selems. cbn. by rewrite lookup_empty. Qed.

Lemma NewPriorityMempool_model c : model (NewPriorityMempool (C := C) c) = ∅.
Proof. unfold model, pelems. cbn. by rewrite sl_elements_new. Qed.

(** ** The sequence an iteration visits *)

Definition item (e : elt) : (Z * string) * Tx := (ekey e, e_value e).

Lemma filter_map_swap {A B} (f : A -> B) (P : B -> bool) l :
  List.filter P (map f l) = map f (List.filter (fun x => P (f x)) l).
Proof. induction l as [|x l IH]; cbn; [done|]. destruct (P (f x)); cbn; by rewrite IH. Qed.

Lemma StronglySorted_map {A B} (f : A -> B) (R : B -> B -> Prop) l :
  StronglySorted (fun x y => R (f x) (f y)) l -> StronglySorted R (map f l).
Proof.
  induction 1 as [|x l _ IH Hx]; cbn; constructor; [done|]. by apply List.Forall_map.
Qed.

Lemma selems_sorted (mp : mempool) s : wf mp ->
  StronglySorted (fun a b : elt => nonce (e_key a) < nonce (e_key b)) (selems mp s).
Proof.
  intros W. unfold selems. destruct (senderIndices mp !! s) as [l|] eqn:E; [|constructor].
  destruct (wf_sindex _ W s l E) as [_ _ _ Hs _].
  unfold strict_sorted in Hs. induction Hs as [|x k _ IH Hx]; constructor; [done|].
  eapply List.Forall_impl; [|exact Hx]. intros y Hy. unfold elem_lt in Hy.
  rewrite senderComparable_spec in Hy. lia.
Qed.

Lemma selems_model (mp : mempool) e : wf mp -> In e (selems mp (sender (e_key e))) ->
  exists p, model mp !! ekey e = Some (p, e_value e).
Proof.
  intros W He. destruct (wf_indexed _ W _ _ He) as [_ (x & Hx & Ek)].
  destruct (wf_sender _ W x Hx) as (e' & He' & _ & Ek' & Hv).
  assert (Hs : sender (e_key x) = sender (e_key e)) by (unfold ekey, meta_key in Ek; congruence).
  assert (Hn : nonce (e_key e') = nonce (e_key e))
    by (rewrite Ek in Ek'; unfold ekey, meta_key in Ek'; congruence).
  rewrite Hs in He'. rewrite <- (wf_sender_unique W _ _ _ He' He Hn).
  exists (priority (e_key x)). apply model_lookup; [done|]. exists x. rewrite Ek'. done.
Qed.

Lemma of_sender_NoDup (D : list elt) :
  (forall s, NoDup (map ekey (of_sender s D))) -> NoDup (map ekey D).
Proof.
  induction D as [|e D IH]; intros Hs; cbn [map]; [constructor|]. constructor.
  - intros Hin. apply list_elem_of_In, in_map_iff in Hin as (e' & Ek & He').
    specialize (Hs (sender (e_key e))). rewrite of_sender_cons, decide_True in Hs by done.
    cbn in Hs. apply list.NoDup_cons in Hs as [Hs _]. apply Hs. apply list_elem_of_In, in_map_iff.
    exists e'. split; [done|]. apply filter_In. split; [done|].
    apply bool_decide_eq_true_2. unfold ekey, meta_key in Ek. congruence.
  - apply IH. intros s. specialize (Hs s). rewrite of_sender_cons in Hs.
    case_decide; [|done]. cbn in Hs. by apply list.NoDup_cons in Hs as [_ Hs].
Qed.

Lemma sorted_keys_NoDup (l : list elt) :
  StronglySorted (fun a b : elt => nonce (e_key a) < nonce (e_key b)) l -> NoDup (map ekey l).
Proof.
  induction 1 as [|x l _ IH Hx]; cbn; constructor; [|done].
  intros Hin. apply list_elem_of_In, in_map_iff in Hin as (y & Ek & Hy).
  rewrite List.Forall_forall in Hx. apply Hx in Hy. unfold ekey, meta_key in Ek.
  assert (nonce (e_key y) = nonce (e_key x)) by congruence. lia.
Qed.

Lemma visits_of_senders (mp : mempool) D : wf mp ->
  (forall s, of_sender s D = selems mp s) -> visits (model mp) (map item D).
Proof.
  intros W Hs.
  assert (Hin : forall e, In e D <-> In e (selems mp (sender (e_key e)))).
  { intros e. rewrite <- Hs. unfold of_sender. rewrite filter_In, bool_decide_eq_true. tauto. }
  split.
  - rewrite map_map. apply of_sender_NoDup. intros s. rewrite Hs.
    by apply sorted_keys_NoDup, selems_sorted.
  - intros k tx. rewrite in_map_iff. split.
    + intros (e & [= <- <-] & He). by apply selems_model, Hin.
    + intros [p Hm]. apply (model_lookup _ _ _ _ W) in Hm as (x & Hx & <- & _ & <-).
      destruct (wf_sender _ W x Hx) as (e & He & _ & Ek & Hv). exists e. unfold item.
      split; [congruence|]. apply Hin.
      by replace (sender (e_key e)) with (sender (e_key x)) by (unfold ekey, meta_key in Ek; congruence).
  - intros s. rewrite filter_map_swap. apply StronglySorted_map.
    cbn. fold (of_sender s D). rewrite Hs. by apply selems_sorted.
Qed.

Lemma SelectAll_visits (mp : mempool) : wf mp -> priorities_agree mp ->
  exists D, fst (SelectAll zero mp) = map snd D /\ visits (model mp) D.
Proof.
  intros W A. unfold SelectAll. pose proof (Select_step mp W) as HS.
  pose proof (Select_agree mp W A) as A1. unfold Select in *.
  rewrite sl_len in *. fold (pelems mp) in *. destruct (len (pelems mp) =? 0) eqn:E.
  - exists []. split; [done|].
    assert (Hp : pelems mp = []) by (apply nil_length_inv; unfold len in E; lia).
    split; cbn; [constructor| |constructor]. intros k tx. unfold model. rewrite Hp. cbn.
    setoid_rewrite lookup_empty. split; [done|]. by intros [? ?].
  - cbn in HS, A1. destruct HS as (W1 & _ & Hm).
    destruct (iterate_all zero W1 A1) as (D & HD & Hs). cbn.
    exists (map item D). rewrite map_map. split; [exact HD|].
    rewrite <- Hm. by apply visits_of_senders.
Qed.

(** ** One transaction per sender *)

Definition one_tx_each (M : amap) : Prop := forall n n' s,
  is_Some (M !! (n, s)) -> is_Some (M !! (n', s)) -> n = n'.

Section Single.
Context {mp : mempool} (W : wf mp) (A : priorities_agree mp) (O : one_tx_each (model mp)).

Lemma single_sender (x y : elt) : In x (pelems mp) -> In y (pelems mp) ->
  sender (e_key x) = sender (e_key y) -> x = y.
Proof.
  intros Hx Hy Hs. apply (wf_pelem_unique W); [done..|]. unfold ekey, meta_key. rewrite Hs. f_equal.
  apply (O _ _ (sender (e_key y))).
  - eexists (_, _). apply model_lookup; [done|]. exists x. unfold ekey, meta_key. by rewrite Hs.
  - eexists (_, _). apply model_lookup; [done|]. by exists y.
Qed.

Lemma single_selems x : In x (pelems mp) ->
  exists e, selems mp (sender (e_key x)) = [e] /\ e_value e = e_value x.
Proof.
  intros Hx. destruct (wf_sender _ W x Hx) as (e & He & _ & Ek & Hv).
  exists e. split; [|done].
  assert (Hall : forall e', In e' (selems mp (sender (e_key x))) -> e' = e).
  { intros e' He'. destruct (wf_indexed _ W _ _ He') as [Hs (y & Hy & Ey)].
    apply (wf_sender_unique W (sender (e_key x))); [done..|].
    assert (y = x) as -> by (apply single_sender; [done..|]; unfold ekey, meta_key in Ey; congruence).
    unfold ekey, meta_key in *. congruence. }
  pose proof (selems_sorted mp (sender (e_key x)) W) as Hd. apply sorted_keys_NoDup in Hd.
  destruct (selems mp (sender (e_key x))) as [|a [|b l]]; [done|f_equal; apply Hall; by left|].
  rewrite (Hall a), (Hall b) in Hd by (cbn; auto). cbn in Hd.
  apply list.NoDup_cons in Hd as [Hd _]. destruct Hd. by left.
Qed.

Lemma drain_single nodes pre cs fuel :
  pelems mp = pre ++ nodes -> (forall x, In x nodes -> cs !! sender (e_key x) = None) ->
  (length nodes <= fuel)%nat ->
  drain zero fuel (iteratePriority zero mp cs nodes) = map e_value nodes.
Proof.
  revert pre cs fuel. induction nodes as [|n rest IH]; intros pre cs fuel Hp Hc Hf.
  { cbn. by destruct fuel. }
  assert (Hin : In n (pelems mp)) by (rewrite Hp; apply in_app_iff; right; by left).
  assert (Hrest : forall x, In x rest -> sender (e_key x) <> sender (e_key n)).
  { intros x Hx E. pose proof (wf_keys_NoDup mp W) as Hd. rewrite Hp, map_app in Hd.
    apply list.NoDup_app in Hd as (_ & _ & Hd). cbn in Hd. apply list.NoDup_cons in Hd as [Hd _]. apply Hd.
    assert (x = n) as <- by (apply single_sender; [rewrite Hp; apply in_app_iff; right; by right|done..]).
    apply list_elem_of_In. by apply in_map. }
  destruct (single_selems n Hin) as (e & Hse & Hv).
  assert (Hr : remaining mp cs (sender (e_key n)) = [e]).
  { unfold remaining. rewrite Hc by (by left). done. }
  assert (Hw : waits zero mp rest e = false).
  { destruct rest as [|m rest]; [done|].
    apply (processed_no_wait zero W A (pre ++ [n]) m rest (sender (e_key n))).
    - by rewrite <- app_assoc.
    - rewrite Hse. by left.
    - exact Hrest. }
  destruct fuel as [|fuel]; [cbn in Hf; lia|].
  cbn [iteratePriority]. fold (txp mp). fold (node_priority mp rest).
  rewrite next_at_spec, Hr, Hw. cbn [drain map]. unfold it_Tx at 1. cbn [senderCursors it_sender].
  rewrite lookup_insert_eq. cbn. rewrite Hv. f_equal.
  unfold Next. cbn [priorityNode it_mempool senderCursors it_sender nextPriority].
  rewrite next_at_spec. rewrite (remaining_insert (mp := mp)), decide_True by done.
  apply (IH (pre ++ [n])); [by rewrite <- app_assoc| |cbn in Hf; lia].
  intros x Hx. rewrite lookup_insert_ne; [apply Hc; by right|]. intros E. by apply (Hrest x Hx).
Qed.
End Single.

Lemma pelems_by_priority (mp : mempool) : wf mp ->
  StronglySorted (fun a b : elt => 0 <= Compare (txp mp) (priority (e_key a)) (priority (e_key b)))
    (pelems mp).
Proof.
  intros W. destruct (wf_pindex _ W) as [_ _ Hkeys Hs _].
  fold (pelems mp) in Hs, Hkeys. unfold strict_sorted in Hs.
  induction Hs as [|x k _ IH Hx]; constructor; [apply IH; intros y Hy; apply Hkeys; by right|].
  apply List.Forall_forall. intros y Hin. rewrite List.Forall_forall in Hx. pose proof (Hx y Hin) as Hy.
  unfold elem_lt in Hy. rewrite <- porder_agrees in Hy by (apply Hkeys; (by left) || (by right)).
  unfold skiplistComparable in Hy. rewrite less_than_func in Hy.
  destruct (Compare (txp mp) (priority (e_key x)) (priority (e_key y)) =? 0) eqn:E; cbn in Hy; lia.
Qed.

Lemma length_pelems_selems (mp : mempool) : wf mp ->
  (length (pelems mp) <= length (sender_elements mp))%nat.
Proof.
  intros W. rewrite <- (length_map ekey), <- (length_map ekey (sender_elements mp)).
  apply NoDup_incl_length; [apply NoDup_ListNoDup; by apply wf_keys_NoDup|].
  intros k (x & <- & Hx)%in_map_iff. destruct (wf_sender _ W x Hx) as (e & He & _ & <- & _).
  apply in_map. unfold sender_elements. unfold selems in He.
  destruct (senderIndices mp !! sender (e_key x)) as [l|] eqn:E; [|done].
  apply in_concat. exists (sl_elements l). split; [|done]. apply in_map_iff.
  exists (sender (e_key x), l). split; [done|]. apply list_elem_of_In. by apply elem_of_map_to_list.
Qed.

Lemma model_values (mp : mempool) : wf mp ->
  map snd (map_to_list (model mp)) ≡ₚ map (fun e => (priority (e_key e), e_value e)) (pelems mp).
Proof.
  intros W. unfold model. rewrite map_to_list_to_map
    by (rewrite map_entry_keys; by apply wf_keys_NoDup). by rewrite map_map.
Qed.

(** ** Capacity, emptiness, the next transaction of a sender *)

Lemma spec_op_capacity c o M : 0 < MaxTx c -> Z.of_nat (size M) <= MaxTx c ->
  Z.of_nat (size (snd (spec_op c o M))) <= MaxTx c.
Proof.
  intros Hc HM. destruct o as [ctx tx|tx|]; cbn; [| |done].
  - unfold spec_Insert. destruct (_ && _) eqn:E; [done|]. destruct (MaxTx c <? 0); [done|].
    destruct (first_signature _ tx) as [[sig|err]|w]; [|done..].
    destruct (GetTxPriority _ ctx tx); [|done]. destruct (rule_accepts _ _ _ _); [|done]. cbn.
    destruct (M !! tx_key sig) eqn:F; [rewrite map_size_insert_Some by eauto|rewrite map_size_insert_None by done]; lia.
  - unfold spec_Remove. destruct (first_signature _ tx) as [[sig|err]|w]; [|done..].
    destruct (M !! tx_key sig) eqn:F; [|done]. cbn. rewrite map_size_delete_Some by eauto. lia.
Qed.

Lemma spec_run_capacity c ops M : 0 < MaxTx c -> Z.of_nat (size M) <= MaxTx c ->
  Z.of_nat (size (snd (run (spec_op c) ops M))) <= MaxTx c.
Proof.
  intros Hc. revert M. induction ops as [|o ops IH]; intros M HM; cbn; [done|].
  pose proof (spec_op_capacity c o M Hc HM) as HM'. destruct (spec_op c o M) as [r M'].
  specialize (IH M' HM'). by destruct (run (spec_op c) ops M').
Qed.

Lemma model_empty (mp : mempool) : wf mp -> model mp = ∅ <-> pelems mp = [].
Proof.
  intros W. split; intros Hm; [|unfold model; by rewrite Hm].
  destruct (pelems mp) as [|e l] eqn:E; [done|].
  assert (model mp !! ekey e = Some (priority (e_key e), e_value e)) as He.
  { apply model_lookup; [done|]. exists e. rewrite E. repeat split. by left. }
  rewrite Hm, lookup_empty in He. done.
Qed.

Lemma selems_empty (mp : mempool) s : wf mp -> pelems mp = [] -> selems mp s = [].
Proof.
  intros W Hp. destruct (selems mp s) as [|e l] eqn:E; [done|].
  destruct (wf_indexed _ W s e) as [_ (x & Hx & _)]; [rewrite E; by left|]. by rewrite Hp in Hx.
Qed.

Lemma IsEmpty_pelems (mp : mempool) : wf mp -> IsEmpty mp = None <-> pelems mp = [].
Proof.
  intros W. unfold IsEmpty. rewrite sl_len. fold (pelems mp). split.
  - destruct (len (pelems mp) =? 0) eqn:E; cbn; [|done]. intros _.
    apply nil_length_inv. unfold len in E. lia.
  - intros Hp. rewrite Hp. cbn.
    destruct (existsb _ (map_to_list (priorityCounts mp))) eqn:E1.
    { apply existsb_exists in E1 as ([p n] & Hin & Hn). cbn in Hn.
      apply list_elem_of_In, elem_of_map_to_list in Hin. pose proof (wf_counts _ W p) as Hc.
      unfold count_of in Hc. rewrite Hin, Hp in Hc. change (n = 0) in Hc. lia. }
    destruct (existsb _ (map_to_list (senderIndices mp))) eqn:E2; [|done].
    apply existsb_exists in E2 as ([s l] & Hin & Hn). cbn in Hn.
    apply list_elem_of_In, elem_of_map_to_list in Hin.
    pose proof (selems_empty mp s W Hp) as Hs. unfold selems in Hs. rewrite Hin in Hs.
    rewrite sl_len, Hs in Hn. done.
Qed.

Lemma SelectAll_by_priority (mp : mempool) : wf mp -> priorities_agree mp -> one_tx_each (model mp) ->
  exists D, fst (SelectAll zero mp) = map snd D /\
    D ≡ₚ map snd (map_to_list (model mp)) /\
    StronglySorted (fun a b => 0 <= Compare (cfg_TxPriority (cfg mp)) a.1 b.1) D.
Proof.
  intros W A O1.
  destruct (Select_step mp W) as (W1 & C1 & M1). pose proof (Select_agree mp W A) as A1.
  rewrite <- M1 in O1 |- *. revert W1 C1 M1 A1 O1. unfold SelectAll, Select.
  rewrite sl_len. fold (pelems mp). destruct (len (pelems mp) =? 0) eqn:E; cbn; intros.
  - exists []. split; [done|]. split; [|constructor].
    assert (Hp : pelems mp = []) by (apply nil_length_inv; unfold len in E; lia).
    by rewrite (model_values mp W), Hp.
  - set (mp1 := reorderPriorityTies mp) in *.
    exists (map (fun e => (priority (e_key e), e_value e)) (pelems mp1)).
    split; [|split; [symmetry; by apply model_values|]].
    + rewrite map_map. refine (drain_single W1 A1 O1 (pelems mp1) [] ∅ (S (length (sender_elements mp1))) _ _ _); [done..|].
      pose proof (length_pelems_selems mp1 W1). unfold pelems in *. lia.
    + apply StronglySorted_map. cbn. rewrite <- C1. by apply pelems_by_priority.
Qed.

Lemma last_cons_default {A} (x d : A) l : List.last (x :: l) d = List.last l x.
Proof.
  revert x d. induction l as [|a l IH]; intros x d; [done|].
  change (List.last (a :: l) d = List.last (a :: l) x). by rewrite !IH.
Qed.

Lemma weight_loop_last tp w (l : list elt) : PriorityOrder Pr tp -> Pr w ->
  Forall (fun e => Pr (priority (e_key e))) l ->
  weight_loop tp w l = List.last (map (fun e => priority (e_key e)) l) w.
Proof.
  intros O. unfold weight_loop. revert w. induction l as [|e l IH]; intros w Dw; [done|].
  intros [De Dl]%Forall_cons_1. cbn [fold_left map].
  assert ((if negb (Compare tp (priority (e_key e)) w =? 0) then priority (e_key e) else w)
          = priority (e_key e)) as ->.
  { destruct (Compare tp (priority (e_key e)) w =? 0) eqn:E; [|done]. cbn. symmetry. apply (po_eq _ _ O); [done..|lia]. }
  rewrite IH by done. by rewrite last_cons_default.
Qed.

(** The transaction with the lowest nonce of a sender. *)
Definition lowest_nonce (M : amap) (s : string) (tx : Tx) : Prop := exists n p,
  M !! (n, s) = Some (p, tx) /\ forall n' x, M !! (n', s) = Some x -> n <= n'.

(** No transaction of the sender, now. *)
Definition no_tx (M : amap) (s : string) : Prop := forall n, M !! (n, s) = None.

Lemma no_tx_selems (mp : mempool) s : wf mp -> selems mp s = [] -> no_tx (model mp) s.
Proof.
  intros W Hs n. destruct (model mp !! (n, s)) as [[p tx]|] eqn:E; [|done].
  apply (model_lookup _ _ _ _ W) in E as (x & Hx & Ek & _).
  destruct (wf_sender _ W x Hx) as (e & He & _).
  replace (sender (e_key x)) with s in He by (unfold ekey, meta_key in Ek; congruence).
  by rewrite Hs in He.
Qed.

(** The index of a sender says whether the sender is known: nil, empty or not. *)
Lemma NextSenderTx_wf (mp : mempool) s : wf mp ->
  match NextSenderTx mp s with
  | Ret (Some tx) => lowest_nonce (model mp) s tx
  | Ret None => senderIndices mp !! s = None
  | Panic _ => is_Some (senderIndices mp !! s) /\ no_tx (model mp) s
  end.
Proof.
  intros W. pose proof (no_tx_selems mp s W) as Hno.
  pose proof (selems_sorted mp s W) as Hso.
  unfold NextSenderTx. unfold selems in *. destruct (senderIndices mp !! s) as [l|] eqn:E; [|auto].
  unfold sl_Front. destruct (sl_elements l) as [|e r] eqn:El; cbn; [by auto|].
  assert (He : In e (selems mp s)) by (unfold selems; rewrite E, El; by left).
  pose proof (proj1 (wf_indexed _ W s e He)) as Hs.
  destruct (selems_model mp e W) as [p Hp]; [by rewrite Hs|].
  exists (nonce (e_key e)), p. split; [unfold ekey, meta_key in Hp; by rewrite Hs in Hp|].
  intros n' [q t] Hm. apply (model_lookup _ _ _ _ W) in Hm as (x & Hx & Ek & _).
  destruct (wf_sender _ W x Hx) as (e' & He' & _ & Ek' & _).
  rewrite Ek in Ek'. unfold ekey, meta_key in Ek, Ek'.
  replace (sender (e_key x)) with s in He' by congruence.
  unfold selems in He'. rewrite E, El in He'. apply StronglySorted_inv in Hso as [_ Hso].
  rewrite List.Forall_forall in Hso. destruct He' as [->|He'].
  - assert (nonce (e_key e') = n') by congruence. lia.
  - apply Hso in He'. assert (nonce (e_key e') = n') by congruence. lia.
Qed.

(** A stored transaction has the index of its sender. *)
Lemma sender_with_tx (mp : mempool) n s x : wf mp -> model mp !! (n, s) = Some x -> is_Some (senderIndices mp !! s).
Proof.
  intros W Hm. destruct (senderIndices mp !! s) as [l|] eqn:E; [by eexists|]. exfalso.
  rewrite (no_tx_selems mp s W) in Hm; [done|]. unfold selems. by rewrite E.
Qed.

Lemma reorder_keeps_senders ks (mp : mempool) : senderIndices (fold_left reorder_one ks mp) = senderIndices mp.
Proof. revert mp. induction ks as [|k ks IH]; intros mp; [done|]. cbn [fold_left]. by rewrite IH. Qed.

(** No call deletes the index of a sender. *)
Lemma index_stays o (mp : mempool) s : is_Some (senderIndices mp !! s) ->
  is_Some (senderIndices (snd (run_op o mp)) !! s).
Proof.
  intros Hs. assert (Hset : forall s0 l, is_Some (<[s0 := l]> (senderIndices mp) !! s)).
  { intros s0 l. destruct (decide (s0 = s)) as [->|]; [rewrite lookup_insert_eq; by eexists|by rewrite lookup_insert_ne]. }
  assert (Hkey : forall key tx index mp1, is_Some (senderIndices mp1 !! s) ->
    is_Some (senderIndices (insert_key zero key tx index mp1) !! s)).
  { intros key tx index mp1 Hm. unfold insert_key. destruct (sl_Set _ _ _) as [i e]. cbn.
    destruct (decide (sender key = s)) as [->|]; [rewrite lookup_insert_eq; by eexists|by rewrite lookup_insert_ne]. }
  destruct o as [ctx tx|tx|]; cbn [run_op].
  - unfold Insert. repeat break_match; first [done | apply Hkey, Hset | apply Hset].
  - unfold Remove. repeat break_match; first [done | apply Hset].
  - unfold Select. destruct (_ =? 0); [done|]. cbn. unfold reorderPriorityTies. by rewrite reorder_keeps_senders.
Qed.

(** A call makes the index of a sender for a transaction that the mempool then holds. *)
Lemma new_index_scored o (mp : mempool) s : is_Some (senderIndices (snd (run_op o mp)) !! s) ->
  is_Some (senderIndices mp !! s) \/ exists n, is_Some (scores (snd (run_op o mp)) !! (n, s)).
Proof.
  destruct o as [ctx tx|tx|]; cbn [run_op].
  - unfold Insert. destruct (_ && _); [by left|]. destruct (MaxTx (cfg mp) <? 0); [by left|].
    destruct (first_signature _ tx) as [[sig|err]|w]; [|by left..].
    destruct (GetTxPriority _ ctx tx) as [p|w]; [|by left].
    set (s0 := AccAddress_String (PubKey_Address sig)). set (n := Sequence sig).
    assert (Hset : forall index mp1 key0, sender key0 = s0 -> nonce key0 = n ->
      senderIndices mp1 = <[s0 := index]> (senderIndices mp) -> forall index2,
      is_Some (senderIndices (insert_key zero key0 tx index2 mp1) !! s) ->
      is_Some (senderIndices mp !! s) \/ exists n, is_Some (scores (insert_key zero key0 tx index2 mp1) !! (n, s))).
    { intros index mp1 key0 <- <- Hi index2. unfold insert_key. destruct (sl_Set _ _ _) as [i e]. cbn.
        rewrite Hi. destruct (decide (sender key0 = s)) as [<-|Hne].
      - intros _. right. exists (nonce key0). rewrite lookup_insert_eq. by eexists.
      - rewrite !lookup_insert_ne by done. by left. }
    cbn [scores set_senderIndex]. destruct (scores mp !! (n, s0)) as [old|] eqn:Eo; [|by eapply Hset].
    cbn [cfg set_senderIndex]. destruct (TxReplacement (cfg mp)) as [rule|]; [|by eapply Hset].
    assert (Hkeep : forall index (r : outcome (option error)),
      is_Some (senderIndices (snd (r, set_senderIndex s0 index mp)) !! s) ->
      is_Some (senderIndices mp !! s) \/ exists n, is_Some (scores (snd (r, set_senderIndex s0 index mp)) !! (n, s))).
    { intros index r. cbn. destruct (decide (s0 = s)) as [<-|Hne].
      - intros _. right. exists n. rewrite Eo. by eexists.
      - rewrite lookup_insert_ne by done. by left. }
    destruct (sl_Get _ _) as [e|]; [|apply Hkeep]. destruct (rule _ _ _ _); [by eapply Hset|apply Hkeep].
  - unfold Remove. destruct (first_signature _ tx) as [[sig|err]|w]; [|by left..].
    destruct (scores mp !! _) as [sc|]; [|by left].
    destruct (senderIndices mp !! AccAddress_String (PubKey_Address sig)) as [l|] eqn:E; [|by left].
    cbn. destruct (decide (AccAddress_String (PubKey_Address sig) = s)) as [<-|Hne].
    + left. rewrite E. by eexists.
    + rewrite lookup_insert_ne by done. by left.
  - unfold Select. destruct (_ =? 0); [by left|]. cbn. unfold reorderPriorityTies. rewrite reorder_keeps_senders. by left.
Qed.

(** ** The properties *)

(** The state after a sequence of calls on a new mempool. *)
Definition after (c : config) (ops : list op) : mempool := snd (run run_op ops (NewPriorityMempool c)).

Lemma after_run c ops : PriorityOrder Pr (cfg_TxPriority c) -> Pr zero ->
  Forall (op_in_domain (cfg_TxPriority c)) ops ->
  let '(rs, mp) := run run_op ops (NewPriorityMempool c) in
  wf mp /\ cfg mp = c /\ run (spec_op c) ops ∅ = (rs, model mp).
Proof.
  intros O Dz Hd. pose proof (run_wf ops _ Dz (NewPriorityMempool_wf c O) Hd) as HR.
  rewrite NewPriorityMempool_model in HR. apply HR.
Qed.

Lemma after_wf c ops : PriorityOrder Pr (cfg_TxPriority c) -> Pr zero ->
  Forall (op_in_domain (cfg_TxPriority c)) ops ->
  wf (after c ops) /\ cfg (after c ops) = c /\
  model (after c ops) = snd (run (spec_op c) ops ∅).
Proof.
  intros O Dz Hd. pose proof (after_run c ops O Dz Hd) as HR. unfold after.
  destruct (run run_op ops (NewPriorityMempool c)) as [rs mp]. destruct HR as (W & Hc & ->). done.
Qed.

Lemma after_agree c ops : PriorityOrder Pr (cfg_TxPriority c) -> Pr zero ->
  Forall (op_in_domain (cfg_TxPriority c)) ops ->
  run_keeps_priority c ops ∅ -> priorities_agree (after c ops).
Proof.
  intros O Dz Hd Hr. apply run_agree; [done|by apply NewPriorityMempool_wf|done|apply NewPriorityMempool_agree|].
  by rewrite NewPriorityMempool_model.
Qed.

Lemma run_snoc c ops o : after c (ops ++ [o]) = snd (run_op o (after c ops)).
Proof.
  unfold after. generalize (NewPriorityMempool c) as mp. induction ops as [|o' ops IH]; intros mp; cbn [app run].
  - cbn [snd]. by destruct (run_op o mp) as [r mp1].
  - destruct (run_op o' mp) as [r mp1]. specialize (IH mp1).
    destruct (run run_op (ops ++ [o]) mp1), (run run_op ops mp1). exact IH.
Qed.

(** C10: for any sequence of Insert, Remove and Select calls on a new mempool, every call has the
    result (errors and panics included) of the corresponding operation on a finite map from
    (nonce, sender) to a priority and a transaction, and the final state represents the map. *)
Theorem priority_mempool_refines_map c ops : PriorityOrder Pr (cfg_TxPriority c) -> Pr zero ->
  Forall (op_in_domain (cfg_TxPriority c)) ops ->
  let '(rs, mp) := run run_op ops (NewPriorityMempool c) in
  run (spec_op c) ops ∅ = (rs, model mp) /\ wf mp /\ CountTx mp = Z.of_nat (size (model mp)).
Proof.
  intros O Dz Hd. pose proof (after_run c ops O Dz Hd) as HR.
  destruct (run run_op ops (NewPriorityMempool c)) as [rs mp]. destruct HR as (W & _ & HR).
  by rewrite model_size.
Qed.

(** C11: when no insertion has replaced a transaction by one with another priority, iterating from
    Select to the end visits every transaction of the mempool exactly once, the transactions of one
    sender in the order of their nonces.  (Otherwise it may skip one: [replacement_skips_tx].) *)
Theorem priority_mempool_select_complete c ops : PriorityOrder Pr (cfg_TxPriority c) -> Pr zero ->
  Forall (op_in_domain (cfg_TxPriority c)) ops ->
  run_keeps_priority c ops ∅ ->
  exists D, fst (SelectAll zero (after c ops)) = map snd D /\ visits (model (after c ops)) D.
Proof.
  intros O Dz Hd Hr. apply SelectAll_visits; [by apply after_wf|by apply after_agree].
Qed.

(** C12: when no sender has two transactions in the mempool, and no insertion has replaced a transaction
    by one with another priority, the iteration visits the transactions of the mempool by decreasing
    priority. *)
Theorem priority_mempool_select_by_priority c ops : PriorityOrder Pr (cfg_TxPriority c) -> Pr zero ->
  Forall (op_in_domain (cfg_TxPriority c)) ops ->
  run_keeps_priority c ops ∅ -> one_tx_each (model (after c ops)) ->
  exists D, fst (SelectAll zero (after c ops)) = map snd D /\
    D ≡ₚ map snd (map_to_list (model (after c ops))) /\
    StronglySorted (fun a b => 0 <= Compare (cfg_TxPriority c) a.1 b.1) D.
Proof.
  intros O Dz Hd Hr O1. destruct (after_wf c ops O Dz Hd) as (W & Hc & _).
  pose proof (SelectAll_by_priority (after c ops) W (after_agree c ops O Dz Hd Hr) O1) as HS. by rewrite Hc in HS.
Qed.

(** The tie-breaking weight of a transaction is the priority of the last transaction of
    its sender, whatever the priorities in between, and the minimum value for a nil cursor. *)
Theorem senderWeight_last_priority tp (l : list elt) : PriorityOrder Pr tp ->
  Forall (fun e => Pr (priority (e_key e))) l ->
  senderWeight tp l = List.last (map (fun e => priority (e_key e)) l) (MinValue tp).
Proof.
  intros O. destruct l as [|e l]; [done|]. intros [De Dl]%Forall_cons_1. cbn [senderWeight].
  rewrite weight_loop_last by done.
  cbn [map]. by rewrite last_cons_default.
Qed.

(** IsEmpty succeeds exactly when the calls so far left no transaction. *)
Theorem IsEmpty_iff_no_transactions c ops : PriorityOrder Pr (cfg_TxPriority c) -> Pr zero ->
  Forall (op_in_domain (cfg_TxPriority c)) ops ->
  IsEmpty (after c ops) = None <-> snd (run (spec_op c) ops ∅) = ∅.
Proof.
  intros O Dz Hd. destruct (after_wf c ops O Dz Hd) as (W & _ & <-).
  by rewrite IsEmpty_pelems, model_empty.
Qed.

(** a mempool with a positive capacity never holds more transactions than that. *)
Theorem priority_mempool_capacity c ops : PriorityOrder Pr (cfg_TxPriority c) -> Pr zero ->
  Forall (op_in_domain (cfg_TxPriority c)) ops -> 0 < MaxTx c ->
  CountTx (after c ops) <= MaxTx c.
Proof.
  intros O Dz Hd Hm. destruct (after_wf c ops O Dz Hd) as (W & _ & HM).
  rewrite <- (model_size _ W), HM. apply spec_run_capacity; [done|]. rewrite map_size_empty. lia.
Qed.

(** The senders with an index are those of the transactions the mempool holds or has held. *)
Lemma known_senders c ops s : PriorityOrder Pr (cfg_TxPriority c) -> Pr zero ->
  Forall (op_in_domain (cfg_TxPriority c)) ops ->
  is_Some (senderIndices (after c ops) !! s) <->
  exists ops1 ops2, ops = ops1 ++ ops2 /\ ~ no_tx (model (after c ops1)) s.
Proof.
  intros O Dz Hd. induction ops as [|o ops IH] using rev_ind.
  { split.
    - intros [l Hl]. done.
    - intros (ops1 & ops2 & E & Hn). symmetry in E. apply app_nil in E as [-> ->]. destruct Hn. intros n.
      unfold after. cbn [run snd]. by rewrite NewPriorityMempool_model. }
  apply Forall_app in Hd as [Hd Ho]. specialize (IH Hd). pose proof (after_wf c ops O Dz Hd) as (W & Hc & _).
  assert (Hl : after c (ops ++ [o]) = snd (run_op o (after c ops))) by apply run_snoc.
  assert (Hd' : Forall (op_in_domain (cfg_TxPriority c)) (ops ++ [o])) by by apply Forall_app.
  pose proof (after_wf c (ops ++ [o]) O Dz Hd') as (W' & _ & _). split.
  - intros Hs. rewrite Hl in Hs. destruct (new_index_scored _ _ _ Hs) as [Hs'|[n [sc Hsc]]].
    + apply IH in Hs' as (ops1 & ops2 & -> & Hn). exists ops1, (ops2 ++ [o]). by rewrite <- app_assoc.
    + exists (ops ++ [o]), []. rewrite app_nil_r. split; [done|]. intros Hn. rewrite <- Hl in Hsc.
      destruct (wf_scored _ W' _ _ Hsc) as (e & He & Ek). specialize (Hn n).
      rewrite (proj2 (model_lookup _ (n, s) (priority (e_key e)) (e_value e) W')) in Hn; [done|]. by exists e.
  - intros (ops1 & ops2 & E & Hn). destruct ops2 as [|o2 ops2 _] using rev_ind.
    + rewrite app_nil_r in E. subst ops1. destruct (senderIndices (after c (ops ++ [o])) !! s) eqn:Es; [by eexists|].
      destruct Hn. intros n. destruct (model _ !! (n, s)) as [x|] eqn:Em; [|done].
      destruct (sender_with_tx _ _ _ _ W' Em) as [? ?]. congruence.
    + rewrite app_assoc in E. apply app_inj_tail in E as [-> <-]. rewrite Hl. apply index_stays, IH. by exists ops1, ops2.
Qed.

(** C37: NextSenderTx returns the transaction with the lowest nonce of a sender whose transactions the
    mempool holds; it returns nil for a sender the mempool never held a transaction of; and it panics
    for a sender all of whose transactions were removed. *)
Theorem NextSenderTx_lowest_nonce c ops s : PriorityOrder Pr (cfg_TxPriority c) -> Pr zero ->
  Forall (op_in_domain (cfg_TxPriority c)) ops ->
  match NextSenderTx (after c ops) s with
  | Ret (Some tx) => lowest_nonce (model (after c ops)) s tx
  | Ret None => forall ops1 ops2, ops = ops1 ++ ops2 -> no_tx (model (after c ops1)) s
  | Panic _ => no_tx (model (after c ops)) s /\
      exists ops1 ops2, ops = ops1 ++ ops2 /\ ~ no_tx (model (after c ops1)) s
  end.
Proof.
  intros O Dz Hd. destruct (after_wf c ops O Dz Hd) as (W & _ & _).
  pose proof (NextSenderTx_wf (after c ops) s W) as HN. pose proof (known_senders c ops s O Dz Hd) as HK.
  destruct (NextSenderTx (after c ops) s) as [[tx|]|w]; [done| |by rewrite <- HK; destruct HN].
  intros ops1 ops2 E n. destruct (model (after c ops1) !! (n, s)) as [x|] eqn:Em; [|done]. exfalso.
  destruct (proj2 HK) as [l Hl]; [|congruence]. exists ops1, ops2. split; [done|]. intros Hn. by rewrite Hn in Em.
Qed.
End Abstract.

(** ** Witnesses: the default priority on the concrete skip list *)

(** The default priority orders all priorities. *)
Abbreviation any_priority := (fun _ : Z => True).

Lemma NewDefaultTxPriority_order {L : SkipListLib} {SL : SkipListLaws L} {sdk : Sdk} :
  PriorityOrder any_priority NewDefaultTxPriority.
Proof.
  split; cbn; [intros a b _ _|intros a b c _ _ _|intros a b _ _|done];
    rewrite ?int64_compare; lia.
Qed.

Lemma any_in_domain {L : SkipListLib} {sdk : Sdk} (tp : TxPriority (C := Z)) ops :
  Forall (op_in_domain (Pr := any_priority) tp) ops.
Proof. by induction ops as [|[] ops IH]; constructor. Qed.

Definition ex_config : PriorityNonceMempoolConfig (C := Z) :=
  {| cfg_TxPriority := NewDefaultTxPriority; OnRead := None; TxReplacement := None; MaxTx := 3 |}.

Definition ex_element (n p : Z) : Element (txMeta (C := Z)) Tx :=
  MkElement 0%nat {| nonce := n; priority := p; sender := "01"; weight := 0;
                     senderElement := None |} (ex_tx 1 n []).

Definition ex_ops : list (op (sdk := concrete_sdk)) :=
  [OpInsert (ex_ctx 5) (ex_tx 1 0 [1]); OpInsert (ex_ctx 7) (ex_tx 1 1 [2]);
   OpInsert (ex_ctx 6) (ex_tx 2 0 [3]); OpSelect; OpInsert (ex_ctx 8) (ex_tx 3 0 [4]);
   OpRemove (ex_tx 1 1 [2])].

Lemma ex_ops_keep : run_keeps_priority ex_config ex_ops ∅.
Proof.
  repeat split; intros sig p p0 tx0 [= <-] [= <-]; vm_compute; try discriminate.
Qed.

Lemma priority_mempool_refines_map_witness :
  let '(rs, mp) := run (run_op 0) ex_ops (NewPriorityMempool ex_config) in
  run (spec_op ex_config) ex_ops ∅ = (rs, model mp) /\ wf (Pr := any_priority) mp /\ CountTx mp = Z.of_nat (size (model mp)).
Proof. apply (priority_mempool_refines_map (Pr := any_priority) 0 ex_config ex_ops);
  [apply NewDefaultTxPriority_order|done|apply any_in_domain]. Defined.

Lemma priority_mempool_select_complete_witness :
  exists D, fst (SelectAll 0 (after 0 ex_config ex_ops)) = map snd D /\
    visits (model (after 0 ex_config ex_ops)) D.
Proof.
  apply (priority_mempool_select_complete (Pr := any_priority) 0 ex_config ex_ops);
    [apply NewDefaultTxPriority_order|done|apply any_in_domain|apply ex_ops_keep].
Defined.

Lemma one_tx_each_NoDup `{sdk : Sdk} {C} (M : gmap (Z * string) (C * Tx)) :
  NoDup (map (fun x => x.1.2) (map_to_list M)) -> one_tx_each M.
Proof.
  intros Hd n n' s [x Hx] [y Hy].
  assert (E : ((n, s), x) = ((n', s), y)).
  { apply (NoDup_map_inj (fun x => x.1.2) (map_to_list M)); [done| | |done];
      by apply list_elem_of_In, elem_of_map_to_list. }
  congruence.
Qed.

Lemma ex_one_tx_each : one_tx_each (model (after 0 ex_config ex_ops)).
Proof.
  rewrite (proj2 (proj2 (after_wf 0 ex_config ex_ops NewDefaultTxPriority_order I (any_in_domain _ _)))).
  apply one_tx_each_NoDup.
  apply (bool_decide_unpack _). vm_compute. exact I.
Qed.

Lemma priority_mempool_select_by_priority_witness :
  exists D, fst (SelectAll 0 (after 0 ex_config ex_ops)) = map snd D /\
    D ≡ₚ map snd (map_to_list (model (after 0 ex_config ex_ops))) /\
    StronglySorted (fun a b => 0 <= Compare NewDefaultTxPriority a.1 b.1) D.
Proof.
  apply (priority_mempool_select_by_priority (Pr := any_priority) 0 ex_config ex_ops);
    [apply NewDefaultTxPriority_order|done|apply any_in_domain|apply ex_ops_keep|apply ex_one_tx_each].
Defined.

Lemma senderWeight_last_priority_witness :
  senderWeight NewDefaultTxPriority [ex_element 0 5; ex_element 1 9; ex_element 2 4] = 4.
Proof.
  apply (senderWeight_last_priority (Pr := any_priority) NewDefaultTxPriority [ex_element 0 5; ex_element 1 9; ex_element 2 4]).
  - apply NewDefaultTxPriority_order.
  - repeat constructor.
Defined.

Lemma IsEmpty_iff_no_transactions_witness :
  IsEmpty (after 0 ex_config ex_ops) = None <-> snd (run (spec_op ex_config) ex_ops ∅) = ∅.
Proof. apply (IsEmpty_iff_no_transactions (Pr := any_priority) 0 ex_config ex_ops);
  [apply NewDefaultTxPriority_order|done|apply any_in_domain]. Defined.

Lemma priority_mempool_capacity_witness : CountTx (after 0 ex_config ex_ops) <= 3.
Proof.
  apply (priority_mempool_capacity (Pr := any_priority) 0 ex_config ex_ops); [apply NewDefaultTxPriority_order|done|apply any_in_domain|].
  cbn. lia.
Defined.

(** The condition on replacements is needed.  The index of a sender keeps the key of the transaction that
    was replaced: after a replacement of priority 10 by one of priority 20 the iterator, which follows
    the priorities 20 and 15, finds the sender under 10 and never returns its transaction. *)
Example replacement_skips_tx :
  let ops := [OpInsert (ex_ctx 10) (ex_tx 1 0 [1]); OpInsert (ex_ctx 15) (ex_tx 2 0 [2]);
              OpInsert (ex_ctx 20) (ex_tx 1 0 [3])] in
  CountTx (after 0 ex_config ops) = 2 /\ fst (SelectAll 0 (after 0 ex_config ops)) = [ex_tx 2 0 [2]].
Proof. split; vm_compute; reflexivity. Qed.

(** After the only transaction of a sender was removed the call panics; for a sender that never had one
    it returns nil, and for one with two it returns the first. *)
Definition next_ops : list (op (sdk := concrete_sdk)) :=
  [OpInsert (ex_ctx 5) (ex_tx 1 0 [1]); OpRemove (ex_tx 1 0 [1]);
   OpInsert (ex_ctx 5) (ex_tx 2 4 [2]); OpInsert (ex_ctx 9) (ex_tx 2 3 [3])].
Definition next_spec (s : string) (r : outcome (option (@Tx concrete_sdk))) : Prop :=
  match r with
  | Ret (Some tx) => lowest_nonce (model (after 0 ex_config next_ops)) s tx
  | Ret None => forall ops1 ops2, next_ops = ops1 ++ ops2 -> no_tx (model (after 0 ex_config ops1)) s
  | Panic _ => no_tx (model (after 0 ex_config next_ops)) s /\
      exists ops1 ops2, next_ops = ops1 ++ ops2 /\ ~ no_tx (model (after 0 ex_config ops1)) s
  end.

Lemma NextSenderTx_lowest_nonce_witness :
  let next := NextSenderTx (after 0 ex_config next_ops) in
  next "01" = Panic "invalid memory address or nil pointer dereference" /\
  next "02" = Ret (Some (ex_tx 2 3 [3])) /\ next "03" = Ret None /\
  next_spec "01" (next "01") /\ next_spec "02" (next "02") /\ next_spec "03" (next "03").
Proof.
  assert (HN : forall s, next_spec s (NextSenderTx (after 0 ex_config next_ops) s)).
  { intros s. apply (NextSenderTx_lowest_nonce (Pr := any_priority) 0 ex_config next_ops s);
      [apply NewDefaultTxPriority_order|done|apply any_in_domain]. }
  split; [vm_compute; reflexivity|]. split; [vm_compute; reflexivity|]. split; [vm_compute; reflexivity|].
  split; [apply HN|]. split; apply HN.
Defined.
