(* ===== verification/LaneMempool.v ===== *)
(** * blockbuster/lane_mempool.go: the mempool of a lane

    [ConstructorMempool] wraps the priority-nonce mempool with a cache of transaction hashes.
    [LaneMempool] is the interface the lanes are written against (lane_interface.go): a lane
    holds a mempool of any type that has it.  [Select] is the sequence of transactions an
    iteration visits; no caller changes the mempool while it iterates. *)
From S2P Require Import Prelude Hash Sdk SkipListFacts Concrete Proposals PriorityNonce PriorityNonceFacts PriorityNonceProps.

(** ** The interface *)

Class LaneMempool `{sdk : Sdk} (M : Type) : Type := {
  lm_Insert : Context -> Tx -> ST M (option error);
  lm_Remove : Tx -> ST M (option error);
  lm_Select : ST M (list Tx);
  lm_CountTx : M -> Z;
  lm_Contains : M -> Tx -> bool;
  lm_Compare : M -> Context -> Tx -> Tx -> outcome Z }.

(** ** ConstructorMempool *)

Section ConstructorMempool.
Context {sdk : Sdk} {L : SkipListLib}.
Context {C : Type} `{Countable C} (zero : C).

Record ConstructorMempool : Type := MkConstructorMempool {
  index : PriorityNonceMempool (C := C);
  txPriority : TxPriority (C := C);
  txEncoder : TxEncoder;
  txCache : gset string }.

Definition NewConstructorMempool (txPriority : TxPriority (C := C)) (txEncoder : TxEncoder)
    (maxTx : Z) : ConstructorMempool :=
  {| index := NewPriorityMempool
       {| cfg_TxPriority := txPriority; OnRead := None; TxReplacement := None; MaxTx := maxTx |};
     txPriority := txPriority;
     txEncoder := txEncoder;
     txCache := ∅ |}.

(** Running a call on the index. *)
Definition on_index {A} (m : ST (PriorityNonceMempool (C := C)) A) : ST ConstructorMempool A :=
  fun cm =>
    let '(r, i) := m (index cm) in
    (r, {| index := i; txPriority := txPriority cm; txEncoder := txEncoder cm;
           txCache := txCache cm |}).

Definition set_txCache (f : gset string -> gset string) (cm : ConstructorMempool)
    : ConstructorMempool :=
  {| index := index cm; txPriority := txPriority cm; txEncoder := txEncoder cm;
     txCache := f (txCache cm) |}.

Definition Remove (tx : Tx) : ST ConstructorMempool (option error) :=
  err ← on_index (PriorityNonce.Remove tx);
  let fatal := match err with
               | Some err => if negb (errors_Is err ErrTxNotFound) then Some err else None
               | None => None
               end in
  match fatal with
  | Some err => mret (Some (Wrap "failed to remove transaction from the mempool" err))
  | None =>
      cm ← st_get;
      match GetTxHashStr (txEncoder cm) tx with
      | Err err => mret (Some (Wrap "failed to get tx hash string" err))
      | Ok (_, txHashStr) =>
          _ ← st_modify (set_txCache (fun c => c ∖ {[ txHashStr ]}));
          mret None
      end
  end.

Definition Insert (ctx : Context) (tx : Tx) : ST ConstructorMempool (option error) :=
  err ← on_index (PriorityNonce.Insert zero ctx tx);
  match err with
  | Some err => mret (Some (Wrap "failed to insert tx into auction index" err))
  | None =>
      cm ← st_get;
      match GetTxHashStr (txEncoder cm) tx with
      | Err err =>
          _ ← Remove tx;
          mret (Some err)
      | Ok (_, txHashStr) =>
          _ ← st_modify (set_txCache (fun c => {[ txHashStr ]} ∪ c));
          mret None
      end
  end.

Definition Select : ST ConstructorMempool (list Tx) :=
  on_index (fun mp => let '(txs, mp) := SelectAll zero mp in (Ret txs, mp)).

Definition CountTx (cm : ConstructorMempool) : Z := PriorityNonce.CountTx (index cm).

Definition Contains (cm : ConstructorMempool) (tx : Tx) : bool :=
  match GetTxHashStr (txEncoder cm) tx with
  | Err err => false
  | Ok (_, txHashStr) => bool_decide (txHashStr ∈ txCache cm)
  end.

(** [Compare] of the lane mempool. *)
Definition Compare (cm : ConstructorMempool) (ctx : Context) (this other : Tx) : outcome Z :=
  firstPriority ← GetTxPriority (txPriority cm) ctx this;
  secondPriority ← GetTxPriority (txPriority cm) ctx other;
  mret (PriorityNonce.Compare (txPriority cm) firstPriority secondPriority).

#[export] Instance constructor_lane_mempool : LaneMempool ConstructorMempool := {
  lm_Insert := Insert;
  lm_Remove := Remove;
  lm_Select := Select;
  lm_CountTx := CountTx;
  lm_Contains := Contains;
  lm_Compare := Compare }.
End ConstructorMempool.

(** ** The default priority: the fees of the transaction *)

Section DefaultTxPriority.
Context {sdk : Sdk}.

(** The comparison of the string forms of two sets of coins; a string that does not parse
    counts as nil. *)
Definition compare_coins (a b : string) : Z :=
  let '(aCoins, _) := ParseCoinsNormalized a in
  let '(bCoins, _) := ParseCoinsNormalized b in
  match aCoins, bCoins with
  | None, None => 0
  | None, _ => -1
  | _, None => 1
  | _, _ =>
      if Coins_IsAllGT aCoins bCoins then 1
      else if Coins_IsAllLT aCoins bCoins then -1
      else 0
  end.

Definition DefaultTxPriority : TxPriority (C := string) :=
  {| GetTxPriority := fun goCtx tx =>
       match GetFee tx with
       | None => Ret ""
       | Some fee => Ret (Coins_String fee)
       end;
     PriorityNonce.Compare := compare_coins;
     MinValue := "" |}.

(** The default priority of two transactions that each pay their fee in one denomination
    compares the amounts when the denominations agree, and is 0, neither above nor below, when
    they differ; so equal priority is not transitive over several denominations (1 of one
    denomination, any amount of another, 2 of the first). *)
Theorem DefaultTxPriority_Compare {CSL : CoinsLaws sdk} (ctx : Context) (t1 t2 : Tx) (d e : string) (a b : Z) :
  let fee1 := Some [MkCoin d (Some a)] in
  let fee2 := Some [MkCoin e (Some b)] in
  GetFee t1 = Some fee1 -> GetFee t2 = Some fee2 -> 0 <= a -> 0 <= b ->
  ParseCoinsNormalized (Coins_String fee1) = (fee1, None) ->
  ParseCoinsNormalized (Coins_String fee2) = (fee2, None) ->
  exists p1 p2, GetTxPriority DefaultTxPriority ctx t1 = Ret p1 /\
    GetTxPriority DefaultTxPriority ctx t2 = Ret p2 /\
    PriorityNonce.Compare DefaultTxPriority p1 p2 = if bool_decide (d = e) then Z.sgn (a - b) else 0.
Proof.
  intros fee1 fee2 H1 H2 Ha Hb P1 P2. exists (Coins_String fee1), (Coins_String fee2). cbn.
  rewrite H1, H2. split; [done|]. split; [done|]. unfold compare_coins. rewrite P1, P2. unfold fee1, fee2.
  rewrite coins_all_gt, coins_all_lt by done.
  case_bool_decide; cbn [andb]; [|done].
  destruct (Z.ltb_spec b a), (Z.ltb_spec a b); lia.
Qed.
End DefaultTxPriority.

(** ** What the cache says *)

Section Cache.
Context {sdk : Sdk} {L : SkipListLib} {SL : SkipListLaws L}.
Context {C : Type} `{Countable C} (zero : C) {Pr : C -> Prop} `{!forall c, Decision (Pr c)}.

Abbreviation lane := (ConstructorMempool (C := C)).
Abbreviation amap := (gmap (Z * string) (C * Tx)).
Abbreviation wf := (wf (Pr := Pr)).

Definition run_lane_op (o : op) : ST lane (option error) :=
  match o with
  | OpInsert ctx tx => Insert zero ctx tx
  | OpRemove tx => Remove tx
  | OpSelect => _ ← Select zero; mret None
  end.

(** The (nonce, sender) of a transaction and the hash of its encoding. *)
Definition key_of (tx : Tx) : option (Z * string) :=
  match first_signature "" tx with Ret (Ok sig) => Some (tx_key sig) | _ => None end.
Definition hash_of (enc : TxEncoder) (tx : Tx) : option string :=
  match GetTxHashStr enc tx with Ok (_, h) => Some h | Err _ => None end.

Definition op_tx (o : op) : list Tx :=
  match o with OpInsert _ tx => [tx] | OpRemove tx => [tx] | OpSelect => [] end.
Definition ops_txs (ops : list op) : list Tx := flat_map op_tx ops.

(** The encodings of the transactions at hand do not collide across senders and nonces. *)
Definition hash_identifies (enc : TxEncoder) (T : list Tx) : Prop := forall tx tx' h,
  In tx T -> In tx' T -> hash_of enc tx = Some h -> hash_of enc tx' = Some h ->
  key_of tx = key_of tx'.

(** Those of the transactions at hand with one sender and nonce have one encoding: none is replaced by
    another one. *)
Definition key_identifies (enc : TxEncoder) (T : list Tx) : Prop := forall tx tx' k,
  In tx T -> In tx' T -> key_of tx = Some k -> key_of tx' = Some k ->
  hash_of enc tx = hash_of enc tx'.

Definition view (cm : lane) : amap := model (index cm).

Definition stored_from (T : list Tx) (M : amap) : Prop := forall k p tx,
  M !! k = Some (p, tx) -> In tx T /\ key_of tx = Some k.
Definition all_cached (enc : TxEncoder) (M : amap) (c : gset string) : Prop := forall k p tx,
  M !! k = Some (p, tx) -> exists h, hash_of enc tx = Some h /\ h ∈ c.
Definition all_stored (enc : TxEncoder) (M : amap) (c : gset string) : Prop := forall h,
  h ∈ c -> exists k p tx, M !! k = Some (p, tx) /\ hash_of enc tx = Some h.

(** *** The effect of the operations on the abstract map and the cache *)

Lemma key_of_msg m tx sig : first_signature m tx = Ret (Ok sig) -> key_of tx = Some (tx_key sig).
Proof.
  unfold key_of, first_signature. destruct (GetSignaturesV2 tx) as [[[|s l]|e]|]; try done.
  by intros [= ->].
Qed.

Lemma spec_Insert_post (c : PriorityNonceMempoolConfig (C := C)) (ctx : Context) (tx : Tx) (M : amap) (r : outcome (option error)) (M' : amap) : spec_Insert c ctx tx M = (r, M') ->
  M' = M /\ (r = Ret None -> MaxTx c < 0) \/
  r = Ret None /\ exists k p, key_of tx = Some k /\ GetTxPriority (cfg_TxPriority c) ctx tx = Ret p /\
    M' = <[k := (p, tx)]> M.
Proof.
  unfold spec_Insert. destruct (_ && _); [intros [= <- <-]; left; done|].
  destruct (MaxTx c <? 0) eqn:E; [intros [= <- <-]; left; split; [done|lia]|].
  destruct (first_signature _ tx) as [[sig|err]|w] eqn:F; [|intros [= <- <-]; by left..].
  destruct (GetTxPriority _ ctx tx) as [p|w] eqn:Ep; [|intros [= <- <-]; by left].
  destruct (rule_accepts _ _ _ _); intros [= <- <-]; [right|by left].
  split; [done|]. exists (tx_key sig), p. by rewrite (key_of_msg _ _ _ F).
Qed.

Lemma spec_Remove_key (tx : Tx) (M : amap) :
  match key_of tx with
  | Some k => spec_Remove tx M = match M !! k with
                                 | Some _ => (Ret None, delete k M)
                                 | None => (Ret (Some ErrTxNotFound), M)
                                 end
  | None => exists r, spec_Remove tx M = (r, M) /\ r <> Ret None
  end.
Proof.
  unfold spec_Remove, key_of, first_signature.
  destruct (GetSignaturesV2 tx) as [[[|s l]|e]|]; eauto.
Qed.

Lemma spec_Remove_subseteq (tx : Tx) (M : amap) (k : Z * string) (x : C * Tx) :
  snd (spec_Remove tx M) !! k = Some x -> M !! k = Some x.
Proof.
  pose proof (spec_Remove_key tx M) as Hk.
  destruct (key_of tx) as [k'|]; [|destruct Hk as (r' & -> & _); done].
  rewrite Hk. destruct (M !! k'); [|done]. cbn. by intros [_ ?]%lookup_delete_Some.
Qed.

(** [Remove] on the lane mempool: the index refines the map, and the hash leaves the cache
    unless the call failed before. *)
Lemma Remove_lane tx (cm : lane) : wf (index cm) ->
  let '(r, cm') := Remove tx cm in
  wf (index cm') /\ cfg (index cm') = cfg (index cm) /\ txEncoder cm' = txEncoder cm /\
  view cm' = snd (spec_Remove tx (view cm)) /\
  (txCache cm' = txCache cm /\
     ((exists k, key_of tx = Some k /\ is_Some (view cm !! k)) -> hash_of (txEncoder cm) tx = None) \/
   exists h, hash_of (txEncoder cm) tx = Some h /\ txCache cm' = txCache cm ∖ {[ h ]} /\
     forall k, key_of tx = Some k -> view cm' !! k = None).
Proof.
  intros W. pose proof (Remove_step tx (index cm) W) as HS.
  unfold Remove, on_index, hash_of, view in *. st_unfold.
  destruct (PriorityNonce.Remove tx (index cm)) as [r mp']. destruct HS as (W' & Hc & HS).
  pose proof (spec_Remove_key tx (model (index cm))) as Hk. rewrite HS in *. cbn [snd].
  destruct (key_of tx) as [k|]; [destruct (model (index cm) !! k) eqn:Hm|].
  - injection Hk as -> Hd. cbn.
    destruct (GetTxHashStr (txEncoder cm) tx) as [[bz h]|]; cbn;
      do 4 (split; [done|]); [right; exists h|by left].
    do 2 (split; [done|]). intros ? [= <-]. rewrite Hd. apply lookup_delete_eq.
  - injection Hk as -> Hd. change (errors_Is ErrTxNotFound ErrTxNotFound) with true. cbn.
    destruct (GetTxHashStr (txEncoder cm) tx) as [[bz h]|]; cbn;
      do 4 (split; [done|]); [right; exists h|by left].
    do 2 (split; [done|]). intros ? [= <-]. by rewrite Hd.
  - destruct Hk as (r' & Hr & Hne). injection Hr as <- Hd.
    destruct r as [[err|]|w]; [cbn; destruct (negb (errors_Is err ErrTxNotFound)); cbn| |]; try done.
    2: destruct (GetTxHashStr (txEncoder cm) tx) as [[bz h]|]; cbn.
    all: do 4 (split; [done|]).
    2: right; exists h; done.
    all: left; split; [done|]; by intros (? & ? & _).
Qed.

(** *** Invariants of runs *)

Record lane_inv (enc : TxEncoder) (T : list Tx) (cm : lane) : Prop := {
  li_wf : wf (index cm);
  li_enc : txEncoder cm = enc;
  li_from : stored_from T (view cm);
  li_cached : all_cached enc (view cm) (txCache cm) }.

Lemma Remove_inv enc T tx (cm : lane) : hash_identifies enc T ->
  (In tx T \/ hash_of enc tx = None) -> lane_inv enc T cm ->
  let cm' := snd (Remove tx cm) in
  lane_inv enc T cm' /\ cfg (index cm') = cfg (index cm) /\
  (hash_of enc tx = None -> txCache cm' = txCache cm) /\
  view cm' = snd (spec_Remove tx (view cm)).
Proof.
  intros HI Htx [W E F Ca]. pose proof (Remove_lane tx cm W) as HR.
  destruct (Remove tx cm) as [r cm']. cbn. destruct HR as (W' & Hc & He & Hv & Hcache).
  assert (Hsub : forall k x, view cm' !! k = Some x -> view cm !! k = Some x)
    by (intros k x; rewrite Hv; apply spec_Remove_subseteq).
  split; [|split; [done|split; [|done]]].
  - split; [done|congruence| |].
    + intros k p t Hk. apply Hsub in Hk. by apply (F k p).
    + intros k p t Hk. destruct (Ca k p t (Hsub _ _ Hk)) as (h & Hh & Hin). exists h.
      split; [done|]. destruct Hcache as [[-> _]|(h' & Hh' & -> & Hno)]; [done|].
      apply elem_of_difference. split; [done|]. intros ->%elem_of_singleton. rewrite E in Hh'.
      destruct Htx as [Htx|Htx]; [|congruence].
      destruct (F _ _ _ (Hsub _ _ Hk)) as [Ht Hkey].
      rewrite (Hno k) in Hk; [done|]. rewrite <- Hkey. by apply (HI tx t h').
  - intros Hn. destruct Hcache as [[-> _]|(h' & Hh' & _)]; [done|]. congruence.
Qed.

(** [Insert] on the lane mempool. *)
Inductive insert_effect (tx : Tx) (cm cm' : lane) (r : outcome (option error)) : Prop :=
| insert_same : r <> Ret None -> view cm' = view cm -> txCache cm' = txCache cm ->
    insert_effect tx cm cm' r
| insert_noop h : MaxTx (cfg (index cm)) < 0 -> hash_of (txEncoder cm) tx = Some h ->
    view cm' = view cm -> txCache cm' = {[ h ]} ∪ txCache cm -> insert_effect tx cm cm' r
| insert_unencodable : r <> Ret None -> hash_of (txEncoder cm) tx = None ->
    view cm' = snd (spec_Remove tx (view cm)) -> txCache cm' = txCache cm ->
    insert_effect tx cm cm' r
| insert_stored k p h : key_of tx = Some k -> hash_of (txEncoder cm) tx = Some h ->
    view cm' = <[k := (p, tx)]> (view cm) -> txCache cm' = {[ h ]} ∪ txCache cm ->
    insert_effect tx cm cm' r.

Lemma Insert_lane ctx tx (cm : lane) : Pr zero -> wf (index cm) ->
  in_domain (Pr := Pr) (txp (index cm)) ctx tx ->
  let cm' := snd (Insert zero ctx tx cm) in
  wf (index cm') /\ cfg (index cm') = cfg (index cm) /\ txEncoder cm' = txEncoder cm /\
  insert_effect tx cm cm' (fst (Insert zero ctx tx cm)).
Proof.
  intros Dz W Hd. unfold Insert, on_index. st_unfold.
  pose proof (Insert_step zero ctx tx (index cm) Dz W Hd) as HS.
  destruct (PriorityNonce.Insert zero ctx tx (index cm)) as [r mp']. destruct HS as (W' & Hc & HS).
  apply spec_Insert_post in HS.
  set (cm1 := {| index := mp'; txPriority := txPriority cm; txEncoder := txEncoder cm;
                 txCache := txCache cm |}).
  destruct r as [[err|]|w]; cbn [snd].
  1,3: destruct HS as [[HM _]|[? _]]; [|done];
    split; [done|]; split; [done|]; split; [done|]; by apply insert_same.
  destruct (GetTxHashStr (txEncoder cm1) tx) as [[bz h]|e] eqn:Hh; cbn in Hh.
  - cbn. split; [done|]. split; [done|]. split; [done|].
    assert (Hh' : hash_of (txEncoder cm) tx = Some h) by (unfold hash_of; by rewrite Hh).
    destruct HS as [[HM Hn]|(_ & k & p & Hk & _ & HM)]; [eapply insert_noop|eapply insert_stored]; eauto.
  - assert (Hn : hash_of (txEncoder cm) tx = None) by (unfold hash_of; by rewrite Hh).
    pose proof (Remove_lane tx cm1 W') as HR.
    destruct (Remove tx cm1) as [r cm']. destruct HR as (W2 & C2 & E2 & V2 & Hcache).
    set (res := (fst _)). assert (Hres : res <> Ret None) by (subst res; by destruct r). clearbody res.
    replace (snd _) with cm' by by destruct r.
    split; [done|]. split; [by rewrite C2|]. split; [done|]. apply insert_unencodable; [done|done| |].
    + rewrite V2. unfold view at 1 2. cbn. pose proof (spec_Remove_key tx (view cm)) as Hk0.
      destruct HS as [[-> _]|(_ & k & p & Hk & _ & ->)]; [done|].
      rewrite Hk in Hk0. pose proof (spec_Remove_key tx (<[k:=(p, tx)]> (view cm))) as Hk1.
      rewrite Hk, lookup_insert_eq in Hk1. fold (view cm). rewrite Hk0, Hk1. cbn.
      rewrite delete_insert_eq. destruct (view cm !! k) eqn:Hv; [done|]. cbn. by apply delete_id.
    + destruct Hcache as [[-> _]|(h' & Hh' & _)]; [done|]. cbn in Hh'. congruence.
Qed.

Lemma Insert_inv enc T ctx tx (cm : lane) : Pr zero -> in_domain (Pr := Pr) (txp (index cm)) ctx tx ->
  hash_identifies enc T -> In tx T -> lane_inv enc T cm -> lane_inv enc T (snd (Insert zero ctx tx cm)).
Proof.
  intros Dz Hd HI Htx [W E F Ca]. destruct (Insert_lane ctx tx cm Dz W Hd) as (W' & Hc & He & HE).
  set (cm' := snd (Insert zero ctx tx cm)) in *.
  split; [done|congruence| |]; (destruct HE as [_ -> Hch|h _ Hh -> Hch|_ Hh -> Hch|k0 p0 h Hk0 Hh -> Hch]).
  - done.
  - done.
  - intros k p t Hk%spec_Remove_subseteq. by apply (F k p).
  - intros k p t [[<- [= <- <-]]|[_ Hk]]%lookup_insert_Some; [done|by apply (F k p)].
  - by rewrite Hch.
  - intros k p t Hk. destruct (Ca k p t Hk) as (h' & ? & ?). exists h'. rewrite Hch. set_solver.
  - intros k p t Hk%spec_Remove_subseteq. rewrite Hch. by apply (Ca k p).
  - intros k p t [[<- [= <- <-]]|[_ Hk]]%lookup_insert_Some; rewrite Hch.
    + exists h. rewrite <- E. set_solver.
    + destruct (Ca k p t Hk) as (h' & ? & ?). exists h'. set_solver.
Qed.

Lemma Select_inv enc T (cm : lane) : lane_inv enc T cm ->
  lane_inv enc T (snd (Select zero cm)) /\ view (snd (Select zero cm)) = view cm /\
  txCache (snd (Select zero cm)) = txCache cm /\ cfg (index (snd (Select zero cm))) = cfg (index cm).
Proof.
  intros [W E F Ca]. unfold Select, on_index, SelectAll.
  destruct (Select_step zero (index cm) W) as (W' & Hc & Hm).
  destruct (PriorityNonce.Select zero (index cm)) as [i mp']. cbn in *.
  unfold view in *. cbn. split; [|done]. split; unfold view; cbn; rewrite ?Hm; done.
Qed.

Lemma run_lane_op_cfg o (cm : lane) : Pr zero -> wf (index cm) ->
  op_in_domain (Pr := Pr) (txp (index cm)) o ->
  cfg (index (snd (run_lane_op o cm))) = cfg (index cm).
Proof.
  intros Dz W Hd. destruct o as [ctx tx|tx|]; cbn.
  - by apply Insert_lane.
  - pose proof (Remove_lane tx cm W) as HR. destruct (Remove tx cm). by destruct HR as (_ & ? & _).
  - st_unfold. destruct (Select_step zero (index cm) W) as (_ & Hc & _). unfold Select, on_index, SelectAll.
    by destruct (PriorityNonce.Select zero (index cm)) as [i mp'].
Qed.

Lemma run_lane_inv enc T ops (cm : lane) : Pr zero -> Forall (op_in_domain (Pr := Pr) (txp (index cm))) ops ->
  hash_identifies enc T ->
  (forall tx, In tx (ops_txs ops) -> In tx T) -> lane_inv enc T cm ->
  lane_inv enc T (snd (run run_lane_op ops cm)).
Proof.
  intros Dz Hds HI. revert cm Hds. induction ops as [|o ops IH]; intros cm Hds HT I; [done|]. cbn.
  apply Forall_cons_1 in Hds as [Hd Hds].
  pose proof (run_lane_op_cfg o cm Dz (li_wf _ _ _ I) Hd) as Hcfg.
  assert (I1 : lane_inv enc T (snd (run_lane_op o cm))).
  { destruct o as [ctx tx|tx|]; cbn.
    - apply Insert_inv; [done..| |done]. apply HT. by left.
    - apply Remove_inv; [done|left; apply HT; by left|done].
    - st_unfold. pose proof (Select_inv enc T cm I) as [I1 _].
      by destruct (Select zero cm) as [[]]. }
  destruct (run_lane_op o cm) as [r cm1]. cbn in I1, Hcfg. unfold txp in Hds; rewrite <- Hcfg in Hds.
  assert (HT' : forall tx, In tx (ops_txs ops) -> In tx T)
    by (intros tx Hin; apply HT; cbn; apply in_app_iff; by right).
  specialize (IH cm1 Hds HT' I1). by destruct (run run_lane_op ops cm1).
Qed.

(** *** Exactness, when no two transactions share sender and nonce *)

Lemma Remove_exact enc T tx (cm : lane) : key_identifies enc T -> In tx T ->
  lane_inv enc T cm -> all_stored enc (view cm) (txCache cm) ->
  all_stored enc (view (snd (Remove tx cm))) (txCache (snd (Remove tx cm))).
Proof.
  intros KI Htx [W E F Ca] St. pose proof (Remove_lane tx cm W) as HR.
  destruct (Remove tx cm) as [r cm']. cbn. destruct HR as (_ & _ & _ & Hv & Hcache).
  pose proof (spec_Remove_key tx (view cm)) as Hk. rewrite E in Hcache.
  assert (Hkeep : forall k p t h, view cm !! k = Some (p, t) -> hash_of enc t = Some h ->
    hash_of enc tx <> Some h -> view cm' !! k = Some (p, t)).
  { intros k p t h Hs Hh Hne. rewrite Hv. destruct (F _ _ _ Hs) as [Ht Hkt].
    destruct (key_of tx) as [k'|] eqn:Hkx; [|by destruct Hk as (r' & -> & _)].
    rewrite Hk. destruct (view cm !! k') eqn:Hvk; [|done]. cbn. rewrite lookup_delete_ne; [done|].
    intros ->. rewrite (KI tx t k) in Hne; done. }
  intros h. destruct Hcache as [[-> Hnone]|(h0 & Hh0 & -> & _)].
  - intros Hin. destruct (St h Hin) as (k & p & t & Hs & Hh). exists k, p, t. split; [|done].
    rewrite Hv. destruct (key_of tx) as [k'|] eqn:Hkx; [|by destruct Hk as (r' & -> & _)].
    rewrite Hk. destruct (view cm !! k') eqn:Hvk; [exfalso|done].
    destruct p0 as [p0 t0]. destruct (F _ _ _ Hvk) as [Ht0 Hkt0].
    destruct (Ca _ _ _ Hvk) as (h1 & Hh1 & _).
    assert (Hx : hash_of enc tx = None) by (apply Hnone; exists k'; split; [done|by rewrite Hvk]).
    rewrite <- (KI tx t0 k') in Hh1; congruence.
  - intros [Hin Hne]%elem_of_difference. destruct (St h Hin) as (k & p & t & Hs & Hh).
    exists k, p, t. split; [|done]. apply (Hkeep k p t h); [done..|]. set_solver.
Qed.

Lemma Insert_exact enc T ctx tx (cm : lane) : Pr zero -> in_domain (Pr := Pr) (txp (index cm)) ctx tx ->
  key_identifies enc T -> In tx T ->
  0 <= MaxTx (cfg (index cm)) ->
  lane_inv enc T cm -> all_stored enc (view cm) (txCache cm) ->
  all_stored enc (view (snd (Insert zero ctx tx cm))) (txCache (snd (Insert zero ctx tx cm))).
Proof.
  intros Dz Hd KI Htx Hmax [W E F Ca] St. destruct (Insert_lane ctx tx cm Dz W Hd) as (_ & _ & _ & HE).
  set (cm' := snd (Insert zero ctx tx cm)) in *. rewrite <- E in KI, St, Ca |- *.
  destruct HE as [_ -> ->|h Hm _ _ _|_ Hh -> ->|k0 p0 h Hk0 Hh -> ->]; [done|lia| |].
  - intros h' Hin. destruct (St h' Hin) as (k & p & t & Hs & Ht). exists k, p, t. split; [|done].
    pose proof (spec_Remove_key tx (view cm)) as Hk.
    destruct (key_of tx) as [k'|] eqn:Hkx; [|by destruct Hk as (r' & -> & _)].
    rewrite Hk. destruct (view cm !! k'); [|done]. cbn. rewrite lookup_delete_ne; [done|].
    intros ->. destruct (F _ _ _ Hs) as [Hin' Hkt].
    rewrite (KI t tx k) in Ht by done. congruence.
  - intros h' [->%elem_of_singleton|Hin]%elem_of_union.
    + exists k0, p0, tx. rewrite lookup_insert_eq. done.
    + destruct (St h' Hin) as (k & p & t & Hs & Ht). destruct (decide (k0 = k)) as [->|Hne].
      * exists k, p0, tx. rewrite lookup_insert_eq. split; [done|].
        destruct (F _ _ _ Hs) as [Hin' Hkt]. by rewrite (KI tx t k).
      * exists k, p, t. by rewrite lookup_insert_ne.
Qed.

Lemma run_lane_exact enc T ops (cm : lane) : Pr zero -> Forall (op_in_domain (Pr := Pr) (txp (index cm))) ops ->
  hash_identifies enc T -> key_identifies enc T ->
  (forall tx, In tx (ops_txs ops) -> In tx T) -> 0 <= MaxTx (cfg (index cm)) ->
  lane_inv enc T cm -> all_stored enc (view cm) (txCache cm) ->
  let cm' := snd (run run_lane_op ops cm) in
  lane_inv enc T cm' /\ all_stored enc (view cm') (txCache cm').
Proof.
  intros Dz Hds HI KI. revert cm Hds. induction ops as [|o ops IH]; intros cm Hds HT Hm I St; [done|]. cbn.
  apply Forall_cons_1 in Hds as [Hd Hds].
  pose proof (run_lane_op_cfg o cm Dz (li_wf _ _ _ I) Hd) as Hcfg.
  assert (Htx : forall tx, In tx (op_tx o) -> In tx T)
    by (intros tx Hin; apply HT; cbn; apply in_app_iff; by left).
  assert (H1 : let cm1 := snd (run_lane_op o cm) in lane_inv enc T cm1 /\
            all_stored enc (view cm1) (txCache cm1) /\ cfg (index cm1) = cfg (index cm)).
  { destruct o as [ctx tx|tx|]; cbn in Htx |- *.
    - split; [apply Insert_inv; auto|]. split; [apply (Insert_exact enc T); auto|done].
    - split; [apply Remove_inv; auto|]. split; [apply (Remove_exact enc T); auto|done].
    - st_unfold. destruct (Select_inv enc T cm I) as (I1 & Hv & Hc & Hg).
      destruct (Select zero cm) as [[] cm1]; cbn in *; by rewrite Hv, Hc. }
  destruct (run_lane_op o cm) as [r cm1]. cbn in H1. destruct H1 as (I1 & St1 & Hg).
  unfold txp in Hds; rewrite <- Hg in Hds.
  assert (HT' : forall tx, In tx (ops_txs ops) -> In tx T)
    by (intros tx Hin; apply HT; cbn; apply in_app_iff; by right).
  specialize (IH cm1 Hds HT' ltac:(by rewrite Hg) I1 St1). by destruct (run run_lane_op ops cm1).
Qed.

(** *** The properties *)

Definition after_lane (tp : TxPriority (C := C)) (enc : TxEncoder) (maxTx : Z) (ops : list op) : lane :=
  snd (run run_lane_op ops (NewConstructorMempool tp enc maxTx)).

Lemma NewConstructorMempool_inv tp enc maxTx T : PriorityOrder Pr tp ->
  lane_inv enc T (NewConstructorMempool tp enc maxTx).
Proof.
  intros O. split; [by apply NewPriorityMempool_wf|done|..]; unfold view, NewConstructorMempool; cbn [index txCache];
    rewrite NewPriorityMempool_model; intros k p tx; by rewrite lookup_empty.
Qed.

Lemma Contains_hash (cm : lane) tx h : hash_of (txEncoder cm) tx = Some h ->
  Contains cm tx = bool_decide (h ∈ txCache cm).
Proof. unfold hash_of, Contains. destruct (GetTxHashStr _ tx) as [[bz h']|]; [|done]. by intros [= ->]. Qed.

(** After any sequence of calls on a new lane mempool, every transaction stored in it is
    reported by Contains (provided encodings do not collide across senders and nonces). *)
Theorem lane_mempool_stored_is_contained tp enc maxTx ops k p (tx : Tx) : PriorityOrder Pr tp -> Pr zero ->
  Forall (op_in_domain (Pr := Pr) tp) ops ->
  hash_identifies enc (ops_txs ops) ->
  view (after_lane tp enc maxTx ops) !! k = Some (p, tx) ->
  Contains (after_lane tp enc maxTx ops) tx = true.
Proof.
  intros O Dz Hd HI Hk.
  pose proof (run_lane_inv enc (ops_txs ops) ops (NewConstructorMempool tp enc maxTx) Dz Hd HI (fun _ i => i)
    (NewConstructorMempool_inv tp enc maxTx (ops_txs ops) O)) as [_ E _ Ca].
  destruct (Ca k p tx Hk) as (h & Hh & Hin).
  rewrite (Contains_hash _ tx h); [|unfold after_lane; by rewrite E].
  by apply bool_decide_eq_true_2.
Qed.

(** C35: when, among the transactions of the calls, those with one sender and nonce have one encoding
    (no transaction is replaced by another one), and those with one hash have one sender and nonce
    (the hash identifies the transaction), Contains reports exactly the transactions that are
    stored. *)
Theorem lane_mempool_contains_iff_stored tp enc maxTx ops (tx : Tx) h : PriorityOrder Pr tp -> Pr zero ->
  Forall (op_in_domain (Pr := Pr) tp) ops ->
  hash_identifies enc (ops_txs ops) -> key_identifies enc (ops_txs ops) -> 0 <= maxTx ->
  In tx (ops_txs ops) -> hash_of enc tx = Some h ->
  let cm := after_lane tp enc maxTx ops in
  Contains cm tx = true <->
  exists k p tx', key_of tx = Some k /\ view cm !! k = Some (p, tx') /\ hash_of enc tx' = Some h.
Proof.
  intros O Dz Hd HI KI Hm Htx Hh cm.
  assert (St0 : all_stored enc (view (NewConstructorMempool tp enc maxTx)) ∅).
  { intros h' Hin. set_solver. }
  destruct (run_lane_exact enc (ops_txs ops) ops (NewConstructorMempool tp enc maxTx) Dz Hd HI KI (fun _ i => i) Hm
    (NewConstructorMempool_inv tp enc maxTx (ops_txs ops) O) St0) as [[_ E F Ca] St].
  fold (after_lane tp enc maxTx ops) in E, F, Ca, St. fold cm in E, F, Ca, St.
  rewrite (Contains_hash cm tx h), bool_decide_eq_true by by rewrite E. split.
  - intros Hin. destruct (St h Hin) as (k & p & tx' & Hk & Hh').
    exists k, p, tx'. split; [|done]. destruct (F _ _ _ Hk) as [Ht <-]. by apply (HI tx tx' h).
  - intros (k & p & tx' & _ & Hk & Hh'). destruct (Ca k p tx' Hk) as (h' & Hh2 & Hin). congruence.
Qed.

(** C36: replacing a transaction by another one with the same sender and nonce leaves the old
    one reported by Contains, and removing the old one then removes the new one. *)
Theorem replaced_tx_still_contained ctx1 ctx2 (tx1 tx2 : Tx) k (cm cm1 cm2 : lane) :
  Pr zero -> wf (index cm) ->
  in_domain (Pr := Pr) (txp (index cm)) ctx1 tx1 -> in_domain (Pr := Pr) (txp (index cm)) ctx2 tx2 ->
  0 <= MaxTx (cfg (index cm)) ->
  key_of tx1 = Some k -> key_of tx2 = Some k ->
  Insert zero ctx1 tx1 cm = (Ret None, cm1) -> Insert zero ctx2 tx2 cm1 = (Ret None, cm2) ->
  Contains cm2 tx1 = true /\ (exists p, view cm2 !! k = Some (p, tx2)) /\
  view (snd (Remove tx1 cm2)) !! k = None.
Proof.
  intros Dz W D1 D2 Hm K1 K2 I1 I2.
  destruct (Insert_lane ctx1 tx1 cm Dz W D1) as (W1 & C1 & E1 & X1). rewrite I1 in *. cbn in *.
  destruct (Insert_lane ctx2 tx2 cm1 Dz W1) as (W2 & C2 & E2 & X2); [unfold txp; by rewrite C1|].
  rewrite I2 in *. cbn in *.
  destruct X1 as [?|? ?|?|k1 p1 h1 Hk1 Hh1 V1 H1]; [done|lia|done|].
  destruct X2 as [?|? ?|?|k2 p2 h2 Hk2 Hh2 V2 H2]; [done|rewrite C1 in *; lia|done|].
  simplify_eq. rewrite (Contains_hash cm2 tx1 h1) by by rewrite E2, E1. split; [|split].
  - apply bool_decide_eq_true_2. rewrite H2, H1. set_solver.
  - exists p2. rewrite V2. apply lookup_insert_eq.
  - pose proof (Remove_lane tx1 cm2 W2) as HR. destruct (Remove tx1 cm2) as [r cm3].
    destruct HR as (_ & _ & _ & Hv & _). cbn. rewrite Hv.
    pose proof (spec_Remove_key tx1 (view cm2)) as Hk. rewrite K1 in Hk. rewrite Hk, V2, lookup_insert_eq.
    apply lookup_delete_eq.
Qed.
End Cache.

(** ** Witnesses *)

Definition ex_TxEncoder : @TxEncoder concrete_sdk := fun tx : CTx => Ok (c_bytes tx).

Lemma identify_check `{sdk : Sdk} (enc : TxEncoder) T :
  forallb (fun tx => forallb (fun tx' =>
    eqb (bool_decide (hash_of enc tx = hash_of enc tx')) (bool_decide (key_of tx = key_of tx'))) T) T
  = true -> hash_identifies enc T /\ key_identifies enc T.
Proof.
  intros Hc.
  assert (Hall : forall tx tx', In tx T -> In tx' T ->
    hash_of enc tx = hash_of enc tx' <-> key_of tx = key_of tx').
  { intros tx tx' H1 H2. rewrite forallb_forall in Hc. specialize (Hc tx H1).
    rewrite forallb_forall in Hc. specialize (Hc tx' H2). apply eqb_prop in Hc.
    rewrite <- (bool_decide_eq_true (hash_of enc tx = _)), Hc. by rewrite bool_decide_eq_true. }
  split; intros tx tx' x H1 H2 E1 E2; apply Hall; congruence.
Qed.

(** [ex_ops]: transactions with keys 1/0, 1/1, 2/0, 3/0 and distinct encodings. *)
Lemma ex_identify :
  hash_identifies ex_TxEncoder (ops_txs ex_ops) /\ key_identifies ex_TxEncoder (ops_txs ex_ops).
Proof. apply identify_check. vm_compute. reflexivity. Qed.

Lemma lane_mempool_stored_is_contained_witness :
  Contains (after_lane 0 NewDefaultTxPriority ex_TxEncoder 3 ex_ops) (ex_tx 2 0 [3]) = true.
Proof.
  apply (lane_mempool_stored_is_contained (Pr := any_priority) 0 NewDefaultTxPriority ex_TxEncoder 3 ex_ops (0, "02") 6).
  - apply NewDefaultTxPriority_order.
  - done.
  - apply any_in_domain.
  - apply ex_identify.
  - vm_compute. reflexivity.
Defined.

Lemma lane_mempool_contains_iff_stored_witness :
  let cm := after_lane 0 NewDefaultTxPriority ex_TxEncoder 3 ex_ops in
  Contains cm (ex_tx 1 1 [2]) = true <->
  exists k p tx', key_of (ex_tx 1 1 [2]) = Some k /\ view cm !! k = Some (p, tx') /\
    hash_of ex_TxEncoder tx' = Some (tx_hash (c_bytes (ex_tx 1 1 [2]))).
Proof.
  apply (lane_mempool_contains_iff_stored (Pr := any_priority) 0 NewDefaultTxPriority ex_TxEncoder 3 ex_ops
    (ex_tx 1 1 [2]) (tx_hash (c_bytes (ex_tx 1 1 [2])))).
  - apply NewDefaultTxPriority_order.
  - done.
  - apply any_in_domain.
  - apply ex_identify.
  - apply ex_identify.
  - lia.
  - right. left. reflexivity.
  - vm_compute. reflexivity.
Defined.

(** Account 1 replaces its transaction of nonce 0. *)
Lemma replaced_tx_still_contained_witness :
  let cm := NewConstructorMempool NewDefaultTxPriority ex_TxEncoder 0 in
  let cm1 := snd (Insert 0 (ex_ctx 5) (ex_tx 1 0 [1]) cm) in
  let cm2 := snd (Insert 0 (ex_ctx 5) (ex_tx 1 0 [2]) cm1) in
  Contains cm2 (ex_tx 1 0 [1]) = true /\ (exists p, view cm2 !! (0, "01") = Some (p, ex_tx 1 0 [2])) /\
  view (snd (Remove (ex_tx 1 0 [1]) cm2)) !! (0, "01") = None.
Proof.
  intros cm cm1 cm2.
  apply (replaced_tx_still_contained (Pr := any_priority) 0 (ex_ctx 5) (ex_ctx 5) (ex_tx 1 0 [1]) (ex_tx 1 0 [2]) (0, "01")
    cm cm1 cm2).
  - done.
  - apply NewPriorityMempool_wf, NewDefaultTxPriority_order.
  - done.
  - done.
  - cbn. lia.
  - reflexivity.
  - reflexivity.
  - subst cm1. rewrite (surjective_pairing (Insert _ _ _ _)) at 1. apply (f_equal (fun r => (r, _))).
    vm_compute. reflexivity.
  - subst cm2. rewrite (surjective_pairing (Insert _ _ _ _)) at 1. apply (f_equal (fun r => (r, _))).
    vm_compute. reflexivity.
Defined.

(** A transaction of account 1 that pays a fee. *)
Definition ex_fee_tx (c : Coin) : Tx :=
  {| c_msgs := []; c_sigs := Some (Ok [MkSig (ex_addr 1) 0]); c_signers := Some (Ok [ex_addr 1]);
     c_timeout := Some 0; c_fee := Some (Some [c]); c_bytes := [x01] |} : CTx.

Lemma DefaultTxPriority_Compare_witness :
  exists p1 p2,
    GetTxPriority DefaultTxPriority (ex_ctx 0) (ex_fee_tx (MkCoin "atom" (Some 12))) = Ret p1 /\
    GetTxPriority DefaultTxPriority (ex_ctx 0) (ex_fee_tx (MkCoin "stake" (Some 7))) = Ret p2 /\
    PriorityNonce.Compare DefaultTxPriority p1 p2
    = if bool_decide ("atom"%string = "stake"%string) then Z.sgn (12 - 7) else 0.
Proof.
  apply (DefaultTxPriority_Compare (ex_ctx 0) (ex_fee_tx (MkCoin "atom" (Some 12)))
    (ex_fee_tx (MkCoin "stake" (Some 7))) "atom" "stake" 12 7).
  - reflexivity.
  - reflexivity.
  - lia.
  - lia.
  - vm_compute. reflexivity.
  - vm_compute. reflexivity.
Defined.
