(* ===== verification/Stored.v ===== *)
(** * What a lane mempool holds, whatever its priorities

    [DefaultTxPriority] and [AuctionTxPriority] compare priorities by the coins they parse to,
    which does not order them totally; the facts of this file need no order.  A transaction is
    held by a mempool when it is the value of an element of one of its skip lists: only an
    insertion adds one, and an iteration only visits those. *)
From S2P Require Import Prelude Hash Sdk Proposals PriorityNonce PriorityNonceFacts LaneMempool.

(** What the lanes rely on: only an insertion adds a transaction, and an iteration visits
    transactions of the mempool.  [lm_ok] is an invariant of the implementation, which it keeps
    for the transactions with [lm_good]. *)
Class LaneMempoolLaws `{sdk : Sdk} (M : Type) {LM : LaneMempool M} : Type := {
  lm_ok : M -> Prop;
  lm_holds : M -> Tx -> Prop;
  lm_good : Tx -> Prop;
  lm_insert_law ctx tx mp : lm_good tx -> lm_ok mp -> let mp' := snd (lm_Insert ctx tx mp) in
    lm_ok mp' /\ forall t, lm_holds mp' t -> lm_holds mp t \/ t = tx;
  lm_remove_law tx mp : lm_ok mp -> let mp' := snd (lm_Remove tx mp) in
    lm_ok mp' /\ forall t, lm_holds mp' t -> lm_holds mp t;
  lm_select_law mp : lm_ok mp -> let mp' := snd (lm_Select mp) in
    lm_ok mp' /\ (forall t, lm_holds mp' t -> lm_holds mp t) /\
    forall it, fst (lm_Select mp) = Ret it -> Forall (lm_holds mp) it }.

Section Stored.
Context {sdk : Sdk} {L : SkipListLib} {SL : SkipListLaws L}.
Context {C : Type} `{Countable C} (zero : C).
Abbreviation mempool := (PriorityNonceMempool (C := C)).
Abbreviation elt := (Element (txMeta (C := C)) Tx).
Implicit Types (mp : mempool) (P : Tx -> Prop).

(** ** The priority-nonce mempool *)

Definition values (l : list elt) : list Tx := map e_value l.

Definition stored (mp : mempool) (tx : Tx) : Prop :=
  In tx (values (pelems mp)) \/ exists s, In tx (values (selems mp s)).

Lemma stored_set_scores f mp tx : stored (set_scores f mp) tx -> stored mp tx.
Proof. done. Qed.
Lemma stored_set_priorityCounts f mp tx : stored (set_priorityCounts f mp) tx -> stored mp tx.
Proof. done. Qed.

Lemma stored_set_priorityIndex f mp tx : stored (set_priorityIndex f mp) tx ->
  In tx (values (sl_elements (f (priorityIndex mp)))) \/ stored mp tx.
Proof. intros [Hp|Hs]; [by left|by right; right]. Qed.

Lemma stored_set_senderIndex s l mp tx : stored (set_senderIndex s l mp) tx ->
  In tx (values (sl_elements l)) \/ stored mp tx.
Proof.
  intros [Hp|[s' Hs]]; [by right; left|]. unfold selems in Hs. cbn in Hs.
  destruct (decide (s = s')) as [<-|Hne].
  - rewrite lookup_insert_eq in Hs. by left.
  - rewrite lookup_insert_ne in Hs by done. right. right. by exists s'.
Qed.

Lemma stored_sender mp s l tx : senderIndices mp !! s = Some l -> In tx (values (sl_elements l)) -> stored mp tx.
Proof. intros E Ht. right. exists s. unfold selems. by rewrite E. Qed.

Lemma insert_key_stored key tx l mp t : stored (insert_key zero key tx l mp) t ->
  stored mp t \/ t = tx \/ In t (values (sl_elements l)).
Proof.
  unfold insert_key. pose proof (sl_set_values _ _ l key tx t) as Hl.
  destruct (sl_Set l key tx) as [l' el]. cbn [fst] in Hl. intros Ht.
  apply stored_set_priorityIndex in Ht as [Ht|Ht].
  - apply sl_set_values in Ht as [->|Ht]; [by right; left|by left; left].
  - apply stored_set_scores, stored_set_senderIndex in Ht as [Ht|Ht]; [|by left].
    right. by apply Hl.
Qed.

Lemma Insert_stored ctx tx mp t : stored (snd (PriorityNonce.Insert zero ctx tx mp)) t -> stored mp t \/ t = tx.
Proof.
  unfold PriorityNonce.Insert. repeat (break_match; [by left|]).
  destruct (first_signature _ _) as [[sig|]|]; [|by left..].
  destruct (GetTxPriority _ _ _) as [p|]; [|by left].
  set (s := AccAddress_String _). set (l := match senderIndices mp !! s with Some l => l | None => _ end).
  assert (Hl : forall t, In t (values (sl_elements l)) -> stored mp t).
  { intros t0. subst l. destruct (senderIndices mp !! s) as [l|] eqn:E; [by apply (stored_sender _ s)|].
    by rewrite sl_elements_new. }
  set (mp0 := set_senderIndex s l mp).
  assert (H0 : forall t, stored mp0 t -> stored mp t)
    by (intros t0 [?|?]%stored_set_senderIndex; [by apply Hl|done]).
  assert (Hk : forall key mp1, (forall t, stored mp1 t -> stored mp0 t) ->
    stored (insert_key zero key tx l mp1) t -> stored mp t \/ t = tx).
  { intros key mp1 H1 [Ht|[?|Ht]]%insert_key_stored; [left; by apply H0, H1|by right|left; by apply Hl]. }
  cbv zeta. destruct (scores mp0 !! _) as [sc|]; [|by apply Hk].
  assert (Hr : forall f g, (forall l, f l = sl_Remove l g) -> forall c t,
    stored (set_priorityCounts c (set_priorityIndex f mp0)) t -> stored mp0 t).
  { intros f g Hf c t0 [Ht|Ht]%stored_set_priorityCounts%stored_set_priorityIndex; [|done].
    rewrite Hf in Ht. left. by apply sl_remove_values in Ht. }
  destruct (TxReplacement _) as [rule|]; [|apply Hk; by eapply Hr].
  destruct (sl_Get _ _) as [old|]; [|left; by apply H0].
  destruct (rule _ _ _ _); [apply Hk; by eapply Hr|left; by apply H0].
Qed.

Lemma Remove_stored tx mp t : stored (snd (PriorityNonce.Remove tx mp)) t -> stored mp t.
Proof.
  unfold PriorityNonce.Remove. destruct (first_signature _ _) as [[sig|]|]; [|done..].
  destruct (scores mp !! _) as [sc|]; [|done].
  destruct (senderIndices mp !! _) as [l|] eqn:E; [|done]. cbn [snd].
  intros Ht. apply stored_set_priorityCounts, stored_set_scores, stored_set_senderIndex in Ht as [Ht|Ht].
  - apply sl_remove_values in Ht. by eapply stored_sender.
  - apply stored_set_priorityIndex in Ht as [Ht|Ht]; [|done]. left. by apply sl_remove_values in Ht.
Qed.

Lemma reorder_stored mp t : stored (reorderPriorityTies mp) t -> stored mp t.
Proof.
  unfold reorderPriorityTies.
  assert (Hk : forall k, In k (reordering mp) -> stored mp (rk_tx k)).
  { intros k (e & He & Hk)%in_flat_map. cbv zeta in Hk. destruct (1 <? _); [|done]. destruct Hk as [<-|[]].
    left. by apply (in_map e_value) in He. }
  assert (Hg : forall ks mp0, (forall k, In k ks -> stored mp (rk_tx k)) ->
    (forall t, stored mp0 t -> stored mp t) -> stored (fold_left reorder_one ks mp0) t -> stored mp t).
  2: { by apply Hg. }
  induction ks as [|k ks IH]; intros mp0 Hks H0; [apply H0|]. cbn [fold_left].
  apply IH; [intros k' Hk'; by apply Hks; right|]. intros t0 Ht. unfold reorder_one in Ht. cbv zeta in Ht.
  apply stored_set_scores, stored_set_priorityIndex in Ht as [Ht|Ht].
  - apply sl_set_values in Ht as [->|Ht]; [apply Hks; by left|].
    apply H0. left. by apply sl_remove_values in Ht.
  - apply stored_set_scores, stored_set_priorityIndex in Ht as [Ht|Ht]; [|by apply H0].
    apply H0. left. by apply sl_remove_values in Ht.
Qed.

(** ** Iteration *)

(** The cursors are inside the senders' elements. *)
Definition cursors_in (mp : mempool) (cs : gmap string (list elt)) : Prop :=
  forall s c e, cs !! s = Some c -> In e c -> In e (selems mp s).
Definition iterator_in (mp : mempool) (i : option (PriorityNonceIterator (C := C))) : Prop :=
  match i with
  | None => True
  | Some i => it_mempool i = mp /\ cursors_in mp (senderCursors i)
  end.

Lemma next_at_in mp pn cs cur np k : cursors_in mp cs -> iterator_in mp (k tt) ->
  iterator_in mp (next_at zero mp pn cs cur np k).
Proof.
  intros Hcs Hk. unfold next_at.
  set (cursor := match cs !! cur with None => _ | Some c => tail c end).
  assert (Hcur : forall e, In e cursor -> In e (selems mp cur)).
  { intros e. subst cursor. unfold selems. destruct (cs !! cur) as [[|x c]|] eqn:E; cbn [tail].
    - done.
    - intros He. apply (Hcs cur (x :: c)); [done|by right].
    - by destruct (senderIndices mp !! cur). }
  destruct cursor as [|e c]; [done|].
  assert (Hfound : iterator_in mp (Some {| it_mempool := mp; priorityNode := pn;
    senderCursors := <[cur := e :: c]> cs; it_sender := cur; nextPriority := np |})).
  { split; [done|]. intros s c' e'. cbn. intros [[<- <-]|[_ Hs]]%lookup_insert_Some; [apply Hcur|by apply Hcs]. }
  destruct (tail pn); [done|]. by repeat break_match.
Qed.

Lemma iteratePriority_in mp cs nodes : cursors_in mp cs -> iterator_in mp (iteratePriority zero mp cs nodes).
Proof. intros Hcs. induction nodes as [|n nodes IH]; cbn; [done|]. by apply next_at_in. Qed.

Lemma drain_stored mp fuel i : iterator_in mp i -> Forall (stored mp) (drain zero fuel i).
Proof.
  revert i. induction fuel as [|fuel IH]; intros [i|] Hi; cbn [drain]; try constructor.
  destruct Hi as [Hm Hcs]. apply Forall_app_2.
  - unfold it_Tx. destruct (senderCursors i !! it_sender i) as [[|e c]|] eqn:E; cbn; [constructor| |constructor].
    constructor; [|constructor]. right. exists (it_sender i). apply in_map. eapply Hcs; [done|by left].
  - apply IH. unfold Next. destruct (priorityNode i) as [|n rest]; [done|]. rewrite Hm.
    apply next_at_in; [done|]. by apply iteratePriority_in.
Qed.

Lemma SelectAll_stored mp : let '(l, mp') := SelectAll zero mp in
  (forall t, stored mp' t -> stored mp t) /\ Forall (stored mp) l.
Proof.
  unfold SelectAll, PriorityNonce.Select. destruct (_ =? 0); cbv beta iota zeta; [split; [done|constructor]|].
  pose proof (reorder_stored mp) as HR. split; [done|].
  eapply List.Forall_impl; [intros t; apply HR|]. apply drain_stored, iteratePriority_in.
  intros s c e. by rewrite lookup_empty.
Qed.

(** ** The mempool of a lane *)

Abbreviation lane := (ConstructorMempool (C := C)).
Definition holds (cm : lane) (tx : Tx) : Prop := stored (index cm) tx.

(** The lane mempool keeps the priorities it was made with. *)
Context (tp : TxPriority (C := C)).
Definition prioritised (cm : lane) : Prop := txPriority cm = tp.

Lemma on_index_prioritised {A} (m : ST mempool A) cm : prioritised cm -> prioritised (snd (on_index m cm)).
Proof. unfold on_index, prioritised. by destruct (m (index cm)). Qed.

Lemma on_index_index {A} (m : ST mempool A) cm :
  fst (on_index m cm) = fst (m (index cm)) /\ index (snd (on_index m cm)) = snd (m (index cm)).
Proof. unfold on_index. by destruct (m (index cm)). Qed.

Lemma lane_Remove_stored tx (cm : lane) : prioritised cm -> let cm' := snd (Remove tx cm) in
  prioritised cm' /\ forall t, holds cm' t -> holds cm t.
Proof.
  intros Hp. unfold Remove. st_unfold. unfold holds.
  destruct (on_index_index (PriorityNonce.Remove tx) cm) as [_ Hi].
  pose proof (on_index_prioritised (PriorityNonce.Remove tx) cm Hp) as Hp'.
  pose proof (Remove_stored tx (index cm)) as HR. rewrite <- Hi in HR.
  destruct (on_index _ cm) as [[err|w] cm']; cbn [snd] in *; [|done].
  destruct (match err with Some _ => _ | None => _ end); [done|].
  by destruct (GetTxHashStr _ _) as [[]|].
Qed.

Lemma lane_Insert_stored ctx tx (cm : lane) : True -> prioritised cm -> let cm' := snd (Insert zero ctx tx cm) in
  prioritised cm' /\ forall t, holds cm' t -> holds cm t \/ t = tx.
Proof.
  intros _ Hp. unfold LaneMempool.Insert. st_unfold. unfold holds.
  destruct (on_index_index (PriorityNonce.Insert zero ctx tx) cm) as [_ Hi].
  pose proof (on_index_prioritised (PriorityNonce.Insert zero ctx tx) cm Hp) as Hp'.
  pose proof (Insert_stored ctx tx (index cm)) as HI. rewrite <- Hi in HI.
  destruct (on_index _ cm) as [[[err|]|w] cm']; cbn [snd] in *; [by split; auto..| |by split; auto].
  destruct (GetTxHashStr _ _) as [[]|]; [by split; auto|].
  destruct (lane_Remove_stored tx cm' Hp') as [Hp2 Hr]. destruct (Remove tx cm') as [[r|w] cm2]; cbn [snd] in *;
    (split; [done|]); intros t Ht; by apply HI, Hr.
Qed.

Lemma lane_Select_stored (cm : lane) : prioritised cm -> let cm' := snd (LaneMempool.Select zero cm) in
  prioritised cm' /\ (forall t, holds cm' t -> holds cm t) /\
  forall it, fst (LaneMempool.Select zero cm) = Ret it -> Forall (holds cm) it.
Proof.
  intros Hp. unfold LaneMempool.Select, on_index, holds. pose proof (SelectAll_stored (index cm)) as HS.
  destruct (SelectAll zero (index cm)) as [l mp']. destruct HS as [H1 H2]. cbn.
  split; [done|]. split; [done|]. by intros it [= <-].
Qed.

(** The laws of the interface, for the lane mempools of one priority. *)
Definition constructor_lane_mempool_laws : LaneMempoolLaws lane (LM := constructor_lane_mempool zero) :=
  Build_LaneMempoolLaws sdk lane (constructor_lane_mempool zero) prioritised holds (fun _ => True)
    lane_Insert_stored lane_Remove_stored lane_Select_stored.

Lemma NewConstructorMempool_stored enc maxTx tx : ~ holds (NewConstructorMempool tp enc maxTx) tx.
Proof.
  unfold holds, stored, values, pelems, selems. cbn. rewrite sl_elements_new. cbn.
  intros [[]|[s Hs]]. by rewrite lookup_empty in Hs.
Qed.
End Stored.
