(* ===== verification/LaneOrder.v ===== *)
(** * Lane mempools whose priorities are comparable

    [DefaultTxPriority] and [AuctionTxPriority] compare the coins two priorities parse to, which
    orders the priorities of one denomination only.  The file shows that they do order those, and
    that the mempool of a lane whose transactions have comparable priorities meets the contract of
    the priority-nonce mempool: it iterates by decreasing priority. *)
From S2P Require Import Prelude Hash Sdk Proposals SkipListFacts PriorityNonce PriorityNonceFacts PriorityNonceProps LaneMempool Stored.
From Stdlib Require Import Sorting.Sorted.

(** ** Coins of one denomination *)

Section Coins.
Context {sdk : Sdk} {CSL : CoinsLaws sdk} (d : string).

(** The amount of a priority: what it parses to, when that is one coin of the denomination and
    the priority is the way to write it. *)
Definition coin_amount (p : string) : option Z :=
  match ParseCoinsNormalized p with
  | (Some [MkCoin e (Some a)], None) =>
      if bool_decide (e = d) && (0 <=? a) && bool_decide (p = Coins_String (Some [MkCoin d (Some a)]))
      then Some a else None
  | _ => None
  end.

(** No coins, or coins of the denomination. *)
Definition coin_priority (p : string) : Prop := p = "" \/ is_Some (coin_amount p).

#[export] Instance coin_priority_dec p : Decision (coin_priority p).
Proof. unfold coin_priority. apply _. Defined.

(** A number for each such priority: nothing counts as less than any amount. *)
Definition coin_rank (p : string) : Z := default (-1) (coin_amount p).

Lemma coin_amount_parse p a : coin_amount p = Some a ->
  fst (ParseCoinsNormalized p) = Some [MkCoin d (Some a)] /\ 0 <= a /\
  p = Coins_String (Some [MkCoin d (Some a)]).
Proof.
  unfold coin_amount. destruct (ParseCoinsNormalized p) as [[[|[e [a'|]] []]|] [err|]]; try done.
  destruct (bool_decide (e = d)) eqn:E1; [|done]. destruct (0 <=? a') eqn:E2; [|done].
  destruct (bool_decide (p = _)) eqn:E3; [|done]. intros [= <-].
  apply bool_decide_eq_true in E1 as ->. apply bool_decide_eq_true in E3. split; [done|]. split; [lia|done].
Qed.

Lemma coin_amount_empty : coin_amount "" = None.
Proof.
  unfold coin_amount. pose proof coins_parse_empty as H. destruct (ParseCoinsNormalized "") as [[l|] e]; done.
Qed.

Lemma compare_coins_rank p q : coin_priority p -> coin_priority q ->
  compare_coins p q = Z.sgn (coin_rank p - coin_rank q).
Proof.
  assert (Hp : forall p, coin_priority p ->
    coin_rank p = -1 /\ fst (ParseCoinsNormalized p) = None \/
    exists a, 0 <= a /\ coin_rank p = a /\ fst (ParseCoinsNormalized p) = Some [MkCoin d (Some a)]).
  { intros r [->|[a Ha]]; unfold coin_rank.
    - left. rewrite coin_amount_empty. split; [done|apply coins_parse_empty].
    - right. exists a. rewrite Ha. by apply coin_amount_parse in Ha as (? & ? & _). }
  intros H1%Hp H2%Hp. unfold compare_coins.
  destruct (ParseCoinsNormalized p) as [cp ep], (ParseCoinsNormalized q) as [cq eq]. cbn [fst] in *.
  destruct H1 as [[-> ->]|(a & Ha & -> & ->)], H2 as [[-> ->]|(b & Hb & -> & ->)]; [done|lia|lia|].
  rewrite coins_all_gt, coins_all_lt, !bool_decide_eq_true_2 by done. cbn [andb].
  destruct (Z.ltb_spec b a), (Z.ltb_spec a b); lia.
Qed.

Lemma coin_rank_inj p q : coin_priority p -> coin_priority q -> coin_rank p = coin_rank q -> p = q.
Proof.
  unfold coin_rank. intros [->|[a Ha]] [->|[b Hb]]; rewrite ?coin_amount_empty, ?Ha, ?Hb; cbn; intros E.
  - done.
  - apply coin_amount_parse in Hb as (_ & ? & _). lia.
  - apply coin_amount_parse in Ha as (_ & ? & _). lia.
  - subst. by apply coin_amount_parse in Ha as (_ & _ & ->), Hb as (_ & _ & ->).
Qed.

(** The priorities of the lanes order the coins of one denomination. *)
Lemma coin_priority_order (tp : TxPriority (C := string)) :
  PriorityNonce.Compare tp = compare_coins -> MinValue tp = "" -> PriorityOrder coin_priority tp.
Proof.
  intros Hc Hm. split; rewrite ?Hc.
  - intros a b Ha Hb. rewrite !compare_coins_rank by done. lia.
  - intros a b c Ha Hb Hcp. rewrite !compare_coins_rank by done. lia.
  - intros a b Ha Hb. rewrite compare_coins_rank by done. intros E. apply coin_rank_inj; [done..|lia].
  - rewrite Hm. by left.
Qed.
End Coins.

(** ** Mempools with comparable priorities *)

Section Ordered.
Context {sdk : Sdk} {L : SkipListLib} {SL : SkipListLaws L}.
Context {C : Type} `{Countable C} (zero : C) (Pr : C -> Prop) `{!forall c, Decision (Pr c)}.
Context (tp : TxPriority (C := C)) (prio : Tx -> C) (admits : Tx -> Prop).
Abbreviation lane := (ConstructorMempool (C := C)).

(** The transactions that reach the lane have a priority that the context does not change and
    that the comparator orders; two of them with the same sender and nonce have the same one. *)
Record comparable : Prop := {
  cp_order : PriorityOrder Pr tp;
  cp_zero : Pr zero;
  cp_priority ctx tx : admits tx -> GetTxPriority tp ctx tx = Ret (prio tx);
  cp_domain tx : admits tx -> Pr (prio tx);
  cp_key t t' : admits t -> admits t' -> key_of t = key_of t' -> prio t = prio t' }.

Hypothesis CP : comparable.

Record ordered (cm : lane) : Prop := {
  od_tp : txPriority cm = tp;
  od_cfg : cfg_TxPriority (PriorityNonce.cfg (index cm)) = tp;
  od_wf : wf (Pr := Pr) (index cm);
  od_agree : priorities_agree (index cm);
  od_view k p tx : view cm !! k = Some (p, tx) -> admits tx /\ p = prio tx /\ key_of tx = Some k }.

Lemma admits_in_domain ctx tx : admits tx -> in_domain (Pr := Pr) tp ctx tx.
Proof. intros Ha p. rewrite (cp_priority CP) by done. intros [= <-]. by apply (cp_domain CP). Qed.

Definition inserts_admitted (o : op) : Prop :=
  match o with OpInsert _ tx => admits tx | _ => True end.

(** One call on the index. *)
Lemma ordered_op (o : op) (cm : lane) : inserts_admitted o -> ordered cm ->
  let i := snd (run_op zero o (index cm)) in
  wf (Pr := Pr) i /\ priorities_agree i /\ PriorityNonce.cfg i = PriorityNonce.cfg (index cm) /\
  forall k p tx, model i !! k = Some (p, tx) -> admits tx /\ p = prio tx /\ key_of tx = Some k.
Proof.
  intros Ho [Ht Hc W A Hv].
  assert (Hd : op_in_domain (Pr := Pr) (txp (index cm)) o).
  { destruct o; [|done..]. unfold txp. rewrite Hc. cbn. by apply admits_in_domain. }
  assert (Hk : keeps_priority (PriorityNonce.cfg (index cm)) (model (index cm)) o).
  { destruct o as [ctx tx| |]; [|done..]. intros sig p p0 tx0 Hsig Hp Hm. rewrite Hc in Hp.
    rewrite (cp_priority CP) in Hp by done. injection Hp as <-.
    destruct (Hv _ _ _ Hm) as (Ha0 & -> & Hkey). apply (cp_key CP); [done..|].
    by rewrite Hkey, (key_of_msg _ _ _ Hsig). }
  pose proof (op_step zero o (index cm) (cp_zero CP) W Hd) as HS.
  pose proof (op_agree zero o (index cm) (cp_zero CP) W Hd A Hk) as HA.
  destruct (run_op zero o (index cm)) as [r i]. destruct HS as (W' & Hcfg & HS). cbn in HA |- *.
  split; [done|]. split; [done|]. split; [done|]. intros k p tx Hm.
  destruct o as [ctx t|t|]; cbn in HS.
  - apply spec_Insert_post in HS as [[E _]|(_ & k' & p' & Hk' & Hp & E)]; rewrite E in Hm; [by apply Hv|].
    apply lookup_insert_Some in Hm as [[<- [= <- <-]]|[_ Hm]]; [|by apply Hv].
    rewrite Hc, (cp_priority CP) in Hp by done.
    by injection Hp as <-.
  - apply Hv. apply (spec_Remove_subseteq t). unfold view. by rewrite HS.
  - injection HS as _ E. rewrite <- E in Hm. by apply Hv.
Qed.

(** ** The operations of the lane mempool *)

Lemma ordered_on_index (o : op) (cm : lane) : inserts_admitted o -> ordered cm ->
  ordered (snd (on_index (run_op zero o) cm)).
Proof.
  intros Ho O. destruct (ordered_op o cm Ho O) as (W & A & Hc & Hv). destruct O as [Ht Htp _ _ _].
  unfold on_index. destruct (run_op zero o (index cm)) as [r i]. cbn in *.
  split; cbn; [done|by rewrite Hc|done..].
Qed.

Lemma ordered_cache f (cm : lane) : ordered cm -> ordered (set_txCache f cm).
Proof. by intros []. Qed.

Lemma ordered_Remove tx (cm : lane) : ordered cm -> ordered (snd (Remove tx cm)).
Proof.
  intros O. pose proof (ordered_on_index (OpRemove tx) cm I O) as O1.
  cbn [run_op] in O1. unfold Remove. st_unfold.
  destruct (on_index (PriorityNonce.Remove tx) cm) as [[err|w] cm1]; cbn [snd] in *; [|done].
  destruct (match err with Some _ => _ | None => _ end); [done|].
  destruct (GetTxHashStr _ _) as [[bz h]|]; [|done]. by apply ordered_cache.
Qed.

Lemma ordered_Insert ctx tx (cm : lane) : admits tx -> ordered cm -> ordered (snd (Insert zero ctx tx cm)).
Proof.
  intros Ha O. pose proof (ordered_on_index (OpInsert ctx tx) cm Ha O) as O1.
  cbn [run_op] in O1. unfold LaneMempool.Insert. st_unfold.
  destruct (on_index (PriorityNonce.Insert zero ctx tx) cm) as [[[err|]|w] cm1]; cbn [snd] in *; [done| |done].
  destruct (GetTxHashStr _ _) as [[bz h]|]; [by apply ordered_cache|].
  pose proof (ordered_Remove tx cm1 O1) as O2. by destruct (Remove tx cm1) as [[r|w] cm2].
Qed.

Lemma ordered_Select (cm : lane) : ordered cm -> ordered (snd (Select zero cm)).
Proof.
  intros O. pose proof (ordered_on_index OpSelect cm I O) as O1. cbn [run_op] in O1.
  unfold Select, on_index, SelectAll in *. by destruct (PriorityNonce.Select zero (index cm)) as [i mp].
Qed.

Lemma ordered_New enc maxTx : ordered (NewConstructorMempool tp enc maxTx).
Proof.
  split; [done|done|apply NewPriorityMempool_wf, CP|apply NewPriorityMempool_agree|].
  intros k p tx. unfold view. cbn. by rewrite NewPriorityMempool_model, lookup_empty.
Qed.

(** The laws of the interface, for lane mempools with comparable priorities. *)
Definition ordered_lane_mempool_laws : LaneMempoolLaws lane (LM := constructor_lane_mempool zero).
Proof.
  refine (Build_LaneMempoolLaws sdk lane (constructor_lane_mempool zero) ordered holds admits _ _ _).
  - intros ctx tx cm Ha O. split; [by apply ordered_Insert|].
    by apply (lane_Insert_stored zero tp ctx tx cm I (od_tp _ O)).
  - intros tx cm O. split; [by apply ordered_Remove|]. by apply (lane_Remove_stored tp tx cm (od_tp _ O)).
  - intros cm O. split; [by apply ordered_Select|]. by apply (lane_Select_stored zero tp cm (od_tp _ O)).
Defined.

(** ** Iteration *)

(** What the mempool stores under its keys is what it holds. *)
Lemma ordered_holds (cm : lane) k p tx : ordered cm -> view cm !! k = Some (p, tx) -> holds cm tx.
Proof.
  intros O Hm. apply (model_lookup _ _ _ _ (od_wf _ O)) in Hm as (e & He & _ & _ & <-).
  left. by apply (in_map e_value).
Qed.

(** With one transaction per sender the mempool iterates by decreasing priority over the
    transactions it stores. *)
Lemma ordered_iterates (cm : lane) : ordered cm -> one_tx_each (view cm) ->
  exists it cm', Select zero cm = (Ret it, cm') /\
    it ≡ₚ map (fun x => x.2.2) (map_to_list (view cm)) /\
    StronglySorted (fun a b => 0 <= PriorityNonce.Compare tp (prio a) (prio b)) it.
Proof.
  intros O O1. destruct (SelectAll_by_priority zero (index cm) (od_wf _ O) (od_agree _ O) O1) as (D & HD & Hperm & HS).
  unfold Select, on_index. destruct (SelectAll zero (index cm)) as [l i]. cbn in HD. subst l.
  eexists _, _. split; [reflexivity|]. split.
  - rewrite Hperm, map_map. done.
  - apply StronglySorted_map. cbn. rewrite (od_cfg _ O) in HS.
    assert (HF : Forall (fun x => x.1 = prio x.2) D).
    { rewrite Hperm. apply List.Forall_forall. intros [p tx] ([k x] & [= E] & Hx)%in_map_iff. cbn in E. subst x.
      apply list_elem_of_In, elem_of_map_to_list in Hx. by apply (od_view _ O) in Hx as (_ & ? & _). }
    clear -HS HF. induction HS as [|x l _ IH Hx]; constructor.
    + apply IH. by inversion HF.
    + inversion HF as [|? ? Hpx HFl]; subst. rewrite List.Forall_forall in Hx. apply List.Forall_forall. intros y Hy.
      rewrite list.Forall_forall in HFl. rewrite <- Hpx, <- (HFl y) by by apply list_elem_of_In. by apply Hx.
Qed.
End Ordered.
