(* ===== verification/Lane.v ===== *)
(** * blockbuster/types.go, lane_interface.go, lane_constructor.go, lane_handlers.go, lane_abci.go

    A lane is an object other lanes and the mempool point to: [Lanes] is the heap of
    [LaneConstructor] objects, a lane is its identity in it.  The handlers of a lane are
    closures over the lane; they take what they read of it when they run, a [LaneView].
    Running code changes the chain state and the mempools of the lanes ([State]) and, in
    [PrepareLane], the shared proposal.  A lane's mempool has any type with the [LaneMempool]
    interface.  Logging is left out. *)
From S2P Require Import Prelude Hash Sdk Proposals LaneMempool.

Abbreviation LaneId := nat.

Section Lane.
Context {sdk : Sdk} {M : Type} {LM : LaneMempool M}.

(** ** The state code runs in *)

Record State : Type := MkState {
  st_store : Store;
  st_mempools : gmap LaneId M }.

Definition set_store (s : Store) (st : State) : State :=
  {| st_store := s; st_mempools := st_mempools st |}.

(** A call on the mempool of a lane. *)
Definition on_mempool {A} (l : LaneId) (m : ST M A) : ST State A := fun st =>
  match st_mempools st !! l with
  | None => (Panic "invalid memory address or nil pointer dereference", st)
  | Some mp =>
      let '(r, mp) := m mp in
      (r, {| st_store := st_store st; st_mempools := <[l := mp]> (st_mempools st) |})
  end.

Definition on_store {A} (m : ST Store A) : ST State A := fun st =>
  let '(r, s) := m (st_store st) in (r, set_store s st).

(** [cacheCtx, write := ctx.CacheContext()]: the writes of [m] to the chain state stay only
    if [write] is called, which the result says; a panic discards them. *)
Definition with_cache {A} (write : A -> bool) (m : ST State A) : ST State A := fun st =>
  match m st with
  | (Ret a, st') => (Ret a, if write a then st' else set_store (st_store st) st')
  | (Panic w, st') => (Panic w, set_store (st_store st) st')
  end.

(** ** types.go *)

(** [sdk.AnteHandler]: it may write to the chain state and use the mempools. *)
Definition AnteHandler : Type := Context -> Tx -> bool -> ST State (Context * option error).

Definition MatchHandler : Type := Context -> Tx -> bool.

(** What a handler reads of its lane when it runs. *)
Record LaneView : Type := MkLaneView {
  lv_id : LaneId;
  lv_Name : string;
  lv_TxEncoder : option TxEncoder;
  lv_Match : Context -> Tx -> outcome bool;
  lv_AnteVerifyTx : AnteHandler }.

Definition PrepareLaneHandler : Type :=
  LaneView -> Context -> Proposal -> Z -> ST State (result (list bytes * list Tx)).
Definition ProcessLaneHandler : Type :=
  LaneView -> Context -> list Tx -> ST State (result (list Tx)).
Definition CheckOrderHandler : Type :=
  LaneView -> Context -> list Tx -> ST State (option error).

(** The handlers of a chain of lanes; the proposal is the shared object of the state. *)
Definition PrepareLanesHandler : Type := Context -> ST (State * Proposal) (option error).
Definition ProcessLanesHandler : Type := Context -> list Tx -> ST State (Context * option error).

(** Nil or set: the logger, the encoder, the decoder and the ante handler. *)
Record LaneConfig : Type := MkLaneConfig {
  Logger : option unit;
  cfg_TxEncoder : option TxEncoder;
  cfg_TxDecoder : option TxDecoder;
  cfg_AnteHandler : option AnteHandler;
  MaxBlockSpace : Dec;
  IgnoreList : list LaneId;
  MaxTxs : Z }.

Definition NewBaseLaneConfig (logger : option unit) (txEncoder : option TxEncoder)
    (txDecoder : option TxDecoder) (anteHandler : option AnteHandler) (maxBlockSpace : Dec)
    : LaneConfig :=
  {| Logger := logger; cfg_TxEncoder := txEncoder; cfg_TxDecoder := txDecoder;
     cfg_AnteHandler := anteHandler; MaxBlockSpace := maxBlockSpace; IgnoreList := [];
     MaxTxs := 0 |}.

Definition is_nil {A} (x : option A) : bool := match x with None => true | Some _ => false end.

Definition LaneConfig_ValidateBasic (c : LaneConfig) : option error :=
  if is_nil (Logger c) then Some (Errorf "logger cannot be nil")
  else if is_nil (cfg_TxEncoder c) then Some (Errorf "tx encoder cannot be nil")
  else if is_nil (cfg_TxDecoder c) then Some (Errorf "tx decoder cannot be nil")
  else if Dec_IsNil (MaxBlockSpace c) || Dec_IsNegative (MaxBlockSpace c)
          || Dec_GT (MaxBlockSpace c) LegacyOneDec
  then Some (Errorf "max block space must be set to a value between 0 and 1")
  else None.

Definition NoOpPrepareLanesHandler : PrepareLanesHandler := fun ctx => mret None.
Definition NoOpPrepareLaneHandler : PrepareLaneHandler :=
  fun _ ctx proposal maxTxBytes => mret (Ok ([], [])).
Definition PanicPrepareLaneHandler : PrepareLaneHandler :=
  fun _ _ _ _ => st_panic "panic prepare lanes handler".
Definition NoOpProcessLanesHandler : ProcessLanesHandler := fun ctx txs => mret (ctx, None).
Definition NoOpProcessLaneHandler : ProcessLaneHandler := fun _ ctx txs => mret (Ok txs).
Definition PanicProcessLaneHandler : ProcessLaneHandler :=
  fun _ _ _ => st_panic "panic process lanes handler".

(** ** lane_constructor.go *)

Record LaneConstructor : Type := MkLane {
  cfg : LaneConfig;
  laneName : string;
  (** The mempool of the lane, nil or set; its state is in [State]. *)
  hasMempool : bool;
  matchHandler : option MatchHandler;
  prepareLaneHandler : option PrepareLaneHandler;
  checkOrderHandler : option CheckOrderHandler;
  processLaneHandler : option ProcessLaneHandler }.

Abbreviation Lanes := (gmap LaneId LaneConstructor).

Definition set_cfg (f : LaneConfig -> LaneConfig) (l : LaneConstructor) : LaneConstructor :=
  {| cfg := f (cfg l); laneName := laneName l; hasMempool := hasMempool l;
     matchHandler := matchHandler l; prepareLaneHandler := prepareLaneHandler l;
     checkOrderHandler := checkOrderHandler l; processLaneHandler := processLaneHandler l |}.

Definition set_handlers (p : option PrepareLaneHandler) (c : option CheckOrderHandler)
    (q : option ProcessLaneHandler) (l : LaneConstructor) : LaneConstructor :=
  {| cfg := cfg l; laneName := laneName l; hasMempool := hasMempool l;
     matchHandler := matchHandler l; prepareLaneHandler := p; checkOrderHandler := c;
     processLaneHandler := q |}.

Definition SetIgnoreList (lanes : list LaneId) : LaneConstructor -> LaneConstructor :=
  set_cfg (fun c =>
    {| Logger := Logger c; cfg_TxEncoder := cfg_TxEncoder c; cfg_TxDecoder := cfg_TxDecoder c;
       cfg_AnteHandler := cfg_AnteHandler c; MaxBlockSpace := MaxBlockSpace c;
       IgnoreList := lanes; MaxTxs := MaxTxs c |}).

Definition SetAnteHandler (anteHandler : option AnteHandler) : LaneConstructor -> LaneConstructor :=
  set_cfg (fun c =>
    {| Logger := Logger c; cfg_TxEncoder := cfg_TxEncoder c; cfg_TxDecoder := cfg_TxDecoder c;
       cfg_AnteHandler := anteHandler; MaxBlockSpace := MaxBlockSpace c;
       IgnoreList := IgnoreList c; MaxTxs := MaxTxs c |}).

Definition SetPrepareLaneHandler (h : option PrepareLaneHandler) (l : LaneConstructor)
    : outcome LaneConstructor :=
  if is_nil h then Panic "prepare lane handler cannot be nil"
  else Ret (set_handlers h (checkOrderHandler l) (processLaneHandler l) l).
Definition SetProcessLaneHandler (h : option ProcessLaneHandler) (l : LaneConstructor)
    : outcome LaneConstructor :=
  if is_nil h then Panic "process lane handler cannot be nil"
  else Ret (set_handlers (prepareLaneHandler l) (checkOrderHandler l) h l).
Definition SetCheckOrderHandler (h : option CheckOrderHandler) (l : LaneConstructor)
    : outcome LaneConstructor :=
  if is_nil h then Panic "check order handler cannot be nil"
  else Ret (set_handlers (prepareLaneHandler l) h (processLaneHandler l) l).

Definition Name (l : LaneConstructor) : string := laneName l.
Definition LaneConstructor_Logger (l : LaneConstructor) : option unit := Logger (cfg l).
Definition LaneConstructor_TxDecoder (l : LaneConstructor) : option TxDecoder := cfg_TxDecoder (cfg l).
Definition LaneConstructor_TxEncoder (l : LaneConstructor) : option TxEncoder := cfg_TxEncoder (cfg l).
Definition GetMaxBlockSpace (l : LaneConstructor) : Dec := MaxBlockSpace (cfg l).

Definition nil_deref {A} : outcome A := Panic "invalid memory address or nil pointer dereference".

(** [CheckIgnoreList], given the call of [Match] on a lane of the list. *)
Fixpoint CheckIgnoreList (match_lane : LaneId -> outcome bool) (ignore : list LaneId) : outcome bool :=
  match ignore with
  | [] => Ret false
  | l :: ignore =>
      m ← match_lane l;
      if m : bool then Ret true else CheckIgnoreList match_lane ignore
  end.

(** [Match] and [CheckIgnoreList] call each other through the ignore lists: the fuel bounds
    the depth of the calls, a cycle of ignore lists overflows the stack. *)
Fixpoint Match (fuel : nat) (lanes : Lanes) (l : LaneId) (ctx : Context) (tx : Tx) : outcome bool :=
  match fuel with
  | O => Panic "stack overflow"
  | S fuel =>
      match lanes !! l with
      | None => nil_deref
      | Some lane =>
          match matchHandler lane with
          | None => nil_deref
          | Some h =>
              if h ctx tx then
                ignored ← CheckIgnoreList (fun l => Match fuel lanes l ctx tx) (IgnoreList (cfg lane));
                Ret (negb ignored)
              else Ret false
          end
      end
  end.

(** The depth of calls of lanes whose ignore lists have no cycle. *)
Definition match_fuel (lanes : Lanes) : nat := S (size lanes).

(** [AnteVerifyTx] of lane_abci.go. *)
Definition AnteVerifyTx (l : LaneConstructor) : AnteHandler := fun ctx tx simulate =>
  match cfg_AnteHandler (cfg l) with
  | Some h => h ctx tx simulate
  | None => mret (ctx, None)
  end.

Definition view_of (lanes : Lanes) (l : LaneId) (lane : LaneConstructor) : LaneView :=
  {| lv_id := l; lv_Name := Name lane;
     lv_TxEncoder := cfg_TxEncoder (cfg lane);
     lv_Match := Match (match_fuel lanes) lanes l;
     lv_AnteVerifyTx := AnteVerifyTx lane |}.

(** [utils.GetTxHashStr(l.TxEncoder(), tx)]: calling a nil encoder panics. *)
Definition lane_tx_hash (lv : LaneView) (tx : Tx) : outcome (result (bytes * string)) :=
  match lv_TxEncoder lv with
  | None => nil_deref
  | Some enc => Ret (GetTxHashStr enc tx)
  end.

(** ** lane_handlers.go *)

(** The loop over the iterator: the size and the transactions selected so far, those to be
    removed, and the context the ante handler returned last. *)
Fixpoint prepare_loop (lv : LaneView) (proposal : Proposal) (maxTxBytes : Z) (ctx : Context)
    (totalSize : Z) (txs : list bytes) (txsToRemove : list Tx) (iterator : list Tx)
    : ST State (list bytes * list Tx) :=
  match iterator with
  | [] => mret (txs, txsToRemove)
  | tx :: iterator =>
      hashed ← st_lift (lane_tx_hash lv tx);
      match hashed with
      | Err _ =>
          prepare_loop lv proposal maxTxBytes ctx totalSize txs (txsToRemove ++ [tx]) iterator
      | Ok (txBytes, hash) =>
          matches ← st_lift (lv_Match lv ctx tx);
          if negb matches then
            prepare_loop lv proposal maxTxBytes ctx totalSize txs (txsToRemove ++ [tx]) iterator
          else if Proposals.Contains proposal txBytes then
            prepare_loop lv proposal maxTxBytes ctx totalSize txs txsToRemove iterator
          else
            let txSize := len txBytes in
            let updatedSize := wrap_i64 (totalSize + txSize) in
            if maxTxBytes <? updatedSize then mret (txs, txsToRemove)
            else
              '(ctx, err) ← lv_AnteVerifyTx lv ctx tx false;
              match err with
              | Some err =>
                  prepare_loop lv proposal maxTxBytes ctx totalSize txs (txsToRemove ++ [tx]) iterator
              | None =>
                  prepare_loop lv proposal maxTxBytes ctx updatedSize (txs ++ [txBytes]) txsToRemove
                    iterator
              end
      end
  end.

Definition DefaultPrepareLaneHandler : PrepareLaneHandler := fun lv ctx proposal maxTxBytes =>
  iterator ← on_mempool (lv_id lv) lm_Select;
  selected ← prepare_loop lv proposal maxTxBytes ctx 0 [] [] iterator;
  mret (Ok selected).

Fixpoint DefaultProcessLaneHandler (lv : LaneView) (ctx : Context) (txs : list Tx)
    : ST State (result (list Tx)) :=
  match txs with
  | [] => mret (Ok [])
  | tx :: rest =>
      matches ← st_lift (lv_Match lv ctx tx);
      if matches : bool then
        '(ctx, err) ← lv_AnteVerifyTx lv ctx tx false;
        match err with
        | Some err => mret (Err (Wrap "failed to verify tx" err))
        | None => DefaultProcessLaneHandler lv ctx rest
        end
      else mret (Ok txs)
  end.

(** [index > 0 && l.Compare(ctx, txs[index-1], tx) == -1]. *)
Definition higher_priority (lv : LaneView) (ctx : Context) (prev : option Tx) (tx : Tx) : ST State bool :=
  match prev with
  | None => mret false
  | Some p =>
      c ← on_mempool (lv_id lv) (fun mp => (lm_Compare mp ctx p tx, mp));
      mret (c =? -1)
  end.

(** The loop of the check: the previous transaction, if any, and whether a transaction of
    another lane was seen. *)
Fixpoint check_order_loop (lv : LaneView) (ctx : Context) (prev : option Tx) (seenOtherLaneTx : bool)
    (txs : list Tx) : ST State (option error) :=
  match txs with
  | [] => mret None
  | tx :: rest =>
      matches ← st_lift (lv_Match lv ctx tx);
      if matches : bool then
        if seenOtherLaneTx then
          mret (Some (Errorf "the lane contains a transaction that belongs to another lane"))
        else
          higher ← higher_priority lv ctx prev tx;
          if higher : bool then
            mret (Some (Errorf "transaction at index has a higher priority than the previous"))
          else check_order_loop lv ctx (Some tx) seenOtherLaneTx rest
      else check_order_loop lv ctx (Some tx) true rest
  end.

Definition DefaultCheckOrderHandler : CheckOrderHandler := fun lv ctx txs =>
  check_order_loop lv ctx None false txs.

Definition DefaultMatchHandler : MatchHandler := fun ctx tx => true.

(** ** The construction of a lane (lane_constructor.go) *)

Definition or_default {A} (x : option A) (d : A) : option A :=
  match x with None => Some d | Some _ => x end.

Definition ValidateBasic (l : LaneConstructor) : option error * LaneConstructor :=
  match LaneConfig_ValidateBasic (cfg l) with
  | Some err => (Some err, l)
  | None =>
      if bool_decide (laneName l = "") then (Some (Errorf "lane name cannot be empty"), l)
      else if negb (hasMempool l) then (Some (Errorf "lane mempool cannot be nil"), l)
      else if is_nil (matchHandler l) then (Some (Errorf "match handler cannot be nil"), l)
      else (None, set_handlers (or_default (prepareLaneHandler l) DefaultPrepareLaneHandler)
                    (or_default (checkOrderHandler l) DefaultCheckOrderHandler)
                    (or_default (processLaneHandler l) DefaultProcessLaneHandler) l)
  end.

Definition NewLaneConstructor (cfg : LaneConfig) (laneName : string) (hasMempool : bool)
    (matchHandlerFn : option MatchHandler) : outcome LaneConstructor :=
  let lane := {| cfg := cfg; laneName := laneName; hasMempool := hasMempool;
                 matchHandler := matchHandlerFn; prepareLaneHandler := None;
                 checkOrderHandler := None; processLaneHandler := None |} in
  match ValidateBasic lane with
  | (Some err, _) => Panic "invalid lane"
  | (None, lane) => Ret lane
  end.

(** ** lane_abci.go *)

(** Code on the chain state and the mempools, run beside the proposal. *)
Definition on_state {A} (m : ST State A) : ST (State * Proposal) A := fun s =>
  let '(r, st) := m (fst s) in (r, (st, snd s)).
Definition on_proposal {A} (m : ST Proposal A) : ST (State * Proposal) A := fun s =>
  let '(r, p) := m (snd s) in (r, (fst s, p)).

(** Calling a handler field: a nil function panics. *)
Definition call {A} (h : option A) : outcome A :=
  match h with Some h => Ret h | None => nil_deref end.

Definition lane_proposal (l : LaneConstructor) : LaneProposal :=
  {| lp_Name := Name l; lp_GetMaxBlockSpace := GetMaxBlockSpace l |}.

(** [PrepareLane] up to the call of [next]. *)
Definition prepare_own (lanes : Lanes) (l : LaneId) (lane : LaneConstructor) (ctx : Context)
    (maxTxBytes : Z) : ST (State * Proposal) (option error) :=
  h ← st_lift (call (prepareLaneHandler lane));
  proposal ← st_gets snd;
  prepared ← on_state (h (view_of lanes l lane) ctx proposal maxTxBytes);
  match prepared with
  | Err err => mret (Some err)
  | Ok (txs, txsToRemove) =>
      _ ← on_state (RemoveTxsFromLane (fun tx => on_mempool l (lm_Remove tx)) txsToRemove);
      on_proposal (UpdateProposal (lane_proposal lane) txs)
  end.

Definition PrepareLane (lanes : Lanes) (l : LaneId) (lane : LaneConstructor) (ctx : Context)
    (maxTxBytes : Z) (next : option PrepareLanesHandler) : ST (State * Proposal) (option error) :=
  err ← prepare_own lanes l lane ctx maxTxBytes;
  match err with
  | Some err => mret (Some err)
  | None => next ← st_lift (call next); next ctx
  end.

Definition CheckOrder (lanes : Lanes) (l : LaneId) (lane : LaneConstructor) (ctx : Context)
    (txs : list Tx) : ST State (option error) :=
  h ← st_lift (call (checkOrderHandler lane)); h (view_of lanes l lane) ctx txs.

Definition ProcessLane (lanes : Lanes) (l : LaneId) (lane : LaneConstructor) (ctx : Context)
    (txs : list Tx) (next : option ProcessLanesHandler) : ST State (Context * option error) :=
  h ← st_lift (call (processLaneHandler lane));
  processed ← h (view_of lanes l lane) ctx txs;
  match processed with
  | Err err => mret (ctx, Some err)
  | Ok remainingTxs => next ← st_lift (call next); next ctx remainingTxs
  end.
End Lane.
