(* ===== verification/LaneFacts.v ===== *)
(** * What the default handlers of a lane do

    Matching with ignore lists, the order check, the selection and the verification of
    transactions by the default handlers of lane_handlers.go. *)
From S2P Require Import Prelude Hash Sdk Proposals LaneMempool Lane Concrete PriorityNonce PriorityNonceFacts PriorityNonceProps.
From Stdlib Require Import Sorting.Sorted.
Abbreviation lane_Match := Lane.Match.

Section Facts.
Context {sdk : Sdk} {M : Type} {LM : LaneMempool M}.
Abbreviation State := (State (M := M)).
Abbreviation LaneView := (LaneView (M := M)).
Abbreviation Lanes := (gmap LaneId (LaneConstructor (M := M))).
Implicit Types (lv : LaneView) (ctx : Context) (tx : Tx) (st : State).

(** ** The order check *)

Section Order.
Context (lv : LaneView) (ctx : Context) (st : State) (mp : M) (f : Tx -> bool) (cmp : Tx -> Tx -> Z).
Hypothesis Hmp : st_mempools st !! lv_id lv = Some mp.
Hypothesis Hmatch : forall tx, lv_Match lv ctx tx = Ret (f tx).
Hypothesis Hcmp : forall a b, lm_Compare mp ctx a b = Ret (cmp a b).

(** The next transaction does not have a higher priority. *)
Definition in_order (a b : Tx) : Prop := cmp a b <> -1.

Lemma compare_reads a b :
  on_mempool (lv_id lv) (fun mp => (lm_Compare mp ctx a b, mp)) st = (Ret (cmp a b), st).
Proof.
  unfold on_mempool. rewrite Hmp, Hcmp, insert_id by done. by destruct st.
Qed.

Lemma check_order_seen prev txs :
  exists r, check_order_loop lv ctx prev true txs st = (Ret r, st) /\
    (r = None <-> Forall (fun tx => f tx = false) txs).
Proof.
  revert prev. induction txs as [|tx txs IH]; intros prev; cbn; st_unfold.
  { eexists; split; [reflexivity|]. done. }
  rewrite Hmatch. destruct (f tx) eqn:F.
  - eexists; split; [reflexivity|]. split; [done|]. intros Hf. inversion Hf. congruence.
  - destruct (IH (Some tx)) as (r & Hr & Hi). st_unfold in Hr. exists r. split; [exact Hr|].
    rewrite Hi. split; [by constructor|]. by inversion 1.
Qed.

Lemma check_order_unseen prev txs :
  exists r, check_order_loop lv ctx prev false txs st = (Ret r, st) /\
    (r = None <-> exists ms others, txs = ms ++ others /\
       Forall (fun tx => f tx = true) ms /\ Forall (fun tx => f tx = false) others /\
       (ms <> [] -> Sorted in_order (option_list prev ++ ms))).
Proof.
  revert prev. induction txs as [|tx txs IH]; intros prev.
  { cbn; st_unfold. eexists; split; [reflexivity|]. split; [intros _|done].
    exists [], []. by repeat split. }
  cbn. st_unfold. rewrite Hmatch. destruct (f tx) eqn:F.
  - set (higher := match prev with Some p => cmp p tx =? -1 | None => false end).
    assert (Hhigher : higher_priority lv ctx prev tx st = (Ret higher, st)).
    { unfold higher_priority. destruct prev as [p|]; [|done]. st_unfold. by rewrite compare_reads. }
    rewrite Hhigher. destruct higher eqn:Hh.
    + eexists; split; [reflexivity|]. split; [done|]. intros (ms & others & E & Hm & Ho & Hs).
      destruct ms as [|m ms]; cbn in E.
      { subst others. inversion Ho. congruence. }
      injection E as <- E. specialize (Hs ltac:(done)).
      destruct prev as [p|]; [|done]. subst higher. cbn in Hs.
      apply Sorted_inv in Hs as [_ Hs]. apply HdRel_inv in Hs. unfold in_order in Hs. lia.
    + destruct (IH (Some tx)) as (r & Hr & Hi). st_unfold in Hr. exists r. split; [exact Hr|].
      rewrite Hi. clear IH Hr Hi. split.
      * intros (ms & others & -> & Hm & Ho & Hs). exists (tx :: ms), others.
        split; [done|]. split; [by constructor|]. split; [done|]. intros _.
        assert (Hs' : Sorted in_order (tx :: ms))
          by (destruct ms; [by repeat constructor|by apply Hs]).
        destruct prev as [p|]; cbn; [|done]. constructor; [done|]. constructor.
        unfold in_order. subst higher. lia.
      * intros (ms & others & E & Hm & Ho & Hs). destruct ms as [|m ms]; cbn in E.
        { subst others. inversion Ho. congruence. }
        injection E as <- E. exists ms, others. inversion Hm; subst.
        split; [done|]. split; [done|]. split; [done|]. intros Hne. specialize (Hs ltac:(done)).
        destruct prev as [p|]; cbn in Hs; [by apply Sorted_inv in Hs as [Hs _]|done].
  - destruct (check_order_seen (Some tx) txs) as (r & Hr & Hi). st_unfold in Hr.
    exists r. split; [exact Hr|]. rewrite Hi. split.
    + intros Hf. exists [], (tx :: txs). split; [done|]. split; [done|]. split; [by constructor|done].
    + intros (ms & others & E & Hm & Ho & _). destruct ms as [|m ms]; cbn in E.
      * subst others. by inversion Ho.
      * injection E as <- _. inversion Hm. congruence.
Qed.
End Order.

(** ** The verification of transactions *)

(** The ante handler accepted every transaction of the list, in order, each one matching. *)
Inductive verified lv : Context -> State -> list Tx -> Context -> State -> Prop :=
| verified_nil ctx st : verified lv ctx st [] ctx st
| verified_cons ctx st tx ctx1 st1 txs ctx2 st2 :
    lv_Match lv ctx tx = Ret true ->
    lv_AnteVerifyTx lv ctx tx false st = (Ret (ctx1, None), st1) ->
    verified lv ctx1 st1 txs ctx2 st2 ->
    verified lv ctx st (tx :: txs) ctx2 st2.

Lemma process_verified lv ctx txs st rest st' :
  DefaultProcessLaneHandler lv ctx txs st = (Ret (Ok rest), st') ->
  exists seg ctx', txs = seg ++ rest /\ verified lv ctx st seg ctx' st' /\
    match rest with [] => True | tx :: _ => lv_Match lv ctx' tx = Ret false end.
Proof.
  revert ctx st. induction txs as [|tx txs IH]; intros ctx st; cbn; st_unfold.
  { intros [= <- <-]. exists [], ctx. split; [done|]. split; [constructor|done]. }
  destruct (lv_Match lv ctx tx) as [[]|w] eqn:Hm; [| |done].
  - destruct (lv_AnteVerifyTx lv ctx tx false st) as [[[ctx1 [err|]]|w] st1] eqn:Ha; try done.
    intros HP. destruct (IH ctx1 st1) as (seg & ctx' & -> & Hv & Hr); [exact HP|].
    exists (tx :: seg), ctx'. split; [done|]. split; [by econstructor|done].
  - intros [= <- <-]. exists [], ctx. split; [done|]. split; [constructor|done].
Qed.

(** ** The selection of transactions *)

(** A selected transaction: encoded, matching the lane when it was looked at, and not in the
    proposal. *)
Definition selectable lv (proposal : Proposal) (tx : Tx) (bz : bytes) : Prop :=
  (exists enc h, lv_TxEncoder lv = Some enc /\ GetTxHashStr enc tx = Ok (bz, h)) /\
  (exists ctx, lv_Match lv ctx tx = Ret true) /\
  Proposals.Contains proposal bz = false.

Lemma prepare_nothing lv proposal (maxTxBytes size : Z) (txs : list bytes) (rm iterator : list Tx) :
  0 <= size <= maxTxBytes ->
  exists sel new, sublist sel iterator /\ Forall2 (selectable lv proposal) sel new /\
    txs = txs ++ new /\ size + total_len new <= maxTxBytes /\
    exists removed, rm = rm ++ removed /\ sublist removed iterator.
Proof.
  intros Hs. exists [], []. rewrite app_nil_r. split; [apply sublist_nil_l|]. split; [done|].
  split; [done|]. split; [cbn; lia|]. exists []. rewrite app_nil_r. split; [done|apply sublist_nil_l].
Qed.

Lemma prepare_loop_selects lv proposal maxTxBytes ctx size txs rm iterator st txs' rm' st' :
  0 <= size <= maxTxBytes -> maxTxBytes <= 2 ^ 62 -> Forall (fun tx => forall enc bz h,
    lv_TxEncoder lv = Some enc -> GetTxHashStr enc tx = Ok (bz, h) -> len bz < 2 ^ 62) iterator ->
  prepare_loop lv proposal maxTxBytes ctx size txs rm iterator st = (Ret (txs', rm'), st') ->
  exists sel new, sublist sel iterator /\ Forall2 (selectable lv proposal) sel new /\
    txs' = txs ++ new /\ size + total_len new <= maxTxBytes /\
    exists removed, rm' = rm ++ removed /\ sublist removed iterator.
Proof.
  intros Hs Hmax. revert ctx size txs rm st Hs.
  induction iterator as [|tx it IH]; intros ctx size txs rm st Hs Hlen; cbn [prepare_loop]; st_unfold.
  { intros [= <- <- <-]. by apply prepare_nothing. }
  inversion Hlen as [|? ? Hl1 Hl2]; subst.
  assert (Hskip : forall ctx0 st0 b, prepare_loop lv proposal maxTxBytes ctx0 size txs
      (if b : bool then rm ++ [tx] else rm) it st0 = (Ret (txs', rm'), st') ->
    exists sel new, sublist sel (tx :: it) /\ Forall2 (selectable lv proposal) sel new /\
      txs' = txs ++ new /\ size + total_len new <= maxTxBytes /\
      exists removed, rm' = rm ++ removed /\ sublist removed (tx :: it)).
  { intros ctx0 st0 b HP. destruct (IH _ _ _ _ _ Hs Hl2 HP) as (sel & new & H1 & H2 & H3 & H4 & rmd & H5 & H6).
    exists sel, new. split; [by apply sublist_cons|]. repeat split; try done.
    destruct b; [exists (tx :: rmd)|exists rmd]; (split; [|by constructor]); subst; by rewrite <- ?app_assoc. }
  unfold lane_tx_hash. destruct (lv_TxEncoder lv) as [enc|] eqn:He; [|done].
  destruct (GetTxHashStr enc tx) as [[bz h]|e] eqn:Hh; [|apply (Hskip ctx st true)].
  destruct (lv_Match lv ctx tx) as [[]|w] eqn:Hm; [|apply (Hskip ctx st true)|done]. cbn [negb].
  destruct (Proposals.Contains proposal bz) eqn:Hc; [apply (Hskip ctx st false)|].
  pose proof (len_nonneg bz). pose proof (Hl1 enc bz h eq_refl Hh) as Hb.
  rewrite wrap_i64_id by (unfold in_i64; lia).
  destruct (maxTxBytes <? size + len bz) eqn:Hsz.
  { intros [= <- <- <-]. by apply prepare_nothing. }
  destruct (lv_AnteVerifyTx lv ctx tx false st) as [[[ctx1 [err|]]|w] st1]; [apply (Hskip ctx1 st1 true)| |done].
  intros HP. destruct (IH ctx1 (size + len bz) (txs ++ [bz]) rm st1 ltac:(lia) Hl2 HP)
    as (sel & new & H1 & H2 & H3 & H4 & rmd & H5 & H6).
  exists (tx :: sel), (bz :: new). split; [by constructor|]. split.
  - constructor; [|done]. split; [eauto|]. split; [eauto|done].
  - split; [subst; by rewrite <- app_assoc|]. cbn [total_len]. split; [lia|].
    exists rmd. split; [done|by apply sublist_cons].
Qed.

(** ** The properties *)

(** C34: the default order check accepts a proposal exactly when the transactions of the lane
    are a prefix of it in which no transaction has a higher priority than the one before. *)
Theorem default_check_order_iff lv ctx st mp (f : Tx -> bool) (cmp : Tx -> Tx -> Z) txs :
  st_mempools st !! lv_id lv = Some mp ->
  (forall tx, lv_Match lv ctx tx = Ret (f tx)) ->
  (forall a b, lm_Compare mp ctx a b = Ret (cmp a b)) ->
  exists r, DefaultCheckOrderHandler lv ctx txs st = (Ret r, st) /\
    (r = None <-> exists ms others, txs = ms ++ others /\
       Forall (fun tx => f tx = true) ms /\ Forall (fun tx => f tx = false) others /\
       Sorted (fun a b => cmp a b <> -1) ms).
Proof.
  intros Hmp Hm Hc. destruct (check_order_unseen lv ctx st mp f cmp Hmp Hm Hc None txs) as (r & Hr & Hi).
  exists r. split; [exact Hr|]. rewrite Hi. cbn.
  split; intros (ms & others & ? & ? & ? & Hs); exists ms, others; do 3 (split; [done|]); [|done].
  destruct ms; [constructor|by apply Hs].
Qed.

(** the default preparation selects, in the order of the mempool, encodings of matching
    transactions that are not in the proposal yet, of at most [maxTxBytes] bytes in total. *)
Theorem default_prepare_selects lv ctx proposal maxTxBytes st iterator st1 selected removed st' :
  0 <= maxTxBytes <= 2 ^ 62 ->
  on_mempool (lv_id lv) lm_Select st = (Ret iterator, st1) ->
  (forall tx enc bz h, In tx iterator -> lv_TxEncoder lv = Some enc ->
     GetTxHashStr enc tx = Ok (bz, h) -> len bz < 2 ^ 62) ->
  DefaultPrepareLaneHandler lv ctx proposal maxTxBytes st = (Ret (Ok (selected, removed)), st') ->
  total_len selected <= maxTxBytes /\
  (exists sel, sublist sel iterator /\ Forall2 (selectable lv proposal) sel selected) /\
  sublist removed iterator.
Proof.
  intros Hmax Hsel Hlen. unfold DefaultPrepareLaneHandler. st_unfold. rewrite Hsel.
  destruct (prepare_loop lv proposal maxTxBytes ctx 0 [] [] iterator st1)
    as [[[txs rm]|w] st2] eqn:HP; [|done]. intros [= <- <- <-].
  apply prepare_loop_selects in HP as (sel & new & H1 & H2 & -> & H4 & rmd & -> & H6); [|lia|lia|].
  - cbn. split; [lia|]. split; [by exists sel|done].
  - apply List.Forall_forall. intros tx Hin enc bz h. by apply Hlen.
Qed.

(** The default processing accepts exactly the longest prefix of matching transactions,
    each of which its ante handler verified, and hands on the rest. *)
Theorem default_process_verifies lv ctx txs st rest st' :
  DefaultProcessLaneHandler lv ctx txs st = (Ret (Ok rest), st') ->
  exists seg ctx', txs = seg ++ rest /\ verified lv ctx st seg ctx' st' /\
    match rest with [] => True | tx :: _ => lv_Match lv ctx' tx = Ret false end.
Proof. apply process_verified. Qed.
End Facts.

(** ** Witnesses *)

(** A first-in-first-out mempool. *)
Definition fifo_remove (tx : CTx) (mp : list CTx) : list CTx :=
  List.filter (fun t => negb (bool_decide (c_bytes t = c_bytes tx))) mp.
#[export] Instance fifo_LaneMempool : LaneMempool (sdk := concrete_sdk) (list CTx) := {
  lm_Insert ctx tx := fun mp => (Ret None, mp ++ [tx]);
  lm_Remove tx := fun mp => (Ret None, fifo_remove tx mp);
  lm_Select := fun mp => (Ret mp, mp);
  lm_CountTx mp := len mp;
  lm_Contains mp tx := existsb (fun t => bool_decide (c_bytes t = c_bytes tx)) mp;
  lm_Compare mp ctx a b := Ret 0 }.

(** A lane that takes the transactions with a first byte below 100. *)
Definition ex_match : MatchHandler (sdk := concrete_sdk) :=
  fun ctx tx => match c_bytes tx with b :: _ => byte_Z b <? 100 | [] => false end.
Definition ex_txs : list CTx := [ex_tx 1 0 [1]; ex_tx 2 0 [3]; ex_tx 9 0 [200]].
Definition ex_state : Lane.State (sdk := concrete_sdk) (M := list CTx) :=
  {| st_store := ex_store; st_mempools := {[ 0%nat := ex_txs ]} |}.
Definition ex_view : Lane.LaneView (sdk := concrete_sdk) (M := list CTx) :=
  {| lv_id := 0%nat; lv_Name := "default"; lv_TxEncoder := Some ex_TxEncoder;
     lv_Match := fun ctx tx => Ret (ex_match ctx tx);
     lv_AnteVerifyTx := fun ctx tx simulate => mret (ctx, None) |}.

Lemma default_check_order_iff_witness :
  exists r, DefaultCheckOrderHandler ex_view (ex_ctx 5) ex_txs ex_state = (Ret r, ex_state) /\
    (r = None <-> exists ms others, ex_txs = ms ++ others /\
       Forall (fun tx => ex_match (ex_ctx 5) tx = true) ms /\
       Forall (fun tx => ex_match (ex_ctx 5) tx = false) others /\
       Sorted (fun a b => 0 <> -1) ms).
Proof.
  apply (default_check_order_iff ex_view (ex_ctx 5) ex_state ex_txs (ex_match (ex_ctx 5)) (fun a b => 0)).
  - apply lookup_singleton_eq.
  - done.
  - intros a b. reflexivity.
Defined.

Lemma default_prepare_selects_witness :
  total_len [[x01]; [x03]] <= 2 /\
  (exists sel, sublist sel ex_txs /\ Forall2 (selectable ex_view (NewProposal 2)) sel [[x01]; [x03]]) /\
  sublist [ex_tx 9 0 [200]] ex_txs.
Proof.
  apply (default_prepare_selects ex_view (ex_ctx 5) (NewProposal 2) 2 ex_state ex_txs
    (snd (on_mempool 0%nat lm_Select ex_state)) [[x01]; [x03]] [ex_tx 9 0 [200]]
    (snd (DefaultPrepareLaneHandler ex_view (ex_ctx 5) (NewProposal 2) 2 ex_state))).
  - lia.
  - eval_run.
  - intros tx enc bz h Hin [= <-] [= <- _].
    repeat (destruct Hin as [<-|Hin]; [vm_compute; reflexivity|]). destruct Hin.
  - eval_run.
Defined.

Lemma default_process_verifies_witness :
  exists seg ctx', ex_txs = seg ++ [ex_tx 9 0 [200]] /\
    verified ex_view (ex_ctx 5) ex_state seg ctx'
      (snd (DefaultProcessLaneHandler ex_view (ex_ctx 5) ex_txs ex_state)) /\
    lv_Match ex_view ctx' (ex_tx 9 0 [200]) = Ret false.
Proof.
  apply (default_process_verifies ex_view (ex_ctx 5) ex_txs ex_state [ex_tx 9 0 [200]]
    (snd (DefaultProcessLaneHandler ex_view (ex_ctx 5) ex_txs ex_state))).
  eval_run.
Defined.
