(* ===== verification/Mempool.v ===== *)
(** * blockbuster/mempool.go: the mempool of all lanes

    [BBMempool] is a registry of lanes; its methods call the lanes in order.  The calls
    recover from panics, in the state the panic left behind. *)
From S2P Require Import Prelude Hash Sdk Proposals LaneMempool Lane.

Section Mempool.
Context {sdk : Sdk} {M : Type} {LM : LaneMempool M}.

Abbreviation Lanes := (gmap LaneId (LaneConstructor (M := M))).
Abbreviation State := (State (M := M)).

Record BBMempool : Type := MkBBMempool { registry : list LaneId }.

(** The lanes of the registry, with the pointer dereferenced. *)
Definition with_lane {A} (lanes : Lanes) (l : LaneId) (f : LaneConstructor (M := M) -> ST State A) : ST State A :=
  match lanes !! l with None => st_lift nil_deref | Some lane => f lane end.

(** The loop of [ValidateBasic]: the sum of the block space and whether a lane has none. *)
Fixpoint sum_block_space (lanes : Lanes) (sum : Dec) (seenZeroMaxBlockSpace : bool)
    (registry : list LaneId) : outcome (Dec * bool) :=
  match registry with
  | [] => Ret (sum, seenZeroMaxBlockSpace)
  | l :: registry =>
      match lanes !! l with
      | None => nil_deref
      | Some lane =>
          let maxBlockSpace := GetMaxBlockSpace lane in
          let seen := if Dec_IsZero maxBlockSpace then true else seenZeroMaxBlockSpace in
          sum_block_space lanes (Dec_Add sum (GetMaxBlockSpace lane)) seen registry
      end
  end.

Definition BBMempool_ValidateBasic (lanes : Lanes) (m : BBMempool) : outcome (option error) :=
  '(sum, seenZeroMaxBlockSpace) ← sum_block_space lanes LegacyZeroDec false (registry m);
  if Dec_GT sum LegacyOneDec then
    mret (Some (Errorf "sum of lane max block space percentages must be less than or equal to 1"))
  else if Dec_LT sum LegacyOneDec && negb seenZeroMaxBlockSpace then
    mret (Some (Errorf "sum of total block space percentages will be less than 1"))
  else mret None.

(** The loop of [NewMempool] that sets the ignore lists: [seen] are the lanes before. *)
Fixpoint set_ignore_lists (seen rest : list LaneId) (lanes : Lanes) : Lanes :=
  match rest with
  | [] => lanes
  | l :: rest =>
      let lanes := match seen with
                   | [] => lanes
                   | _ => alter (SetIgnoreList seen) l lanes
                   end in
      set_ignore_lists (seen ++ [l]) rest lanes
  end.

Definition NewMempool (mutex : bool) (registry : list LaneId) (lanes : Lanes)
    : outcome (BBMempool * Lanes) :=
  let mempool := {| registry := registry |} in
  err ← BBMempool_ValidateBasic lanes mempool;
  match err with
  | Some err => Panic "invalid mempool"
  | None => mret (mempool, if mutex then set_ignore_lists [] registry lanes else lanes)
  end.

(** A method of a lane's mempool that changes nothing. *)
Definition read_mempool {A} (l : LaneId) (f : M -> A) : ST State A :=
  on_mempool l (fun mp => (Ret (f mp), mp)).

Fixpoint count_loop (total : Z) (registry : list LaneId) : ST State Z :=
  match registry with
  | [] => mret total
  | l :: registry => n ← read_mempool l lm_CountTx; count_loop (total + n) registry
  end.
Definition BBMempool_CountTx (m : BBMempool) : ST State Z := count_loop 0 (registry m).

Fixpoint distribution_loop (lanes : Lanes) (counts : gmap string Z) (registry : list LaneId)
    : ST State (gmap string Z) :=
  match registry with
  | [] => mret counts
  | l :: registry =>
      name ← with_lane lanes l (fun lane => mret (Name lane));
      n ← read_mempool l lm_CountTx;
      distribution_loop lanes (<[name := n]> counts) registry
  end.
Definition GetTxDistribution (lanes : Lanes) (m : BBMempool) : ST State (gmap string Z) :=
  distribution_loop lanes ∅ (registry m).

(** The result of the collected errors of the lanes. *)
Definition joined_errors (errors : list string) : option error :=
  match errors with [] => None | _ => Some (Errorf (strings_Join errors ";")) end.

Fixpoint insert_loop (lanes : Lanes) (ctx : Context) (tx : Tx) (errors : list string)
    (registry : list LaneId) : ST State (option error) :=
  match registry with
  | [] => mret (joined_errors errors)
  | l :: registry =>
      matches ← st_lift (Match (match_fuel lanes) lanes l ctx tx);
      if negb matches then insert_loop lanes ctx tx errors registry
      else
        err ← on_mempool l (lm_Insert ctx tx);
        match err with
        | Some err =>
            name ← with_lane lanes l (fun lane => mret (Name lane));
            insert_loop lanes ctx tx (errors ++ ["failed to insert tx into lane " +:+ name]) registry
        | None => insert_loop lanes ctx tx errors registry
        end
  end.

Definition BBMempool_Insert (lanes : Lanes) (m : BBMempool) (ctx : Context) (tx : Tx)
    : ST State (option error) :=
  recover (insert_loop lanes ctx tx [] (registry m))
    (fun r => mret (Some (Errorf "panic in Insert"))).

Fixpoint remove_loop (lanes : Lanes) (tx : Tx) (errors : list string) (registry : list LaneId)
    : ST State (option error) :=
  match registry with
  | [] => mret (joined_errors errors)
  | l :: registry =>
      contains ← read_mempool l (fun mp => lm_Contains mp tx);
      if negb contains then remove_loop lanes tx errors registry
      else
        err ← on_mempool l (lm_Remove tx);
        match err with
        | Some err =>
            name ← with_lane lanes l (fun lane => mret (Name lane));
            if bool_decide (err = ErrTxNotFound) then remove_loop lanes tx errors registry
            else remove_loop lanes tx
                   (errors ++ ["failed to remove tx from lane " +:+ name +:+ ";"]) registry
        | None => remove_loop lanes tx errors registry
        end
  end.

Definition BBMempool_Remove (lanes : Lanes) (m : BBMempool) (tx : Tx) : ST State (option error) :=
  recover (remove_loop lanes tx [] (registry m))
    (fun r => mret (Some (Errorf "panic in Remove"))).

Fixpoint contains_loop (tx : Tx) (registry : list LaneId) : ST State bool :=
  match registry with
  | [] => mret false
  | l :: registry =>
      contains ← read_mempool l (fun mp => lm_Contains mp tx);
      if contains : bool then mret true else contains_loop tx registry
  end.
Definition BBMempool_Contains (m : BBMempool) (tx : Tx) : ST State bool :=
  recover (contains_loop tx (registry m)) (fun r => mret false).

(** The nil iterator. *)
Definition BBMempool_Select (m : BBMempool) (ctx : Context) (txs : list bytes) : option (list Tx) := None.
Definition BBMempool_Registry (m : BBMempool) : list LaneId := registry m.

Fixpoint GetLane (lanes : Lanes) (name : string) (registry : list LaneId) : outcome (result LaneId) :=
  match registry with
  | [] => Ret (Err (Errorf "lane not found"))
  | l :: registry =>
      match lanes !! l with
      | None => nil_deref
      | Some lane => if bool_decide (Name lane = name) then Ret (Ok l) else GetLane lanes name registry
      end
  end.
End Mempool.
