(* ===== verification/MempoolFacts.v ===== *)
(** * What the registry of lanes guarantees

    With [mutex], a transaction belongs to the first lane of the registry whose match handler
    takes it and to no other; a validated registry never hands out more bytes than the block. *)
From S2P Require Import Prelude Hash Sdk Concrete Proposals LaneMempool Lane LaneFacts Mempool.

Section Mutex.
Context {sdk : Sdk} {M : Type} {LM : LaneMempool M}.
Abbreviation State := (Lane.State (M := M)).
Abbreviation LaneC := (LaneConstructor (M := M)).
Abbreviation Lanes := (gmap LaneId LaneC).

(** ** The ignore lists of a new mempool *)

Lemma set_ignore_lists_other seen rest (lanes : Lanes) l : l ∉ rest ->
  set_ignore_lists seen rest lanes !! l = lanes !! l.
Proof.
  revert seen lanes. induction rest as [|r rest IH]; intros seen lanes Hl; cbn; [done|].
  apply not_elem_of_cons in Hl as [Hr Hl]. rewrite IH by done.
  destruct seen; [done|]. by rewrite lookup_alter_ne.
Qed.

Lemma set_ignore_lists_lookup seen rest (lanes : Lanes) i l : NoDup rest ->
  rest !! i = Some l ->
  set_ignore_lists seen rest lanes !! l =
    match seen ++ take i rest with
    | [] => lanes !! l
    | ignore => SetIgnoreList ignore <$> lanes !! l
    end.
Proof.
  revert seen lanes i. induction rest as [|r rest IH]; intros seen lanes i Hd Hi; [done|].
  apply list.NoDup_cons in Hd as [Hr Hd]. cbn. destruct i as [|i]; cbn in Hi.
  - injection Hi as ->. rewrite set_ignore_lists_other by done. cbn. rewrite app_nil_r.
    destruct seen; [done|]. by rewrite lookup_alter_eq.
  - rewrite (IH _ _ _ Hd Hi). cbn. rewrite <- app_assoc. cbn.
    destruct (seen ++ r :: take i rest) eqn:E; [by destruct seen|].
    destruct seen; [done|]. rewrite lookup_alter_ne; [done|]. intros ->.
    apply Hr. eapply list_elem_of_lookup_2, Hi.
Qed.

(** ** Matching *)

(** The first lane of the registry whose handler takes the transaction. *)
Fixpoint first_match (hs : LaneId -> bool) (registry : list LaneId) : option LaneId :=
  match registry with
  | [] => None
  | l :: registry => if hs l then Some l else first_match hs registry
  end.

(** A lane accepted by its handler and by none before it in the list. *)
Definition mutex_match (hs : LaneId -> bool) (before : list LaneId) (l : LaneId) : bool :=
  hs l && negb (existsb hs before).

Lemma CheckIgnoreList_prefix (f : LaneId -> outcome bool) (hs : LaneId -> bool) pre rest :
  existsb hs pre = false ->
  (forall j l, (pre ++ rest) !! j = Some l -> f l = Ret (mutex_match hs (take j (pre ++ rest)) l)) ->
  CheckIgnoreList f rest = Ret (existsb hs rest).
Proof.
  revert pre. induction rest as [|l rest IH]; intros pre Hp Hf; cbn; [done|]. st_unfold.
  rewrite (Hf (length pre) l) by (by rewrite list_lookup_middle).
  unfold mutex_match. rewrite take_app_length, Hp. cbn. rewrite andb_true_r.
  destruct (hs l) eqn:E; [done|]. cbn. apply (IH (pre ++ [l])).
  - rewrite existsb_app, Hp. cbn. by rewrite E.
  - intros j k. rewrite <- app_assoc. cbn. apply Hf.
Qed.

Section Registry.
Context (registry : list LaneId) (lanes : Lanes) (hs : LaneId -> MatchHandler).
Hypothesis Hdup : NoDup registry.
Hypothesis Hlanes : forall l, l ∈ registry ->
  exists lane, lanes !! l = Some lane /\ matchHandler lane = Some (hs l).
Hypothesis Hfirst : forall l lane, head registry = Some l -> lanes !! l = Some lane ->
  IgnoreList (cfg lane) = [].
Abbreviation lanes' := (set_ignore_lists [] registry lanes).

Lemma registry_lane i l : registry !! i = Some l -> exists lane, lanes' !! l = Some lane /\
  matchHandler lane = Some (hs l) /\ IgnoreList (cfg lane) = take i registry.
Proof.
  intros Hi. destruct (Hlanes l) as (lane & Hl & Hh); [by eapply list_elem_of_lookup_2|].
  rewrite (set_ignore_lists_lookup [] registry lanes i l Hdup Hi). cbn.
  destruct (take i registry) as [|r rs] eqn:E.
  - exists lane. split; [done|]. split; [done|]. apply (Hfirst l); [|done].
    destruct i; [by destruct registry|]. destruct registry; [done|]. done.
  - rewrite Hl. by eexists.
Qed.

Lemma Match_registry fuel i l ctx tx : registry !! i = Some l -> (i < fuel)%nat ->
  lane_Match fuel lanes' l ctx tx = Ret (mutex_match (fun j => hs j ctx tx) (take i registry) l).
Proof.
  revert i l. induction fuel as [|fuel IH]; intros i l Hi Hf; [lia|]. cbn [lane_Match].
  destruct (registry_lane i l Hi) as (lane & -> & -> & ->). unfold mutex_match at 1.
  destruct (hs l ctx tx); [|done]. st_unfold.
  rewrite (CheckIgnoreList_prefix _ (fun j => hs j ctx tx) [] (take i registry)); [done..|].
  intros j k Hj. cbn [app] in *. apply lookup_take_Some in Hj as [Hj Hji].
  rewrite (IH j k Hj) by lia. by rewrite take_take, Nat.min_l by lia.
Qed.

Lemma registry_fuel i l : registry !! i = Some l -> (i < match_fuel lanes')%nat.
Proof.
  intros Hi. apply lookup_lt_Some in Hi. unfold match_fuel.
  assert (Hs : list_to_set registry ⊆ dom lanes').
  { intros k. rewrite elem_of_list_to_set. intros [j Hj]%list_elem_of_lookup_1.
    destruct (registry_lane j k Hj) as (lane & Hl & _). by apply elem_of_dom_2 in Hl. }
  apply subseteq_size in Hs. rewrite size_list_to_set, size_dom in Hs by done. lia.
Qed.

(** The outcome of matching every lane of the registry against a transaction. *)
Lemma Match_mutex i l ctx tx : registry !! i = Some l ->
  lane_Match (match_fuel lanes') lanes' l ctx tx
  = Ret (mutex_match (fun j => hs j ctx tx) (take i registry) l).
Proof. intros Hi. apply Match_registry; [done|]. by eapply registry_fuel. Qed.
End Registry.

Lemma first_match_take bs registry i l : registry !! i = Some l ->
  mutex_match bs (take i registry) l = true -> first_match bs registry = Some l.
Proof.
  unfold mutex_match. revert i. induction registry as [|r registry IH]; intros i Hi; [done|].
  destruct i as [|i]; cbn in *.
  - injection Hi as ->. by destruct (bs l).
  - destruct (bs r); cbn; [by rewrite andb_false_r|]. by apply IH.
Qed.

Lemma first_match_sound bs registry l : first_match bs registry = Some l ->
  exists i, registry !! i = Some l /\ mutex_match bs (take i registry) l = true.
Proof.
  unfold mutex_match. induction registry as [|r registry IH]; cbn; [done|].
  destruct (bs r) eqn:E.
  - intros [= ->]. exists 0%nat. cbn. by rewrite E.
  - intros Hf. destruct (IH Hf) as (i & Hi & Hm). exists (S i). cbn. by rewrite E.
Qed.

Lemma first_match_unique bs registry i j l : NoDup registry ->
  registry !! i = Some l -> first_match bs registry = Some j ->
  mutex_match bs (take i registry) l = bool_decide (l = j).
Proof.
  intros Hd Hi Hj. destruct (mutex_match bs (take i registry) l) eqn:E.
  - rewrite (first_match_take bs registry i l) in Hj by done. injection Hj as ->.
    by rewrite bool_decide_eq_true_2.
  - symmetry. apply bool_decide_eq_false_2. intros ->.
    destruct (first_match_sound bs registry j Hj) as (k & Hk & Hm).
    rewrite (NoDup_lookup registry i k j) in E by done. congruence.
Qed.

Lemma first_match_none bs registry i l : registry !! i = Some l ->
  first_match bs registry = None -> mutex_match bs (take i registry) l = false.
Proof.
  intros Hi Hn. destruct (mutex_match bs (take i registry) l) eqn:E; [|done].
  rewrite (first_match_take bs registry i l) in Hn by done. done.
Qed.

(** ** Inserting *)

Lemma insert_loop_skip (lanes0 : Lanes) ctx tx errors reg (st : State) :
  (forall l, l ∈ reg -> lane_Match (match_fuel lanes0) lanes0 l ctx tx = Ret false) ->
  insert_loop lanes0 ctx tx errors reg st = (Ret (joined_errors errors), st).
Proof.
  induction reg as [|l reg IH]; intros Hm; cbn [insert_loop app]; st_unfold; [done|].
  rewrite (Hm l) by apply list_elem_of_here. cbn [st_lift negb]. apply IH.
  intros k Hk. apply Hm. by apply list_elem_of_further.
Qed.

Lemma insert_loop_app (lanes0 : Lanes) ctx tx errors pre reg (st : State) :
  (forall l, l ∈ pre -> lane_Match (match_fuel lanes0) lanes0 l ctx tx = Ret false) ->
  insert_loop lanes0 ctx tx errors (pre ++ reg) st = insert_loop lanes0 ctx tx errors reg st.
Proof.
  induction pre as [|l pre IH]; intros Hm; cbn [insert_loop app]; st_unfold; [done|].
  rewrite (Hm l) by apply list_elem_of_here. cbn [st_lift negb]. apply IH.
  intros k Hk. apply Hm. by apply list_elem_of_further.
Qed.

(** ** Block space *)

Section BlockSpace.
Context {DL : DecLaws sdk}.

(** The scaled block space of a lane of a validated configuration. *)
Definition valid_space (lanes : Lanes) (space : LaneId -> Z) (l : LaneId) : Prop :=
  exists lane, lanes !! l = Some lane /\ dec_val (MaxBlockSpace (cfg lane)) = Some (space l) /\
    0 <= space l <= dec_one.

Fixpoint total_space (space : LaneId -> Z) (registry : list LaneId) : Z :=
  match registry with [] => 0 | l :: registry => space l + total_space space registry end.

(** The bytes the lanes with a share of the block may use. *)
Fixpoint total_limit (space : LaneId -> Z) (maxTxBytes : Z) (registry : list LaneId) : Z :=
  match registry with
  | [] => 0
  | l :: registry =>
      (if space l =? 0 then 0 else space l * maxTxBytes / dec_one)
      + total_limit space maxTxBytes registry
  end.

Lemma sum_block_space_spec (lanes : Lanes) space reg sum seen v :
  Forall (valid_space lanes space) reg -> dec_val sum = Some v -> 0 <= v ->
  v + len reg * dec_one < 2 ^ 256 ->
  exists sum' seen', sum_block_space lanes sum seen reg = Ret (sum', seen') /\
    dec_val sum' = Some (v + total_space space reg) /\
    (seen' = true <-> seen = true \/ exists l, l ∈ reg /\ space l = 0).
Proof.
  intros Hr. revert sum seen v. induction Hr as [|l reg (lane & Hl & Hd & Hs) _ IH]; intros sum seen v Hv H0 Hb.
  - exists sum, seen. split; [done|]. split; [cbn; by rewrite Z.add_0_r|]. set_solver.
  - cbn [sum_block_space]. rewrite Hl. unfold GetMaxBlockSpace. rewrite len_cons in Hb.
    pose proof (len_nonneg reg). assert (Hone : dec_one = 10 ^ 18) by done.
    rewrite (dec_iszero _ (space l)) by done.
    destruct (IH (Dec_Add sum (MaxBlockSpace (cfg lane))) (if space l =? 0 then true else seen)
      (v + space l)) as (sum' & seen' & -> & Hv' & Hs'); [|lia|nia|].
    + apply dec_add; [done..|]. nia.
    + exists sum', seen'. split; [done|]. cbn. split; [by rewrite Z.add_assoc|]. rewrite Hs'.
      setoid_rewrite elem_of_cons. destruct (space l =? 0) eqn:E.
      * split; [|by left]. intros _. right. exists l. split; [by left|lia].
      * split; intros [?|(k & Hk & ?)]; eauto. destruct Hk as [->|Hk]; [lia|eauto].
Qed.

Lemma total_limit_bound (space : LaneId -> Z) (m : Z) (reg : list LaneId) : 0 <= m ->
  Forall (fun l => 0 <= space l) reg -> total_limit space m reg <= total_space space reg * m / dec_one.
Proof.
  intros Hm. assert (Hone : dec_one = 10 ^ 18) by done. induction 1 as [|l reg Hl Hr IH]; cbn; [done|].
  assert (Hx : (if space l =? 0 then 0 else space l * m / dec_one) = space l * m / dec_one).
  { destruct (space l =? 0) eqn:E; [|done]. replace (space l) with 0 by lia. done. }
  rewrite Hx, Z.mul_add_distr_r. apply Z.div_le_lower_bound; [lia|].
  pose proof (Z.mul_div_le (space l * m) dec_one ltac:(lia)).
  pose proof (Z.mul_div_le (total_space space reg * m) dec_one ltac:(lia)). nia.
Qed.
End BlockSpace.

(** ** The properties *)

(** In a mempool created with mutex, whose first lane has no ignore list of its own, a lane
    of the registry matches a transaction exactly when it is the first one whose match handler
    takes it: every transaction belongs to at most one lane, and matching terminates. *)
Theorem mutex_lanes_disjoint registry (lanes lanes' : Lanes) m (hs : LaneId -> MatchHandler) l ctx tx :
  NewMempool true registry lanes = Ret (m, lanes') -> NoDup registry ->
  (forall l, l ∈ registry ->
     exists lane, lanes !! l = Some lane /\ matchHandler lane = Some (hs l)) ->
  (forall l lane, head registry = Some l -> lanes !! l = Some lane -> IgnoreList (cfg lane) = []) ->
  l ∈ registry ->
  lane_Match (match_fuel lanes') lanes' l ctx tx
  = Ret (bool_decide (first_match (fun j => hs j ctx tx) registry = Some l)).
Proof.
  unfold NewMempool. st_unfold. destruct (BBMempool_ValidateBasic _ _) as [[|]|]; [done| |done].
  intros [= <- <-] Hd Hl Hf [i Hi]%list_elem_of_lookup_1.
  rewrite (Match_mutex registry lanes hs Hd Hl Hf i l ctx tx Hi). f_equal.
  destruct (first_match _ registry) as [j|] eqn:E.
  - rewrite (first_match_unique _ registry i j l) by done. apply bool_decide_ext. naive_solver.
  - rewrite (first_match_none _ registry i l) by done. by rewrite bool_decide_eq_false_2.
Qed.

(** C32: inserting a transaction into such a mempool inserts it into that lane and touches
    nothing else; without a matching lane the call succeeds and changes nothing; a panic of the
    lane's mempool becomes an error. *)
Theorem mutex_insert_single_lane registry (lanes lanes' : Lanes) m (hs : LaneId -> MatchHandler) ctx tx st :
  NewMempool true registry lanes = Ret (m, lanes') -> NoDup registry ->
  (forall l, l ∈ registry ->
     exists lane, lanes !! l = Some lane /\ matchHandler lane = Some (hs l)) ->
  (forall l lane, head registry = Some l -> lanes !! l = Some lane -> IgnoreList (cfg lane) = []) ->
  let '(r, st') := BBMempool_Insert lanes' m ctx tx st in
  match first_match (fun j => hs j ctx tx) registry with
  | None => r = Ret None /\ st' = st
  | Some l =>
      let '(r1, st1) := on_mempool l (lm_Insert ctx tx) st in
      st' = st1 /\ (r = Ret None <-> r1 = Ret None) /\ (exists e, r = Ret e)
  end.
Proof.
  unfold NewMempool. st_unfold. destruct (BBMempool_ValidateBasic _ _) as [[|]|]; [done| |done].
  intros [= <- <-] Hd Hl Hf. set (lanes' := set_ignore_lists [] registry lanes).
  set (bs := fun j => hs j ctx tx).
  assert (Hm : forall i l, registry !! i = Some l -> lane_Match (match_fuel lanes') lanes' l ctx tx
    = Ret (mutex_match bs (take i registry) l))
    by (intros i l; apply (Match_mutex registry lanes hs Hd Hl Hf)).
  unfold BBMempool_Insert, recover. cbn [Mempool.registry].
  destruct (first_match bs registry) as [l|] eqn:E.
  - destruct (first_match_sound _ _ _ E) as (i & Hi & Hmi).
    assert (Hsplit : insert_loop lanes' ctx tx [] registry st
      = insert_loop lanes' ctx tx [] (l :: drop (S i) registry) st).
    { transitivity (insert_loop lanes' ctx tx [] (take i registry ++ l :: drop (S i) registry) st);
        [by rewrite (take_drop_middle registry i l Hi)|]. apply insert_loop_app. intros k Hk. apply elem_of_take in Hk as (j & Hj & Hji). rewrite (Hm j k Hj).
         rewrite (first_match_unique bs registry j l k) by done. rewrite bool_decide_eq_false_2; [done|].
         intros ->. rewrite (NoDup_lookup registry i j l) in Hji by done. lia. }
    rewrite Hsplit. clear Hsplit. cbn [insert_loop]. st_unfold. rewrite (Hm i l Hi), Hmi. cbn [st_lift negb].
    assert (Hskip : forall errors st, insert_loop lanes' ctx tx errors (drop (S i) registry) st
              = (Ret (joined_errors errors), st)).
    { intros errors st0. apply insert_loop_skip. intros k [j Hj]%list_elem_of_lookup_1.
      rewrite lookup_drop in Hj. rewrite (Hm _ k Hj). rewrite (first_match_unique bs registry _ l k) by done.
      rewrite bool_decide_eq_false_2; [done|]. intros ->.
      pose proof (NoDup_lookup registry i _ l Hd Hi Hj). lia. }
    destruct (on_mempool l (lm_Insert ctx tx) st) as [[[err|]|w] st1].
    + destruct (registry_lane registry lanes hs Hd Hl Hf i l Hi) as (lane & Hlane & _).
      unfold with_lane. fold lanes' in Hlane. rewrite Hlane. st_unfold. rewrite Hskip. cbn.
      split; [done|]. split; [done|]. by eexists.
    + rewrite Hskip. cbn. split; [done|]. split; [done|]. by eexists.
    + split; [done|]. split; [done|]. by eexists.
  - rewrite insert_loop_skip; [done|]. intros l [i Hi]%list_elem_of_lookup_1.
    rewrite (Hm i l Hi). by rewrite (first_match_none bs registry i l).
Qed.

(** C33: a mempool is only created when the lanes' shares of the block add up to at most one,
    and to one unless a lane has no share of its own; the byte limits the lanes get out of a
    block of [maxTxBytes] bytes then add up to at most [maxTxBytes]. *)
Theorem mempool_block_space {DL : DecLaws sdk} mutex registry (lanes lanes' : Lanes) m space maxTxBytes :
  NewMempool mutex registry lanes = Ret (m, lanes') ->
  Forall (valid_space lanes space) registry -> len registry < 2 ^ 64 -> 0 <= maxTxBytes ->
  total_space space registry <= dec_one /\
  (total_space space registry = dec_one \/ exists l, l ∈ registry /\ space l = 0) /\
  total_limit space maxTxBytes registry <= maxTxBytes.
Proof.
  unfold NewMempool, BBMempool_ValidateBasic. st_unfold. cbn [Mempool.registry]. intros HN Hv Hlen Hm.
  destruct (sum_block_space_spec lanes space registry LegacyZeroDec false 0 Hv dec_zero)
    as (sum & seen & Hs & Hd & Hseen); [lia|unfold dec_one; lia|].
  rewrite Hs in HN. cbn in Hd.
  rewrite (dec_gt _ _ (total_space space registry) dec_one), (dec_lt _ _ (total_space space registry) dec_one)
    in HN by (done || apply dec_one_val).
  destruct (dec_one <? total_space space registry) eqn:E1; [done|].
  assert (Hle : total_space space registry <= dec_one) by lia.
  split; [done|]. split.
  - destruct (decide (total_space space registry = dec_one)) as [|Hne]; [by left|right].
    replace (total_space space registry <? dec_one) with true in HN by lia.
    destruct seen; [|done]. destruct (proj1 Hseen eq_refl) as [?|?]; done.
  - etransitivity; [apply (total_limit_bound space maxTxBytes registry Hm)|].
    + eapply List.Forall_impl; [|exact Hv]. intros l (lane & _ & _ & ?). lia.
    + assert (dec_one = 10 ^ 18) by done. apply Z.div_le_upper_bound; nia.
Qed.
End Mutex.

(** ** Witnesses *)

Definition ex_lane (name : string) (space : Z) (h : MatchHandler (sdk := concrete_sdk))
    : LaneConstructor (sdk := concrete_sdk) (M := list CTx) :=
  {| cfg := NewBaseLaneConfig (Some tt) (Some ex_TxEncoder) (Some (fun _ => Err (Errorf "none"))) None
              (Some space : @Dec concrete_sdk);
     laneName := name; hasMempool := true; matchHandler := Some h;
     prepareLaneHandler := Some DefaultPrepareLaneHandler;
     checkOrderHandler := Some DefaultCheckOrderHandler;
     processLaneHandler := Some DefaultProcessLaneHandler |}.

(** The first lane takes 30% of the block and the transactions of [ex_match], the second one
    takes what is left. *)
Definition ex_space (l : LaneId) : Z := if (l =? 0)%nat then 3 * 10 ^ 17 else 0.
Definition ex_handlers (l : LaneId) : MatchHandler (sdk := concrete_sdk) :=
  if (l =? 0)%nat then ex_match else DefaultMatchHandler.
Definition ex_lanes : gmap LaneId (LaneConstructor (sdk := concrete_sdk) (M := list CTx)) :=
  <[ 0%nat := ex_lane "free" (3 * 10 ^ 17) ex_match ]>
    {[ 1%nat := ex_lane "default" 0 DefaultMatchHandler ]}.
Definition ex_registry : list LaneId := [0; 1]%nat.
Definition ex_mutex_lanes := set_ignore_lists [] ex_registry ex_lanes.
Definition ex_mempool_state : Lane.State (sdk := concrete_sdk) (M := list CTx) :=
  {| st_store := ex_store; st_mempools := <[ 0%nat := [] ]> {[ 1%nat := [] ]} |}.

Lemma ex_lanes_lookup : ex_lanes !! 0%nat = Some (ex_lane "free" (3 * 10 ^ 17) ex_match) /\
  ex_lanes !! 1%nat = Some (ex_lane "default" 0 DefaultMatchHandler).
Proof.
  unfold ex_lanes. split; [apply lookup_insert_eq|].
  rewrite lookup_insert_ne by discriminate. apply lookup_singleton_eq.
Qed.

Lemma ex_NewMempool : NewMempool true ex_registry ex_lanes
  = Ret ({| registry := ex_registry |}, ex_mutex_lanes).
Proof.
  unfold NewMempool, BBMempool_ValidateBasic. st_unfold. cbn [registry sum_block_space ex_registry].
  destruct ex_lanes_lookup as [-> ->]. reflexivity.
Qed.

Lemma ex_NoDup : NoDup ex_registry.
Proof. apply (bool_decide_unpack _). reflexivity. Qed.

Lemma ex_handled l : l ∈ ex_registry ->
  exists lane, ex_lanes !! l = Some lane /\ matchHandler lane = Some (ex_handlers l).
Proof.
  destruct ex_lanes_lookup as [E0 E1].
  intros [->|[->|[]%elem_of_nil]%elem_of_cons]%elem_of_cons.
  - exists (ex_lane "free" (3 * 10 ^ 17) ex_match). split; [exact E0|reflexivity].
  - exists (ex_lane "default" 0 DefaultMatchHandler). split; [exact E1|reflexivity].
Qed.

Lemma ex_no_ignore l lane : head ex_registry = Some l -> ex_lanes !! l = Some lane ->
  IgnoreList (cfg lane) = [].
Proof.
  intros E0 E. injection E0 as <-. rewrite (proj1 ex_lanes_lookup) in E.
  apply Some_inj in E. by rewrite <- E.
Qed.

Lemma mutex_lanes_disjoint_witness :
  lane_Match (match_fuel ex_mutex_lanes) ex_mutex_lanes 1%nat (ex_ctx 5) (ex_tx 1 0 [1])
  = Ret (bool_decide (first_match (fun j => ex_handlers j (ex_ctx 5) (ex_tx 1 0 [1])) ex_registry = Some 1%nat)).
Proof.
  apply (mutex_lanes_disjoint ex_registry ex_lanes ex_mutex_lanes {| registry := ex_registry |} ex_handlers).
  - apply ex_NewMempool.
  - apply ex_NoDup.
  - apply ex_handled.
  - apply ex_no_ignore.
  - apply list_elem_of_further, list_elem_of_here.
Defined.

Lemma mutex_insert_single_lane_witness :
  let '(r, st') := BBMempool_Insert ex_mutex_lanes {| registry := ex_registry |} (ex_ctx 5)
                     (ex_tx 1 0 [1]) ex_mempool_state in
  match first_match (fun j => ex_handlers j (ex_ctx 5) (ex_tx 1 0 [1])) ex_registry with
  | None => r = Ret None /\ st' = ex_mempool_state
  | Some l =>
      let '(r1, st1) := on_mempool l (lm_Insert (ex_ctx 5) (ex_tx 1 0 [1])) ex_mempool_state in
      st' = st1 /\ (r = Ret None <-> r1 = Ret None) /\ (exists e, r = Ret e)
  end.
Proof.
  apply (mutex_insert_single_lane ex_registry ex_lanes ex_mutex_lanes {| registry := ex_registry |} ex_handlers).
  - apply ex_NewMempool.
  - apply ex_NoDup.
  - apply ex_handled.
  - apply ex_no_ignore.
Defined.

Lemma ex_valid_space : Forall (valid_space ex_lanes ex_space) ex_registry.
Proof.
  destruct ex_lanes_lookup as [E0 E1].
  repeat constructor; eexists; (split; [eassumption|]); unfold ex_space, dec_one; cbn; (split; [done|lia]).
Qed.

Lemma mempool_block_space_witness :
  total_space ex_space ex_registry <= dec_one /\
  (total_space ex_space ex_registry = dec_one \/ exists l, l ∈ ex_registry /\ ex_space l = 0) /\
  total_limit ex_space 1000 ex_registry <= 1000.
Proof.
  apply (mempool_block_space true ex_registry ex_lanes ex_mutex_lanes {| registry := ex_registry |} ex_space 1000).
  - apply ex_NewMempool.
  - apply ex_valid_space.
  - reflexivity.
  - lia.
Defined.
