(* ===== verification/AuctionLane.v ===== *)
(** * blockbuster/lanes/auction: the top-of-block auction lane, and the CheckTx handler

    factory.go, utils.go, mempool.go, abci.go, lane.go and check_tx.go.  The handlers of the
    lane are closures over its factory; a [BidInfo] is built anew by every call of
    [GetAuctionBidInfo]. *)
From S2P Require Import Prelude Hash Sdk Proposals PriorityNonce LaneMempool Lane.

(** ** utils.go *)

Section Utils.
Context {sdk : Sdk}.

Definition is_auction_bid (msg : Msg) : option MsgAuctionBid :=
  match msg with AuctionBidMsg m => Some m | _ => None end.

Definition GetMsgAuctionBidFromTx (tx : Tx) : result (option MsgAuctionBid) :=
  let auctionBidMsgs := omap is_auction_bid (GetMsgs tx) in
  if len auctionBidMsgs =? 0 then Ok None
  else if (len auctionBidMsgs =? 1) && (len (GetMsgs tx) =? 1) then Ok (head auctionBidMsgs)
  else Err (Errorf "invalid MsgAuctionBid transaction").

(** ** factory.go *)

Record Factory : Type := MkFactory {
  WrapBundleTransaction : bytes -> result Tx;
  GetAuctionBidInfo : Tx -> result (option BidInfo);
  MatchHandler : Context -> Tx -> bool }.

(** The signers of the transactions of a bundle. *)
Fixpoint getBundleSigners (txDecoder : TxDecoder) (bundle : list bytes) : result (list (gset string)) :=
  match bundle with
  | [] => Ok []
  | tx :: bundle =>
      sdkTx ← txDecoder tx;
      match GetSigners sdkTx with
      | None => Err (Errorf "transaction is not valid")
      | Some signers =>
          signers ← signers;
          let txSigners := list_to_set (map AccAddress_String signers) in
          bundleSigners ← getBundleSigners txDecoder bundle;
          Ok (txSigners :: bundleSigners)
      end
  end.

Definition DefaultGetAuctionBidInfo (txDecoder : TxDecoder) (tx : Tx) : result (option BidInfo) :=
  msg ← GetMsgAuctionBidFromTx tx;
  match msg with
  | None => Ok None
  | Some msg =>
      match AccAddressFromBech32 (msg_Bidder msg) with
      | Err err => Err (Wrap "invalid bidder address" err)
      | Ok bidder =>
          match GetTimeoutHeight tx with
          | None => Err (Errorf "cannot extract timeout; transaction does not implement TxWithTimeoutHeight")
          | Some timeout =>
              signers ← getBundleSigners txDecoder (msg_Transactions msg);
              Ok (Some {| Bid := msg_Bid msg; Bidder := bidder;
                          Transactions := msg_Transactions msg; Timeout := timeout;
                          Signers := signers |})
          end
      end
  end.

Definition DefaultFactoryMatch (txDecoder : TxDecoder) (ctx : Context) (tx : Tx) : bool :=
  match DefaultGetAuctionBidInfo txDecoder tx with Ok (Some _) => true | _ => false end.

Definition NewDefaultAuctionFactory (txDecoder : TxDecoder) : Factory :=
  {| WrapBundleTransaction := txDecoder;
     GetAuctionBidInfo := DefaultGetAuctionBidInfo txDecoder;
     MatchHandler := DefaultFactoryMatch txDecoder |}.

(** ** mempool.go *)

Definition AuctionTxPriority (config : Factory) : TxPriority (C := string) :=
  {| GetTxPriority := fun goCtx tx =>
       match GetAuctionBidInfo config tx with
       | Err err => Panic "invalid auction bid"
       | Ok None => Panic "invalid memory address or nil pointer dereference"
       | Ok (Some bidInfo) => Ret (Coin_String (Bid bidInfo))
       end;
     PriorityNonce.Compare := compare_coins;
     MinValue := "" |}.
End Utils.

Section Auction.
Context {sdk : Sdk} {M : Type} {LM : LaneMempool M}.
Abbreviation State := (State (M := M)).
Abbreviation LaneView := (LaneView (M := M)).

Definition GetTopAuctionTx (l : LaneId) : ST State (option Tx) :=
  iterator ← on_mempool l lm_Select;
  mret (head iterator).

(** ** abci.go *)

(** Verify the bundled transactions one after the other. *)
Fixpoint verify_bundle (f : Factory) (lv : LaneView) (ctx : Context) (bundle : list bytes)
    : ST State (option error) :=
  match bundle with
  | [] => mret None
  | tx :: bundle =>
      match WrapBundleTransaction f tx with
      | Err err => mret (Some (Wrap "invalid bid tx; failed to decode bundled tx" err))
      | Ok bundledTx =>
          '(ctx, err) ← lv_AnteVerifyTx lv ctx bundledTx false;
          match err with
          | Some err => mret (Some (Wrap "invalid bid tx; failed to execute bundled transaction" err))
          | None => verify_bundle f lv ctx bundle
          end
      end
  end.

Definition VerifyTx (f : Factory) (lv : LaneView) (ctx : Context) (bidTx : Tx)
    (bidInfo : option BidInfo) : ST State (option error) :=
  match bidInfo with
  | None => mret (Some (Errorf "bid info is nil"))
  | Some bidInfo =>
      '(ctx, err) ← lv_AnteVerifyTx lv ctx bidTx false;
      match err with
      | Some err => mret (Some (Wrap "invalid bid tx; failed to execute ante handler" err))
      | None => verify_bundle f lv ctx (Transactions bidInfo)
      end
  end.

(** What one turn of the selection loop decides about a bid. *)
Inductive bid_decision : Type :=
| BidSelected (txs : list bytes)
| BidSkipped
| BidRemoved.

(** The loop over the bundle of a verified bid: its encodings, unless one of them is in the
    proposal already or cannot be encoded. *)
Fixpoint wrap_bundle (f : Factory) (lv : LaneView) (proposal : Proposal) (bidTxBz : bytes)
    (bundledTxBz : list bytes) (bundle : list bytes) : outcome bid_decision :=
  match bundle with
  | [] => Ret (BidSelected (bidTxBz :: bundledTxBz))
  | rawRefTx :: bundle =>
      match WrapBundleTransaction f rawRefTx with
      | Err err => Ret BidRemoved
      | Ok sdkTx =>
          hashed ← lane_tx_hash lv sdkTx;
          match hashed with
          | Err err => Ret BidRemoved
          | Ok (sdkTxBz, _) =>
              if Proposals.Contains proposal sdkTxBz then Ret BidSkipped
              else wrap_bundle f lv proposal bidTxBz (bundledTxBz ++ [sdkTxBz]) bundle
          end
      end
  end.

Definition try_bid (f : Factory) (lv : LaneView) (proposal : Proposal) (maxTxBytes : Z)
    (cacheCtx : Context) (tmpBidTx : Tx) : ST State bid_decision :=
  hashed ← st_lift (lane_tx_hash lv tmpBidTx);
  match hashed with
  | Err err => mret BidRemoved
  | Ok (bidTxBz, hash) =>
      if Proposals.Contains proposal bidTxBz then mret BidSkipped
      else
        let bidTxSize := len bidTxBz in
        if bidTxSize <=? maxTxBytes then
          match GetAuctionBidInfo f tmpBidTx with
          | Err err => mret BidRemoved
          | Ok bidInfo =>
              err ← VerifyTx f lv cacheCtx tmpBidTx bidInfo;
              match err, bidInfo with
              | Some err, _ => mret BidRemoved
              | None, None => st_lift nil_deref
              | None, Some bidInfo =>
                  st_lift (wrap_bundle f lv proposal bidTxBz [] (Transactions bidInfo))
              end
          end
        else mret BidSkipped
  end.

Definition is_selected (d : bid_decision) : bool :=
  match d with BidSelected _ => true | _ => false end.

(** The selection loop: each bid is verified on a cached context that is written only when
    the bid is selected. *)
Fixpoint select_bid (f : Factory) (lv : LaneView) (proposal : Proposal) (maxTxBytes : Z)
    (ctx : Context) (txsToRemove : list Tx) (bidTxIterator : list Tx)
    : ST State (list bytes * list Tx) :=
  match bidTxIterator with
  | [] => mret ([], txsToRemove)
  | tmpBidTx :: bidTxIterator =>
      decision ← with_cache is_selected (try_bid f lv proposal maxTxBytes ctx tmpBidTx);
      match decision with
      | BidSelected txs => mret (txs, txsToRemove)
      | BidSkipped => select_bid f lv proposal maxTxBytes ctx txsToRemove bidTxIterator
      | BidRemoved =>
          select_bid f lv proposal maxTxBytes ctx (txsToRemove ++ [tmpBidTx]) bidTxIterator
      end
  end.

Definition TOB_PrepareLaneHandler (f : Factory) : PrepareLaneHandler (M := M) :=
  fun lv ctx proposal maxTxBytes =>
    bidTxIterator ← on_mempool (lv_id lv) lm_Select;
    selected ← select_bid f lv proposal maxTxBytes ctx [] bidTxIterator;
    mret (Ok selected).

(** [txs[n:]]: it panics when [n] is larger than the length. *)
Definition slice_from {A} (n : nat) (l : list A) : outcome (list A) :=
  if (n <=? length l)%nat then Ret (drop n l) else Panic "slice bounds out of range".

Definition TOB_ProcessLaneHandler (f : Factory) : ProcessLaneHandler (M := M) :=
  fun lv ctx txs =>
    match txs with
    | [] => mret (Ok txs)
    | bidTx :: _ =>
        matches ← st_lift (lv_Match lv ctx bidTx);
        if negb matches then mret (Ok txs)
        else
          match GetAuctionBidInfo f bidTx with
          | Err err => mret (Err (Wrap "failed to get bid info for lane" err))
          | Ok bidInfo =>
              err ← VerifyTx f lv ctx bidTx bidInfo;
              match err, bidInfo with
              | Some err, _ => mret (Err (Wrap "invalid bid tx" err))
              | None, None => st_lift nil_deref
              | None, Some bidInfo =>
                  rest ← st_lift (slice_from (S (length (Transactions bidInfo))) txs);
                  mret (Ok rest)
              end
          end
    end.

(** Whether one of the transactions matches the lane. *)
Fixpoint any_match (lv : LaneView) (ctx : Context) (txs : list Tx) : outcome bool :=
  match txs with
  | [] => Ret false
  | tx :: txs =>
      matches ← lv_Match lv ctx tx;
      if matches : bool then Ret true else any_match lv ctx txs
  end.

(** The loop over the bundle: the transactions of the block against those of the bid. *)
Fixpoint check_bundle (lv : LaneView) (ctx : Context) (txs : list Tx) (bundle : list bytes)
    : outcome (option error) :=
  match txs, bundle with
  | bundleTx :: txs, raw :: bundle =>
      matches ← lv_Match lv ctx bundleTx;
      if matches : bool then Ret (Some (Errorf "multiple bid transactions in lane"))
      else
        match lv_TxEncoder lv with
        | None => nil_deref
        | Some enc =>
            match enc bundleTx with
            | Err err => Ret (Some (Wrap "failed to encode bundled tx in lane" err))
            | Ok txBz =>
                if negb (bool_decide (txBz = raw)) then
                  Ret (Some (Errorf "invalid order of transactions in lane"))
                else check_bundle lv ctx txs bundle
            end
        end
  | _, _ => Ret None
  end.

Definition tob_check_order (f : Factory) (lv : LaneView) (ctx : Context) (txs : list Tx)
    : outcome (option error) :=
  match txs with
  | [] => Ret None
  | bidTx :: others =>
      matches ← lv_Match lv ctx bidTx;
      if negb matches then
        misplaced ← any_match lv ctx others;
        Ret (if misplaced : bool then Some (Errorf "misplaced bid transactions in lane") else None)
      else
        match GetAuctionBidInfo f bidTx with
        | Err err => Ret (Some (Wrap "failed to get bid info for lane" err))
        | Ok None => nil_deref
        | Ok (Some bidInfo) =>
            let n := length (Transactions bidInfo) in
            if (length txs <? n + 1)%nat then
              Ret (Some (Errorf "invalid number of transactions in lane"))
            else
              err ← check_bundle lv ctx (take n others) (Transactions bidInfo);
              match err with
              | Some err => Ret (Some err)
              | None =>
                  multiple ← any_match lv ctx (drop n others);
                  Ret (if multiple : bool then Some (Errorf "multiple bid transactions in lane")
                       else None)
              end
        end
  end.

Definition TOB_CheckOrderHandler (f : Factory) : CheckOrderHandler (M := M) :=
  fun lv ctx txs => st_lift (tob_check_order f lv ctx txs).

(** ** check_tx.go *)

Inductive CheckTxType : Type := CheckTxType_New | CheckTxType_Recheck | CheckTxType_Other (n : Z).

Record RequestCheckTx : Type := MkRequestCheckTx { req_Tx : bytes; req_Type : CheckTxType }.

(** The response: an error response keeps the error it was made from. *)
Record ResponseCheckTx : Type := MkResponseCheckTx {
  resp_err : option error;
  resp_GasWanted : Z;
  resp_GasUsed : Z }.

Record GasInfo : Type := MkGasInfo { GasWanted : Z; GasUsed : Z }.

(** The base application: its CheckTx method and the latest committed state. *)
Record BaseApp : Type := MkBaseApp {
  CommittedStore : Store;
  LastBlockHeight : Z;
  BaseApp_CheckTx : RequestCheckTx -> ST State (option ResponseCheckTx * option error) }.

Record CheckTxHandler : Type := MkCheckTxHandler {
  baseApp : BaseApp;
  txDecoder : TxDecoder;
  tobLane : LaneId;
  tobFactory : Factory;
  anteHandler : AnteHandler (M := M) }.

(** The lane is given with its factory. *)
Definition NewCheckTxHandler (baseApp : BaseApp) (txDecoder : TxDecoder) (tobLane : LaneId) (tobFactory : Factory)
    (anteHandler : AnteHandler (M := M)) : CheckTxHandler :=
  {| baseApp := baseApp; txDecoder := txDecoder; tobLane := tobLane; tobFactory := tobFactory;
     anteHandler := anteHandler |}.

(** [sdkerrors.ResponseCheckTxWithEvents]. *)
Definition error_response (err : error) (gasWanted gasUsed : Z) : ResponseCheckTx :=
  {| resp_err := Some err; resp_GasWanted := wrap_i64 gasWanted; resp_GasUsed := wrap_i64 gasUsed |}.

Definition GetContextForBidTx (handler : CheckTxHandler) (req : RequestCheckTx) : outcome Context :=
  let ctx isCheckTx isReCheckTx :=
    {| ctx_BlockHeight := LastBlockHeight (baseApp handler); ctx_IsCheckTx := isCheckTx;
       ctx_IsReCheckTx := isReCheckTx; ctx_Priority := 0; ctx_TxBytes := req_Tx req;
       ctx_GasLimit := 0; ctx_GasConsumed := 0 |} in
  match req_Type req with
  | CheckTxType_New => Ret (ctx true false)
  | CheckTxType_Recheck => Ret (ctx true true)
  | CheckTxType_Other _ => Panic "unknown check tx type"
  end.

Fixpoint validate_bundle (handler : CheckTxHandler) (ctx : Context) (bundle : list bytes)
    : ST State (option error) :=
  match bundle with
  | [] => mret None
  | tx :: bundle =>
      match WrapBundleTransaction (tobFactory handler) tx with
      | Err err => mret (Some (Wrap "invalid bid tx; failed to decode bundled tx" err))
      | Ok bundledTx =>
          match GetAuctionBidInfo (tobFactory handler) bundledTx with
          | Ok (Some _) => mret (Some (Errorf "invalid bid tx; bundled tx cannot be a bid tx"))
          | _ =>
              '(ctx, err) ← anteHandler handler ctx bundledTx false;
              match err with
              | Some err => mret (Some (Wrap "invalid bid tx; failed to execute bundled transaction" err))
              | None => validate_bundle handler ctx bundle
              end
          end
      end
  end.

Definition ValidateBidTx (handler : CheckTxHandler) (ctx : Context) (bidTx : Tx) (bidInfo : BidInfo)
    : ST State (GasInfo * option error) :=
  '(ctx, err) ← anteHandler handler ctx bidTx false;
  match err with
  | Some err =>
      mret ({| GasWanted := 0; GasUsed := 0 |},
            Some (Wrap "invalid bid tx; failed to execute ante handler" err))
  | None =>
      let gasInfo := {| GasWanted := ctx_GasLimit ctx; GasUsed := ctx_GasConsumed ctx |} in
      err ← validate_bundle handler ctx (Transactions bidInfo);
      mret (gasInfo, err)
  end.

(** Run on a branch of the committed state that is thrown away afterwards. *)
Definition on_committed {A} (s : Store) (m : ST State A) : ST State A := fun st =>
  let '(r, st') := m (set_store s st) in (r, set_store (st_store st) st').

Definition check_bid_tx (handler : CheckTxHandler) (req : RequestCheckTx) (tx : Tx) (bidInfo : BidInfo)
    : ST State (option ResponseCheckTx * option error) :=
  ctx ← st_lift (GetContextForBidTx handler req);
  on_committed (CommittedStore (baseApp handler))
    ('(gasInfo, err) ← ValidateBidTx handler ctx tx bidInfo;
     match err with
     | Some err =>
         mret (Some (error_response (Wrap "invalid bid tx" err) (GasWanted gasInfo) (GasUsed gasInfo)),
               Some err)
     | None =>
         err ← on_mempool (tobLane handler) (lm_Insert ctx tx);
         match err with
         | Some err =>
             mret (Some (error_response
                     (Wrap "invalid bid tx; failed to insert bid transaction into mempool" err)
                     (GasWanted gasInfo) (GasUsed gasInfo)), Some err)
         | None =>
             mret (Some {| resp_err := None; resp_GasWanted := wrap_i64 (GasWanted gasInfo);
                           resp_GasUsed := wrap_i64 (GasUsed gasInfo) |}, None)
         end
     end).

Definition CheckTx (handler : CheckTxHandler) (req : RequestCheckTx)
    : ST State (option ResponseCheckTx * option error) :=
  recover
    (match txDecoder handler (req_Tx req) with
     | Err err => mret (Some (error_response (Wrap "failed to decode tx" err) 0 0), Some err)
     | Ok tx =>
         match GetAuctionBidInfo (tobFactory handler) tx with
         | Err err =>
             mret (Some (error_response (Wrap "failed to get auction bid info" err) 0 0), Some err)
         | Ok None => BaseApp_CheckTx (baseApp handler) req
         | Ok (Some bidInfo) => check_bid_tx handler req tx bidInfo
         end
     end)
    (fun rec => let err := Errorf "panic in check tx handler" in
                mret (Some (error_response err 0 0), Some err)).
End Auction.
