(* ===== verification/AuctionFacts.v ===== *)
(** * What the auction lane does

    The order check against its specification [tob_ordered], what the selection of a bid returns,
    and what CheckTx requires of a bid before it enters the mempool. *)
From S2P Require Import Prelude Hash Sdk Concrete Proposals LaneMempool Lane LaneFacts AuctionLane.

Section Facts.
Context {sdk : Sdk} {M : Type} {LM : LaneMempool M}.
Abbreviation State := (Lane.State (M := M)).
Abbreviation LaneView := (Lane.LaneView (M := M)).
Implicit Types (lv : LaneView) (ctx : Context) (tx : Tx) (st : State) (f : Factory).

(** ** Bid messages *)

(** The message list of a bid transaction. *)
Lemma omap_bids_nil (msgs : list Msg) : omap is_auction_bid msgs = [] <->
  forall m, ~ In (AuctionBidMsg m) msgs.
Proof.
  induction msgs as [|msg msgs IH]; cbn; [split; [intros _ m []|done]|].
  destruct msg; cbn; rewrite ?IH; split; intros Hm.
  1: done.
  1: destruct (Hm m); by left.
  all: intros m' Hin.
  all: try (destruct Hin as [?|Hin]; [done|by apply (Hm m')]).
  all: apply (Hm m'); by right.
Qed.

(** ** The order check *)

Section Order.
Context (f : Factory) (lv : LaneView) (ctx : Context) (is_bid : Tx -> bool) (enc : TxEncoder).
Hypothesis Hmatch : forall tx, lv_Match lv ctx tx = Ret (is_bid tx).
Hypothesis Henc : lv_TxEncoder lv = Some enc.
Hypothesis Hinfo : forall tx, is_bid tx = true ->
  exists bi, GetAuctionBidInfo f tx = Ok (Some bi).

Lemma any_match_existsb txs : any_match lv ctx txs = Ret (existsb is_bid txs).
Proof.
  induction txs as [|tx txs IH]; cbn [any_match existsb]; [done|]. st_unfold. rewrite Hmatch, IH.
  by destruct (is_bid tx).
Qed.

Lemma existsb_false_Forall txs : existsb is_bid txs = false <-> Forall (fun tx => is_bid tx = false) txs.
Proof.
  induction txs as [|tx txs IH]; cbn; [done|]. rewrite orb_false_iff, IH. split.
  - intros []. by constructor.
  - by inversion 1.
Qed.

(** A transaction of the block is the one of the bundle and not a bid. *)
Definition bundled (tx : Tx) (raw : bytes) : Prop := is_bid tx = false /\ enc tx = Ok raw.

Lemma check_bundle_spec txs bundle : length txs = length bundle ->
  exists r, check_bundle lv ctx txs bundle = Ret r /\ (r = None <-> Forall2 bundled txs bundle).
Proof.
  revert bundle. induction txs as [|tx txs IH]; intros [|raw bundle] Hlen; try done.
  - eexists; split; [reflexivity|]. split; [constructor|done].
  - cbn [check_bundle]. st_unfold. rewrite Hmatch. destruct (is_bid tx) eqn:Eb.
    { eexists; split; [reflexivity|]. split; [done|]. inversion 1 as [|? ? ? ? [Hb _]]. congruence. }
    rewrite Henc. destruct (enc tx) as [bz|err] eqn:Ee.
    2: { eexists; split; [reflexivity|]. split; [done|]. inversion 1 as [|? ? ? ? [_ Hb]]. congruence. }
    case_bool_decide as Er; cbn [negb].
    + destruct (IH bundle) as (r & -> & Hr); [cbn in Hlen; lia|]. exists r. split; [done|]. rewrite Hr.
      split; [intros HF; constructor; [split; congruence|done]|by inversion 1].
    + eexists; split; [reflexivity|]. split; [done|]. inversion 1 as [|? ? ? ? [_ Hb]]. congruence.
Qed.

(** Either no transaction is a bid, or the first one is, the next ones are exactly its bundle,
    and there is no other bid. *)
Definition tob_ordered (txs : list Tx) : Prop :=
  Forall (fun tx => is_bid tx = false) txs \/
  exists bid bi bundle rest, txs = bid :: bundle ++ rest /\ is_bid bid = true /\
    GetAuctionBidInfo f bid = Ok (Some bi) /\ Forall2 bundled bundle (Transactions bi) /\
    Forall (fun tx => is_bid tx = false) rest.

Lemma tob_check_order_spec txs :
  exists r, tob_check_order f lv ctx txs = Ret r /\ (r = None <-> tob_ordered txs).
Proof.
  destruct txs as [|bid others]; cbn [tob_check_order].
  { eexists; split; [reflexivity|]. split; [|done]. intros _. left. constructor. }
  st_unfold. rewrite Hmatch. destruct (is_bid bid) eqn:Eb; cbn [negb].
  - destruct (Hinfo bid Eb) as [bi Hbi]. rewrite Hbi. set (n := length (Transactions bi)).
    destruct (length (bid :: others) <? n + 1)%nat eqn:El.
    { eexists; split; [reflexivity|]. split; [done|]. intros [HF|(b & bi' & bundle & rest & E & _ & Hb & HF & _)].
      - inversion HF. congruence.
      - injection E as <- ->. rewrite Hbi in Hb. injection Hb as <-. apply Forall2_length in HF. fold n in HF.
        apply Nat.ltb_lt in El. cbn [length] in El. rewrite length_app in El. lia. }
    apply Nat.ltb_ge in El. cbn [length] in El.
    destruct (check_bundle_spec (take n others) (Transactions bi)) as (r & -> & Hr).
    { rewrite length_take. fold n. lia. }
    assert (Hsplit : forall b bi' bundle rest, bid :: others = b :: bundle ++ rest ->
      GetAuctionBidInfo f b = Ok (Some bi') -> Forall2 bundled bundle (Transactions bi') ->
      bundle = take n others /\ rest = drop n others /\ bi' = bi).
    { intros b bi' bundle rest E Hb HF. injection E as <- ->. rewrite Hbi in Hb. injection Hb as <-.
      apply Forall2_length in HF. fold n in HF. by rewrite take_app_length', drop_app_length'. }
    destruct r as [err|].
    + eexists; split; [reflexivity|]. split; [done|]. intros [HF|(b & bi' & bundle & rest & E & _ & Hb & HF & _)].
      * inversion HF. congruence.
      * destruct (Hsplit b bi' bundle rest E Hb HF) as (-> & _ & ->). by apply Hr in HF.
    + rewrite any_match_existsb. destruct (existsb is_bid (drop n others)) eqn:Ex.
      * eexists; split; [reflexivity|]. split; [done|]. intros [HF|(b & bi' & bundle & rest & E & _ & Hb & HF & Hrest)].
        -- inversion HF. congruence.
        -- destruct (Hsplit b bi' bundle rest E Hb HF) as (_ & -> & _).
           apply existsb_false_Forall in Hrest. congruence.
      * eexists; split; [reflexivity|]. split; [|done]. intros _. right.
        exists bid, bi, (take n others), (drop n others). rewrite take_drop. split; [done|].
        split; [done|]. split; [done|]. split; [by apply Hr|by apply existsb_false_Forall].
  - rewrite any_match_existsb. eexists; split; [reflexivity|].
    destruct (existsb is_bid others) eqn:Ex; split; [done| | |done].
    + intros [HF|(b & bi & bundle & rest & E & Hb & _)].
      * inversion HF as [|? ? _ HF']. apply existsb_false_Forall in HF'. congruence.
      * injection E as <- _. congruence.
    + intros _. left. constructor; [done|]. by apply existsb_false_Forall.
Qed.
End Order.

(** ** The selection of a bid *)

(** A bid that can be selected, with the encodings of its bundle. *)
Record selects f lv (proposal : Proposal) (maxTxBytes : Z) (bid : Tx) (bi : BidInfo)
    (txs : list bytes) : Prop := {
  sel_info : GetAuctionBidInfo f bid = Ok (Some bi);
  sel_txs : exists enc bidBz bundle, lv_TxEncoder lv = Some enc /\ txs = bidBz :: bundle /\
    enc bid = Ok bidBz /\ len bidBz <= maxTxBytes /\
    Forall2 (fun raw bz => exists tx, WrapBundleTransaction f raw = Ok tx /\ enc tx = Ok bz)
      (Transactions bi) bundle;
  sel_new : Forall (fun bz => Proposals.Contains proposal bz = false) txs }.

Lemma lane_tx_hash_Ok lv tx bz h : lane_tx_hash lv tx = Ret (Ok (bz, h)) ->
  exists enc, lv_TxEncoder lv = Some enc /\ enc tx = Ok bz.
Proof.
  unfold lane_tx_hash, GetTxHashStr. destruct (lv_TxEncoder lv) as [enc|]; [|done].
  destruct (enc tx) as [b|] eqn:E; [|done]. intros [= -> _]. eauto.
Qed.

Lemma wrap_bundle_spec f lv proposal bidBz acc bundle txs :
  wrap_bundle f lv proposal bidBz acc bundle = Ret (BidSelected txs) ->
  exists new, txs = bidBz :: acc ++ new /\
    Forall (fun bz => Proposals.Contains proposal bz = false) new /\
    Forall2 (fun raw bz => exists tx enc, WrapBundleTransaction f raw = Ok tx /\
      lv_TxEncoder lv = Some enc /\ enc tx = Ok bz) bundle new.
Proof.
  revert acc. induction bundle as [|raw bundle IH]; intros acc; cbn [wrap_bundle].
  - intros [= <-]. exists []. by rewrite app_nil_r.
  - destruct (WrapBundleTransaction f raw) as [tx|] eqn:Ew; [|done]. st_unfold.
    destruct (lane_tx_hash lv tx) as [[[bz h]|]|w] eqn:Eh; try done.
    apply lane_tx_hash_Ok in Eh as (enc & He & Hbz).
    destruct (Proposals.Contains proposal bz) eqn:Ec; [done|].
    intros (new & -> & Hf & H2)%IH. exists (bz :: new). rewrite <- app_assoc.
    split; [done|]. split; [by constructor|]. constructor; [by exists tx, enc|done].
Qed.

Lemma try_bid_selected f lv proposal maxTxBytes ctx bid st txs st' :
  try_bid f lv proposal maxTxBytes ctx bid st = (Ret (BidSelected txs), st') ->
  exists bi, selects f lv proposal maxTxBytes bid bi txs /\
    VerifyTx f lv ctx bid (Some bi) st = (Ret None, st').
Proof.
  unfold try_bid. st_unfold. destruct (lane_tx_hash lv bid) as [[[bz h]|]|w] eqn:Eh; try done.
  apply lane_tx_hash_Ok in Eh as (enc & He & Hbz).
  destruct (Proposals.Contains proposal bz) eqn:Ec; [done|].
  destruct (len bz <=? maxTxBytes) eqn:El; [|done].
  destruct (GetAuctionBidInfo f bid) as [bi|] eqn:Ei; [|done].
  destruct (VerifyTx f lv ctx bid bi st) as [[[err|]|w] st1] eqn:EV; try done.
  destruct bi as [bi|]; [|done].
  destruct (wrap_bundle f lv proposal bz [] (Transactions bi)) as [[txs'| |]|w] eqn:EW; try done.
  intros [= <- <-]. exists bi. split; [|done].
  apply wrap_bundle_spec in EW as (new & -> & Hf & H2). split; [done| |by constructor].
  exists enc, bz, new. cbn. split; [done|]. split; [done|]. split; [done|]. split; [lia|].
  eapply List.Forall2_impl; [|exact H2]. intros raw b (tx & enc' & Hw & He' & Hb). exists tx. split; [done|congruence].
Qed.

Lemma select_bid_spec f lv proposal maxTxBytes ctx rm iterator st txs rm' st' :
  select_bid f lv proposal maxTxBytes ctx rm iterator st = (Ret (txs, rm'), st') ->
  (exists removed, rm' = rm ++ removed /\ sublist removed iterator) /\
  (txs = [] /\ st_store st' = st_store st \/
   exists pre bid post bi st1, iterator = pre ++ bid :: post /\ st_store st1 = st_store st /\
     selects f lv proposal maxTxBytes bid bi txs /\
     VerifyTx f lv ctx bid (Some bi) st1 = (Ret None, st')).
Proof.
  revert rm st. induction iterator as [|bid it IH]; intros rm st; cbn [select_bid]; st_unfold.
  { intros [= <- <- <-]. split; [exists []; by rewrite app_nil_r|by left]. }
  unfold with_cache.
  destruct (try_bid f lv proposal maxTxBytes ctx bid st) as [[[sel| |]|w] st1] eqn:ET; try done; cbn [is_selected].
  - intros [= <- <- <-]. split; [exists []; rewrite app_nil_r; split; [done|apply sublist_nil_l]|].
    right. apply try_bid_selected in ET as (bi & Hs & HV). exists [], bid, it, bi, st. done.
  - intros HS. destruct (IH _ _ HS) as [(removed & -> & Hsub) Hcase]. split.
    { exists removed. split; [done|by apply sublist_cons]. }
    destruct Hcase as [[-> Hst]|(pre & b & post & bi & st2 & -> & Hst & H1 & H2)]; [left; by rewrite Hst|right].
    exists (bid :: pre), b, post, bi, st2. split; [done|]. by rewrite Hst.
  - intros HS. destruct (IH _ _ HS) as [(removed & -> & Hsub) Hcase]. split.
    { exists (bid :: removed). rewrite <- app_assoc. split; [done|by constructor]. }
    destruct Hcase as [[-> Hst]|(pre & b & post & bi & st2 & -> & Hst & H1 & H2)]; [left; by rewrite Hst|right].
    exists (bid :: pre), b, post, bi, st2. split; [done|]. by rewrite Hst.
Qed.

(** ** CheckTx *)

Lemma validate_bundle_no_bids (handler : CheckTxHandler (M := M)) ctx bundle st st' :
  validate_bundle handler ctx bundle st = (Ret None, st') ->
  Forall (fun raw => exists tx, WrapBundleTransaction (tobFactory handler) raw = Ok tx /\
    forall bi, GetAuctionBidInfo (tobFactory handler) tx <> Ok (Some bi)) bundle.
Proof.
  revert ctx st. induction bundle as [|raw bundle IH]; intros ctx st; cbn [validate_bundle]; [constructor|].
  destruct (WrapBundleTransaction _ raw) as [tx|] eqn:Ew; [|done].
  destruct (GetAuctionBidInfo _ tx) as [[bi|]|] eqn:Ei; [done|..]; st_unfold;
    destruct (anteHandler handler ctx tx false st) as [[[ctx1 [err|]]|w] st1]; try done;
    intros HV; (constructor; [exists tx; split; congruence|by eapply IH]).
Qed.

(** No transaction of the bundle of a validated bid is a bid. *)
Lemma ValidateBidTx_no_bids (handler : CheckTxHandler (M := M)) ctx tx bi st gas st' :
  ValidateBidTx handler ctx tx bi st = (Ret (gas, None), st') ->
  Forall (fun raw => exists tx, WrapBundleTransaction (tobFactory handler) raw = Ok tx /\
    forall bi, GetAuctionBidInfo (tobFactory handler) tx <> Ok (Some bi)) (Transactions bi).
Proof.
  unfold ValidateBidTx. st_unfold.
  destruct (anteHandler handler ctx tx false st) as [[[ctx1 [err|]]|w] sta]; try done.
  destruct (validate_bundle handler ctx1 (Transactions bi) sta) as [[[err|]|w] stb] eqn:EB; try done.
  intros _. by apply validate_bundle_no_bids in EB.
Qed.

(** ** The properties *)

(** A transaction is an auction bid exactly when its single message is a MsgAuctionBid; a
    bid among other messages is an error. *)
Theorem GetMsgAuctionBidFromTx_spec tx :
  (forall m, GetMsgAuctionBidFromTx tx = Ok (Some m) <-> GetMsgs tx = [AuctionBidMsg m]) /\
  (GetMsgAuctionBidFromTx tx = Ok None <-> forall m, ~ In (AuctionBidMsg m) (GetMsgs tx)).
Proof.
  unfold GetMsgAuctionBidFromTx. pose proof (omap_bids_nil (GetMsgs tx)) as Hn.
  destruct (omap is_auction_bid (GetMsgs tx)) as [|b bs] eqn:E.
  - cbn. split; [|by rewrite <- Hn]. intros m. split; [done|]. intros Hm.
    destruct (proj1 Hn eq_refl m). rewrite Hm. by left.
  - rewrite !len_cons. pose proof (len_nonneg bs). replace (1 + len bs =? 0) with false by lia.
    split.
    + intros m. destruct bs as [|b' bs].
      * replace (1 + len [] =? 1) with true by done. cbn [andb].
        destruct (len (GetMsgs tx) =? 1) eqn:El; cbn [list.head].
        -- destruct (GetMsgs tx) as [|msg [|msg' msgs]]; [done| |].
           ++ cbn in E. destruct msg; [|done..]. injection E as ->. split; [by intros [= ->]|by intros [= ->]].
           ++ rewrite !len_cons in El. pose proof (len_nonneg msgs). lia.
        -- split; [done|]. intros Hm. rewrite Hm in El. done.
      * rewrite len_cons. pose proof (len_nonneg bs).
        replace (1 + (1 + len bs) =? 1) with false by lia. cbn [andb].
        split; [done|]. intros Hm. rewrite Hm in E. done.
    + rewrite <- Hn. split; [|done]. destruct (_ && _); [|done]. done.
Qed.

(** C13: the order check of the auction lane accepts a proposal exactly when it has no bid, or
    starts with a bid followed by the transactions of its bundle, byte by byte and in order,
    none of which is a bid, and has no other bid. *)
Theorem auction_check_order_iff f lv ctx (is_bid : Tx -> bool) enc txs st :
  (forall tx, lv_Match lv ctx tx = Ret (is_bid tx)) ->
  lv_TxEncoder lv = Some enc ->
  (forall tx, is_bid tx = true -> exists bi, GetAuctionBidInfo f tx = Ok (Some bi)) ->
  exists r, TOB_CheckOrderHandler f lv ctx txs st = (Ret r, st) /\
    (r = None <-> tob_ordered f is_bid enc txs).
Proof.
  intros Hm He Hi. destruct (tob_check_order_spec f lv ctx is_bid enc Hm He Hi txs) as (r & Hr & H).
  exists r. split; [|done]. unfold TOB_CheckOrderHandler, st_lift. by rewrite Hr.
Qed.

(** C16: the auction lane selects nothing and leaves the chain state as it was, or selects one
    bid of its mempool with its whole bundle: the bid fits the limit, none of the transactions
    is in the proposal yet, the bid and its bundle were verified, and the only writes kept are
    those of this verification. *)
Theorem auction_prepare_selects_one_bid f lv ctx proposal maxTxBytes st txs removed st' :
  TOB_PrepareLaneHandler f lv ctx proposal maxTxBytes st = (Ret (Ok (txs, removed)), st') ->
  exists iterator st0, on_mempool (lv_id lv) lm_Select st = (Ret iterator, st0) /\
    sublist removed iterator /\
    (txs = [] /\ st_store st' = st_store st0 \/
     exists bid bi st1, In bid iterator /\ st_store st1 = st_store st0 /\
       selects f lv proposal maxTxBytes bid bi txs /\
       VerifyTx f lv ctx bid (Some bi) st1 = (Ret None, st')).
Proof.
  unfold TOB_PrepareLaneHandler. st_unfold.
  destruct (on_mempool (lv_id lv) lm_Select st) as [[iterator|w] st0]; [|done].
  destruct (select_bid f lv proposal maxTxBytes ctx [] iterator st0) as [[[t r]|w] st1] eqn:ES; [|done].
  intros [= <- <- <-]. apply select_bid_spec in ES as [(rmd & -> & Hsub) Hcase].
  exists iterator, st0. split; [done|]. split; [done|].
  destruct Hcase as [?|(pre & bid & post & bi & st2 & -> & ? & ? & ?)]; [by left|right].
  exists bid, bi, st2. split; [apply in_app_iff; right; by left|done].
Qed.

(** C17: CheckTx of a bid never changes the chain state and never panics.  It validates the bid and
    its bundle on the committed state; when they are not valid, or the type of the request is
    unknown, it answers with an error and inserts nothing: the mempools are those the validation
    left.  When they are valid, no transaction of the bundle is a bid, the bid is inserted into the
    auction mempool, and the answer is an error exactly when the insertion failed. *)
Theorem check_tx_bid_committed_state (handler : CheckTxHandler (M := M)) req tx bi st :
  txDecoder handler (req_Tx req) = Ok tx ->
  GetAuctionBidInfo (tobFactory handler) tx = Ok (Some bi) ->
  exists resp err st', CheckTx handler req st = (Ret (resp, err), st') /\ st_store st' = st_store st /\
  match GetContextForBidTx handler req with
  | Panic _ => err <> None /\ st_mempools st' = st_mempools st
  | Ret ctx =>
      match ValidateBidTx handler ctx tx bi (set_store (CommittedStore (baseApp handler)) st) with
      | (Ret (gas, None), st1) =>
          Forall (fun raw => exists tx, WrapBundleTransaction (tobFactory handler) raw = Ok tx /\
            forall bi, GetAuctionBidInfo (tobFactory handler) tx <> Ok (Some bi)) (Transactions bi) /\
          let '(r, st2) := on_mempool (tobLane handler) (lm_Insert ctx tx) st1 in
          (err = None <-> r = Ret None) /\ st_mempools st' = st_mempools st2
      | (_, st1) => err <> None /\ st_mempools st' = st_mempools st1
      end
  end.
Proof.
  intros Hd Hi. unfold CheckTx, recover, check_bid_tx. rewrite Hd, Hi. st_unfold.
  destruct (GetContextForBidTx handler req) as [ctx|w]; [|by eexists _, _, _].
  unfold on_committed. pose proof (ValidateBidTx_no_bids handler ctx tx bi
    (set_store (CommittedStore (baseApp handler)) st)) as HB.
  destruct (ValidateBidTx handler ctx tx bi _) as [[[gas [err|]]|w] st1]; [by eexists _, _, _| |by eexists _, _, _].
  destruct (on_mempool (tobLane handler) (lm_Insert ctx tx) st1) as [[[err|]|w] st2];
    eexists _, _, _; (split; [done|]); (split; [done|]); (split; [by eapply HB|]); by split.
Qed.
End Facts.

(** ** Witnesses *)

(** Account 1 bids 5stake for the transactions of accounts 2 and 1. *)
Definition ex_bid : CTx :=
  {| c_msgs := [AuctionBidMsg {| msg_Bidder := "01"; msg_Bid := MkCoin "stake" (Some 5);
                                 msg_Transactions := [[x05]; [x06]] |}];
     c_sigs := Some (Ok [MkSig (ex_addr 1) 0]); c_signers := Some (Ok [ex_addr 1]);
     c_timeout := Some 20; c_fee := Some (Some []); c_bytes := [x64] |}.
Definition ex_table : list CTx := [ex_bid; ex_tx 2 0 [5]; ex_tx 1 1 [6]; ex_tx 3 0 [7]].
Definition ex_TxDecoder : @TxDecoder concrete_sdk := fun bz =>
  match List.find (fun tx => bool_decide (c_bytes tx = bz)) ex_table with
  | Some tx => Ok tx
  | None => Err (Errorf "tx parse error")
  end.
Definition ex_factory : Factory (sdk := concrete_sdk) := NewDefaultAuctionFactory ex_TxDecoder.
Definition ex_is_bid (tx : CTx) : bool := DefaultFactoryMatch ex_TxDecoder (ex_ctx 0) tx.
Definition ex_tob_view : Lane.LaneView (sdk := concrete_sdk) (M := list CTx) :=
  {| lv_id := 0%nat; lv_Name := "top-of-block"; lv_TxEncoder := Some ex_TxEncoder;
     lv_Match := fun ctx tx => Ret (ex_is_bid tx);
     lv_AnteVerifyTx := fun ctx tx simulate => mret (ctx, None) |}.
Definition ex_tob_state : Lane.State (sdk := concrete_sdk) (M := list CTx) :=
  {| st_store := ex_store; st_mempools := {[ 0%nat := [ex_bid] ]} |}.

Lemma ex_is_bid_info tx : ex_is_bid tx = true ->
  exists bi, GetAuctionBidInfo ex_factory tx = Ok (Some bi).
Proof.
  unfold ex_is_bid, DefaultFactoryMatch. cbn [GetAuctionBidInfo ex_factory NewDefaultAuctionFactory].
  destruct (DefaultGetAuctionBidInfo ex_TxDecoder tx) as [[bi|]|]; [|done..]. by exists bi.
Qed.

Lemma auction_check_order_iff_witness :
  exists r, TOB_CheckOrderHandler ex_factory ex_tob_view (ex_ctx 0) ex_table ex_tob_state
            = (Ret r, ex_tob_state) /\
    (r = None <-> tob_ordered ex_factory ex_is_bid ex_TxEncoder ex_table).
Proof.
  apply (auction_check_order_iff ex_factory ex_tob_view (ex_ctx 0) ex_is_bid ex_TxEncoder ex_table).
  - intros tx. reflexivity.
  - reflexivity.
  - apply ex_is_bid_info.
Defined.

Lemma auction_prepare_selects_one_bid_witness :
  let st' := snd (TOB_PrepareLaneHandler ex_factory ex_tob_view (ex_ctx 0) (NewProposal 100) 100 ex_tob_state) in
  exists iterator st0, on_mempool (lv_id ex_tob_view) lm_Select ex_tob_state = (Ret iterator, st0) /\
    sublist [] iterator /\
    ([[x64]; [x05]; [x06]] = [] /\ st_store st' = st_store st0 \/
     exists bid bi st1, In bid iterator /\ st_store st1 = st_store st0 /\
       selects ex_factory ex_tob_view (NewProposal 100) 100 bid bi [[x64]; [x05]; [x06]] /\
       VerifyTx ex_factory ex_tob_view (ex_ctx 0) bid (Some bi) st1 = (Ret None, st')).
Proof.
  apply (auction_prepare_selects_one_bid ex_factory ex_tob_view (ex_ctx 0) (NewProposal 100) 100 ex_tob_state
    [[x64]; [x05]; [x06]] []).
  eval_run.
Defined.

Definition ex_handler : CheckTxHandler (sdk := concrete_sdk) (M := list CTx) :=
  {| baseApp := {| CommittedStore := ex_store; LastBlockHeight := 9;
                   BaseApp_CheckTx := fun req => mret (None, None) |};
     txDecoder := ex_TxDecoder; tobLane := 0%nat; tobFactory := ex_factory;
     anteHandler := fun ctx tx simulate => mret (ctx, None) |}.

Definition ex_bid_info : BidInfo :=
  {| Bidder := ex_addr 1; Bid := MkCoin "stake" (Some 5); Transactions := [[x05]; [x06]];
     Timeout := 20; Signers := [{[ "02" ]}; {[ "01" ]}] |}.

Lemma ex_bid_has_info : GetAuctionBidInfo ex_factory ex_bid = Ok (Some ex_bid_info).
Proof. vm_compute. reflexivity. Qed.

Lemma check_tx_bid_committed_state_witness :
  let req := {| req_Tx := [x64]; req_Type := CheckTxType_New |} in
  let ctx := {| ctx_BlockHeight := 9; ctx_IsCheckTx := true; ctx_IsReCheckTx := false; ctx_Priority := 0;
                ctx_TxBytes := [x64]; ctx_GasLimit := 0; ctx_GasConsumed := 0 |} in
  exists resp err st', CheckTx ex_handler req ex_tob_state = (Ret (resp, err), st') /\
  st_store st' = st_store ex_tob_state /\
  Forall (fun raw => exists tx, WrapBundleTransaction ex_factory raw = Ok tx /\
    forall bi, GetAuctionBidInfo ex_factory tx <> Ok (Some bi)) (Transactions ex_bid_info) /\
  let '(r, st2) := on_mempool 0%nat (lm_Insert ctx ex_bid) (set_store ex_store ex_tob_state) in
  (err = None <-> r = Ret None) /\ st_mempools st' = st_mempools st2.
Proof.
  apply (check_tx_bid_committed_state ex_handler {| req_Tx := [x64]; req_Type := CheckTxType_New |}
    ex_bid ex_bid_info ex_tob_state).
  - reflexivity.
  - apply ex_bid_has_info.
Defined.
