(* ===== verification/Lanes.v ===== *)
(** * The lanes: lanes/auction/lane.go, lanes/base, lanes/free, lanes/terminator, utils/ante.go

    A constructor returns the lane object and the initial state of its mempool.  [Lane] is the
    interface of lane_interface.go that the proposal handlers call; [lane_of] is a
    [LaneConstructor] behind it and [Terminator] the lane at the end of every chain. *)
From S2P Require Import Prelude Hash Sdk Proposals PriorityNonce LaneMempool Lane AuctionLane.

Section Constructors.
Context {sdk : Sdk} {L : SkipListLib}.
Abbreviation Mem := (ConstructorMempool (C := string)).
#[local] Instance string_lane_mempool : LaneMempool Mem := constructor_lane_mempool "".

(** [NewLaneConstructor] with a [ConstructorMempool]: the encoder is not nil when it returns. *)
Definition new_lane (cfg : LaneConfig (M := Mem)) (name : string) (txPriority : TxPriority (C := string))
    (matchHandler : option Lane.MatchHandler) : outcome (LaneConstructor (M := Mem) * Mem) :=
  lane ← NewLaneConstructor cfg name true matchHandler;
  enc ← call (cfg_TxEncoder cfg);
  mret (lane, NewConstructorMempool txPriority enc (MaxTxs cfg)).

Definition NewTOBLane (cfg : LaneConfig (M := Mem)) (factory : Factory)
    : outcome (LaneConstructor (M := Mem) * Mem) :=
  '(lane, mp) ← new_lane cfg "top-of-block" (AuctionTxPriority factory)
                  (Some (AuctionLane.MatchHandler factory));
  lane ← SetPrepareLaneHandler (Some (TOB_PrepareLaneHandler factory)) lane;
  lane ← SetProcessLaneHandler (Some (TOB_ProcessLaneHandler factory)) lane;
  lane ← SetCheckOrderHandler (Some (TOB_CheckOrderHandler factory)) lane;
  mret (lane, mp).

Definition NewDefaultLane (cfg : LaneConfig (M := Mem)) : outcome (LaneConstructor (M := Mem) * Mem) :=
  new_lane cfg "default" DefaultTxPriority (Some Lane.DefaultMatchHandler).

Definition NewFreeLane (cfg : LaneConfig (M := Mem)) (txPriority : TxPriority (C := string))
    (matchFn : option Lane.MatchHandler) : outcome (LaneConstructor (M := Mem) * Mem) :=
  new_lane cfg "free" txPriority matchFn.

(** The match handler of the free lane: one of the messages is a staking message. *)
Definition FreeMatchHandler : Lane.MatchHandler := fun ctx tx =>
  existsb (fun msg =>
    match msg with
    | MsgDelegate => true
    | MsgBeginRedelegate => true
    | MsgCancelUnbondingDelegation => true
    | _ => false
    end) (GetMsgs tx).
End Constructors.

(** ** The interface of a lane *)

Section Interface.
Context {sdk : Sdk} {M : Type} {LM : LaneMempool M}.
Abbreviation State := (State (M := M)).
Abbreviation Lanes := (gmap LaneId (LaneConstructor (M := M))).

Record Lane : Type := MkLaneI {
  lane_Name : string;
  lane_GetMaxBlockSpace : Dec;
  lane_matches : Context -> Tx -> outcome bool;
  lane_Insert : Context -> Tx -> ST State (option error);
  lane_Remove : Tx -> ST State (option error);
  lane_Select : ST State (list Tx);
  lane_CountTx : ST State Z;
  lane_Contains : Tx -> ST State bool;
  lane_Compare : Context -> Tx -> Tx -> ST State Z;
  lane_PrepareLane : Context -> Z -> option (PrepareLanesHandler (M := M)) ->
    ST (State * Proposal) (option error);
  lane_CheckOrder : Context -> list Tx -> ST State (option error);
  lane_ProcessLane : Context -> list Tx -> option (ProcessLanesHandler (M := M)) ->
    ST State (Context * option error) }.

(** A [LaneConstructor]: the mempool methods are those of the embedded mempool. *)
Definition lane_of (lanes : Lanes) (l : LaneId) (lane : LaneConstructor (M := M)) : Lane :=
  {| lane_Name := Name lane;
     lane_GetMaxBlockSpace := GetMaxBlockSpace lane;
     lane_matches := Match (match_fuel lanes) lanes l;
     lane_Insert ctx tx := on_mempool l (lm_Insert ctx tx);
     lane_Remove tx := on_mempool l (lm_Remove tx);
     lane_Select := on_mempool l lm_Select;
     lane_CountTx := on_mempool l (fun mp => (Ret (lm_CountTx mp), mp));
     lane_Contains tx := on_mempool l (fun mp => (Ret (lm_Contains mp tx), mp));
     lane_Compare ctx a b := on_mempool l (fun mp => (lm_Compare mp ctx a b, mp));
     lane_PrepareLane := PrepareLane lanes l lane;
     lane_CheckOrder := CheckOrder lanes l lane;
     lane_ProcessLane := ProcessLane lanes l lane |}.

Definition Terminator : Lane :=
  {| lane_Name := "Terminator";
     lane_GetMaxBlockSpace := LegacyZeroDec;
     lane_matches _ _ := Ret false;
     lane_Insert _ _ := mret None;
     lane_Remove _ := mret None;
     lane_Select := mret [];
     lane_CountTx := mret 0;
     lane_Contains _ := mret false;
     lane_Compare _ _ _ := mret 0;
     lane_PrepareLane _ _ _ := mret None;
     lane_CheckOrder _ _ := mret None;
     lane_ProcessLane ctx _ _ := mret (ctx, None) |}.

(** ** utils/ante.go *)

Definition AnteDecorator : Type :=
  Context -> Tx -> bool -> AnteHandler (M := M) -> ST State (Context * option error).

Record IgnoreDecorator : Type := NewIgnoreDecorator {
  decorator : AnteDecorator;
  lanes : list (Context -> Tx -> outcome bool) }.

Fixpoint ignored_by (ctx : Context) (tx : Tx) (lanes : list (Context -> Tx -> outcome bool)) : outcome bool :=
  match lanes with
  | [] => Ret false
  | matches :: lanes =>
      m ← matches ctx tx;
      if m : bool then Ret true else ignored_by ctx tx lanes
  end.

Definition IgnoreDecorator_AnteHandle (sd : IgnoreDecorator) : AnteDecorator :=
  fun ctx tx simulate next =>
    ignored ← st_lift (ignored_by ctx tx (lanes sd));
    if ignored : bool then next ctx tx simulate
    else decorator sd ctx tx simulate next.
End Interface.
