(* ===== verification/Abci.v ===== *)
(** * blockbuster/abci/abci.go: preparing and processing proposals

    [ChainPrepareLanes] and [ChainProcessLanes] build the chain of handlers of a list of lanes.
    A chain ends with the terminator; since every suffix of such a chain ends with it too, the
    recursion is on the suffixes.  [defer]/[recover] and the cached context of [PrepareLane]
    are written out: the chain state is put back when a lane fails, the mempools and the
    proposal keep what the lane did to them. *)
From S2P Require Import Prelude Hash Sdk Proposals LaneMempool Lane Lanes.

Section Abci.
Context {sdk : Sdk} {M : Type} {LM : LaneMempool M}.
Abbreviation State := (Lane.State (M := M)).
Abbreviation Lane := (Lanes.Lane (M := M)).

(** The lanes of a chain; a value of the Terminator type is recognised. *)
Inductive chain_lane : Type :=
| ALane (l : Lane)
| ATerminator.

Definition ops (c : chain_lane) : Lane :=
  match c with ALane l => l | ATerminator => Terminator end.

Definition is_terminator (c : chain_lane) : bool :=
  match c with ATerminator => true | ALane _ => false end.

(** [chain[len(chain)-1] != terminator.Terminator{}]: append it. *)
Definition terminate (chain : list chain_lane) : list chain_lane :=
  match list.last chain with
  | Some c => if is_terminator c then chain else chain ++ [ATerminator]
  | None => chain
  end.

(** The deferred function: a lane that failed is skipped, with the chain state it started
    from; otherwise the cached writes stay. *)
Definition skip_failed (lanesRemaining : nat) (ctx : Context)
    (rest : option (PrepareLanesHandler (M := M)))
    (body : ST (State * Proposal) (option error)) : ST (State * Proposal) (option error) :=
  fun s =>
    match body s with
    | (Ret None, s') => (Ret None, s')
    | (_, s') =>
        let s' := (set_store (st_store (fst s)) (fst s'), snd s') in
        if (lanesRemaining <=? 2)%nat then (Ret None, s')
        else (next ← st_lift (call rest); next ctx) s'
    end.

Fixpoint chain_prepare (chain : list chain_lane) : option (PrepareLanesHandler (M := M)) :=
  match chain with
  | [] => None
  | lane :: rest =>
      Some (fun ctx =>
        skip_failed (length chain) ctx (chain_prepare rest)
          (partialProposal ← st_gets snd;
           maxTxBytesForLane ← st_lift (GetMaxTxBytesForLane (GetMaxTxBytes partialProposal)
             (GetTotalTxBytes partialProposal) (lane_GetMaxBlockSpace (ops lane)));
           lane_PrepareLane (ops lane) ctx maxTxBytesForLane (chain_prepare rest)))
  end.

Definition ChainPrepareLanes (chain : list chain_lane) : option (PrepareLanesHandler (M := M)) :=
  chain_prepare (terminate chain).

Fixpoint chain_process (chain : list chain_lane) : option (ProcessLanesHandler (M := M)) :=
  match chain with
  | [] => None
  | lane :: rest =>
      Some (fun ctx proposalTxs =>
        if len proposalTxs =? 0 then mret (ctx, None)
        else
          err ← lane_CheckOrder (ops lane) ctx proposalTxs;
          match err with
          | Some err => mret (ctx, Some err)
          | None => lane_ProcessLane (ops lane) ctx proposalTxs (chain_process rest)
          end)
  end.

Definition ChainProcessLanes (chain : list chain_lane) : option (ProcessLanesHandler (M := M)) :=
  chain_process (terminate chain).

(** ** The proposal handler *)

Record ProposalHandler : Type := MkProposalHandler {
  txDecoder : TxDecoder;
  prepareLanesHandler : option (PrepareLanesHandler (M := M));
  processLanesHandler : option (ProcessLanesHandler (M := M)) }.

Definition NewProposalHandler (txDecoder : TxDecoder) (lanes : list chain_lane) : ProposalHandler :=
  {| txDecoder := txDecoder;
     prepareLanesHandler := ChainPrepareLanes lanes;
     processLanesHandler := ChainProcessLanes lanes |}.

(** The response of [PrepareProposal]: its transactions, and an error. *)
Definition PrepareProposalHandler (h : ProposalHandler) (ctx : Context) (MaxTxBytes : Z)
    : ST State (list bytes * option error) := fun st =>
  let run :=
    next ← st_lift (call (prepareLanesHandler h));
    err ← next ctx;
    proposal ← st_gets snd;
    match err with
    | Some err => mret ([], Some err)
    | None => mret (GetProposal proposal, None)
    end in
  let '(r, s) := recover run (fun rec => mret ([], None)) (st, NewProposal MaxTxBytes) in
  (r, fst s).

Inductive ProposalStatus : Type := ACCEPT | REJECT.

Definition ProcessProposalHandler (h : ProposalHandler) (ctx : Context) (txs : list bytes)
    : ST State (ProposalStatus * option error) :=
  recover
    (if len txs =? 0 then mret (ACCEPT, None)
     else
       match GetDecodedTxs (txDecoder h) txs with
       | Err err => mret (REJECT, Some err)
       | Ok decodedTxs =>
           next ← st_lift (call (processLanesHandler h));
           '(_, err) ← next ctx decodedTxs;
           match err with
           | Some err => mret (REJECT, Some err)
           | None => mret (ACCEPT, None)
           end
       end)
    (fun rec => mret (REJECT, Some (Errorf "failed to process proposal"))).
End Abci.
