(* ===== verification/AbciFacts.v ===== *)
(** * What the chains of lanes guarantee

    Preparing a proposal is a fold over the lanes ([PrepareProposal_fold]) that keeps the size of
    the proposal within the block; processing one cuts it into the segments of the lanes. *)
From S2P Require Import Prelude Hash Sdk Concrete Proposals LaneMempool Lane LaneFacts AuctionLane AuctionFacts Lanes Abci Mempool MempoolFacts.

Section Prepare.
Context {sdk : Sdk} {M : Type} {LM : LaneMempool M}.
Abbreviation State := (Lane.State (M := M)).
Abbreviation Lane := (Lanes.Lane (M := M)).
Abbreviation LaneC := (LaneConstructor (M := M)).
Abbreviation Lanes := (gmap LaneId LaneC).

(** ** Chains *)

Lemma terminate_lanes (ls : list Lane) : ls <> [] ->
  terminate (map ALane ls) = map ALane ls ++ [ATerminator].
Proof.
  intros Hne. unfold terminate. destruct (exists_last Hne) as (ls' & l & ->).
  rewrite map_app. cbn. by rewrite last_snoc.
Qed.

Lemma terminate_nonempty (chain : list (chain_lane (M := M))) : chain <> [] -> terminate chain <> [].
Proof.
  intros Hne. unfold terminate. destruct (list.last chain) as [c|]; [|done].
  destruct (is_terminator c); [done|]. by destruct chain.
Qed.

Lemma skip_failed_total n ctx rest body (s : State * Proposal) :
  ((2 < n)%nat -> exists h, rest = Some h /\ forall s, exists s', h ctx s = (Ret None, s')) ->
  exists s', skip_failed n ctx rest body s = (Ret None, s').
Proof.
  intros Hr. unfold skip_failed. destruct (body s) as [[[err|]|w] s']; eauto.
  all: destruct (n <=? 2)%nat eqn:E; eauto.
  all: destruct Hr as (h & -> & Hh); [apply Nat.leb_gt in E; lia|]; apply Hh.
Qed.

Lemma chain_prepare_total (chain : list (chain_lane (M := M))) : chain <> [] ->
  exists h, chain_prepare chain = Some h /\ forall ctx s, exists s', h ctx s = (Ret None, s').
Proof.
  induction chain as [|c rest IH]; [done|]. intros _. cbn [chain_prepare].
  eexists; split; [reflexivity|]. intros ctx s. apply skip_failed_total. intros Hn.
  destruct IH as (h & Hh & Hs); [by intros ->; cbn in Hn; lia|]. exists h. split; [done|]. apply Hs.
Qed.

(** ** The chain of constructed lanes runs one lane after the other *)

Section Run.
Context (lanes : Lanes) (ctx : Context).

(** One lane's turn: its limit, its selection and its update of the proposal. *)
Definition prepare_turn (x : LaneId * LaneC) : ST (State * Proposal) (option error) :=
  partialProposal ← st_gets snd;
  maxTxBytesForLane ← st_lift (GetMaxTxBytesForLane (GetMaxTxBytes partialProposal)
    (GetTotalTxBytes partialProposal) (GetMaxBlockSpace x.2));
  prepare_own lanes x.1 x.2 ctx maxTxBytesForLane.

(** A failed turn puts the chain state back. *)
Definition prepare_step (s : State * Proposal) (x : LaneId * LaneC) : State * Proposal :=
  match prepare_turn x s with
  | (Ret None, s') => s'
  | (_, s') => (set_store (st_store (fst s)) (fst s'), snd s')
  end.

Definition lane_chain (xs : list (LaneId * LaneC)) : list (chain_lane (M := M)) :=
  map (fun x => ALane (lane_of lanes x.1 x.2)) xs ++ [ATerminator].

Lemma set_store_same (st : State) : set_store (st_store st) st = st.
Proof. by destruct st. Qed.

Lemma lane_chain_length c xs :
  (length (c :: lane_chain xs) <=? 2)%nat = match xs with [] => true | _ => false end.
Proof.
  unfold lane_chain. destruct xs as [|y xs]; [done|]. cbn [map app length].
  rewrite length_app. cbn [length]. apply Nat.leb_gt. lia.
Qed.

Lemma chain_prepare_fold xs : exists h, chain_prepare (lane_chain xs) = Some h /\
  forall s, h ctx s = (Ret None, fold_left prepare_step xs s).
Proof.
  induction xs as [|x xs (h & Hh & IH)].
  - eexists; split; [reflexivity|]. intros s. unfold skip_failed.
    cbn [ops lane_GetMaxBlockSpace lane_PrepareLane Terminator length fold_left]. st_unfold.
    destruct (GetMaxTxBytesForLane _ _ _); [done|]. cbn. rewrite set_store_same. by destruct s.
  - cbn [lane_chain map app chain_prepare]. fold (lane_chain xs). rewrite Hh.
    eexists; split; [reflexivity|]. intros s. cbn [fold_left]. rewrite <- IH.
    unfold skip_failed, prepare_step, prepare_turn. cbn [ops lane_of lane_PrepareLane lane_GetMaxBlockSpace].
    unfold PrepareLane. cbn [call]. st_unfold. rewrite lane_chain_length.
    destruct (GetMaxTxBytesForLane _ _ _) as [n|w].
    + destruct (prepare_own lanes x.1 x.2 ctx n s) as [[[err|]|w] s1].
      * destruct xs as [|y xs]; [|done]. by rewrite IH.
      * by rewrite IH.
      * destruct xs as [|y xs]; [|done]. by rewrite IH.
    + destruct xs as [|y xs]; [|done]. by rewrite IH.
Qed.

(** ** Turns are atomic *)

(** Removing transactions leaves the chain state alone. *)
Lemma remove_keeps_store l txs (st : State) :
  st_store (snd (RemoveTxsFromLane (fun tx => on_mempool l (lm_Remove tx)) txs st)) = st_store st.
Proof.
  revert st. induction txs as [|tx txs IH]; intros st; cbn [RemoveTxsFromLane]; [done|]. st_unfold.
  unfold on_mempool at 1. destruct (st_mempools st !! l) as [mp|]; [|done].
  destruct (lm_Remove tx mp) as [[[err|]|w] mp']; cbn; [done|by rewrite IH|done].
Qed.

(** A turn fails, and only mempools change; or the transactions the handler of the lane hands over
    are added to the proposal, within the limit of the lane, with what the handler wrote, and those
    it wants removed leave the mempool of the lane. *)
Inductive turn (x : LaneId * LaneC) (s : State * Proposal) : list bytes -> State * Proposal -> Prop :=
| turn_failed r st p : prepare_turn x s = (r, (st, p)) -> r <> Ret None ->
    turn x s [] (set_store (st_store (fst s)) st, snd s)
| turn_done h n new removed st1 r st2 p : prepareLaneHandler x.2 = Some h ->
    GetMaxTxBytesForLane (GetMaxTxBytes (snd s)) (GetTotalTxBytes (snd s)) (GetMaxBlockSpace x.2) = Ret n ->
    h (view_of lanes x.1 x.2) ctx (snd s) n (fst s) = (Ret (Ok (new, removed)), st1) ->
    RemoveTxsFromLane (fun tx => on_mempool x.1 (lm_Remove tx)) removed st1 = (Ret r, st2) ->
    st_store st2 = st_store st1 -> UpdateProposal (lane_proposal x.2) new (snd s) = (Ret None, p) ->
    turn x s new (st2, p).

Inductive turns : list (LaneId * LaneC) -> State * Proposal -> list (list bytes) -> State * Proposal -> Prop :=
| turns_nil s : turns [] s [] s
| turns_cons x xs s new s1 news s2 : turn x s new s1 -> turns xs s1 news s2 -> turns (x :: xs) s (new :: news) s2.

Lemma UpdateProposal_atomic lane l p r p' : UpdateProposal lane l p = (r, p') ->
  voteExtensions p' = voteExtensions p /\
  ((r = Ret None /\ txs p' = txs p ++ l) \/ (r <> Ret None /\ p' = p)).
Proof.
  unfold UpdateProposal. case_bool_decide as E.
  { intros [= <- <-]. apply nil_length_inv in E as ->. split; [done|]. left. by rewrite app_nil_r. }
  destruct (GetMaxTxBytesForLane _ _ _); [|intros [= <- <-]; auto].
  destruct (_ <? _); [intros [= <- <-]; auto|]. destruct (_ <? _); intros [= <- <-]; auto.
Qed.

(** Failed turns leave the proposal alone. *)
Lemma prepare_turn_cases x s r st p : prepare_turn x s = (r, (st, p)) ->
  (r <> Ret None /\ p = snd s) \/ (r = Ret None /\ exists new, turn x s new (st, p)).
Proof.
  destruct s as [st0 p0]. unfold prepare_turn, prepare_own. st_unfold. cbn [fst snd].
  destruct (GetMaxTxBytesForLane _ _ _) as [n|w] eqn:En; [|intros [= <- _ <-]; by left].
  destruct (prepareLaneHandler x.2) as [h|] eqn:Eh; [|intros [= <- _ <-]; by left].
  cbn [call]. unfold on_state at 1. cbn [fst snd].
  destruct (h (view_of lanes x.1 x.2) ctx p0 n st0) as [[[[new rm]|err]|w] st1] eqn:EH; cbn [fst snd];
    [|intros [= <- _ <-]; by left..].
  unfold on_state, on_proposal. cbn [fst snd]. pose proof (remove_keeps_store x.1 rm st1) as Hr.
  destruct (RemoveTxsFromLane _ rm st1) as [[r'|w] st2] eqn:ER; cbn [fst snd] in *; [|intros [= <- _ <-]; by left].
  destruct (UpdateProposal (lane_proposal x.2) new p0) as [r'' p'] eqn:EU. cbn [fst snd]. intros ?; simplify_eq.
  destruct (UpdateProposal_atomic _ _ _ _ _ EU) as [_ [[-> _]|[Hne ->]]]; [right|by left].
  split; [done|]. exists new. by eapply turn_done.
Qed.

Lemma prepare_step_turn s x : exists new, turn x s new (prepare_step s x).
Proof.
  unfold prepare_step. destruct (prepare_turn x s) as [r [st p]] eqn:E.
  destruct (prepare_turn_cases _ _ _ _ _ E) as [[Hne ->]|[-> [new H]]]; [|by exists new].
  exists []. destruct r as [[err|]|w]; [|done|]; cbn [fst snd]; by eapply turn_failed.
Qed.

Lemma prepare_fold_turns xs s : exists news, turns xs s news (fold_left prepare_step xs s).
Proof.
  revert s. induction xs as [|x xs IH]; intros s; cbn [fold_left]; [exists []; constructor|].
  destruct (prepare_step_turn s x) as [new Hn]. destruct (IH (prepare_step s x)) as [news Hs].
  exists (new :: news). by econstructor.
Qed.

Lemma turns_txs xs s news s' : turns xs s news s' ->
  txs (snd s') = txs (snd s) ++ concat news /\ voteExtensions (snd s') = voteExtensions (snd s).
Proof.
  induction 1 as [s|x xs s new s1 news s2 Ht _ [IH1 IH2]]; cbn [concat]; [by rewrite app_nil_r|].
  rewrite IH1, IH2. destruct Ht as [r st p _ _|h n new rm st1 r st2 p _ _ _ _ _ HU]; cbn [fst snd]; [done|].
  destruct (UpdateProposal_atomic _ _ _ _ _ HU) as [-> [[_ ->]|[[] _]]]; [|done]. by rewrite <- app_assoc.
Qed.

(** ** The size of the proposal *)

Section Size.
Context {DL : DecLaws sdk}.

(** What the handler of a lane hands over in its turn, and the handlers of the lanes in the turns of a
    block. *)
Definition handed (s : State * Proposal) (x : LaneId * LaneC) : list bytes :=
  match GetMaxTxBytesForLane (GetMaxTxBytes (snd s)) (GetTotalTxBytes (snd s)) (GetMaxBlockSpace x.2), prepareLaneHandler x.2 with
  | Ret n, Some h =>
      match fst (h (view_of lanes x.1 x.2) ctx (snd s) n (fst s)) with Ret (Ok (new, _)) => new | _ => [] end
  | _, _ => []
  end.

Fixpoint handed_over (xs : list (LaneId * LaneC)) (s : State * Proposal) : list (list bytes) :=
  match xs with
  | [] => []
  | x :: xs => handed s x :: handed_over xs (prepare_step s x)
  end.

Definition good_proposal (m : Z) (p : Proposal) : Prop :=
  proposal_wf p /\ maxTxBytes p = m /\ voteExtensions p = [].

Lemma prepare_turn_proposal m x s : 0 <= m <= 2 ^ 62 -> total_len (handed s x) < 2 ^ 62 ->
  good_proposal m (snd s) -> good_proposal m (snd (snd (prepare_turn x s))).
Proof.
  intros Hm Hsz G. unfold prepare_turn, prepare_own. unfold handed in Hsz. st_unfold.
  destruct (GetMaxTxBytesForLane _ _ _) as [n|w]; [|done].
  destruct (prepareLaneHandler x.2) as [h|] eqn:Hh; [|done]. cbn [call]. unfold on_state at 1.
  destruct (h _ ctx (snd s) n (fst s)) as [[[[txs rm]|err]|w] st1] eqn:HP; try done. cbn [fst] in Hsz.
  unfold on_state. cbn [fst snd]. destruct (RemoveTxsFromLane _ rm st1) as [[r|w] st2]; [|done].
  unfold on_proposal. cbn [fst snd].
  destruct G as ([Ht Hl Hx Hc] & Hmx & Hv).
  assert (W : proposal_wf (snd s)) by done.
  destruct (UpdateProposal_cases (lane_proposal x.2) txs (snd s) W) as [(r0 & -> & _)|[[-> ->]|(k & _ & _ & _ & HU)]];
    [unfold max_int64; lia|done|done|].
  pose proof (UpdateProposal_preserves (lane_proposal x.2) txs (snd s) _ _ W ltac:(unfold max_int64; lia) HU) as W'.
  rewrite HU. done.
Qed.

Lemma prepare_fold_proposal m xs s : 0 <= m <= 2 ^ 62 ->
  Forall (fun new => total_len new < 2 ^ 62) (handed_over xs s) ->
  good_proposal m (snd s) -> good_proposal m (snd (fold_left prepare_step xs s)).
Proof.
  intros Hm. revert s. induction xs as [|x xs IH]; intros s Hb G; [done|]. cbn [handed_over fold_left] in *.
  apply Forall_cons_1 in Hb as [Hx Hb]. apply IH; [done|].
  pose proof (prepare_turn_proposal m x s Hm Hx G) as G'. unfold prepare_step.
  destruct (prepare_turn x s) as [[[err|]|w] s']; done.
Qed.
End Size.
End Run.

(** ** Lanes with the handlers of the repository *)

(** The ante handler of the lane accepts the transactions one after the other, each on the context and
    the state the one before it left. *)
Inductive ante_verified (lane : LaneC) : Context -> State -> list Tx -> Context -> State -> Prop :=
| ante_verified_nil ctx st : ante_verified lane ctx st [] ctx st
| ante_verified_cons ctx st tx ctx1 st1 txs ctx2 st2 :
    AnteVerifyTx lane ctx tx false st = (Ret (ctx1, None), st1) ->
    ante_verified lane ctx1 st1 txs ctx2 st2 -> ante_verified lane ctx st (tx :: txs) ctx2 st2.

(** The two sets of handlers: those of [NewDefaultLane] and the free lane, and those of the auction lane
    for a factory. *)
Inductive handlers : Type :=
| DefaultHandlers
| AuctionHandlers (f : Factory).

Record standard_lane : Type := MkStandard {
  sl_lane : LaneId * LaneC;
  sl_matches : Tx -> bool;
  sl_handlers : handlers }.
Abbreviation sl_id s := (fst (sl_lane s)).

Definition handles (k : handlers) (lane : LaneC) : Prop :=
  match k with
  | DefaultHandlers =>
      prepareLaneHandler lane = Some DefaultPrepareLaneHandler /\
      checkOrderHandler lane = Some DefaultCheckOrderHandler /\
      processLaneHandler lane = Some DefaultProcessLaneHandler
  | AuctionHandlers f =>
      prepareLaneHandler lane = Some (TOB_PrepareLaneHandler f) /\
      checkOrderHandler lane = Some (TOB_CheckOrderHandler f) /\
      processLaneHandler lane = Some (TOB_ProcessLaneHandler f)
  end.

(** An auction lane matches the bids of its factory, which unwraps what the encoder of the lane encodes. *)
Definition auction_factory (k : handlers) (m : Tx -> bool) (enc : TxEncoder) : Prop :=
  match k with
  | DefaultHandlers => True
  | AuctionHandlers f =>
      (forall tx, m tx = true <-> exists bi, GetAuctionBidInfo f tx = Ok (Some bi)) /\
      (forall raw tx, WrapBundleTransaction f raw = Ok tx <-> enc tx = Ok raw)
  end.

(** The lane [s] of the chain has one of the two sets of handlers, matches by the transaction alone, and
    encodes with [enc]. *)
Record standard (lanes : Lanes) (enc : TxEncoder) (s : standard_lane) : Prop := {
  sd_match ctx tx : Match (match_fuel lanes) lanes (sl_id s) ctx tx = Ret (sl_matches s tx);
  sd_encoder : cfg_TxEncoder (cfg (snd (sl_lane s))) = Some enc;
  sd_handlers : handles (sl_handlers s) (snd (sl_lane s));
  sd_factory : auction_factory (sl_handlers s) (sl_matches s) enc }.

(** The part of a block a lane takes: transactions that match it, or nothing or a bid followed by the
    transactions of its bundle, none of which is a bid. *)
Definition unwraps (f : Factory) (raw : bytes) (tx : Tx) : Prop := WrapBundleTransaction f raw = Ok tx.
Definition part_of (k : handlers) (m : Tx -> bool) (seg : list Tx) : Prop :=
  match k with
  | DefaultHandlers => Forall (fun tx => m tx = true) seg
  | AuctionHandlers f => seg = [] \/
      exists bid bi bundle, seg = bid :: bundle /\ GetAuctionBidInfo f bid = Ok (Some bi) /\
        Forall2 (unwraps f) (Transactions bi) bundle /\ Forall (fun tx => m tx = false) bundle
  end.

Definition standard_chain (lanes : Lanes) (ls : list standard_lane) : list (chain_lane (M := M)) :=
  map (fun s => ALane (lane_of lanes (sl_id s) (snd (sl_lane s)))) ls.

(** ** Processing *)

(** The lanes cut the transactions into consecutive parts: each lane checks the order of what the lanes
    before it left, and verifies its part; no transaction behind the part matches the lane.
    [leftover] is what none of them took. *)
Inductive segments (lanes : Lanes) (ctx : Context) : list standard_lane -> list Tx -> list Tx -> State -> State -> Prop :=
| segments_none ls st : segments lanes ctx ls [] [] st st
| segments_end txs st : segments lanes ctx [] txs txs st st
| segments_lane s ls seg rest leftover st st1 ctx2 st2 st3 :
    CheckOrder lanes (sl_id s) (snd (sl_lane s)) ctx (seg ++ rest) st = (Ret None, st1) ->
    part_of (sl_handlers s) (sl_matches s) seg ->
    ante_verified (snd (sl_lane s)) ctx st1 seg ctx2 st2 ->
    Forall (fun tx => sl_matches s tx = false) rest ->
    segments lanes ctx ls rest leftover st2 st3 ->
    segments lanes ctx (s :: ls) (seg ++ rest) leftover st st3.

Lemma check_order_prefix (lv : LaneView (M := M)) (ctx : Context) (m : Tx -> bool) prev seen txs st st' :
  (forall tx, lv_Match lv ctx tx = Ret (m tx)) ->
  check_order_loop lv ctx prev seen txs st = (Ret None, st') ->
  exists ms others, txs = ms ++ others /\ (seen = true -> ms = []) /\
    Forall (fun tx => m tx = true) ms /\ Forall (fun tx => m tx = false) others.
Proof.
  intros Hm. revert prev seen st. induction txs as [|tx txs IH]; intros prev seen st; cbn [check_order_loop]; st_unfold.
  { intros _. exists [], []. done. }
  rewrite Hm. destruct (m tx) eqn:E.
  - destruct seen; [done|]. destruct (higher_priority lv ctx prev tx st) as [[[]|w] st1]; try done.
    intros HC. destruct (IH _ _ _ HC) as (ms & others & -> & _ & H1 & H2).
    exists (tx :: ms), others. split; [done|]. split; [done|]. split; [by constructor|done].
  - intros HC. destruct (IH _ _ _ HC) as (ms & others & -> & Hms & H1 & H2). rewrite Hms in * by done.
    exists [], (tx :: others). split; [done|]. split; [done|]. split; [done|by constructor].
Qed.

Lemma split_unique (m : Tx -> bool) seg rest ms others :
  seg ++ rest = ms ++ others -> Forall (fun tx => m tx = true) seg ->
  match rest with [] => True | tx :: _ => m tx = false end ->
  Forall (fun tx => m tx = true) ms -> Forall (fun tx => m tx = false) others ->
  Forall (fun tx => m tx = false) rest.
Proof.
  revert ms. induction seg as [|s seg IH]; intros ms E Hs Hr Hm Ho; cbn in E.
  - destruct ms as [|x ms]; cbn in E; [by subst|]. subst rest. inversion Hm. congruence.
  - inversion Hs; subst. destruct ms as [|x ms]; cbn in E.
    + subst others. inversion Ho. congruence.
    + injection E as -> E. inversion Hm; subst. by apply (IH ms).
Qed.

Lemma verified_matches (lv : LaneView (M := M)) (m : Tx -> bool) ctx st seg ctx' st' :
  (forall ctx tx, lv_Match lv ctx tx = Ret (m tx)) ->
  verified lv ctx st seg ctx' st' -> Forall (fun tx => m tx = true) seg.
Proof.
  intros Hm. induction 1 as [|ctx st tx ctx1 st1 txs ctx2 st2 H1 _ _ IH]; constructor; [|done].
  rewrite Hm in H1. congruence.
Qed.

(** What the chain uses of a lane: when its order check and its processing let the transactions pass, it
    verified its part, and none of the rest matches it. *)
Section Contracts.
Context (lanes : Lanes) (l : LaneId) (lane : LaneC) (m : Tx -> bool).
Hypothesis Hm : forall ctx tx, Match (match_fuel lanes) lanes l ctx tx = Ret (m tx).
Abbreviation view := (view_of lanes l lane).

Definition processes (k : handlers) : Prop := forall ctx txs (st st1 : State) next r ctx' st',
  CheckOrder lanes l lane ctx txs st = (Ret None, st1) ->
  ProcessLane lanes l lane ctx txs (Some next) st1 = r -> r = (Ret (ctx', None), st') ->
  exists seg rest ctx2 st2, txs = seg ++ rest /\ part_of k m seg /\ ante_verified lane ctx st1 seg ctx2 st2 /\
    Forall (fun tx => m tx = false) rest /\ next ctx rest st2 = r.

Lemma verified_ante ctx st seg ctx' st' : verified view ctx st seg ctx' st' -> ante_verified lane ctx st seg ctx' st'.
Proof. induction 1 as [|ctx st tx ctx1 st1 txs ctx2 st2 _ HA _ IH]; [constructor|]. by econstructor. Qed.

Lemma default_processes : handles DefaultHandlers lane -> processes DefaultHandlers.
Proof.
  intros (_ & Hc & Hp) ctx txs st st1 next r ctx' st'. unfold CheckOrder, ProcessLane. rewrite Hc, Hp.
  cbn [call]. st_unfold. intros HC HP ->.
  destruct (check_order_prefix view ctx m _ _ _ _ _ (Hm ctx) HC) as (ms & others & E & _ & H1 & H2).
  destruct (DefaultProcessLaneHandler view ctx txs st1) as [[[rest|err]|w] st2] eqn:HD; [|done..].
  destruct (process_verified _ _ _ _ _ _ HD) as (seg & ctx2 & -> & Hv & Hrest).
  assert (Hseg : Forall (fun tx => m tx = true) seg) by by eapply (verified_matches view m).
  exists seg, rest, ctx2, st2. split; [done|]. split; [done|]. split; [by apply verified_ante|]. split; [|done].
  apply (split_unique m seg rest ms others); try done.
  destruct rest as [|tx rest]; [done|]. cbn [lv_Match view_of] in Hrest. rewrite Hm in Hrest. congruence.
Qed.

Lemma verify_bundle_ante f bundle : forall ctx st st',
  verify_bundle f view ctx bundle st = (Ret None, st') ->
  exists txs ctx', Forall2 (unwraps f) bundle txs /\ ante_verified lane ctx st txs ctx' st'.
Proof.
  induction bundle as [|raw bundle IH]; intros ctx st st'; cbn [verify_bundle].
  { intros [= <-]. exists [], ctx. split; constructor. }
  destruct (WrapBundleTransaction f raw) as [tx|e] eqn:Ew; [|done]. cbn [lv_AnteVerifyTx view_of]. st_unfold.
  destruct (AnteVerifyTx lane ctx tx false st) as [[[ctx1 [err|]]|w] st1] eqn:EA; [done| |done]. intros HB.
  destruct (IH _ _ _ HB) as (txs & ctx' & HF & HA). exists (tx :: txs), ctx'. split; [by constructor|]. by econstructor.
Qed.

Lemma VerifyTx_ante f bid bi ctx st st' : VerifyTx f view ctx bid (Some bi) st = (Ret None, st') ->
  exists txs ctx', Forall2 (unwraps f) (Transactions bi) txs /\ ante_verified lane ctx st (bid :: txs) ctx' st'.
Proof.
  unfold VerifyTx. st_unfold. cbn [lv_AnteVerifyTx view_of].
  destruct (AnteVerifyTx lane ctx bid false st) as [[[ctx1 [err|]]|w] st1] eqn:EA; [done| |done]. intros HB.
  destruct (verify_bundle_ante f _ _ _ _ HB) as (txs & ctx' & HF & HA). exists txs, ctx'. split; [done|]. by econstructor.
Qed.

Lemma bundled_unwraps f enc bundle raws : (forall raw tx, WrapBundleTransaction f raw = Ok tx <-> enc tx = Ok raw) ->
  Forall2 (bundled m enc) bundle raws ->
  Forall2 (unwraps f) raws bundle /\ Forall (fun tx => m tx = false) bundle.
Proof.
  intros Hw. induction 1 as [|tx raw bundle raws [Hno He] _ [IH1 IH2]]; [split; constructor|].
  split; constructor; try done. by apply Hw.
Qed.

Lemma unwraps_unique f bundle txs txs' : Forall2 (unwraps f) bundle txs -> Forall2 (unwraps f) bundle txs' -> txs = txs'.
Proof.
  intros H. revert txs'. induction H as [|raw tx bundle txs Hu _ IH]; intros txs' H'; inversion H' as [|? tx' ? txs1 Hu' H1]; [done|].
  subst. f_equal; [unfold unwraps in *; congruence|by apply IH].
Qed.

Lemma auction_processes f enc : cfg_TxEncoder (cfg lane) = Some enc -> handles (AuctionHandlers f) lane ->
  auction_factory (AuctionHandlers f) m enc -> processes (AuctionHandlers f).
Proof.
  intros He (_ & Hc & Hp) [Hi Hw] ctx txs st st1 next r ctx' st'. unfold CheckOrder, ProcessLane. rewrite Hc, Hp.
  cbn [call]. st_unfold. unfold TOB_CheckOrderHandler, st_lift.
  destruct (tob_check_order_spec f view ctx m enc (Hm ctx) He (fun tx => proj1 (Hi tx)) txs) as (r0 & -> & Hr0).
  intros [= -> <-]. assert (Ho : tob_ordered f m enc txs) by by apply Hr0.
  unfold TOB_ProcessLaneHandler. st_unfold. intros HP ->.
  destruct Ho as [Hno|(bid & bi & bundle & rest & -> & Hb & Hbi & HF & Hrest)].
  - exists [], txs, ctx, st. split; [done|]. split; [by left|]. split; [constructor|]. split; [done|].
    destruct txs as [|bid others]; [done|]. rewrite <- HP.
    cbn [lv_Match view_of]. rewrite Hm. inversion Hno as [|? ? Hb]. by rewrite Hb.
  - cbn [lv_Match view_of] in HP. rewrite Hm, Hb in HP. cbn [negb] in HP. rewrite Hbi in HP.
    destruct (VerifyTx f view ctx bid (Some bi) st) as [[[err|]|w] st2] eqn:HV; [done| |done].
    destruct (bundled_unwraps f enc _ _ Hw HF) as [HU Hno].
    destruct (VerifyTx_ante f bid bi ctx st st2 HV) as (txs & ctx2 & HU' & HA).
    rewrite (unwraps_unique f _ _ _ HU' HU) in HA.
    pose proof (Forall2_length HF) as Hlen.
    exists (bid :: bundle), rest, ctx2, st2. split; [done|]. split; [right; by exists bid, bi, bundle|].
    split; [done|]. split; [done|]. rewrite <- HP. unfold slice_from.
    replace (S (length (Transactions bi)) <=? length (bid :: bundle ++ rest))%nat with true
      by (symmetry; apply Nat.leb_le; cbn [length]; rewrite length_app; lia).
    cbn [drop]. by rewrite drop_app_length'.
Qed.
End Contracts.

Lemma standard_processes lanes enc s : standard lanes enc s ->
  processes lanes (sl_id s) (snd (sl_lane s)) (sl_matches s) (sl_handlers s).
Proof.
  destruct s as [[l lane] m [|f]]; intros [Hm He Hh Hf]; [by apply default_processes|by eapply auction_processes].
Qed.

Lemma chain_process_segments lanes enc ls : Forall (standard lanes enc) ls ->
  exists h, chain_process (standard_chain lanes ls ++ [ATerminator]) = Some h /\
  forall ctx txs st ctx' st', h ctx txs st = (Ret (ctx', None), st') ->
  exists leftover, segments lanes ctx ls txs leftover st st' /\
    forall tx, In tx leftover -> In tx txs /\ Forall (fun s => sl_matches s tx = false) ls.
Proof.
  induction 1 as [|s ls Hs _ (h & Hh & IH)].
  - eexists; split; [reflexivity|]. intros ctx txs st ctx' st'. cbn.
    destruct (len txs =? 0) eqn:E; st_unfold; intros [= <- <-]; exists txs;
      (split; [constructor|intros tx Hin; split; [done|constructor]]).
  - cbn [standard_chain map app chain_process]. fold (standard_chain lanes ls). rewrite Hh.
    eexists; split; [reflexivity|]. intros ctx txs st ctx' st'. cbn [ops].
    destruct (len txs =? 0) eqn:E; st_unfold.
    { intros [= <- <-]. assert (txs = []) as -> by (apply nil_length_inv; unfold len in E; lia).
      exists []. split; [constructor|done]. }
    cbn [lane_of lane_CheckOrder lane_ProcessLane].
    destruct (CheckOrder lanes (sl_id s) (snd (sl_lane s)) ctx txs st) as [[[err|]|w] st1] eqn:HC; try done.
    intros HP. destruct (standard_processes lanes enc s Hs ctx txs st st1 h _ ctx' st' HC HP eq_refl)
      as (seg & rest & ctx2 & st2 & -> & Hseg & Hv & Hno & HN).
    destruct (IH _ _ _ _ _ HN) as (leftover & Hsg & Hl).
    exists leftover. split; [by econstructor|]. intros tx Hin. destruct (Hl tx Hin) as [Hr Hf].
    split; [apply in_app_iff; by right|]. constructor; [|done].
    rewrite List.Forall_forall in Hno. by apply Hno.
Qed.

Lemma PrepareProposal_fold (lanes : Lanes) txDecoder xs ctx MaxTxBytes st : xs <> [] ->
  PrepareProposalHandler
    (NewProposalHandler txDecoder (map (fun x => ALane (lane_of lanes x.1 x.2)) xs)) ctx MaxTxBytes st
  = let s := fold_left (prepare_step lanes ctx) xs (st, NewProposal MaxTxBytes) in
    (Ret (GetProposal (snd s), None), fst s).
Proof.
  intros Hne. unfold PrepareProposalHandler, NewProposalHandler, ChainPrepareLanes.
  cbn [prepareLanesHandler].
  rewrite <- (map_map (fun x => lane_of lanes x.1 x.2) ALane), terminate_lanes, map_map by by destruct xs.
  fold (lane_chain lanes xs). destruct (chain_prepare_fold lanes ctx xs) as (h & -> & Hh).
  unfold recover. cbn [call]. st_unfold. by rewrite Hh.
Qed.

(** ** The properties *)

(** preparing a proposal never fails and never panics, whatever the lanes do: a lane that
    returns an error or panics is skipped. *)
Theorem prepare_proposal_never_fails txDecoder (chain : list (chain_lane (M := M))) ctx MaxTxBytes st :
  chain <> [] ->
  exists txs st', PrepareProposalHandler (NewProposalHandler txDecoder chain) ctx MaxTxBytes st
                  = (Ret (txs, None), st').
Proof.
  intros Hne. unfold PrepareProposalHandler, NewProposalHandler, ChainPrepareLanes.
  cbn [prepareLanesHandler].
  destruct (chain_prepare_total (terminate chain) (terminate_nonempty chain Hne)) as (h & -> & Hh).
  unfold recover. cbn [call]. st_unfold.
  destruct (Hh ctx (st, NewProposal MaxTxBytes)) as ([st' p] & ->). by eexists _, _.
Qed.

(** C8: the nested handlers, cached contexts and recoveries of the chain amount to running the
    lanes one after the other on the shared proposal, where a lane that fails is undone on the
    chain state and the next lanes run all the same. *)
Theorem prepare_chain_refines_fold (lanes : Lanes) txDecoder xs ctx MaxTxBytes st : xs <> [] ->
  PrepareProposalHandler
    (NewProposalHandler txDecoder (map (fun x => ALane (lane_of lanes x.1 x.2)) xs)) ctx MaxTxBytes st
  = let s := fold_left (prepare_step lanes ctx) xs (st, NewProposal MaxTxBytes) in
    (Ret (GetProposal (snd s), None), fst s).
Proof. apply PrepareProposal_fold. Qed.

(** C7: the transactions of a prepared proposal are at most [MaxTxBytes] bytes, whatever the handlers of
    the lanes select, as long as none of them hands over 2^62 bytes or more in its turn, the sums of the
    code being int64. *)
Theorem prepare_proposal_size {DL : DecLaws sdk} (lanes : Lanes) txDecoder xs ctx MaxTxBytes st txs err st' :
  xs <> [] -> 0 <= MaxTxBytes <= 2 ^ 62 ->
  Forall (fun new => total_len new < 2 ^ 62) (handed_over lanes ctx xs (st, NewProposal MaxTxBytes)) ->
  PrepareProposalHandler
    (NewProposalHandler txDecoder (map (fun x => ALane (lane_of lanes x.1 x.2)) xs)) ctx MaxTxBytes st
  = (Ret (txs, err), st') ->
  total_len txs <= MaxTxBytes.
Proof.
  intros Hne Hm Hb. rewrite PrepareProposal_fold by done. cbn [fst snd]. intros [= <- _ _].
  assert (G0 : good_proposal MaxTxBytes (NewProposal MaxTxBytes)).
  { split; [|done]. apply NewProposal_wf. unfold max_int64. lia. }
  destruct (prepare_fold_proposal lanes ctx MaxTxBytes xs (st, NewProposal MaxTxBytes) Hm Hb G0)
    as ([Ht Hl _ _] & Hmx & Hv). unfold GetProposal. rewrite Hv. cbn [app]. lia.
Qed.

(** C9: a lane that fails leaves nothing behind in the block.  The block a chain of lanes prepares is what
    the lanes contribute, one after the other: a lane whose turn fails or panics at any point, even after
    its handler has run, contributes nothing and its writes to the chain state are undone; any other lane
    contributes exactly what its handler handed over, on the chain state and the proposal the lanes before
    it left, its writes stay, and what it wants removed leaves its mempool. *)
Theorem prepare_lanes_atomic (lanes : Lanes) txDecoder xs ctx MaxTxBytes st : xs <> [] ->
  exists news st' p,
    PrepareProposalHandler
      (NewProposalHandler txDecoder (map (fun x => ALane (lane_of lanes x.1 x.2)) xs)) ctx MaxTxBytes st
    = (Ret (concat news, None), st') /\
    turns lanes ctx xs (st, NewProposal MaxTxBytes) news (st', p).
Proof.
  intros Hne. rewrite PrepareProposal_fold by done.
  destruct (prepare_fold_turns lanes ctx xs (st, NewProposal MaxTxBytes)) as [news Ht].
  destruct (turns_txs lanes ctx _ _ _ _ Ht) as [Hx Hv]. cbn [fst snd NewProposal txs voteExtensions app] in Hx, Hv.
  destruct (fold_left _ xs _) as [st' p]. exists news, st', p. split; [|exact Ht]. unfold GetProposal.
  cbn [fst snd] in *. by rewrite Hx, Hv.
Qed.

(** C6: when a chain of auction lanes and lanes with the default handlers accepts a proposal, its
    transactions are consecutive parts, in the order of the lanes: transactions that match the lane, or
    nothing or a bid and its bundle for an auction lane; the ante handler of the lane accepted the
    transactions of a part one after the other, on the state the lane before left, and the final state is
    the one this leaves.  What no lane took matches no lane, and there is nothing of it when every
    transaction matches some lane. *)
Theorem accepted_proposal_is_verified lanes enc txDecoder (ls : list standard_lane) ctx txs st err st' :
  ls <> [] -> Forall (standard lanes enc) ls ->
  ProcessProposalHandler (NewProposalHandler txDecoder (standard_chain lanes ls)) ctx txs st = (Ret (ACCEPT, err), st') ->
  exists decoded leftover, GetDecodedTxs txDecoder txs = Ok decoded /\
    segments lanes ctx ls decoded leftover st st' /\
    (forall tx, In tx leftover -> Forall (fun s => sl_matches s tx = false) ls) /\
    ((forall tx, Exists (fun s => sl_matches s tx = true) ls) -> leftover = []).
Proof.
  intros Hne Hls. unfold ProcessProposalHandler, NewProposalHandler, ChainProcessLanes, standard_chain.
  cbn [processLanesHandler Abci.txDecoder].
  rewrite <- (map_map (fun s => lane_of lanes (sl_id s) (snd (sl_lane s))) ALane), terminate_lanes, map_map by by destruct ls.
  fold (standard_chain lanes ls). destruct (chain_process_segments lanes enc ls Hls) as (h & -> & Hh).
  unfold recover. cbn [call]. st_unfold. destruct (len txs =? 0) eqn:E.
  { intros [= _ <-]. assert (txs = []) as -> by (apply nil_length_inv; unfold len in E; lia).
    exists [], []. split; [done|]. split; [constructor|done]. }
  destruct (GetDecodedTxs txDecoder txs) as [decoded|]; [|done].
  destruct (h ctx decoded st) as [[[ctx' [err'|]]|w] st1] eqn:EH; try done.
  intros [= _ <-]. destruct (Hh _ _ _ _ _ EH) as (leftover & Hs & Hl).
  assert (Hno : forall tx, In tx leftover -> Forall (fun s => sl_matches s tx = false) ls)
    by (intros tx Hin; by apply Hl).
  exists decoded, leftover. split; [done|]. split; [done|]. split; [done|]. intros Hcover.
  destruct leftover as [|tx leftover]; [done|]. exfalso.
  specialize (Hno tx (or_introl eq_refl)). specialize (Hcover tx).
  apply List.Exists_exists in Hcover as (s & Hin & Hs1). rewrite List.Forall_forall in Hno.
  rewrite Hno in Hs1 by done. done.
Qed.

(** C39: the selection of the auction lane compares only the bid transaction with the byte limit,
    not the bundle.  When the bid it selects first comes with a bundle that makes the lane's
    part larger than the lane's share of the block, the lane's PrepareLane fails before the
    next lane is called, nothing is added to the proposal, and no transaction is removed from
    the lane's mempool: the state is the one after verifying the bid. *)
Theorem auction_oversized_bundle (lanes : Lanes) (l : LaneId) (lane : LaneC) (f : Factory)
    (ctx : Context) (maxBytes : Z) (next : option PrepareLanesHandler) (p : Proposal) (n : Z)
    (st st0 st1 : State) (bid : Tx) (rest : list Tx) (selected : list bytes) :
  prepareLaneHandler lane = Some (TOB_PrepareLaneHandler f) ->
  on_mempool l lm_Select st = (Ret (bid :: rest), st0) ->
  try_bid f (view_of lanes l lane) p maxBytes ctx bid st0 = (Ret (BidSelected selected), st1) ->
  GetMaxTxBytesForLane (maxTxBytes p) (totalTxBytes p) (GetMaxBlockSpace lane) = Ret n ->
  0 <= n < total_len selected -> total_len selected <= max_int64 ->
  PrepareLane lanes l lane ctx maxBytes next (st, p)
  = (Ret (Some (Errorf "lane prepared a partial proposal that is too large")), (st1, p)).
Proof.
  intros Hh Hsel Hbid Hn Hbig Hmax.
  assert (Hprep : TOB_PrepareLaneHandler f (view_of lanes l lane) ctx p maxBytes st
            = (Ret (Ok (selected, [])), st1)).
  { unfold TOB_PrepareLaneHandler. st_unfold. change (lv_id (view_of lanes l lane)) with l.
    rewrite Hsel. cbn [select_bid]. st_unfold. unfold with_cache. by rewrite Hbid. }
  assert (Hsize : 0 <= total_len selected) by apply total_len_nonneg.
  unfold PrepareLane, prepare_own, on_state, on_proposal, call. rewrite Hh. st_unfold. cbn [fst snd].
  rewrite Hprep. cbn [RemoveTxsFromLane fst snd]. st_unfold. unfold UpdateProposal.
  rewrite bool_decide_eq_false_2 by (destruct selected; [cbn in Hbig; lia|done]).
  cbn [fst snd].
  change (lp_GetMaxBlockSpace (lane_proposal lane)) with (GetMaxBlockSpace lane).
  change (GetMaxTxBytes p) with (maxTxBytes p). change (GetTotalTxBytes p) with (totalTxBytes p).
  rewrite Hn, partial_size_total by lia. by destruct (Z.ltb_spec n (total_len selected)); [|lia].
Qed.
End Prepare.

(** ** Witnesses *)

Abbreviation ex_LaneC := (LaneConstructor (sdk := concrete_sdk) (M := list CTx)).

(** A lane whose preparation panics. *)
Definition ex_panicking : Lanes.Lane (sdk := concrete_sdk) (M := list CTx) :=
  lane_of ∅ 0%nat
    (set_handlers (Some PanicPrepareLaneHandler) None None (ex_lane "free" 0 ex_match)).

Lemma prepare_proposal_never_fails_witness :
  exists txs st', PrepareProposalHandler (NewProposalHandler ex_TxDecoder [ALane ex_panicking])
                    (ex_ctx 0) 100 ex_state = (Ret (txs, None), st').
Proof. apply (prepare_proposal_never_fails ex_TxDecoder [ALane ex_panicking]). done. Defined.

(** The lanes of [ex_mutex_lanes]: the free lane and the default lane, which ignores the first. *)
Definition ex_free : ex_LaneC := ex_lane "free" (3 * 10 ^ 17) ex_match.
Definition ex_default : ex_LaneC := SetIgnoreList [0%nat] (ex_lane "default" 0 DefaultMatchHandler).
Definition ex_xs : list (LaneId * ex_LaneC) := [(0%nat, ex_free); (1%nat, ex_default)].

Lemma prepare_chain_refines_fold_witness :
  PrepareProposalHandler
    (NewProposalHandler ex_TxDecoder (map (fun x => ALane (lane_of ex_mutex_lanes x.1 x.2)) ex_xs))
    (ex_ctx 0) 100 ex_mempool_state
  = let s := fold_left (prepare_step ex_mutex_lanes (ex_ctx 0)) ex_xs (ex_mempool_state, NewProposal 100) in
    (Ret (GetProposal (snd s), None), fst s).
Proof. apply (prepare_chain_refines_fold ex_mutex_lanes ex_TxDecoder ex_xs). done. Defined.

(** A lane that hands over two transactions. *)
Definition ex_handing : ex_LaneC :=
  set_handlers (Some (fun _ _ _ _ => mret (Ok ([[x01]; [x02; x03]], [])))) None None ex_free.

Lemma prepare_lanes_atomic_witness :
  exists news st' p,
    PrepareProposalHandler
      (NewProposalHandler ex_TxDecoder (map (fun x => ALane (lane_of ∅ x.1 x.2)) [(0%nat, ex_handing); (1%nat, ex_handing)]))
      (ex_ctx 0) 4 ex_state
    = (Ret (concat news, None), st') /\
    turns ∅ (ex_ctx 0) [(0%nat, ex_handing); (1%nat, ex_handing)] (ex_state, NewProposal 4) news (st', p).
Proof. apply (prepare_lanes_atomic ∅ ex_TxDecoder [(0%nat, ex_handing); (1%nat, ex_handing)] (ex_ctx 0) 4 ex_state). done. Defined.

(** An encoder and a decoder of finitely many transactions. *)
Definition table_enc (t : list CTx) : @TxEncoder concrete_sdk := fun tx : CTx =>
  if bool_decide (tx ∈ t) then Ok (c_bytes tx) else Err (Errorf "unknown tx").
Definition table_dec (t : list CTx) : @TxDecoder concrete_sdk := fun bz =>
  match List.find (fun tx => bool_decide (c_bytes tx = bz)) t with
  | Some tx => Ok tx
  | None => Err (Errorf "tx parse error")
  end.

Lemma table_dec_enc t (tx : CTx) bz : NoDup (map c_bytes t) ->
  table_enc t tx = Ok bz -> table_dec t bz = Ok tx.
Proof.
  unfold table_enc, table_dec. case_bool_decide as Hin; [|done]. intros Hnd [= <-].
  induction t as [|x t IH]; [by apply elem_of_nil in Hin|]. cbn in *. apply list.NoDup_cons in Hnd as [Hx Hnd].
  apply elem_of_cons in Hin as [->|Hin].
  - by rewrite bool_decide_eq_true_2.
  - rewrite bool_decide_eq_false_2; [by apply IH|]. intros E. apply Hx. rewrite E.
    apply list_elem_of_In, in_map. by apply list_elem_of_In.
Qed.

Lemma table_enc_dec t (tx : CTx) bz : table_dec t bz = Ok tx -> table_enc t tx = Ok bz.
Proof.
  unfold table_enc, table_dec. destruct (List.find _ t) as [x|] eqn:E; [|done]. intros [= <-].
  apply List.find_some in E as [Hin Hx]. apply bool_decide_eq_true in Hx as <-.
  by rewrite bool_decide_eq_true_2 by by apply list_elem_of_In.
Qed.

(** An ante handler that takes a transaction once. *)
Definition ex_step (s : @Store concrete_sdk) (tx : CTx) : option (@Store concrete_sdk) :=
  if bool_decide (kv_Get s (c_bytes tx) = []) then Some (kv_Set (c_bytes tx) [x01] s) else None.
Definition ex_ante {M} : AnteHandler (sdk := concrete_sdk) (M := M) := fun ctx tx simulate st =>
  match ex_step (st_store st) tx with
  | Some s => (Ret (ctx, None), set_store s st)
  | None => (Ret (ctx, Some (Errorf "seen")), st)
  end.

Definition honest_lane {M} (name : string) (ignore : list LaneId) (t : list CTx)
    (h : Lane.MatchHandler (sdk := concrete_sdk)) (p : PrepareLaneHandler) (o : CheckOrderHandler)
    (q : ProcessLaneHandler) : LaneConstructor (sdk := concrete_sdk) (M := M) :=
  SetIgnoreList ignore
    {| cfg := NewBaseLaneConfig (Some tt) (Some (table_enc t)) (Some (table_dec t)) (Some ex_ante)
                (Some 0 : @Dec concrete_sdk);
       laneName := name; hasMempool := true; matchHandler := Some h;
       prepareLaneHandler := Some p; checkOrderHandler := Some o; processLaneHandler := Some q |}.

(** The top-of-block lane and the default lane that ignores it. *)
Definition hon_tob : LaneConstructor (sdk := concrete_sdk) (M := list CTx) :=
  honest_lane "top-of-block" [] ex_table (AuctionLane.MatchHandler ex_factory)
    (TOB_PrepareLaneHandler ex_factory) (TOB_CheckOrderHandler ex_factory) (TOB_ProcessLaneHandler ex_factory).
Definition hon_default : LaneConstructor (sdk := concrete_sdk) (M := list CTx) :=
  honest_lane "default" [0%nat] ex_table DefaultMatchHandler
    DefaultPrepareLaneHandler DefaultCheckOrderHandler DefaultProcessLaneHandler.
Definition hon_lanes : gmap LaneId (LaneConstructor (sdk := concrete_sdk) (M := list CTx)) :=
  <[ 0%nat := hon_tob ]> {[ 1%nat := hon_default ]}.

Lemma hon_lookup : hon_lanes !! 0%nat = Some hon_tob /\ hon_lanes !! 1%nat = Some hon_default.
Proof.
  unfold hon_lanes. split; [apply lookup_insert_eq|].
  rewrite lookup_insert_ne by discriminate. apply lookup_singleton_eq.
Qed.

Lemma hon_fuel : match_fuel hon_lanes = 3%nat.
Proof. reflexivity. Qed.

Lemma hon_match_tob ctx tx fuel : Match (S fuel) hon_lanes 0%nat ctx tx = Ret (ex_is_bid tx).
Proof.
  cbn [Match]. rewrite (proj1 hon_lookup). cbn [hon_tob honest_lane SetIgnoreList set_cfg matchHandler IgnoreList cfg].
  change (AuctionLane.MatchHandler ex_factory ctx tx) with (ex_is_bid tx). by destruct (ex_is_bid tx).
Qed.

Lemma hon_match_default ctx tx fuel :
  Match (S (S fuel)) hon_lanes 1%nat ctx tx = Ret (negb (ex_is_bid tx)).
Proof.
  remember (S fuel) as n eqn:E. cbn [Match]. rewrite (proj2 hon_lookup).
  cbn [hon_default honest_lane SetIgnoreList set_cfg matchHandler IgnoreList cfg CheckIgnoreList]. subst n.
  unfold DefaultMatchHandler. st_unfold. rewrite hon_match_tob. by destruct (ex_is_bid tx).
Qed.

Lemma ex_table_NoDup : NoDup (map c_bytes ex_table).
Proof. apply (bool_decide_unpack _). vm_compute. reflexivity. Qed.

Definition hon_chain : list (standard_lane (sdk := concrete_sdk) (M := list CTx)) :=
  [MkStandard (0%nat, hon_tob) ex_is_bid (AuctionHandlers ex_factory);
   MkStandard (1%nat, hon_default) (fun tx => negb (ex_is_bid tx)) DefaultHandlers].

Lemma hon_standard : Forall (standard hon_lanes (table_enc ex_table)) hon_chain.
Proof.
  constructor; [|constructor; [|constructor]]; split; try reflexivity; cbn [sl_lane sl_matches sl_handlers fst snd].
  - intros ctx tx. rewrite hon_fuel. apply hon_match_tob.
  - by split.
  - split.
    + intros tx. split; [apply ex_is_bid_info|]. intros [bi Hbi]. unfold ex_is_bid, DefaultFactoryMatch.
      change (DefaultGetAuctionBidInfo ex_TxDecoder tx) with (GetAuctionBidInfo ex_factory tx). by rewrite Hbi.
    + intros raw tx. split; [apply (table_enc_dec ex_table)|apply (table_dec_enc ex_table), ex_table_NoDup].
  - intros ctx tx. rewrite hon_fuel. apply hon_match_default.
  - by split.
Qed.

Definition hon_handler := NewProposalHandler (table_dec ex_table) (standard_chain hon_lanes hon_chain).
Definition hon_state (bids txs : list CTx) : Lane.State (sdk := concrete_sdk) (M := list CTx) :=
  {| st_store := ex_store; st_mempools := <[ 0%nat := bids ]> {[ 1%nat := txs ]} |}.

(** A block of four bytes takes the bid, its bundle of two and another transaction. *)
Definition size_xs := map sl_lane hon_chain.
Definition size_block := PrepareProposalHandler (NewProposalHandler (table_dec ex_table)
  (map (fun x => ALane (lane_of hon_lanes x.1 x.2)) size_xs)) (ex_ctx 0) 4 (hon_state [ex_bid] [ex_tx 2 0 [5]; ex_tx 3 0 [7]]).

Lemma prepare_proposal_size_witness :
  size_block = (Ret ([[x64]; [x05]; [x06]; [x07]], None), snd size_block) /\
  total_len [[x64]; [x05]; [x06]; [x07]] <= 4.
Proof.
  assert (E : size_block = (Ret ([[x64]; [x05]; [x06]; [x07]], None), snd size_block)) by eval_run.
  split; [exact E|].
  apply (prepare_proposal_size hon_lanes (table_dec ex_table) size_xs (ex_ctx 0) 4 (hon_state [ex_bid] [ex_tx 2 0 [5]; ex_tx 3 0 [7]])
    [[x64]; [x05]; [x06]; [x07]] None (snd size_block)).
  - done.
  - lia.
  - assert (H : forallb (fun new => total_len new <? 2 ^ 62)
      (handed_over hon_lanes (ex_ctx 0) size_xs (hon_state [ex_bid] [ex_tx 2 0 [5]; ex_tx 3 0 [7]], NewProposal 4)) = true)
      by (vm_compute; reflexivity).
    rewrite forallb_forall in H. apply List.Forall_forall. intros new Hin. by apply Z.ltb_lt, H.
  - exact E.
Defined.

Lemma accepted_proposal_is_verified_witness :
  let block := [[x64]; [x05]; [x06]; [x07]] in
  let st' := snd (ProcessProposalHandler hon_handler (ex_ctx 0) block (hon_state [] [])) in
  exists decoded leftover, GetDecodedTxs (table_dec ex_table) block = Ok decoded /\
    segments hon_lanes (ex_ctx 0) hon_chain decoded leftover (hon_state [] []) st' /\
    (forall tx, In tx leftover -> Forall (fun s => sl_matches s tx = false) hon_chain) /\
    ((forall tx, Exists (fun s => sl_matches s tx = true) hon_chain) -> leftover = []).
Proof.
  apply (accepted_proposal_is_verified hon_lanes (table_enc ex_table) (table_dec ex_table) hon_chain (ex_ctx 0)
    [[x64]; [x05]; [x06]; [x07]] (hon_state [] []) None).
  - done.
  - apply hon_standard.
  - eval_run.
Defined.

(** The top-of-block lane with all the bytes of a block of two: the bid is one byte long, its
    bundle two. *)
Definition ex_tob_lane : ex_LaneC :=
  set_handlers (Some (TOB_PrepareLaneHandler ex_factory)) None None (ex_lane "top-of-block" 0 (ex_handlers 1)).

Lemma auction_oversized_bundle_witness :
  PrepareLane ∅ 0%nat ex_tob_lane (ex_ctx 0) 2 None (ex_tob_state, NewProposal 2)
  = (Ret (Some (Errorf "lane prepared a partial proposal that is too large")),
     (snd (try_bid ex_factory (view_of ∅ 0%nat ex_tob_lane) (NewProposal 2) 2 (ex_ctx 0) ex_bid ex_tob_state),
      NewProposal 2)).
Proof.
  apply (auction_oversized_bundle ∅ 0%nat ex_tob_lane ex_factory (ex_ctx 0) 2 None (NewProposal 2) 2
    ex_tob_state ex_tob_state _ ex_bid [] [[x64]; [x05]; [x06]]).
  - reflexivity.
  - reflexivity.
  - eval_run.
  - vm_compute. reflexivity.
  - split; [lia|vm_compute; reflexivity].
  - vm_compute. discriminate.
Defined.
