(* ===== verification/BuilderTypes.v ===== *)
(** * x/builder/types: parameters, messages, genesis

    params.go, msgs.go, genesis.go, keys.go and the data types of the generated files.  A byte
    slice is nil or a list of bytes. *)
From S2P Require Import Prelude Hash Sdk.

Section Types.
Context {sdk : Sdk}.

(** ** Data *)

Record Params : Type := MkParams {
  MaxBundleSize : Z;
  EscrowAccountAddress : option bytes;
  ReserveFee : Coin;
  MinBidIncrement : Coin;
  FrontRunningProtection : bool;
  ProposerFee : Dec }.

Record GenesisState : Type := MkGenesisState { gs_Params : Params }.

Record MsgUpdateParams : Type := MkMsgUpdateParams {
  Authority : string;
  mup_Params : Params }.

(** ** keys.go *)

Definition prefixParams : Byte.byte := x01.
Definition KeyParams : bytes := [prefixParams].

(** ** params.go *)

Definition NewParams (maxBundleSize : Z) (escrowAccountAddress : option bytes)
    (reserveFee minBidIncrement : Coin) (frontRunningProtection : bool) (proposerFee : Dec) : Params :=
  {| MaxBundleSize := maxBundleSize; EscrowAccountAddress := escrowAccountAddress;
     ReserveFee := reserveFee; MinBidIncrement := minBidIncrement;
     FrontRunningProtection := frontRunningProtection; ProposerFee := proposerFee |}.

(** The module address is that of the auth module. *)
Definition DefaultParams (moduleAddress : bytes) : outcome Params :=
  reserveFee ← NewCoin "stake" 1;
  minBidIncrement ← NewCoin "stake" 1;
  mret (NewParams 2 (Some moduleAddress) reserveFee minBidIncrement true LegacyZeroDec).

Definition validateFee (fee : Coin) : option error :=
  if Coin_IsNil fee then Some (Errorf "fee cannot be nil") else Coin_Validate fee.

Definition validateProposerFee (v : Dec) : option error :=
  if Dec_IsNil v then Some (Errorf "proposer fee cannot be nil")
  else if Dec_IsNegative v then Some (Errorf "proposer fee cannot be negative")
  else if Dec_GT v LegacyOneDec then Some (Errorf "proposer fee too large")
  else None.

Definition Params_Validate (p : Params) : outcome (option error) :=
  match EscrowAccountAddress p with
  | None => mret (Some (Errorf "escrow account address cannot be nil"))
  | Some _ =>
      match validateFee (ReserveFee p) with
      | Some err => mret (Some (Errorf "invalid reserve fee"))
      | None =>
          match validateFee (MinBidIncrement p) with
          | Some err => mret (Some (Errorf "invalid minimum bid increment"))
          | None =>
              zero ← NewCoin (Denom (MinBidIncrement p)) 0;
              lte ← Coin_IsLTE (MinBidIncrement p) zero;
              if lte : bool then mret (Some (Errorf "minimum bid increment cannot be zero"))
              else
                let denoms : gset string := {[ Denom (ReserveFee p); Denom (MinBidIncrement p) ]} in
                if negb (Nat.eqb (size denoms) 1) then mret (Some (Errorf "mismatched auction fee denoms"))
                else mret (validateProposerFee (ProposerFee p))
          end
      end
  end.

(** ** msgs.go *)

Definition NewMsgAuctionBid (bidder : bytes) (bid : Coin) (transactions : list bytes) : MsgAuctionBid :=
  {| msg_Bidder := AccAddress_String bidder; msg_Bid := bid; msg_Transactions := transactions |}.

(** The error of the address is ignored: an invalid address is the nil address. *)
Definition address_or_nil (s : string) : bytes :=
  match AccAddressFromBech32 s with Ok addr => addr | Err _ => [] end.

Definition MsgUpdateParams_GetSigners (m : MsgUpdateParams) : list bytes := [address_or_nil (Authority m)].
Definition MsgAuctionBid_GetSigners (m : MsgAuctionBid) : list bytes := [address_or_nil (msg_Bidder m)].

Definition MsgUpdateParams_ValidateBasic (m : MsgUpdateParams) : outcome (option error) :=
  match AccAddressFromBech32 (Authority m) with
  | Err err => mret (Some (Wrap "invalid authority address" err))
  | Ok _ => Params_Validate (mup_Params m)
  end.

Definition MsgAuctionBid_ValidateBasic (m : MsgAuctionBid) : option error :=
  match AccAddressFromBech32 (msg_Bidder m) with
  | Err err => Some (Wrap "invalid bidder address" err)
  | Ok _ =>
      if Coin_IsNil (msg_Bid m) then Some (Errorf "no bid included")
      else
        match Coin_Validate (msg_Bid m) with
        | Some err => Some (Wrap "invalid bid" err)
        | None =>
            if len (msg_Transactions m) =? 0 then Some (Errorf "no transactions included")
            else if existsb (fun tx => len tx =? 0) (msg_Transactions m)
            then Some (Errorf "empty transaction included")
            else None
        end
  end.

(** ** genesis.go *)

Definition NewGenesisState (params : Params) : GenesisState := {| gs_Params := params |}.
Definition DefaultGenesisState (moduleAddress : bytes) : outcome GenesisState :=
  params ← DefaultParams moduleAddress; mret {| gs_Params := params |}.
Definition GenesisState_Validate (gs : GenesisState) : outcome (option error) :=
  Params_Validate (gs_Params gs).
End Types.

(** ** The encoding of the parameters

    What the keeper needs of [Params.Marshal] and [Params.Unmarshal] (genesis.pb.go); BuilderWire
    implements it. *)

Class ParamsCodec `{sdk : Sdk} : Type := {
  codec_Marshal : Params -> outcome (result bytes);
  codec_Unmarshal : bytes -> result Params }.

(** Parameters of [storable] survive storing: they have a non-empty encoding, which is read
    back. *)
Class ParamsCodecLaws `{sdk : Sdk} (PC : ParamsCodec) : Type := {
  storable : Params -> Prop;
  params_roundtrip p : storable p ->
    exists bz, codec_Marshal p = Ret (Ok bz) /\ bz <> [] /\ codec_Unmarshal bz = Ok p }.
