(* ===== verification/Wire.v ===== *)
(** * The protobuf routines of the generated files

    encodeVarint, sov, skip and the loop of the Unmarshal methods, which genesis.pb.go, tx.pb.go
    and query.pb.go of x/builder/types each contain once more.  Marshalling writes a buffer from
    its end, with Go's index checks; unmarshalling reads at an index, with the overflow checks of
    the code. *)
From S2P Require Import Prelude Hash.
#[local] Open Scope Z_scope.

Definition ErrInvalidLength : error := Errorf "proto: negative length found during unmarshaling".
Definition ErrIntOverflow : error := Errorf "proto: integer overflow".
Definition ErrUnexpectedEndOfGroup : error := Errorf "proto: unexpected end of group".
Definition ErrUnexpectedEOF : error := Errorf "unexpected EOF".

(** The result of a loop that ran out of fuel; no run returns it. *)
Definition out_of_fuel : error := Errorf "out of fuel".

(** ** Writing *)

(** [dAtA[i] = b], [copy(dAtA[i:], src)], and a call on the slice [dAtA[:i]]. *)
Definition put (i : Z) (b : Z) : ST bytes unit := fun buf =>
  if (0 <=? i) && (i <? len buf) then (Ret tt, <[Z.to_nat i := Z_byte b]> buf)
  else (Panic "index out of range", buf).

Definition copy_at (i : Z) (src : bytes) : ST bytes unit := fun buf =>
  if (0 <=? i) && (i <=? len buf) then
    let n := Nat.min (length src) (length buf - Z.to_nat i) in
    (Ret tt, take (Z.to_nat i) buf ++ take n src ++ drop (Z.to_nat i + n) buf)
  else (Panic "slice bounds out of range", buf).

Definition on_prefix {A} (i : Z) (m : ST bytes A) : ST bytes A := fun buf =>
  if (0 <=? i) && (i <=? len buf) then
    let '(r, buf') := m (take (Z.to_nat i) buf) in (r, buf' ++ drop (Z.to_nat i) buf)
  else (Panic "slice bounds out of range", buf).

(** [math_bits.Len64] *)
Definition Len64 (x : Z) : Z := if x =? 0 then 0 else Z.log2 x + 1.

Definition sov (x : Z) : Z := (Len64 (Z.lor x 1) + 6) / 7.

(** The loop of [encodeVarint]: a 64-bit value has at most ten groups of seven bits. *)
Fixpoint encode_loop (fuel : nat) (offset v : Z) : ST bytes unit :=
  match fuel with
  | O => st_panic "out of fuel"
  | S fuel =>
      if 128 <=? v then
        _ ← put offset (Z.lor (Z.land v 0x7f) 0x80);
        encode_loop fuel (offset + 1) (Z.shiftr v 7)
      else put offset v
  end.

Definition encodeVarint (offset v : Z) : ST bytes Z :=
  let base := offset - sov v in
  _ ← encode_loop 10 base v;
  mret base.

(** [i--; dAtA[i] = b] *)
Definition put_back (b : Z) (i : Z) : ST bytes Z :=
  _ ← put (i - 1) b; mret (i - 1).

(** [i -= len(src); copy(dAtA[i:], src)] *)
Definition copy_back (src : bytes) (i : Z) : ST bytes Z :=
  _ ← copy_at (i - len src) src; mret (i - len src).

(** A length-delimited field: its bytes, their length, its tag. *)
Definition put_bytes_field (tag : Z) (src : bytes) (i : Z) : ST bytes Z :=
  i ← copy_back src i;
  i ← encodeVarint i (wrap_u64 (len src));
  put_back tag i.

(** The code of a message's Marshal, given its Size and MarshalToSizedBuffer. *)
Definition Marshal_with (size : Z) (m : ST bytes (result Z)) : outcome (result bytes) :=
  match m (replicate (Z.to_nat size) x00) with
  | (Ret (Ok n), buf) =>
      if (0 <=? n) && (n <=? len buf) then Ret (Ok (take (Z.to_nat n) buf))
      else Panic "slice bounds out of range"
  | (Ret (Err err), _) => Ret (Err err)
  | (Panic w, _) => Panic w
  end.

(** A nested message: it writes at the end of [dAtA[:i]], then its size and tag. *)
Definition put_message (tag : Z) (m : ST bytes (result Z)) (i : Z) : ST bytes (result Z) :=
  size ← on_prefix i m;
  match size with
  | Err err => mret (Err err)
  | Ok size =>
      i ← encodeVarint (i - size) (wrap_u64 size);
      i ← put_back tag i;
      mret (Ok i)
  end.

(** The frame of MarshalToSizedBuffer: the fields are written from the end of the buffer. *)
Definition MarshalToSizedBuffer_with (fields : Z -> ST bytes (result Z)) : ST bytes (result Z) :=
  n ← st_gets len;
  i ← fields n;
  match i with
  | Err err => mret (Err err)
  | Ok i => mret (Ok (n - i))
  end.

(** The steps of a marshalling method that may fail. *)
Definition then_ok (m1 m2 : Z -> ST bytes (result Z)) (i : Z) : ST bytes (result Z) :=
  r ← m1 i;
  match r with
  | Err err => mret (Err err)
  | Ok i => m2 i
  end.
Definition always (m : Z -> ST bytes Z) (i : Z) : ST bytes (result Z) := i ← m i; mret (Ok i).
Definition when (b : bool) (m : Z -> ST bytes Z) (i : Z) : ST bytes Z := if b then m i else mret i.

(** ** Reading *)

(** The shifts of the varint loops that are below 64. *)
Definition shifts : list Z := [0; 7; 14; 21; 28; 35; 42; 49; 56; 63].

(** A varint at [iNdEx], accumulated in an integer type with wrap-around [wrap], and the index
    after it. *)
Fixpoint read_varint (wrap : Z -> Z) (shifts : list Z) (dAtA : bytes) (iNdEx acc : Z) : result (Z * Z) :=
  match shifts with
  | [] => Err ErrIntOverflow
  | shift :: shifts =>
      match dAtA !! Z.to_nat iNdEx with
      | None => Err ErrUnexpectedEOF
      | Some b =>
          let acc := Z.lor acc (wrap (Z.shiftl (Z.land (byte_Z b) 0x7f) shift)) in
          if byte_Z b <? 0x80 then Ok (acc, iNdEx + 1)
          else read_varint wrap shifts dAtA (iNdEx + 1) acc
      end
  end.

Definition varint (wrap : Z -> Z) (dAtA : bytes) (iNdEx : Z) : result (Z * Z) :=
  read_varint wrap shifts dAtA iNdEx 0.

(** [dAtA[i:j]] *)
Definition slice (dAtA : bytes) (i j : Z) : bytes := take (Z.to_nat (j - i)) (drop (Z.to_nat i) dAtA).

(** The bytes of a length-delimited field at [iNdEx] and the index after them.  The length is
    read as an [int], or as a [uint64] converted to [int]. *)
Definition read_delimited (dAtA : bytes) (n_i : Z * Z) : result (bytes * Z) :=
  let '(length, iNdEx) := n_i in
  if length <? 0 then Err ErrInvalidLength
  else
    let postIndex := wrap_i64 (iNdEx + length) in
    if postIndex <? 0 then Err ErrInvalidLength
    else if len dAtA <? postIndex then Err ErrUnexpectedEOF
    else Ok (slice dAtA iNdEx postIndex, postIndex).

Definition read_bytes (dAtA : bytes) (iNdEx : Z) : result (bytes * Z) :=
  n_i ← varint wrap_i64 dAtA iNdEx; read_delimited dAtA n_i.

Definition read_string (dAtA : bytes) (iNdEx : Z) : result (bytes * Z) :=
  '(stringLen, iNdEx) ← varint wrap_u64 dAtA iNdEx;
  read_delimited dAtA (wrap_i64 stringLen, iNdEx).

(** A loop: its body gives the next state or ends the loop with a result.  [iterate] bounds the
    number of iterations, [returns] does not. *)
Fixpoint iterate {S R} (fuel : nat) (body : S -> S + R) (s : S) : option R :=
  match fuel with
  | O => None
  | Datatypes.S fuel => match body s with inr r => Some r | inl s' => iterate fuel body s' end
  end.

Inductive returns {S R} (body : S -> S + R) : S -> R -> Prop :=
| returns_now s r : body s = inr r -> returns body s r
| returns_later s s' r : body s = inl s' -> returns body s' r -> returns body s r.

(** The loop of [skip]: a field, groups included; the state is the index and the depth. *)
Definition skip_value (wireType : Z) (dAtA : bytes) (iNdEx depth : Z) : result (Z * Z) :=
  if wireType =? 0 then '(_, iNdEx) ← varint wrap_u64 dAtA iNdEx; Ok (iNdEx, depth)
  else if wireType =? 1 then Ok (wrap_i64 (iNdEx + 8), depth)
  else if wireType =? 2 then
    '(length, iNdEx) ← varint wrap_i64 dAtA iNdEx;
    if length <? 0 then Err ErrInvalidLength else Ok (wrap_i64 (iNdEx + length), depth)
  else if wireType =? 3 then Ok (iNdEx, depth + 1)
  else if wireType =? 4 then
    if depth =? 0 then Err ErrUnexpectedEndOfGroup else Ok (iNdEx, depth - 1)
  else if wireType =? 5 then Ok (wrap_i64 (iNdEx + 4), depth)
  else Err (Errorf "proto: illegal wireType").

Definition skip_body (dAtA : bytes) (s : Z * Z) : (Z * Z) + result Z :=
  let '(iNdEx, depth) := s in
  if iNdEx <? len dAtA then
    match ('(wire, iNdEx) ← varint wrap_u64 dAtA iNdEx;
           skip_value (Z.land wire 0x7) dAtA iNdEx depth) with
    | Err err => inr (Err err)
    | Ok (iNdEx, depth) =>
        if iNdEx <? 0 then inr (Err ErrInvalidLength)
        else if depth =? 0 then inr (Ok iNdEx)
        else inl (iNdEx, depth)
    end
  else inr (Err ErrUnexpectedEOF).

(** The loop ends within one step per byte, by [skip_ends] below: the error that stands for the
    end of the fuel is never the result. *)
Definition skip (dAtA : bytes) : result Z :=
  default (Err out_of_fuel) (iterate (S (length dAtA)) (skip_body dAtA) (0, 0)).

(** The [default] branch of the field switch: the index after the unknown field. *)
Definition skip_field (dAtA : bytes) (preIndex : Z) : result Z :=
  skippy ← skip (drop (Z.to_nat preIndex) dAtA);
  if (skippy <? 0) || (wrap_i64 (preIndex + skippy) <? 0) then Err ErrInvalidLength
  else if len dAtA <? wrap_i64 (preIndex + skippy) then Err ErrUnexpectedEOF
  else Ok (wrap_i64 (preIndex + skippy)).

(** The field switch of a message: field number, wire type, the bytes, the index of the tag and
    the index after it, and the message so far; it gives the message and the next index. *)
Definition FieldCases (M : Type) : Type := Z -> Z -> bytes -> Z -> Z -> M -> result (M * Z).

Definition unknown_field {M} (dAtA : bytes) (preIndex : Z) (m : M) : result (M * Z) :=
  iNdEx ← skip_field dAtA preIndex; Ok (m, iNdEx).

(** One field: the tag, then the switch. *)
Definition read_field {M} (cases : FieldCases M) (dAtA : bytes) (iNdEx : Z) (m : M) : result (M * Z) :=
  let preIndex := iNdEx in
  '(wire, iNdEx) ← varint wrap_u64 dAtA iNdEx;
  let fieldNum := wrap_i32 (Z.shiftr wire 3) in
  let wireType := Z.land wire 0x7 in
  if wireType =? 4 then Err (Errorf "proto: wiretype end group for non-group")
  else if fieldNum <=? 0 then Err (Errorf "proto: illegal tag")
  else cases fieldNum wireType dAtA preIndex iNdEx m.

Definition unmarshal_body {M} (cases : FieldCases M) (dAtA : bytes) (s : M * Z) : (M * Z) + result M :=
  let '(m, iNdEx) := s in
  if iNdEx <? len dAtA then
    match read_field cases dAtA iNdEx m with
    | Err err => inr (Err err)
    | Ok s => inl s
    end
  else if len dAtA <? iNdEx then inr (Err ErrUnexpectedEOF)
  else inr (Ok m).

(** The Unmarshal method of a message with these cases, called on [m]. *)
Definition Unmarshal_with {M} (cases : FieldCases M) (dAtA : bytes) (m : M) : result M :=
  default (Err out_of_fuel) (iterate (S (length dAtA)) (unmarshal_body cases dAtA) (m, 0)).

(** A field of the wanted wire type whose value is read by [read] and stored by [store]. *)
Definition field_of {A M} (wireType want : Z) (read : result (A * Z)) (store : A -> result M)
    : result (M * Z) :=
  if negb (wireType =? want) then Err (Errorf "proto: wrong wireType")
  else '(v, iNdEx) ← read; m ← store v; Ok (m, iNdEx).

#[global] Arguments varint : simpl never.
#[global] Arguments skip : simpl never.
#[global] Arguments skip_field : simpl never.
#[global] Arguments encodeVarint : simpl never.
#[global] Arguments sov : simpl never.

(** ** Loops *)

Lemma iterate_returns {S R} (body : S -> S + R) (measure : S -> nat) (inv : S -> Prop) fuel s :
  (forall s s', inv s -> body s = inl s' -> inv s' /\ (measure s' < measure s)%nat) ->
  inv s -> (measure s < fuel)%nat ->
  exists r, iterate fuel body s = Some r /\ returns body s r.
Proof.
  intros Hstep. revert s. induction fuel as [|fuel IH]; intros s Hs Hlt; [lia|].
  cbn. destruct (body s) as [s'|r] eqn:E; [|by eauto using returns].
  destruct (Hstep s s' Hs E) as [Hs' Hm].
  destruct (IH s') as (r & Hr & Hret); [done|lia|]. eauto using returns.
Qed.

Lemma iterate_more {S R} (body : S -> S + R) fuel extra s r :
  iterate fuel body s = Some r -> iterate (fuel + extra) body s = Some r.
Proof.
  revert s. induction fuel as [|fuel IH]; intros s; cbn; [done|].
  destruct (body s); auto.
Qed.

(** ** Reading makes progress *)

Lemma read_varint_progress wrap sh dAtA i acc v j :
  read_varint wrap sh dAtA i acc = Ok (v, j) -> 0 <= i -> i < j <= len dAtA.
Proof.
  revert i acc. induction sh as [|s sh IH]; intros i acc; cbn; [done|].
  destruct (dAtA !! Z.to_nat i) as [b|] eqn:E; [|done]. intros H Hi.
  apply lookup_lt_Some in E. unfold len. destruct (byte_Z b <? 128); simplify_eq; [lia|].
  apply IH in H; unfold len in H; lia.
Qed.

Lemma varint_progress wrap dAtA i v j :
  varint wrap dAtA i = Ok (v, j) -> 0 <= i -> i < j <= len dAtA.
Proof. apply read_varint_progress. Qed.

(** Adding two lengths as [int]s: the sum is negative when it overflows. *)
Lemma wrap_i64_add a b :
  0 <= a < 2 ^ 63 -> 0 <= b < 2 ^ 63 -> 0 <= wrap_i64 (a + b) -> wrap_i64 (a + b) = a + b.
Proof.
  unfold wrap_i64. intros Ha Hb. destruct (Z.leb_spec (2 ^ 63) (a + b)).
  - rewrite <- (Z_mod_plus_full _ (-1)), Z.mod_small by lia. lia.
  - rewrite Z.mod_small by lia. lia.
Qed.

Lemma in_i64_shiftr z : in_i64 z <-> -1 <= Z.shiftr z 63 <= 0.
Proof.
  unfold in_i64. rewrite Z.shiftr_div_pow2 by lia.
  pose proof (Z.div_mod z (2 ^ 63)). pose proof (Z.mod_pos_bound z (2 ^ 63)). nia.
Qed.

Lemma in_i64_lor a b : in_i64 a -> in_i64 b -> in_i64 (Z.lor a b).
Proof.
  rewrite !in_i64_shiftr, Z.shiftr_lor. intros Ha Hb.
  assert (Z.shiftr a 63 = -1 \/ Z.shiftr a 63 = 0) as [-> | ->] by lia;
  assert (Z.shiftr b 63 = -1 \/ Z.shiftr b 63 = 0) as [-> | ->] by lia; vm_compute; split; discriminate.
Qed.

Lemma read_varint_i64 sh dAtA i acc v j :
  read_varint wrap_i64 sh dAtA i acc = Ok (v, j) -> in_i64 acc -> in_i64 v.
Proof.
  revert i acc. induction sh as [|s sh IH]; intros i acc; cbn; [done|].
  destruct (dAtA !! Z.to_nat i) as [b|]; [|done]. intros H Hacc.
  destruct (byte_Z b <? 128); simplify_eq; [|apply IH in H; [done|]];
    apply in_i64_lor; auto using wrap_i64_range.
Qed.

Lemma varint_i64 dAtA i v j : varint wrap_i64 dAtA i = Ok (v, j) -> in_i64 v.
Proof. intros H. apply read_varint_i64 in H; [done|]. unfold in_i64. lia. Qed.

Lemma read_delimited_progress dAtA n i d j :
  read_delimited dAtA (n, i) = Ok (d, j) -> 0 <= i <= len dAtA -> len dAtA < 2 ^ 63 ->
  in_i64 n -> i <= j <= len dAtA.
Proof.
  unfold read_delimited. intros H Hi Hl Hn. repeat case_match; simplify_eq.
  unfold in_i64 in Hn. pose proof (wrap_i64_add i n). lia.
Qed.

Lemma read_bytes_progress dAtA i d j :
  read_bytes dAtA i = Ok (d, j) -> 0 <= i -> len dAtA < 2 ^ 63 -> i < j <= len dAtA.
Proof.
  unfold read_bytes. st_unfold. intros H Hi Hl.
  destruct (varint wrap_i64 dAtA i) as [[n k]|] eqn:E; [|done].
  pose proof (varint_i64 _ _ _ _ E). apply varint_progress in E; [|done].
  apply read_delimited_progress in H; [lia|lia|done|done].
Qed.

Lemma read_string_progress dAtA i d j :
  read_string dAtA i = Ok (d, j) -> 0 <= i -> len dAtA < 2 ^ 63 -> i < j <= len dAtA.
Proof.
  unfold read_string. st_unfold. intros H Hi Hl.
  destruct (varint wrap_u64 dAtA i) as [[n k]|] eqn:E; [|done].
  apply varint_progress in E; [|done].
  apply read_delimited_progress in H; [lia|lia|done|apply wrap_i64_range].
Qed.

Lemma skip_value_progress w dAtA i d j e :
  skip_value w dAtA i d = Ok (j, e) -> 0 < i <= len dAtA -> len dAtA < 2 ^ 63 - 8 ->
  j < 2 ^ 63 /\ (0 <= j -> i <= j).
Proof.
  unfold skip_value. st_unfold. intros H Hi Hl.
  assert (Hadd : forall n, 0 <= n < 2 ^ 63 ->
            wrap_i64 (i + n) < 2 ^ 63 /\ (0 <= wrap_i64 (i + n) -> i <= wrap_i64 (i + n))).
  { intros n Hn. split; [pose proof (wrap_i64_range (i + n)); unfold in_i64 in *; lia|].
    intros H0. pose proof (wrap_i64_add i n). lia. }
  repeat case_match; simplify_eq; try (apply Hadd; lia); try lia.
  - match goal with H : varint _ _ _ = _ |- _ => apply varint_progress in H end; lia.
  - match goal with H : varint _ _ _ = _ |- _ =>
      pose proof (varint_i64 _ _ _ _ H); apply varint_progress in H; [|lia] end.
    unfold in_i64 in *.
    split; [pose proof (wrap_i64_range (z0 + z)); unfold in_i64 in *; lia|].
    intros Hj. pose proof (wrap_i64_add z0 z). lia.
Qed.

Lemma skip_body_progress dAtA i d j e :
  skip_body dAtA (i, d) = inl (j, e) -> 0 <= i -> len dAtA < 2 ^ 63 - 8 -> i < j < 2 ^ 63 /\ i < len dAtA.
Proof.
  unfold skip_body. st_unfold. intros H Hi Hl.
  destruct (Z.ltb_spec i (len dAtA)); [|done].
  destruct (varint wrap_u64 dAtA i) as [[w k]|] eqn:E; [|done].
  apply varint_progress in E; [|done].
  destruct (skip_value (Z.land w 7) dAtA k d) as [[j' e']|] eqn:E'; [|done].
  apply skip_value_progress in E'; [|lia|done].
  repeat case_match; simplify_eq. lia.
Qed.

Lemma skip_body_result dAtA i d n :
  skip_body dAtA (i, d) = inr (Ok n) -> 0 <= i -> len dAtA < 2 ^ 63 - 8 -> i < n < 2 ^ 63.
Proof.
  unfold skip_body. st_unfold. intros H Hi Hl.
  destruct (Z.ltb_spec i (len dAtA)); [|done].
  destruct (varint wrap_u64 dAtA i) as [[w k]|] eqn:E; [|done].
  apply varint_progress in E; [|done].
  destruct (skip_value (Z.land w 7) dAtA k d) as [[j' e']|] eqn:E'; [|done].
  apply skip_value_progress in E'; [|lia|done].
  repeat case_match; simplify_eq. lia.
Qed.

(** [skip] returns on every input, past at least one byte. *)
Lemma skip_returns dAtA : len dAtA < 2 ^ 63 - 8 -> returns (skip_body dAtA) (0, 0) (skip dAtA).
Proof.
  intros Hl. unfold skip.
  destruct (iterate_returns (skip_body dAtA) (fun s => Z.to_nat (len dAtA - s.1))
    (fun s => 0 <= s.1) (S (length dAtA)) (0, 0)) as (r & -> & Hr); [|cbn; lia|cbn; unfold len; lia|done].
  intros [i d] [j e] Hi H. apply skip_body_progress in H; cbn in *; lia.
Qed.

Lemma varint_error wrap dAtA i err : varint wrap dAtA i = Err err -> err <> out_of_fuel.
Proof.
  unfold varint. generalize 0, shifts. intros acc sh. revert i acc.
  induction sh as [|s sh IH]; intros i acc; cbn [read_varint]; [by intros [= <-]|].
  destruct (dAtA !! Z.to_nat i); [|by intros [= <-]]. case_match; [done|apply IH].
Qed.

Lemma skip_body_error dAtA s err : skip_body dAtA s = inr (Err err) -> err <> out_of_fuel.
Proof.
  destruct s as [i d]. unfold skip_body, skip_value. st_unfold. intros H.
  destruct (varint wrap_u64 dAtA i) as [[w k]|] eqn:E; [apply varint_error in E || idtac|apply varint_error in E].
  all: repeat (case_match; simplify_eq/=; try done).
  all: by eapply varint_error.
Qed.

(** [skip] returns, and not for want of fuel. *)
Lemma skip_ends dAtA : len dAtA < 2 ^ 63 - 8 ->
  returns (skip_body dAtA) (0, 0) (skip dAtA) /\ skip dAtA <> Err out_of_fuel.
Proof.
  intros Hl. pose proof (skip_returns dAtA Hl) as H. split; [done|].
  revert H. generalize (skip dAtA). generalize (0, 0). intros s r H.
  induction H as [s r E|s s' r E _ IH]; [|done]. intros ->. by apply skip_body_error in E.
Qed.

Lemma skip_positive dAtA n : skip dAtA = Ok n -> len dAtA < 2 ^ 63 - 8 -> 0 < n < 2 ^ 63.
Proof.
  intros H Hl. pose proof (skip_returns dAtA Hl) as Hr. rewrite H in Hr. clear H.
  assert (Hgen : forall s r, returns (skip_body dAtA) s r -> 0 <= s.1 ->
            forall m, r = Ok m -> s.1 < m < 2 ^ 63).
  { clear n Hr. intros s r. induction 1 as [[i d] r E|[i d] [j e] r E _ IH]; intros Hi m ->; cbn in *.
    - by apply skip_body_result in E.
    - apply skip_body_progress in E; [|done..]. specialize (IH ltac:(lia) m eq_refl). lia. }
  exact (Hgen _ _ Hr (Z.le_refl 0) n eq_refl).
Qed.

Lemma skip_field_progress dAtA i j :
  skip_field dAtA i = Ok j -> 0 <= i < len dAtA -> len dAtA < 2 ^ 63 - 8 -> i < j <= len dAtA.
Proof.
  unfold skip_field. st_unfold. intros H Hi Hl.
  destruct (skip _) as [n|] eqn:E; [|done].
  apply skip_positive in E; [|unfold len in *; rewrite length_drop; lia].
  pose proof (wrap_i64_add i n). repeat case_match; simplify_eq. lia.
Qed.

(** ** Unmarshalling returns *)

(** The cases consume input. *)
Definition cases_progress {M} (cases : FieldCases M) : Prop :=
  forall f w dAtA pre i m m' j, 0 <= pre < i -> i <= len dAtA -> len dAtA < 2 ^ 63 - 8 ->
    cases f w dAtA pre i m = Ok (m', j) -> pre < j <= len dAtA.

Lemma unknown_field_progress {M} dAtA pre i (m m' : M) j :
  unknown_field dAtA pre m = Ok (m', j) -> 0 <= pre < i -> i <= len dAtA -> len dAtA < 2 ^ 63 - 8 ->
  pre < j <= len dAtA.
Proof.
  unfold unknown_field. st_unfold. intros H Hp Hi Hl.
  destruct (skip_field dAtA pre) eqn:E; simplify_eq. apply skip_field_progress in E; lia.
Qed.

Lemma field_of_ok {A M} w want (read : result (A * Z)) (store : A -> result M) m i :
  field_of w want read store = Ok (m, i) ->
  w = want /\ exists v, read = Ok (v, i) /\ store v = Ok m.
Proof.
  unfold field_of. st_unfold. intros H. destruct (Z.eqb_spec w want); [|done]. cbn in H.
  destruct read as [[v j]|]; [|done]. destruct (store v) eqn:E; [|done]. simplify_eq. eauto.
Qed.

Lemma Unmarshal_returns {M} (cases : FieldCases M) dAtA m :
  cases_progress cases -> len dAtA < 2 ^ 63 - 8 ->
  returns (unmarshal_body cases dAtA) (m, 0) (Unmarshal_with cases dAtA m).
Proof.
  intros Hc Hl. unfold Unmarshal_with.
  destruct (iterate_returns (unmarshal_body cases dAtA) (fun s => Z.to_nat (len dAtA - s.2))
    (fun s => 0 <= s.2) (S (length dAtA)) (m, 0)) as (r & -> & Hr); [|cbn; lia|cbn; unfold len; lia|done].
  intros [m1 i] [m2 j] Hi H. cbn in *. unfold unmarshal_body, read_field in H. st_unfold in H.
  destruct (Z.ltb_spec i (len dAtA)); [|destruct (len dAtA <? i); congruence].
  destruct (varint wrap_u64 dAtA i) as [[w k]|] eqn:E; [|done].
  apply varint_progress in E; [|done].
  destruct (_ =? 4); [done|]. destruct (_ <=? 0); [done|].
  destruct (cases _ _ _ _ _ _) as [[m3 j']|] eqn:Ec; simplify_eq.
  apply Hc in Ec; lia.
Qed.
