(* ===== verification/WireFacts.v ===== *)
(** * What the protobuf writers write is read back

    [writes m chunk]: whatever the buffer, the writer [m] called at an index with room for
    [chunk] before it puts [chunk] there and returns the index before it.  Writers compose, and
    [read_field] reads a field that was written. *)
From S2P Require Import Prelude Hash Wire.
From Stdlib Require Import ZifyBool.
#[local] Open Scope Z_scope.

(** ** Writers *)

Definition writes (m : Z -> ST bytes Z) (chunk : bytes) : Prop :=
  forall pre slot out, length slot = length chunk ->
    m (len (pre ++ slot)) (pre ++ slot ++ out) = (Ret (len pre), pre ++ chunk ++ out).

Definition writes_ok (m : Z -> ST bytes (result Z)) (chunk : bytes) : Prop :=
  forall pre slot out, length slot = length chunk ->
    m (len (pre ++ slot)) (pre ++ slot ++ out) = (Ret (Ok (len pre)), pre ++ chunk ++ out).

Lemma drop_len {A} (pre out : list A) : drop (Z.to_nat (len pre)) (pre ++ out) = out.
Proof. unfold len. by rewrite Nat2Z.id, drop_app_length. Qed.

Lemma take_len {A} (pre out : list A) : take (Z.to_nat (len pre)) (pre ++ out) = pre.
Proof. unfold len. by rewrite Nat2Z.id, take_app_length. Qed.

Lemma writes_nil : writes (fun i => mret i) [].
Proof. intros pre [|] out H; [|done]. st_unfold. by rewrite app_nil_r. Qed.

(** A slot for two chunks is two slots. *)
Lemma split_slot (c1 c2 slot : bytes) :
  length slot = length (c2 ++ c1) ->
  exists s1 s2, slot = s2 ++ s1 /\ length s1 = length c1 /\ length s2 = length c2.
Proof.
  intros H. exists (drop (length c2) slot), (take (length c2) slot).
  rewrite length_app in H. rewrite take_drop, length_drop, length_take. repeat split; lia.
Qed.

Lemma writes_bind m1 m2 c1 c2 :
  writes m1 c1 -> writes m2 c2 -> writes (fun i => i ← m1 i; m2 i) (c2 ++ c1).
Proof.
  intros H1 H2 pre slot out Hl. destruct (split_slot _ _ _ Hl) as (s1 & s2 & -> & L1 & L2).
  st_unfold. rewrite <- app_assoc, (app_assoc pre s2 s1), (app_assoc pre s2 (s1 ++ out)).
  rewrite (H1 (pre ++ s2) s1 out L1). rewrite <- (app_assoc pre).
  rewrite (H2 pre s2 (c1 ++ out) L2). by rewrite <- app_assoc.
Qed.

Lemma writes_bind_ok m1 m2 c1 c2 :
  writes m1 c1 -> writes_ok m2 c2 -> writes_ok (fun i => i ← m1 i; m2 i) (c2 ++ c1).
Proof.
  intros H1 H2 pre slot out Hl. destruct (split_slot _ _ _ Hl) as (s1 & s2 & -> & L1 & L2).
  st_unfold. rewrite <- app_assoc, (app_assoc pre s2 s1), (app_assoc pre s2 (s1 ++ out)).
  rewrite (H1 (pre ++ s2) s1 out L1). rewrite <- (app_assoc pre).
  rewrite (H2 pre s2 (c1 ++ out) L2). by rewrite <- app_assoc.
Qed.

Lemma writes_ok_bind (m1 m2 : Z -> ST bytes (result Z)) c1 c2 :
  writes_ok m1 c1 -> writes_ok m2 c2 ->
  writes_ok (fun i => r ← m1 i; match r with Err e => mret (Err e) | Ok i => m2 i end) (c2 ++ c1).
Proof.
  intros H1 H2 pre slot out Hl. destruct (split_slot _ _ _ Hl) as (s1 & s2 & -> & L1 & L2).
  st_unfold. rewrite <- app_assoc, (app_assoc pre s2 s1), (app_assoc pre s2 (s1 ++ out)).
  rewrite (H1 (pre ++ s2) s1 out L1). rewrite <- (app_assoc pre).
  rewrite (H2 pre s2 (c1 ++ out) L2). by rewrite <- app_assoc.
Qed.

Lemma writes_done : writes_ok (fun i => mret (Ok i)) [].
Proof. intros pre [|] out H; [|done]. st_unfold. by rewrite app_nil_r. Qed.

Lemma put_spec (pre out : bytes) x b :
  put (len pre) b (pre ++ [x] ++ out) = (Ret tt, pre ++ [Z_byte b] ++ out).
Proof.
  unfold put. replace (_ && _) with true by (unfold len; rewrite !length_app; cbn [length]; lia).
  unfold len. rewrite Nat2Z.id, insert_app_r_alt by lia. by rewrite Nat.sub_diag.
Qed.

Lemma writes_put_back b : writes (put_back b) [Z_byte b].
Proof.
  intros pre [|x [|]] out H; try done. unfold put_back. st_unfold.
  replace (len (pre ++ [x]) - 1) with (len pre) by (pob_simpl; lia).
  by rewrite put_spec.
Qed.

Lemma writes_copy_back src : writes (copy_back src) src.
Proof.
  intros pre slot out H. unfold copy_back, copy_at. st_unfold.
  replace (len (pre ++ slot) - len src) with (len pre) by (unfold len; rewrite length_app; lia).
  replace (_ && _) with true by (unfold len; rewrite !length_app; lia).
  unfold len. rewrite Nat2Z.id, take_app_length.
  replace (Nat.min _ _) with (length src) by (rewrite !length_app; lia).
  rewrite firstn_all, <- H, <- drop_drop, !drop_app_length. done.
Qed.

(** ** Varints *)

Fixpoint varint_bytes (n : nat) (v : Z) : bytes :=
  match n with
  | O => []
  | S n => if 128 <=? v then Z_byte (Z.lor (Z.land v 0x7f) 0x80) :: varint_bytes n (Z.shiftr v 7)
           else [Z_byte v]
  end.
Definition varint_of (v : Z) : bytes := varint_bytes 10 v.

Lemma sov_small v : 0 <= v < 128 -> sov v = 1.
Proof.
  intros H. assert (Hv : In v (map Z.of_nat (seq 0 128))).
  { apply in_map_iff. exists (Z.to_nat v). rewrite in_seq. lia. }
  clear H. revert v Hv. apply List.Forall_forall. vm_compute. repeat constructor.
Qed.

Lemma sov_large v : 128 <= v -> sov v = 1 + sov (Z.shiftr v 7).
Proof.
  intros H.
  assert (Hlen : forall x, 0 < x -> Len64 (Z.lor x 1) = Z.log2 x + 1).
  { intros x Hx. unfold Len64. rewrite Z.log2_lor by lia. change (Z.log2 1) with 0.
    rewrite Z.max_l by apply Z.log2_nonneg. destruct (Z.eqb_spec (Z.lor x 1) 0) as [E|]; [|done].
    apply Z.lor_eq_0_iff in E. lia. }
  assert (0 < Z.shiftr v 7).
  { rewrite Z.shiftr_div_pow2 by lia. apply Z.div_str_pos. lia. }
  assert (7 <= Z.log2 v) by (apply (Z.log2_le_mono 128 v); lia).
  unfold sov. rewrite !Hlen by lia. rewrite Z.log2_shiftr by lia. rewrite Z.max_r by lia.
  replace (Z.log2 v + 1 + 6) with (Z.log2 v - 7 + 1 + 6 + 1 * 7) by lia.
  rewrite Z.div_add by lia. lia.
Qed.

Lemma shiftr7_bound v n : 0 <= v < 128 ^ (n + 1) -> 0 <= n -> 0 <= Z.shiftr v 7 < 128 ^ n.
Proof.
  intros Hv Hn. rewrite Z.shiftr_div_pow2 by lia. rewrite Z.pow_add_r in Hv by lia.
  split; [apply Z.div_pos; lia|]. apply Z.div_lt_upper_bound; lia.
Qed.

Lemma varint_bytes_length n v :
  0 <= v < 128 ^ Z.of_nat (S n) -> len (varint_bytes (S n) v) = sov v.
Proof.
  revert v. induction n as [|n IH]; intros v Hv.
  - cbn [varint_bytes]. destruct (Z.leb_spec 128 v); [lia|]. by rewrite sov_small by lia.
  - remember (S n) as m. cbn [varint_bytes]. destruct (Z.leb_spec 128 v).
    + rewrite len_cons, sov_large by done. subst m. rewrite IH; [done|].
      apply shiftr7_bound; [|lia]. by replace (Z.of_nat (S n) + 1) with (Z.of_nat (S (S n))) by lia.
    + by rewrite sov_small by lia.
Qed.

Lemma varint_of_length v : in_u64 v -> len (varint_of v) = sov v.
Proof. intros H. apply varint_bytes_length. unfold in_u64 in H. lia. Qed.

Lemma varint_of_short v : len (varint_of v) <= 10.
Proof.
  assert (H : forall n v, len (varint_bytes n v) <= Z.of_nat n).
  { induction n as [|n IH]; intros w; cbn [varint_bytes]; [done|].
    destruct (128 <=? w); rewrite len_cons; [specialize (IH (Z.shiftr w 7))|rewrite len_nil]; lia. }
  apply (H 10%nat).
Qed.

Lemma encode_loop_spec n pre slot out v :
  0 <= v < 128 ^ Z.of_nat (S n) -> length slot = length (varint_bytes (S n) v) ->
  encode_loop (S n) (len pre) v (pre ++ slot ++ out) = (Ret tt, pre ++ varint_bytes (S n) v ++ out).
Proof.
  revert pre slot v. induction n as [|n IH]; intros pre slot v Hv Hl.
  - cbn [varint_bytes encode_loop] in *. destruct (Z.leb_spec 128 v); [lia|].
    destruct slot as [|x [|]]; try done. apply put_spec.
  - remember (S n) as m. cbn [varint_bytes encode_loop] in *. destruct (Z.leb_spec 128 v).
    + destruct slot as [|x slot]; [done|]. st_unfold.
      change ((x :: slot) ++ out) with ([x] ++ (slot ++ out)). rewrite put_spec.
      specialize (IH (pre ++ [Z_byte (Z.lor (Z.land v 127) 128)]) slot (Z.shiftr v 7)).
      replace (len (pre ++ _)) with (len pre + 1) in IH by (rewrite len_app, len_cons, len_nil; lia).
      rewrite <- !app_assoc in IH.
      apply IH; [|by injection Hl]. subst m.
      apply shiftr7_bound; [|lia]. by replace (Z.of_nat (S n) + 1) with (Z.of_nat (S (S n))) by lia.
    + destruct slot as [|x [|]]; try done. apply put_spec.
Qed.

Lemma writes_varint v : in_u64 v -> writes (fun i => encodeVarint i v) (varint_of v).
Proof.
  intros Hv pre slot out Hl. unfold encodeVarint. st_unfold.
  replace (len (pre ++ slot) - sov v) with (len pre).
  - unfold varint_of in *. rewrite encode_loop_spec; [done| |done]. unfold in_u64 in Hv. lia.
  - rewrite <- varint_of_length by done. unfold len. rewrite length_app. lia.
Qed.

(** ** Reading back *)

Fixpoint shifts_from (n : nat) (s : Z) : list Z :=
  match n with O => [] | S n => s :: shifts_from n (s + 7) end.

Lemma drop_cons_lookup {A} k (l : list A) x r : drop k l = x :: r -> l !! k = Some x /\ drop (S k) l = r.
Proof.
  intros H. rewrite <- (Nat.add_1_r k), <- drop_drop, H. split; [|done].
  rewrite <- (Nat.add_0_r k), <- lookup_drop, H. done.
Qed.

Lemma lor_shiftl_add a b s : 0 <= s -> 0 <= a < 2 ^ s -> Z.lor a (Z.shiftl b s) = a + Z.shiftl b s.
Proof.
  intros Hs Ha. assert (Hz : Z.land a (Z.shiftl b s) = 0).
  { apply Z.bits_inj'. intros k Hk. rewrite Z.land_spec, Z.bits_0.
    destruct (Z.ltb_spec k s); [rewrite Z.shiftl_spec_low by lia; apply andb_false_r|].
    destruct (decide (a = 0)) as [->|]; [by rewrite Z.bits_0|].
    rewrite Z.bits_above_log2; [done|lia|].
    assert (Z.log2 a < s) by (apply Z.log2_lt_pow2; lia). lia. }
  by rewrite Z.add_nocarry_lxor, Z.lxor_lor by done.
Qed.

Lemma land_7f v : Z.land v 0x7f = v mod 128.
Proof. change 0x7f with (Z.ones 7). by rewrite Z.land_ones by lia. Qed.

Lemma group_bits v : 0 <= v ->
  byte_Z (Z_byte (Z.lor (Z.land v 0x7f) 0x80)) = v mod 128 + 128.
Proof.
  intros Hv. rewrite land_7f, byte_Z_byte. pose proof (Z.mod_pos_bound v 128 ltac:(lia)).
  pose proof (lor_shiftl_add (v mod 128) 1 7 ltac:(lia) ltac:(lia)) as E.
  change (Z.shiftl 1 7) with 128 in E. rewrite E. apply Z.mod_small. lia.
Qed.

(** A varint below the bound of the integer type is read back, whatever was read before. *)
Lemma read_varint_spec wrap B n s acc v (dAtA : bytes) i rest :
  (forall z, 0 <= z < B -> wrap z = z) -> 0 <= s -> 0 <= v < 128 ^ Z.of_nat (S n) ->
  0 <= acc < 2 ^ s -> v * 2 ^ s < B -> 0 <= i ->
  drop (Z.to_nat i) dAtA = varint_bytes (S n) v ++ rest ->
  read_varint wrap (shifts_from (S n) s) dAtA i acc
  = Ok (acc + v * 2 ^ s, i + len (varint_bytes (S n) v)).
Proof.
  intros Hw. revert s acc v i. induction n as [|n IH]; intros s acc v i Hs Hv Ha HB Hi Hd.
  all: pose proof (Z.pow_pos_nonneg 2 s) as Hp.
  - cbn [varint_bytes shifts_from read_varint] in *. destruct (Z.leb_spec 128 v); [lia|].
    apply drop_cons_lookup in Hd as [-> Hd]. rewrite byte_Z_byte, (Z.mod_small v) by lia.
    destruct (Z.ltb_spec v 128); [|lia]. rewrite land_7f, Z.mod_small by lia.
    rewrite Hw by (rewrite Z.shiftl_mul_pow2 by lia; nia).
    rewrite lor_shiftl_add, Z.shiftl_mul_pow2 by lia. done.
  - remember (S n) as m. cbn [varint_bytes shifts_from read_varint] in *.
    destruct (Z.leb_spec 128 v).
    + apply drop_cons_lookup in Hd as [-> Hd]. rewrite group_bits by lia.
      pose proof (Z.mod_pos_bound v 128 ltac:(lia)) as Hm. pose proof (Z.div_mod v 128 ltac:(lia)) as Hdm.
      destruct (Z.ltb_spec (v mod 128 + 128) 128); [lia|].
      rewrite land_7f, Z.add_mod, Z.mod_same, Z.add_0_r, !Z.mod_mod by lia.
      assert (v mod 128 * 2 ^ s <= v * 2 ^ s) by (apply Z.mul_le_mono_nonneg_r; lia).
      rewrite Hw by (rewrite Z.shiftl_mul_pow2 by lia; nia).
      rewrite lor_shiftl_add, Z.shiftl_mul_pow2 by lia. subst m.
      assert (Hshift : v * 2 ^ s = v mod 128 * 2 ^ s + Z.shiftr v 7 * 2 ^ (s + 7)).
      { rewrite Z.shiftr_div_pow2, Z.pow_add_r by lia. change (2 ^ 7) with 128 in *. nia. }
      rewrite (IH (s + 7) _ (Z.shiftr v 7)); [| | | | | |].
      * rewrite len_cons. do 2 f_equal; lia.
      * lia.
      * apply shiftr7_bound; [|lia]. by replace (Z.of_nat (S n) + 1) with (Z.of_nat (S (S n))) by lia.
      * rewrite Z.pow_add_r by lia. change (2 ^ 7) with 128. nia.
      * nia.
      * lia.
      * by rewrite Z2Nat.inj_add, Nat.add_1_r by lia.
    + apply drop_cons_lookup in Hd as [-> Hd]. rewrite byte_Z_byte, (Z.mod_small v) by lia.
      destruct (Z.ltb_spec v 128); [|lia]. rewrite land_7f, Z.mod_small by lia.
      rewrite Hw by (rewrite Z.shiftl_mul_pow2 by lia; nia).
      rewrite lor_shiftl_add, Z.shiftl_mul_pow2 by lia. done.
Qed.

Lemma varint_spec wrap B v (dAtA : bytes) i rest :
  (forall z, 0 <= z < B -> wrap z = z) -> B <= 2 ^ 64 -> 0 <= v < B -> 0 <= i ->
  drop (Z.to_nat i) dAtA = varint_of v ++ rest ->
  varint wrap dAtA i = Ok (v, i + len (varint_of v)).
Proof.
  intros Hw HB Hv Hi Hd. unfold varint. change shifts with (shifts_from 10 0).
  rewrite (read_varint_spec wrap B 9 0 0 v dAtA i rest); try done; try lia.
  do 2 f_equal. lia.
Qed.

(** ** Messages *)

(** [m] writes the encoding [chunk] at the end of its buffer. *)
Definition encodes (m : ST bytes (result Z)) (chunk : bytes) : Prop :=
  forall pre slot, length slot = length chunk ->
    m (pre ++ slot) = (Ret (Ok (len chunk)), pre ++ chunk).

Definition field_bytes (tag : Z) (v : bytes) : bytes := [Z_byte tag] ++ varint_of (len v) ++ v.

Lemma len_app_lt {A} (l k : list A) B : len (l ++ k) < B -> len l < B /\ len k < B.
Proof. unfold len. rewrite length_app. lia. Qed.

Lemma len_field_lt tag v B : len (field_bytes tag v) < B -> len v < B.
Proof. intros H. by apply len_app_lt in H as [_ [_ H]%len_app_lt]. Qed.

Lemma encodes_fields fields chunk :
  writes_ok fields chunk -> encodes (MarshalToSizedBuffer_with fields) chunk.
Proof.
  intros H pre slot Hl. unfold MarshalToSizedBuffer_with. st_unfold.
  specialize (H pre slot [] Hl). rewrite !app_nil_r in H. rewrite H.
  do 3 f_equal. unfold len. rewrite length_app. lia.
Qed.

Lemma Marshal_encodes size m chunk :
  encodes m chunk -> size = len chunk -> Marshal_with size m = Ret (Ok chunk).
Proof.
  intros H ->. unfold Marshal_with. specialize (H [] (replicate (Z.to_nat (len chunk)) x00)).
  cbn [app] in H. rewrite H by (rewrite length_replicate; unfold len; lia).
  replace (_ && _) with true by (unfold len; lia).
  do 2 f_equal. unfold len. by rewrite Nat2Z.id, firstn_all.
Qed.

Lemma writes_bytes_field tag v :
  len v < 2 ^ 64 -> writes (put_bytes_field tag v) (field_bytes tag v).
Proof.
  intros Hl. assert (Hv : in_u64 (len v)) by (unfold in_u64; pose proof (len_nonneg v); lia).
  unfold put_bytes_field, field_bytes. rewrite wrap_u64_id by done. rewrite app_assoc.
  apply (writes_bind (copy_back v) (fun i => i ← encodeVarint i (len v); put_back tag i));
    [apply writes_copy_back|].
  apply (writes_bind (fun i => encodeVarint i (len v)) (put_back tag));
    [by apply writes_varint|apply writes_put_back].
Qed.

Lemma writes_message tag m v :
  encodes m v -> len v < 2 ^ 64 -> writes_ok (put_message tag m) (field_bytes tag v).
Proof.
  intros Hm Hl pre slot out Hs.
  assert (Hv : in_u64 (len v)) by (unfold in_u64; pose proof (len_nonneg v); lia).
  unfold field_bytes in *. rewrite app_assoc in Hs.
  destruct (split_slot _ _ _ Hs) as (s1 & s2 & -> & L1 & L2).
  unfold put_message, on_prefix. st_unfold.
  replace (_ && _) with true by (unfold len; rewrite !length_app; lia).
  unfold len at 1 2. rewrite !Nat2Z.id, (app_assoc pre (s2 ++ s1) out), take_app_length, drop_app_length.
  rewrite (app_assoc pre s2 s1), (Hm (pre ++ s2) s1 L1), wrap_u64_id by done.
  replace (len _ - len v) with (len (pre ++ s2)) by (unfold len; rewrite !length_app; lia).
  pose proof (writes_bind (fun i => encodeVarint i (len v)) (put_back tag) _ _
    (writes_varint _ Hv) (writes_put_back tag) pre s2 (v ++ out) L2) as Hw.
  st_unfold in Hw. rewrite <- (app_assoc (pre ++ s2) v out), <- (app_assoc pre s2 (v ++ out)).
  destruct (encodeVarint _ _ _) as [[i|] b]; [|done].
  rewrite Hw. by rewrite <- !app_assoc.
Qed.

(** [consumes cases m chunk m']: reading [chunk] turns the message [m] into [m']. *)
Definition consumes {M} (cases : FieldCases M) (m : M) (chunk : bytes) (m' : M) : Prop :=
  forall dAtA i rest r, 0 <= i -> len dAtA < 2 ^ 63 - 8 -> drop (Z.to_nat i) dAtA = chunk ++ rest ->
    returns (unmarshal_body cases dAtA) (m', i + len chunk) r ->
    returns (unmarshal_body cases dAtA) (m, i) r.

Lemma consumes_nil {M} (cases : FieldCases M) m : consumes cases m [] m.
Proof. intros dAtA i rest r _ _ _. by rewrite len_nil, Z.add_0_r. Qed.

Lemma consumes_app {M} (cases : FieldCases M) m1 m2 m3 c1 c2 :
  consumes cases m1 c1 m2 -> consumes cases m2 c2 m3 -> consumes cases m1 (c1 ++ c2) m3.
Proof.
  intros H1 H2 dAtA i rest r Hi Hl Hd Hr. rewrite <- app_assoc in Hd.
  apply (H1 dAtA i (c2 ++ rest)); [done..|].
  apply (H2 dAtA _ rest); [pose proof (len_nonneg c1); lia|done| |].
  - rewrite Z2Nat.inj_add, <- drop_drop, Hd by (done || apply len_nonneg).
    unfold len. by rewrite Nat2Z.id, drop_app_length.
  - by rewrite <- Z.add_assoc, <- len_app.
Qed.

Lemma returns_deterministic {S R} (body : S -> S + R) s r1 r2 :
  returns body s r1 -> returns body s r2 -> r1 = r2.
Proof.
  intros H1. induction H1 as [s r1 E|s s' r1 E _ IH]; intros H2;
    inversion H2 as [? ? E2|? ? ? E2]; subst; rewrite E in E2; simplify_eq; auto.
Qed.

(** A message whose encoding is consumed is unmarshalled. *)
Lemma Unmarshal_consumes {M} (cases : FieldCases M) m chunk m' :
  cases_progress cases -> len chunk < 2 ^ 63 - 8 -> consumes cases m chunk m' ->
  Unmarshal_with cases chunk m = Ok m'.
Proof.
  intros Hp Hl Hc. eapply returns_deterministic; [by apply Unmarshal_returns|].
  apply (Hc chunk 0 [] (Ok m')); [done|done|by rewrite app_nil_r|].
  apply returns_now. unfold unmarshal_body. by rewrite Z.add_0_l, Z.ltb_irrefl.
Qed.

(** One field: the tag byte, then what the case of the field reads. *)
Lemma consumes_field {M} (cases : FieldCases M) m tag v m' :
  0 < Z.shiftr tag 3 -> tag < 128 -> Z.land tag 7 <> 4 ->
  (forall dAtA pre i rest, 0 <= i -> len dAtA < 2 ^ 63 - 8 -> drop (Z.to_nat i) dAtA = v ++ rest ->
     cases (Z.shiftr tag 3) (Z.land tag 7) dAtA pre i m = Ok (m', i + len v)) ->
  consumes cases m ([Z_byte tag] ++ v) m'.
Proof.
  intros Hf Ht Hw Hc dAtA i rest r Hi Hl Hd Hr.
  assert (Htag : 0 < tag).
  { rewrite Z.shiftr_div_pow2 in Hf by lia. apply Z.nle_gt. intros Hn.
    apply (Z.div_le_mono _ _ (2 ^ 3)) in Hn; [|lia]. change (0 / 2 ^ 3) with 0 in Hn. lia. }
  assert (Hi' : i < len dAtA).
  { assert (Hlen : (0 < length (drop (Z.to_nat i) dAtA))%nat) by (rewrite Hd; cbn; lia).
    rewrite length_drop in Hlen. unfold len. lia. }
  eapply returns_later; [|exact Hr]. unfold unmarshal_body, read_field.
  destruct (Z.ltb_spec i (len dAtA)); [|lia]. st_unfold.
  assert (Hvt : varint_of tag = [Z_byte tag]).
  { unfold varint_of. cbn [varint_bytes]. destruct (Z.leb_spec 128 tag); [lia|done]. }
  rewrite (varint_spec wrap_u64 (2 ^ 64) tag dAtA i (v ++ rest)); [|by intros; apply wrap_u64_id|lia..|].
  2: by rewrite Hvt, app_assoc.
  rewrite Hvt. destruct (Z.eqb_spec (Z.land tag 7) 4); [done|].
  assert (Hs : Z.shiftr tag 3 < 16).
  { rewrite Z.shiftr_div_pow2 by lia. apply Z.div_lt_upper_bound; lia. }
  assert (Hw32 : wrap_i32 (Z.shiftr tag 3) = Z.shiftr tag 3).
  { unfold wrap_i32. rewrite Z.mod_small; lia. }
  rewrite Hw32. destruct (Z.leb_spec (Z.shiftr tag 3) 0); [lia|].
  rewrite (Hc dAtA i (i + len [Z_byte tag]) rest); [|pose proof (len_nonneg [Z_byte tag]); lia|done|].
  - do 2 f_equal. rewrite len_app. lia.
  - apply drop_cons_lookup in Hd as [_ Hd]. rewrite len_cons, len_nil.
    by replace (Z.to_nat (i + (1 + 0))) with (S (Z.to_nat i)) by lia.
Qed.

Lemma read_delimited_spec dAtA d i rest :
  0 <= i <= len dAtA -> len dAtA < 2 ^ 63 -> drop (Z.to_nat i) dAtA = d ++ rest ->
  read_delimited dAtA (len d, i) = Ok (d, i + len d).
Proof.
  intros Hi Hl Hd. unfold read_delimited. pose proof (len_nonneg d).
  assert (i + len d <= len dAtA).
  { pose proof (f_equal length Hd) as Hlen. rewrite length_drop, length_app in Hlen.
    unfold len in *. lia. }
  rewrite wrap_i64_id by (unfold in_i64; lia). unfold slice.
  repeat case_match; try lia. rewrite Hd. do 2 f_equal.
  replace (Z.to_nat _) with (length d) by (unfold len; lia). by rewrite take_app_length.
Qed.

(** After a varint comes its delimited value. *)
Lemma drop_varint v (dAtA : bytes) i rest :
  0 <= i -> in_u64 v -> drop (Z.to_nat i) dAtA = varint_of v ++ rest ->
  0 <= i + len (varint_of v) <= len dAtA /\ drop (Z.to_nat (i + len (varint_of v))) dAtA = rest.
Proof.
  intros Hi Hv Hd. pose proof (f_equal length Hd) as Hlen. rewrite length_drop, length_app in Hlen.
  assert (0 < len (varint_of v)).
  { unfold varint_of. cbn [varint_bytes]. case_match; rewrite len_cons;
      match goal with |- context [len ?l] => pose proof (len_nonneg l) end; lia. }
  split; [unfold len in *; lia|].
  rewrite Z2Nat.inj_add, <- drop_drop, Hd by lia. unfold len. by rewrite Nat2Z.id, drop_app_length.
Qed.

Lemma len_bound dAtA i (v : bytes) (d rest : bytes) :
  drop (Z.to_nat i) dAtA = (v ++ d) ++ rest -> len dAtA < 2 ^ 63 - 8 -> len d < 2 ^ 63.
Proof.
  intros Hd. apply (f_equal length) in Hd. rewrite length_drop, !length_app in Hd.
  unfold len. lia.
Qed.

Lemma read_bytes_spec dAtA d i rest :
  0 <= i -> len dAtA < 2 ^ 63 - 8 -> drop (Z.to_nat i) dAtA = (varint_of (len d) ++ d) ++ rest ->
  read_bytes dAtA i = Ok (d, i + len (varint_of (len d) ++ d)).
Proof.
  intros Hi Hl Hd. pose proof (len_bound _ _ _ _ _ Hd Hl). pose proof (len_nonneg d).
  rewrite <- app_assoc in Hd. unfold read_bytes. st_unfold.
  rewrite (varint_spec wrap_i64 (2 ^ 63) (len d) dAtA i (d ++ rest));
    [|intros; apply wrap_i64_id; unfold in_i64; lia|lia..|done].
  apply drop_varint in Hd as [Hi' Hd]; [|done|unfold in_u64; lia].
  rewrite (read_delimited_spec _ d _ rest) by (done || lia). rewrite len_app. do 2 f_equal. lia.
Qed.

Lemma read_string_spec dAtA d i rest :
  0 <= i -> len dAtA < 2 ^ 63 - 8 -> drop (Z.to_nat i) dAtA = (varint_of (len d) ++ d) ++ rest ->
  read_string dAtA i = Ok (d, i + len (varint_of (len d) ++ d)).
Proof.
  intros Hi Hl Hd. pose proof (len_bound _ _ _ _ _ Hd Hl). pose proof (len_nonneg d).
  rewrite <- app_assoc in Hd. unfold read_string. st_unfold.
  rewrite (varint_spec wrap_u64 (2 ^ 64) (len d) dAtA i (d ++ rest));
    [|intros; apply wrap_u64_id; unfold in_u64; lia|lia..|done].
  apply drop_varint in Hd as [Hi' Hd]; [|done|unfold in_u64; lia].
  rewrite wrap_i64_id by (unfold in_i64; lia).
  rewrite (read_delimited_spec _ d _ rest) by (done || lia). rewrite len_app. do 2 f_equal. lia.
Qed.

(** The three kinds of fields of the messages. *)
Lemma consumes_bytes_field {M} (cases : FieldCases M) m tag d (store : bytes -> result M) m' :
  0 < Z.shiftr tag 3 -> tag < 128 -> Z.land tag 7 = 2 ->
  (forall dAtA pre i, cases (Z.shiftr tag 3) (Z.land tag 7) dAtA pre i m
     = field_of (Z.land tag 7) 2 (read_bytes dAtA i) store) ->
  store d = Ok m' -> consumes cases m (field_bytes tag d) m'.
Proof.
  intros Hf Ht Hw Hc Hs. apply consumes_field; [done..|by rewrite Hw|].
  intros dAtA pre i rest Hi Hl Hd. rewrite Hc, Hw. unfold field_of. cbn [negb Z.eqb Pos.eqb].
  rewrite (read_bytes_spec _ d i rest) by done. st_unfold. by rewrite Hs.
Qed.

Lemma consumes_string_field {M} (cases : FieldCases M) m tag d (store : bytes -> result M) m' :
  0 < Z.shiftr tag 3 -> tag < 128 -> Z.land tag 7 = 2 ->
  (forall dAtA pre i, cases (Z.shiftr tag 3) (Z.land tag 7) dAtA pre i m
     = field_of (Z.land tag 7) 2 (read_string dAtA i) store) ->
  store d = Ok m' -> consumes cases m (field_bytes tag d) m'.
Proof.
  intros Hf Ht Hw Hc Hs. apply consumes_field; [done..|by rewrite Hw|].
  intros dAtA pre i rest Hi Hl Hd. rewrite Hc, Hw. unfold field_of. cbn [negb Z.eqb Pos.eqb].
  rewrite (read_string_spec _ d i rest) by done. st_unfold. by rewrite Hs.
Qed.

Lemma consumes_varint_field {M} (cases : FieldCases M) m tag wrap B v (store : Z -> result M) m' :
  0 < Z.shiftr tag 3 -> tag < 128 -> Z.land tag 7 = 0 ->
  (forall z, 0 <= z < B -> wrap z = z) -> B <= 2 ^ 64 -> 0 <= v < B ->
  (forall dAtA pre i, cases (Z.shiftr tag 3) (Z.land tag 7) dAtA pre i m
     = field_of (Z.land tag 7) 0 (varint wrap dAtA i) store) ->
  store v = Ok m' -> consumes cases m ([Z_byte tag] ++ varint_of v) m'.
Proof.
  intros Hf Ht Hw Hwrap HB Hv Hc Hs. apply consumes_field; [done..|by rewrite Hw|].
  intros dAtA pre i rest Hi Hl Hd. rewrite Hc, Hw. unfold field_of. cbn [negb Z.eqb].
  rewrite (varint_spec wrap B v dAtA i rest) by done. st_unfold. by rewrite Hs.
Qed.

(** Every case of a switch reads on, or is the default. *)
Ltac cases_progress :=
  intros f w dAtA pre i m m' j Hp Hi Hl H;
  repeat match type of H with
         | (if ?b then _ else _) = _ => destruct b
         end; try done;
  first [by apply (unknown_field_progress _ _ i) in H
        |apply field_of_ok in H as (_ & v & Hr & _);
         first [apply read_bytes_progress in Hr | apply read_string_progress in Hr
               |apply varint_progress in Hr]; lia].

(** ** Steps and optional fields *)

Lemma writes_then_ok m1 m2 c1 c2 :
  writes_ok m1 c1 -> writes_ok m2 c2 -> writes_ok (then_ok m1 m2) (c2 ++ c1).
Proof. apply writes_ok_bind. Qed.

Lemma writes_always m c : writes m c -> writes_ok (always m) c.
Proof. intros H pre slot out Hl. unfold always. st_unfold. by rewrite (H pre slot out Hl). Qed.

Lemma writes_when b m c : writes m c -> writes (when b m) (if b then c else []).
Proof. intros H. destruct b; [done|apply writes_nil]. Qed.

(** The size of a field. *)
Lemma field_size tag v : len v < 2 ^ 64 -> len (field_bytes tag v) = 1 + len v + sov (wrap_u64 (len v)).
Proof.
  intros H. assert (Hu : in_u64 (len v)) by (unfold in_u64; pose proof (len_nonneg v); lia).
  unfold field_bytes. rewrite !len_app, varint_of_length, wrap_u64_id, len_cons, len_nil by done. lia.
Qed.

Lemma optional_field_size tag v : len (if 0 <? len v then field_bytes tag v else []) < 2 ^ 62 ->
  len (if 0 <? len v then field_bytes tag v else [])
  = if 0 <? len v then 1 + len v + sov (wrap_u64 (len v)) else 0.
Proof.
  destruct (0 <? len v); [|done]. intros H%len_field_lt. apply field_size. lia.
Qed.

Lemma consumes_if {M} (cases : FieldCases M) (b : bool) m chunk m' m'' :
  (b = true -> consumes cases m chunk m') ->
  m'' = (if b then m' else m) -> consumes cases m (if b then chunk else []) m''.
Proof. intros H ->. destruct b; [auto|apply consumes_nil]. Qed.

Lemma field_nonempty tag v : field_bytes tag v <> [].
Proof. done. Qed.

Lemma optional_string_consumes {M} (cases : FieldCases M) m s (set : string -> M) :
  (forall dAtA pre i, cases 1 2 dAtA pre i m
     = field_of 2 2 (read_string dAtA i) (fun v => Ok (set (bytes_string v)))) ->
  m = set "" ->
  consumes cases m (if 0 <? len (string_bytes s) then field_bytes 0xa (string_bytes s) else []) (set s).
Proof.
  intros Hc Hm. apply (consumes_if _ _ _ _ (set s)).
  - intros _. eapply (consumes_string_field _ _ 0xa); [done..|exact Hc|].
    cbn beta. by rewrite string_bytes_string.
  - destruct s as [|a s]; [done|]. cbn [string_bytes]. rewrite len_cons.
    pose proof (len_nonneg (string_bytes s)). by replace (0 <? _) with true by lia.
Qed.

(** Any 64-bit value survives the varint encoding, written into any buffer with [sov] bytes of
    room before the offset: encodeVarint writes exactly those bytes, leaves the others, returns
    the index of the first one, and reading at that index gives the value and the old offset. *)
Theorem varint_roundtrip (v : Z) (pre slot out : bytes) :
  in_u64 v -> len slot = sov v -> len (pre ++ slot ++ out) < 2 ^ 63 ->
  exists chunk, len chunk = sov v /\ 1 <= sov v <= 10 /\
    encodeVarint (len (pre ++ slot)) v (pre ++ slot ++ out) = (Ret (len pre), pre ++ chunk ++ out) /\
    varint wrap_u64 (pre ++ chunk ++ out) (len pre) = Ok (v, len (pre ++ slot)).
Proof.
  intros Hv Hs Hl. exists (varint_of v). pose proof (varint_of_length v Hv) as Hlen.
  split; [done|]. split.
  { rewrite <- Hlen. split; [|apply varint_of_short].
    unfold varint_of. cbn [varint_bytes]. case_match; rewrite len_cons;
      match goal with |- context [len ?l] => pose proof (len_nonneg l) end; lia. }
  split; [apply (writes_varint v Hv); unfold len in *; lia|].
  unfold in_u64 in Hv.
  rewrite (varint_spec wrap_u64 (2 ^ 64) v _ (len pre) out);
    [|intros; by apply wrap_u64_id|lia|lia|apply len_nonneg|apply drop_len].
  by rewrite len_app, Hs, Hlen.
Qed.

Lemma varint_roundtrip_witness :
  exists chunk, len chunk = sov 300 /\ 1 <= sov 300 <= 10 /\
    encodeVarint (len ([x0a] ++ [x00; x00])) 300 ([x0a] ++ [x00; x00] ++ [xff])
      = (Ret (len [x0a]), [x0a] ++ chunk ++ [xff]) /\
    varint wrap_u64 ([x0a] ++ chunk ++ [xff]) (len [x0a]) = Ok (300, len ([x0a] ++ [x00; x00])).
Proof.
  apply (varint_roundtrip 300 [x0a] [x00; x00] [xff]).
  - unfold in_u64. lia.
  - vm_compute. reflexivity.
  - vm_compute. reflexivity.
Defined.
