(* ===== verification/BuilderWire.v ===== *)
(** * x/builder/types: the encodings of the messages

    The Size, MarshalToSizedBuffer, Marshal and Unmarshal methods of genesis.pb.go, tx.pb.go and
    query.pb.go, in terms of the routines of Wire.  A marshalling method writes the fields from
    the last to the first. *)
From S2P Require Import Prelude Hash Sdk BuilderTypes Wire.
#[local] Open Scope Z_scope.

Section Messages.
Context {sdk : Sdk} {W : WireLib}.

(** The coins: [put_message] of the coin's own method. *)
Definition put_coin (tag : Z) (c : Coin) : Z -> ST bytes (result Z) :=
  put_message tag (Coin_MarshalToSizedBuffer c).

(** The decimal: [MarshalTo] on [dAtA[i:]] after making room for its [Size]. *)
Definition put_dec (tag : Z) (d : Dec) (i : Z) : ST bytes (result Z) :=
  let size := Dec_Size d in
  let i := i - size in
  buf ← st_get;
  if (0 <=? i) && (i <=? len buf) then
    let '(r, buf') := Dec_MarshalTo d (drop (Z.to_nat i) buf) in
    _ ← st_put (take (Z.to_nat i) buf ++ buf');
    r ← st_lift r;
    match r with
    | Err err => mret (Err err)
    | Ok _ =>
        i ← encodeVarint i (wrap_u64 size);
        i ← put_back tag i;
        mret (Ok i)
    end
  else st_panic "slice bounds out of range".

(** ** genesis.pb.go: Params *)

Definition Params_Size (m : Params) : Z :=
  (if negb (MaxBundleSize m =? 0) then 1 + sov (wrap_u64 (MaxBundleSize m)) else 0) +
  (let l := len (default [] (EscrowAccountAddress m)) in
   if 0 <? l then 1 + l + sov (wrap_u64 l) else 0) +
  (let l := Coin_Size (ReserveFee m) in 1 + l + sov (wrap_u64 l)) +
  (let l := Coin_Size (MinBidIncrement m) in 1 + l + sov (wrap_u64 l)) +
  (if FrontRunningProtection m then 2 else 0) +
  (let l := Dec_Size (ProposerFee m) in 1 + l + sov (wrap_u64 l)).

Definition Params_MarshalToSizedBuffer (m : Params) : ST bytes (result Z) :=
  MarshalToSizedBuffer_with
    (then_ok (put_dec 0x32 (ProposerFee m))
    (then_ok (always (when (FrontRunningProtection m)
       (fun i => i ← put_back (if FrontRunningProtection m then 1 else 0) i; put_back 0x28 i)))
    (then_ok (put_coin 0x22 (MinBidIncrement m))
    (then_ok (put_coin 0x1a (ReserveFee m))
    (then_ok (always (when (0 <? len (default [] (EscrowAccountAddress m)))
       (put_bytes_field 0x12 (default [] (EscrowAccountAddress m)))))
    (always (when (negb (MaxBundleSize m =? 0))
       (fun i => i ← encodeVarint i (wrap_u64 (MaxBundleSize m)); put_back 0x8 i)))))))).

Definition Params_Marshal (m : Params) : outcome (result bytes) :=
  Marshal_with (Params_Size m) (Params_MarshalToSizedBuffer m).

Definition set_MaxBundleSize (x : Z) (m : Params) : Params :=
  MkParams x (EscrowAccountAddress m) (ReserveFee m) (MinBidIncrement m) (FrontRunningProtection m) (ProposerFee m).
Definition set_EscrowAccountAddress (x : option bytes) (m : Params) : Params :=
  MkParams (MaxBundleSize m) x (ReserveFee m) (MinBidIncrement m) (FrontRunningProtection m) (ProposerFee m).
Definition set_ReserveFee (x : Coin) (m : Params) : Params :=
  MkParams (MaxBundleSize m) (EscrowAccountAddress m) x (MinBidIncrement m) (FrontRunningProtection m) (ProposerFee m).
Definition set_MinBidIncrement (x : Coin) (m : Params) : Params :=
  MkParams (MaxBundleSize m) (EscrowAccountAddress m) (ReserveFee m) x (FrontRunningProtection m) (ProposerFee m).
Definition set_FrontRunningProtection (x : bool) (m : Params) : Params :=
  MkParams (MaxBundleSize m) (EscrowAccountAddress m) (ReserveFee m) (MinBidIncrement m) x (ProposerFee m).
Definition set_ProposerFee (x : Dec) (m : Params) : Params :=
  MkParams (MaxBundleSize m) (EscrowAccountAddress m) (ReserveFee m) (MinBidIncrement m) (FrontRunningProtection m) x.

(** The field switch of [Params.Unmarshal].  The escrow address is overwritten, and never nil. *)
Definition Params_cases : FieldCases Params := fun fieldNum wireType dAtA preIndex iNdEx m =>
  if fieldNum =? 1 then
    field_of wireType 0 (varint wrap_u32 dAtA iNdEx) (fun v => Ok (set_MaxBundleSize v m))
  else if fieldNum =? 2 then
    field_of wireType 2 (read_bytes dAtA iNdEx) (fun v => Ok (set_EscrowAccountAddress (Some v) m))
  else if fieldNum =? 3 then
    field_of wireType 2 (read_bytes dAtA iNdEx)
      (fun v => c ← Coin_Unmarshal v (ReserveFee m); Ok (set_ReserveFee c m))
  else if fieldNum =? 4 then
    field_of wireType 2 (read_bytes dAtA iNdEx)
      (fun v => c ← Coin_Unmarshal v (MinBidIncrement m); Ok (set_MinBidIncrement c m))
  else if fieldNum =? 5 then
    field_of wireType 0 (varint wrap_i64 dAtA iNdEx)
      (fun v => Ok (set_FrontRunningProtection (negb (v =? 0)) m))
  else if fieldNum =? 6 then
    field_of wireType 2 (read_string dAtA iNdEx)
      (fun v => d ← Dec_Unmarshal v (ProposerFee m); Ok (set_ProposerFee d m))
  else unknown_field dAtA preIndex m.

Definition Params_Unmarshal (dAtA : bytes) (m : Params) : result Params :=
  Unmarshal_with Params_cases dAtA m.

(** [Params{}] *)
Definition Params_zero : Params :=
  MkParams 0 None Coin_zero_value Coin_zero_value false Dec_zero_value.

(** ** genesis.pb.go: GenesisState *)

Definition GenesisState_Size (m : GenesisState) : Z :=
  let l := Params_Size (gs_Params m) in 1 + l + sov (wrap_u64 l).

Definition GenesisState_MarshalToSizedBuffer (m : GenesisState) : ST bytes (result Z) :=
  MarshalToSizedBuffer_with (put_message 0xa (Params_MarshalToSizedBuffer (gs_Params m))).

Definition GenesisState_Marshal (m : GenesisState) : outcome (result bytes) :=
  Marshal_with (GenesisState_Size m) (GenesisState_MarshalToSizedBuffer m).

Definition GenesisState_cases : FieldCases GenesisState := fun fieldNum wireType dAtA preIndex iNdEx m =>
  if fieldNum =? 1 then
    field_of wireType 2 (read_bytes dAtA iNdEx)
      (fun v => p ← Params_Unmarshal v (gs_Params m); Ok (MkGenesisState p))
  else unknown_field dAtA preIndex m.

Definition GenesisState_Unmarshal (dAtA : bytes) (m : GenesisState) : result GenesisState :=
  Unmarshal_with GenesisState_cases dAtA m.

(** ** tx.pb.go: MsgAuctionBid *)

Definition MsgAuctionBid_Size (m : MsgAuctionBid) : Z :=
  (let l := len (string_bytes (msg_Bidder m)) in if 0 <? l then 1 + l + sov (wrap_u64 l) else 0) +
  (let l := Coin_Size (msg_Bid m) in 1 + l + sov (wrap_u64 l)) +
  fold_left (fun n b => n + (1 + len b + sov (wrap_u64 (len b)))) (msg_Transactions m) 0.

(** The loop over the transactions runs from the last one. *)
Definition put_transactions (txs : list bytes) (i : Z) : ST bytes Z :=
  fold_left (fun m b => i ← m; put_bytes_field 0x1a b i) (rev txs) (mret i).

Definition MsgAuctionBid_MarshalToSizedBuffer (m : MsgAuctionBid) : ST bytes (result Z) :=
  MarshalToSizedBuffer_with
    (then_ok (always (put_transactions (msg_Transactions m)))
    (then_ok (put_coin 0x12 (msg_Bid m))
    (always (when (0 <? len (string_bytes (msg_Bidder m)))
       (put_bytes_field 0xa (string_bytes (msg_Bidder m))))))).

Definition MsgAuctionBid_Marshal (m : MsgAuctionBid) : outcome (result bytes) :=
  Marshal_with (MsgAuctionBid_Size m) (MsgAuctionBid_MarshalToSizedBuffer m).

Definition MsgAuctionBid_cases : FieldCases MsgAuctionBid := fun fieldNum wireType dAtA preIndex iNdEx m =>
  if fieldNum =? 1 then
    field_of wireType 2 (read_string dAtA iNdEx)
      (fun v => Ok (MkMsgAuctionBid (bytes_string v) (msg_Bid m) (msg_Transactions m)))
  else if fieldNum =? 2 then
    field_of wireType 2 (read_bytes dAtA iNdEx)
      (fun v => c ← Coin_Unmarshal v (msg_Bid m); Ok (MkMsgAuctionBid (msg_Bidder m) c (msg_Transactions m)))
  else if fieldNum =? 3 then
    field_of wireType 2 (read_bytes dAtA iNdEx)
      (fun v => Ok (MkMsgAuctionBid (msg_Bidder m) (msg_Bid m) (msg_Transactions m ++ [v])))
  else unknown_field dAtA preIndex m.

Definition MsgAuctionBid_Unmarshal (dAtA : bytes) (m : MsgAuctionBid) : result MsgAuctionBid :=
  Unmarshal_with MsgAuctionBid_cases dAtA m.

(** [MsgAuctionBid{}] *)
Definition MsgAuctionBid_zero : MsgAuctionBid := MkMsgAuctionBid "" Coin_zero_value [].

(** ** tx.pb.go: MsgUpdateParams *)

Definition MsgUpdateParams_Size (m : MsgUpdateParams) : Z :=
  (let l := len (string_bytes (Authority m)) in if 0 <? l then 1 + l + sov (wrap_u64 l) else 0) +
  (let l := Params_Size (mup_Params m) in 1 + l + sov (wrap_u64 l)).

Definition MsgUpdateParams_MarshalToSizedBuffer (m : MsgUpdateParams) : ST bytes (result Z) :=
  MarshalToSizedBuffer_with
    (then_ok (put_message 0x12 (Params_MarshalToSizedBuffer (mup_Params m)))
    (always (when (0 <? len (string_bytes (Authority m)))
       (put_bytes_field 0xa (string_bytes (Authority m)))))).

Definition MsgUpdateParams_Marshal (m : MsgUpdateParams) : outcome (result bytes) :=
  Marshal_with (MsgUpdateParams_Size m) (MsgUpdateParams_MarshalToSizedBuffer m).

Definition MsgUpdateParams_cases : FieldCases MsgUpdateParams := fun fieldNum wireType dAtA preIndex iNdEx m =>
  if fieldNum =? 1 then
    field_of wireType 2 (read_string dAtA iNdEx)
      (fun v => Ok (MkMsgUpdateParams (bytes_string v) (mup_Params m)))
  else if fieldNum =? 2 then
    field_of wireType 2 (read_bytes dAtA iNdEx)
      (fun v => p ← Params_Unmarshal v (mup_Params m); Ok (MkMsgUpdateParams (Authority m) p))
  else unknown_field dAtA preIndex m.

Definition MsgUpdateParams_Unmarshal (dAtA : bytes) (m : MsgUpdateParams) : result MsgUpdateParams :=
  Unmarshal_with MsgUpdateParams_cases dAtA m.

(** [MsgUpdateParams{}] *)
Definition MsgUpdateParams_zero : MsgUpdateParams := MkMsgUpdateParams "" Params_zero.

(** ** The messages without fields: both responses of tx.pb.go, the request of query.pb.go *)

Definition Empty_Size (m : unit) : Z := 0.
Definition Empty_MarshalToSizedBuffer (m : unit) : ST bytes (result Z) :=
  MarshalToSizedBuffer_with (fun i => mret (Ok i)).
Definition Empty_Marshal (m : unit) : outcome (result bytes) :=
  Marshal_with (Empty_Size m) (Empty_MarshalToSizedBuffer m).
Definition Empty_cases : FieldCases unit := fun fieldNum wireType dAtA preIndex iNdEx m =>
  unknown_field dAtA preIndex m.
Definition MsgAuctionBidResponse_Unmarshal (dAtA : bytes) (m : unit) : result unit :=
  Unmarshal_with Empty_cases dAtA m.
Definition MsgUpdateParamsResponse_Unmarshal (dAtA : bytes) (m : unit) : result unit :=
  Unmarshal_with Empty_cases dAtA m.
Definition QueryParamsRequest_Unmarshal (dAtA : bytes) (m : unit) : result unit :=
  Unmarshal_with Empty_cases dAtA m.

(** ** query.pb.go: QueryParamsResponse, whose only field holds the parameters *)

Definition QueryParamsResponse_Size (m : Params) : Z :=
  let l := Params_Size m in 1 + l + sov (wrap_u64 l).
Definition QueryParamsResponse_MarshalToSizedBuffer (m : Params) : ST bytes (result Z) :=
  MarshalToSizedBuffer_with (put_message 0xa (Params_MarshalToSizedBuffer m)).
Definition QueryParamsResponse_Marshal (m : Params) : outcome (result bytes) :=
  Marshal_with (QueryParamsResponse_Size m) (QueryParamsResponse_MarshalToSizedBuffer m).
Definition QueryParamsResponse_cases : FieldCases Params := fun fieldNum wireType dAtA preIndex iNdEx m =>
  if fieldNum =? 1 then
    field_of wireType 2 (read_bytes dAtA iNdEx) (fun v => Params_Unmarshal v m)
  else unknown_field dAtA preIndex m.
Definition QueryParamsResponse_Unmarshal (dAtA : bytes) (m : Params) : result Params :=
  Unmarshal_with QueryParamsResponse_cases dAtA m.
End Messages.

(** The codec the keeper uses. *)
#[export] Instance wire_codec {sdk : Sdk} {W : WireLib} : ParamsCodec := {
  codec_Marshal := Params_Marshal;
  codec_Unmarshal bz := Params_Unmarshal bz Params_zero }.
