(* ===== verification/BuilderWireFacts.v ===== *)
(** * The encodings of the builder's messages: sizes, round trips, arbitrary input

    The reference encodings ([Params_bytes], ...) are concatenations of fields.  Marshalling
    produces them without a panic in the [Size] computed beforehand, and unmarshalling reads the
    message back. *)
From S2P Require Import Prelude Hash Sdk SkipListFacts Concrete BuilderTypes Wire WireFacts BuilderWire.
From Stdlib Require Import ZifyBool.
#[local] Open Scope Z_scope.

Section Encodings.
Context {sdk : Sdk} {DL : DecLaws sdk} {W : WireLib} {WL : WireLaws W}.

(** ** Reference encodings *)

Definition Params_bytes (p : Params) : bytes :=
  (((((if negb (MaxBundleSize p =? 0) then [Z_byte 0x8] ++ varint_of (MaxBundleSize p) else []) ++
      (if 0 <? len (default [] (EscrowAccountAddress p))
       then field_bytes 0x12 (default [] (EscrowAccountAddress p)) else [])) ++
     field_bytes 0x1a (coin_bytes (ReserveFee p))) ++
    field_bytes 0x22 (coin_bytes (MinBidIncrement p))) ++
   (if FrontRunningProtection p then [Z_byte 0x28] ++ [Z_byte 1] else [])) ++
  field_bytes 0x32 (dec_bytes (ProposerFee p)).

Definition transactions_bytes (txs : list bytes) : bytes := concat (map (field_bytes 0x1a) txs).

Definition MsgAuctionBid_bytes (m : MsgAuctionBid) : bytes :=
  ((if 0 <? len (string_bytes (msg_Bidder m))
    then field_bytes 0xa (string_bytes (msg_Bidder m)) else []) ++
   field_bytes 0x12 (coin_bytes (msg_Bid m))) ++ transactions_bytes (msg_Transactions m).

Definition MsgUpdateParams_bytes (m : MsgUpdateParams) : bytes :=
  (if 0 <? len (string_bytes (Authority m))
   then field_bytes 0xa (string_bytes (Authority m)) else []) ++
  field_bytes 0x12 (Params_bytes (mup_Params m)).

(** A coin with an amount; a decimal that is not nil. *)
Definition coin_ok (c : Coin) : Prop := exists a, Amount c = Some a /\ Z.abs a < 2 ^ 256.
Definition dec_ok (d : Dec) : Prop := exists v, dec_val d = Some v /\ Z.abs v < 2 ^ 256.

(** The parameters that have an encoding of their own: an empty escrow address is encoded like
    a nil one. *)
Record params_ok (p : Params) : Prop := {
  ok_bundle : in_u32 (MaxBundleSize p);
  ok_escrow : EscrowAccountAddress p <> Some [];
  ok_reserve : coin_ok (ReserveFee p);
  ok_increment : coin_ok (MinBidIncrement p);
  ok_fee : dec_ok (ProposerFee p);
  ok_size : len (Params_bytes p) < 2 ^ 62 }.

(** ** Writers *)

Lemma writes_coin tag c :
  coin_ok c -> len (coin_bytes c) < 2 ^ 64 -> writes_ok (put_coin tag c) (field_bytes tag (coin_bytes c)).
Proof.
  intros (a & Ha & Hb) Hl. apply writes_message; [|done].
  intros pre slot Hs. by apply (coin_marshal c a).
Qed.

Lemma writes_dec tag d :
  dec_ok d -> len (dec_bytes d) < 2 ^ 64 -> writes_ok (put_dec tag d) (field_bytes tag (dec_bytes d)).
Proof.
  intros (v & Hv & Hb) Hl pre slot out Hs.
  unfold field_bytes in *. rewrite app_assoc in Hs.
  destruct (split_slot _ _ _ Hs) as (s1 & s2 & -> & L1 & L2).
  assert (Hu : in_u64 (len (dec_bytes d))) by (unfold in_u64; pose proof (len_nonneg (dec_bytes d)); lia).
  unfold put_dec. rewrite dec_size. st_unfold.
  replace (len _ - len (dec_bytes d)) with (len (pre ++ s2)) by (unfold len; rewrite !length_app; lia).
  replace (_ && _) with true by (unfold len; rewrite !length_app; lia).
  rewrite <- (app_assoc s2), (app_assoc pre s2), drop_len, take_len.
  rewrite (dec_marshal d v Hv Hb s1 out L1), wrap_u64_id by done.
  pose proof (writes_bind (fun i => encodeVarint i (len (dec_bytes d))) (put_back tag) _ _
    (writes_varint _ Hu) (writes_put_back tag) pre s2 (dec_bytes d ++ out) L2) as Hw.
  st_unfold in Hw. rewrite <- (app_assoc pre s2).
  destruct (encodeVarint _ _ _) as [[i|] b]; [|done]. rewrite Hw. by rewrite <- !app_assoc.
Qed.

Lemma writes_transactions txs :
  Forall (fun b => len b < 2 ^ 64) txs -> writes (put_transactions txs) (transactions_bytes txs).
Proof.
  unfold put_transactions, transactions_bytes. induction txs as [|b txs IH]; intros Hf.
  - apply writes_nil.
  - apply list.Forall_cons in Hf as [Hb Hf]. cbn [rev map concat].
    intros pre slot out Hl. rewrite fold_left_app. cbn [fold_left].
    apply (writes_bind (fun i => fold_left (fun m b => i ← m; put_bytes_field 0x1a b i) (rev txs) (mret i))
      (put_bytes_field 0x1a b)); [by apply IH|by apply writes_bytes_field|done].
Qed.

Lemma Params_encodes p : params_ok p -> encodes (Params_MarshalToSizedBuffer p) (Params_bytes p).
Proof.
  intros [Hb He Hr Hi Hf Hs]. unfold Params_MarshalToSizedBuffer. apply encodes_fields.
  unfold Params_bytes in *.
  apply len_app_lt in Hs as [Hs Hfee%len_field_lt].
  apply len_app_lt in Hs as [Hs _]. apply len_app_lt in Hs as [Hs Hinc%len_field_lt].
  apply len_app_lt in Hs as [Hs Hres%len_field_lt]. apply len_app_lt in Hs as [_ Hesc].
  apply writes_then_ok; [apply writes_dec; [done|lia]|].
  apply writes_then_ok.
  { apply writes_always. destruct (FrontRunningProtection p); [|apply writes_nil].
    apply (writes_bind (put_back 1) (put_back 0x28)); apply writes_put_back. }
  apply writes_then_ok; [apply writes_coin; [done|lia]|].
  apply writes_then_ok; [apply writes_coin; [done|lia]|].
  assert (Hu : in_u64 (MaxBundleSize p)) by (unfold in_u32, in_u64 in *; lia).
  apply writes_then_ok; apply writes_always.
  - destruct (0 <? len _); [|apply writes_nil]. apply writes_bytes_field.
    apply len_field_lt in Hesc. lia.
  - apply writes_when. rewrite wrap_u64_id by done.
    apply (writes_bind (fun i => encodeVarint i _) (put_back 8)); [by apply writes_varint|apply writes_put_back].
Qed.

Lemma Params_size p : params_ok p -> Params_Size p = len (Params_bytes p).
Proof.
  intros [Hb He Hr Hi Hf Hs]. unfold Params_bytes, Params_Size in *. rewrite !len_app.
  apply len_app_lt in Hs as [Hs Hfee%len_field_lt].
  apply len_app_lt in Hs as [Hs _]. apply len_app_lt in Hs as [Hs Hinc%len_field_lt].
  apply len_app_lt in Hs as [Hs Hres%len_field_lt]. apply len_app_lt in Hs as [_ Hesc].
  rewrite optional_field_size by done. rewrite !field_size by lia. rewrite !coin_size, dec_size.
  assert (Hu : in_u64 (MaxBundleSize p)) by (unfold in_u32, in_u64 in *; lia).
  assert (E1 : len (if negb (MaxBundleSize p =? 0) then [Z_byte 8] ++ varint_of (MaxBundleSize p) else [])
          = if negb (MaxBundleSize p =? 0) then 1 + sov (wrap_u64 (MaxBundleSize p)) else 0).
  { destruct (negb _); [|done]. by rewrite len_app, varint_of_length, wrap_u64_id by done. }
  assert (E2 : len (if FrontRunningProtection p then [Z_byte 40] ++ [Z_byte 1] else [])
          = if FrontRunningProtection p then 2 else 0) by by destruct (FrontRunningProtection p).
  rewrite E1, E2. lia.
Qed.

Lemma Params_Marshal_ok p : params_ok p -> Params_Marshal p = Ret (Ok (Params_bytes p)).
Proof. intros H. apply Marshal_encodes; [by apply Params_encodes|by apply Params_size]. Qed.

(** ** Readers *)

Lemma Params_progress : cases_progress Params_cases.
Proof. unfold Params_cases. cases_progress. Qed.
Lemma GenesisState_progress : cases_progress GenesisState_cases.
Proof. unfold GenesisState_cases. cases_progress. Qed.
Lemma MsgAuctionBid_progress : cases_progress MsgAuctionBid_cases.
Proof. unfold MsgAuctionBid_cases. cases_progress. Qed.
Lemma MsgUpdateParams_progress : cases_progress MsgUpdateParams_cases.
Proof. unfold MsgUpdateParams_cases. cases_progress. Qed.
Lemma QueryParamsResponse_progress : cases_progress QueryParamsResponse_cases.
Proof. unfold QueryParamsResponse_cases. cases_progress. Qed.
Lemma Empty_progress : cases_progress Empty_cases.
Proof. unfold Empty_cases. cases_progress. Qed.

Lemma consumes_coin_params tag c (set : Coin -> Params -> Params) (get : Params -> Coin) m :
  0 < Z.shiftr tag 3 -> tag < 128 -> Z.land tag 7 = 2 ->
  (forall dAtA pre i, Params_cases (Z.shiftr tag 3) (Z.land tag 7) dAtA pre i m
     = field_of (Z.land tag 7) 2 (read_bytes dAtA i) (fun v => c ← Coin_Unmarshal v (get m); Ok (set c m))) ->
  get m = Coin_zero_value -> coin_ok c ->
  consumes Params_cases m (field_bytes tag (coin_bytes c)) (set c m).
Proof.
  intros Hf Ht Hw Hc Hg (a & Ha & Hb). eapply consumes_bytes_field; [done..|exact Hc|].
  rewrite Hg. st_unfold. by rewrite (coin_unmarshal c a Ha Hb).
Qed.

Lemma Params_consumes p : params_ok p -> consumes Params_cases Params_zero (Params_bytes p) p.
Proof.
  intros [Hb He Hr Hi (v & Hv & Hvb) _]. destruct p as [mb esc res inc frp fee]. cbn in *.
  unfold Params_bytes. cbn [MaxBundleSize EscrowAccountAddress ReserveFee MinBidIncrement
    FrontRunningProtection ProposerFee].
  pose (p1 := set_MaxBundleSize mb Params_zero).
  pose (p2 := set_EscrowAccountAddress esc p1). pose (p3 := set_ReserveFee res p2).
  pose (p4 := set_MinBidIncrement inc p3). pose (p5 := set_FrontRunningProtection frp p4).
  apply (consumes_app _ _ p5); [apply (consumes_app _ _ p4); [apply (consumes_app _ _ p3);
    [apply (consumes_app _ _ p2); [apply (consumes_app _ _ p1)|]|]|]|].
  - apply (consumes_if _ _ _ _ p1); [intros _|].
    + eapply (consumes_varint_field _ _ 8 wrap_u32 (2 ^ 32)); try done; intros; try by apply wrap_u32_id.
    + destruct (Z.eqb_spec mb 0) as [->|]; done.
  - apply (consumes_if _ _ _ _ p2).
    + destruct esc as [[|x esc]|]; [done| |done]. intros _.
      eapply (consumes_bytes_field _ _ 0x12); [done..|reflexivity|done].
    + destruct esc as [[|x esc]|]; [done| |done].
      unfold default, id. rewrite len_cons. pose proof (len_nonneg esc).
      by replace (0 <? 1 + len esc) with true by lia.
  - by apply (consumes_coin_params 0x1a res set_ReserveFee ReserveFee p2).
  - by apply (consumes_coin_params 0x22 inc set_MinBidIncrement MinBidIncrement p3).
  - apply (consumes_if _ _ _ _ p5); [intros ->|by destruct frp].
    eapply (consumes_varint_field _ _ 0x28 wrap_i64 (2 ^ 63) 1); try done; intros;
      apply wrap_i64_id; unfold in_i64; lia.
  - eapply (consumes_string_field _ _ 0x32); [done..|reflexivity|].
    change (ProposerFee p5) with Dec_zero_value. st_unfold. by rewrite (dec_unmarshal fee v Hv Hvb).
Qed.

Lemma Params_Unmarshal_bytes p : params_ok p -> Params_Unmarshal (Params_bytes p) Params_zero = Ok p.
Proof.
  intros H. apply Unmarshal_consumes; [apply Params_progress| |by apply Params_consumes].
  destruct H. lia.
Qed.

Lemma Params_bytes_nonempty p : Params_bytes p <> [].
Proof. unfold Params_bytes. intros H. apply app_nil in H as [_ H]. by apply field_nonempty in H. Qed.

#[export] Instance wire_codec_laws : ParamsCodecLaws wire_codec.
Proof.
  refine {| storable := params_ok |}. intros p H. exists (Params_bytes p).
  split; [by apply Params_Marshal_ok|]. split; [apply Params_bytes_nonempty|].
  by apply Params_Unmarshal_bytes.
Defined.

(** ** The other messages *)

(** A message whose only field holds the parameters. *)
Lemma nested_encodes tag p :
  params_ok p ->
  encodes (MarshalToSizedBuffer_with (put_message tag (Params_MarshalToSizedBuffer p)))
    (field_bytes tag (Params_bytes p)).
Proof.
  intros H. apply encodes_fields, writes_message; [by apply Params_encodes|]. destruct H. lia.
Qed.

Lemma nested_size tag p :
  params_ok p -> 1 + Params_Size p + sov (wrap_u64 (Params_Size p)) = len (field_bytes tag (Params_bytes p)).
Proof. intros H. rewrite field_size, Params_size by (done || destruct H; lia). done. Qed.

(** A message without an encoding too long to be read back, whose parts have encodings. *)
Record bid_ok (m : MsgAuctionBid) : Prop := {
  ok_bid : coin_ok (msg_Bid m);
  ok_bid_size : len (MsgAuctionBid_bytes m) < 2 ^ 62 }.

Lemma MsgAuctionBid_encodes m : bid_ok m -> encodes (MsgAuctionBid_MarshalToSizedBuffer m) (MsgAuctionBid_bytes m).
Proof.
  intros [Hb Hs]. unfold MsgAuctionBid_bytes in *. apply encodes_fields.
  apply len_app_lt in Hs as [Hs Ht]. apply len_app_lt in Hs as [Ha Hc%len_field_lt].
  apply writes_then_ok; [apply writes_always, writes_transactions|].
  - unfold transactions_bytes in Ht. clear - Ht. induction (msg_Transactions m) as [|b txs IH]; constructor.
    + cbn [map concat] in Ht. apply len_app_lt in Ht as [Ht%len_field_lt _]. lia.
    + cbn [map concat] in Ht. apply len_app_lt in Ht as [_ Ht]. auto.
  - apply writes_then_ok; [apply writes_coin; [done|lia]|]. apply writes_always.
    destruct (0 <? len _); [|apply writes_nil]. apply writes_bytes_field. apply len_field_lt in Ha. lia.
Qed.

Lemma transactions_size txs n :
  len (transactions_bytes txs) < 2 ^ 62 ->
  fold_left (fun n b => n + (1 + len b + sov (wrap_u64 (len b)))) txs n = n + len (transactions_bytes txs).
Proof.
  unfold transactions_bytes. revert n. induction txs as [|b txs IH]; intros n Ht; cbn [fold_left map concat] in *.
  - by rewrite len_nil, Z.add_0_r.
  - apply len_app_lt in Ht as [Hb%len_field_lt Ht]. rewrite IH, len_app, field_size by (done || lia). lia.
Qed.

Lemma MsgAuctionBid_size m : bid_ok m -> MsgAuctionBid_Size m = len (MsgAuctionBid_bytes m).
Proof.
  intros [Hb Hs]. unfold MsgAuctionBid_bytes, MsgAuctionBid_Size in *.
  apply len_app_lt in Hs as [Hs Ht]. apply len_app_lt in Hs as [Ha Hc%len_field_lt].
  rewrite !len_app, optional_field_size, field_size, transactions_size, coin_size by (done || lia). lia.
Qed.

Lemma transactions_consumes b c txs acc :
  consumes MsgAuctionBid_cases (MkMsgAuctionBid b c acc) (transactions_bytes txs)
    (MkMsgAuctionBid b c (acc ++ txs)).
Proof.
  unfold transactions_bytes. revert acc. induction txs as [|tx txs IH]; intros acc; cbn [map concat].
  - rewrite app_nil_r. apply consumes_nil.
  - apply (consumes_app _ _ (MkMsgAuctionBid b c (acc ++ [tx]))).
    + eapply (consumes_bytes_field _ _ 0x1a); [done..|reflexivity|reflexivity].
    + specialize (IH (acc ++ [tx])). by rewrite <- app_assoc in IH.
Qed.

Lemma MsgAuctionBid_consumes m :
  bid_ok m -> consumes MsgAuctionBid_cases MsgAuctionBid_zero (MsgAuctionBid_bytes m) m.
Proof.
  intros [(a & Ha & Hb) _]. destruct m as [b c txs]. cbn in Ha. unfold MsgAuctionBid_bytes.
  cbn [msg_Bidder msg_Bid msg_Transactions].
  apply (consumes_app _ _ (MkMsgAuctionBid b c [])); [|apply transactions_consumes].
  apply (consumes_app _ _ (MkMsgAuctionBid b Coin_zero_value [])).
  - by apply (optional_string_consumes _ _ b (fun b => MkMsgAuctionBid b Coin_zero_value [])).
  - eapply (consumes_bytes_field _ _ 0x12); [done..|reflexivity|].
    cbn [msg_Bid]. st_unfold. by rewrite (coin_unmarshal c a Ha Hb).
Qed.

Lemma MsgUpdateParams_encodes m :
  params_ok (mup_Params m) -> len (MsgUpdateParams_bytes m) < 2 ^ 62 ->
  encodes (MsgUpdateParams_MarshalToSizedBuffer m) (MsgUpdateParams_bytes m).
Proof.
  intros Hp Hs. unfold MsgUpdateParams_bytes in *. apply encodes_fields.
  apply len_app_lt in Hs as [Ha Hs%len_field_lt].
  apply writes_then_ok; [apply writes_message; [by apply Params_encodes|lia]|].
  apply writes_always. destruct (0 <? len _); [|apply writes_nil].
  apply writes_bytes_field. apply len_field_lt in Ha. lia.
Qed.

Lemma MsgUpdateParams_size m :
  params_ok (mup_Params m) -> len (MsgUpdateParams_bytes m) < 2 ^ 62 ->
  MsgUpdateParams_Size m = len (MsgUpdateParams_bytes m).
Proof.
  intros Hp Hs. unfold MsgUpdateParams_bytes, MsgUpdateParams_Size in *.
  apply len_app_lt in Hs as [Ha _].
  by rewrite len_app, optional_field_size, (nested_size 0x12) by done.
Qed.

Lemma MsgUpdateParams_consumes m :
  params_ok (mup_Params m) ->
  consumes MsgUpdateParams_cases MsgUpdateParams_zero (MsgUpdateParams_bytes m) m.
Proof.
  intros Hp. destruct m as [a p]. cbn [mup_Params] in Hp. unfold MsgUpdateParams_bytes. cbn [Authority mup_Params].
  apply (consumes_app _ _ (MkMsgUpdateParams a Params_zero)).
  - by apply (optional_string_consumes _ _ a (fun a => MkMsgUpdateParams a Params_zero)).
  - eapply (consumes_bytes_field _ _ 0x12); [done..|reflexivity|].
    cbn [mup_Params]. st_unfold. by rewrite (Params_Unmarshal_bytes p Hp).
Qed.

(** ** Properties *)

(** C24: parameters with a non-empty escrow address (or a nil one), coins with amounts and a
    proposer fee survive Marshal and Unmarshal: marshalling neither panics nor fails, it fills
    exactly the [Size] computed beforehand, and unmarshalling the bytes gives the parameters
    back. *)
Theorem Params_Marshal_roundtrip (p : Params) :
  params_ok p ->
  exists bz, Params_Marshal p = Ret (Ok bz) /\ len bz = Params_Size p /\ bz <> [] /\
    Params_Unmarshal bz Params_zero = Ok p.
Proof.
  intros H. exists (Params_bytes p). split; [by apply Params_Marshal_ok|].
  split; [by rewrite Params_size|]. split; [apply Params_bytes_nonempty|].
  by apply Params_Unmarshal_bytes.
Qed.

(** A bid message is read back from its bytes. *)
Lemma bid_roundtrip (m : MsgAuctionBid) :
  bid_ok m ->
  exists bz, MsgAuctionBid_Marshal m = Ret (Ok bz) /\ len bz = MsgAuctionBid_Size m /\
    MsgAuctionBid_Unmarshal bz MsgAuctionBid_zero = Ok m.
Proof.
  intros H. exists (MsgAuctionBid_bytes m). rewrite MsgAuctionBid_size by done.
  split; [apply Marshal_encodes; [by apply MsgAuctionBid_encodes|by apply MsgAuctionBid_size]|].
  split; [done|]. apply Unmarshal_consumes; [apply MsgAuctionBid_progress| |by apply MsgAuctionBid_consumes].
  destruct H. lia.
Qed.

(** C25: an auction bid message survives Marshal and Unmarshal, its transactions in order:
    marshalling fills exactly [Size] bytes without a panic, and unmarshalling gives the message
    back. *)
Theorem MsgAuctionBid_Marshal_roundtrip (m : MsgAuctionBid) :
  bid_ok m ->
  exists bz, MsgAuctionBid_Marshal m = Ret (Ok bz) /\ len bz = MsgAuctionBid_Size m /\
    MsgAuctionBid_Unmarshal bz MsgAuctionBid_zero = Ok m.
Proof. apply bid_roundtrip. Qed.

Lemma update_roundtrip m : params_ok (mup_Params m) -> len (MsgUpdateParams_bytes m) < 2 ^ 62 ->
  exists bz, MsgUpdateParams_Marshal m = Ret (Ok bz) /\ MsgUpdateParams_Unmarshal bz MsgUpdateParams_zero = Ok m.
Proof.
  intros Hm Hs. exists (MsgUpdateParams_bytes m).
  split; [apply Marshal_encodes; [by apply MsgUpdateParams_encodes|by apply MsgUpdateParams_size]|].
  apply Unmarshal_consumes; [apply MsgUpdateParams_progress|lia|by apply MsgUpdateParams_consumes].
Qed.

Lemma nested_short p : params_ok p -> len (field_bytes 0xa (Params_bytes p)) < 2 ^ 63 - 8.
Proof.
  intros Hp. rewrite field_size by (destruct Hp; lia). unfold wrap_u64.
  pose proof (varint_of_length (len (Params_bytes p) mod 2 ^ 64)) as Hv.
  pose proof (Z.mod_pos_bound (len (Params_bytes p)) (2 ^ 64) ltac:(lia)).
  rewrite <- Hv by (unfold in_u64; lia).
  pose proof (varint_of_short (len (Params_bytes p) mod 2 ^ 64)). destruct Hp. lia.
Qed.

Lemma genesis_wire_roundtrip gs : params_ok (gs_Params gs) ->
  exists bz, GenesisState_Marshal gs = Ret (Ok bz) /\
    GenesisState_Unmarshal bz (MkGenesisState Params_zero) = Ok gs.
Proof.
  intros Hg. exists (field_bytes 0xa (Params_bytes (gs_Params gs))).
  split; [apply Marshal_encodes; [by apply nested_encodes|by apply nested_size]|].
  apply Unmarshal_consumes; [apply GenesisState_progress|by apply nested_short|].
  destruct gs as [p]. cbn [gs_Params] in *. eapply (consumes_bytes_field _ _ 0xa); [done..|reflexivity|].
  cbn [gs_Params]. st_unfold. by rewrite (Params_Unmarshal_bytes p Hg).
Qed.

Lemma response_roundtrip p : params_ok p ->
  exists bz, QueryParamsResponse_Marshal p = Ret (Ok bz) /\ QueryParamsResponse_Unmarshal bz Params_zero = Ok p.
Proof.
  intros Hp. exists (field_bytes 0xa (Params_bytes p)).
  split; [apply Marshal_encodes; [by apply nested_encodes|by apply nested_size]|].
  apply Unmarshal_consumes; [apply QueryParamsResponse_progress|by apply nested_short|].
  eapply (consumes_bytes_field _ _ 0xa); [done..|reflexivity|]. by apply Params_Unmarshal_bytes.
Qed.

(** The messages that hold parameters (the parameter update, the genesis state, the query
    response) survive Marshal and Unmarshal. *)
Theorem nested_messages_roundtrip (m : MsgUpdateParams) (gs : GenesisState) :
  params_ok (mup_Params m) -> len (MsgUpdateParams_bytes m) < 2 ^ 62 -> params_ok (gs_Params gs) ->
  (exists bz, MsgUpdateParams_Marshal m = Ret (Ok bz) /\
     MsgUpdateParams_Unmarshal bz MsgUpdateParams_zero = Ok m) /\
  (exists bz, GenesisState_Marshal gs = Ret (Ok bz) /\
     GenesisState_Unmarshal bz (MkGenesisState Params_zero) = Ok gs) /\
  (exists bz, QueryParamsResponse_Marshal (gs_Params gs) = Ret (Ok bz) /\
     QueryParamsResponse_Unmarshal bz Params_zero = Ok (gs_Params gs)).
Proof.
  intros Hm Hs Hg.
  split; [by apply update_roundtrip|]. split; [by apply genesis_wire_roundtrip|by apply response_roundtrip].
Qed.

(** The loop of skip ends, with the result of [skip], which is not the end of the fuel. *)
Definition skip_terminates (dAtA : bytes) : Prop :=
  returns (skip_body dAtA) (0, 0) (skip dAtA) /\ skip dAtA <> Err out_of_fuel.

(** C26: unmarshalling any bytes into any message returns: the loop of each Unmarshal method, run
    without a bound on its iterations, ends with the result the definition computes, and so does
    the loop of skip inside it, on whatever it is called; the fuel of the definitions is enough,
    and the error that stands for its end is never the result of skip. *)
Theorem Unmarshal_total (dAtA : bytes) (p : Params) (m : MsgAuctionBid) (u : MsgUpdateParams)
    (gs : GenesisState) (e : unit) :
  len dAtA < 2 ^ 63 - 8 ->
  (forall i : nat, skip_terminates (drop i dAtA)) /\
  returns (unmarshal_body Params_cases dAtA) (p, 0) (Params_Unmarshal dAtA p) /\
  returns (unmarshal_body MsgAuctionBid_cases dAtA) (m, 0) (MsgAuctionBid_Unmarshal dAtA m) /\
  returns (unmarshal_body MsgUpdateParams_cases dAtA) (u, 0) (MsgUpdateParams_Unmarshal dAtA u) /\
  returns (unmarshal_body GenesisState_cases dAtA) (gs, 0) (GenesisState_Unmarshal dAtA gs) /\
  returns (unmarshal_body QueryParamsResponse_cases dAtA) (p, 0) (QueryParamsResponse_Unmarshal dAtA p) /\
  returns (unmarshal_body Empty_cases dAtA) (e, 0) (MsgAuctionBidResponse_Unmarshal dAtA e).
Proof.
  intros Hl. split.
  { intros i. refine (skip_ends (drop i dAtA) _). unfold len in *. rewrite length_drop. lia. }
  split_and!; apply Unmarshal_returns; try done.
  - apply Params_progress.
  - apply MsgAuctionBid_progress.
  - apply MsgUpdateParams_progress.
  - apply GenesisState_progress.
  - apply QueryParamsResponse_progress.
  - apply Empty_progress.
Qed.
End Encodings.

(** ** Witnesses *)

Definition ex_params : Params :=
  {| MaxBundleSize := 300; EscrowAccountAddress := Some (ex_addr 9);
     ReserveFee := MkCoin "stake" (Some 2); MinBidIncrement := MkCoin "stake" (Some 3);
     FrontRunningProtection := true; ProposerFee := (Some (dec_one / 4) : Dec) |}.

Lemma ex_coin_ok a : Z.abs a < 2 ^ 256 -> coin_ok (MkCoin "stake" (Some a)).
Proof. intros H. by exists a. Qed.

Lemma ex_params_ok : params_ok ex_params.
Proof.
  split; cbn; [unfold in_u32; lia|done|by apply ex_coin_ok|by apply ex_coin_ok| |].
  - by exists (dec_one / 4).
  - vm_compute. reflexivity.
Qed.

Definition ex_msg : MsgAuctionBid :=
  {| msg_Bidder := AccAddress_String (ex_addr 1); msg_Bid := MkCoin "stake" (Some 7);
     msg_Transactions := [[x01; x02]; []; [x03]] |}.

Lemma Params_Marshal_roundtrip_witness :
  exists bz, Params_Marshal ex_params = Ret (Ok bz) /\ len bz = Params_Size ex_params /\ bz <> [] /\
    Params_Unmarshal bz Params_zero = Ok ex_params.
Proof. apply (Params_Marshal_roundtrip ex_params). apply ex_params_ok. Defined.

Lemma MsgAuctionBid_Marshal_roundtrip_witness :
  exists bz, MsgAuctionBid_Marshal ex_msg = Ret (Ok bz) /\ len bz = MsgAuctionBid_Size ex_msg /\
    MsgAuctionBid_Unmarshal bz MsgAuctionBid_zero = Ok ex_msg.
Proof.
  apply (MsgAuctionBid_Marshal_roundtrip ex_msg).
  split; [by apply ex_coin_ok|vm_compute; reflexivity].
Defined.

Definition ex_update : MsgUpdateParams := {| Authority := AccAddress_String (ex_addr 8); mup_Params := ex_params |}.
Definition ex_genesis : GenesisState := {| gs_Params := ex_params |}.

Lemma nested_messages_roundtrip_witness :
  (exists bz, MsgUpdateParams_Marshal ex_update = Ret (Ok bz) /\
     MsgUpdateParams_Unmarshal bz MsgUpdateParams_zero = Ok ex_update) /\
  (exists bz, GenesisState_Marshal ex_genesis = Ret (Ok bz) /\
     GenesisState_Unmarshal bz (MkGenesisState Params_zero) = Ok ex_genesis) /\
  (exists bz, QueryParamsResponse_Marshal (gs_Params ex_genesis) = Ret (Ok bz) /\
     QueryParamsResponse_Unmarshal bz Params_zero = Ok (gs_Params ex_genesis)).
Proof.
  apply (nested_messages_roundtrip ex_update ex_genesis);
    [apply ex_params_ok|vm_compute; reflexivity|apply ex_params_ok].
Defined.

(** A truncated field, an unknown field (9), and a nested group. *)
Definition ex_bytes : bytes := map Z_byte [0x4a; 1; 7; 0x53; 0x08; 1; 0x54; 0x12; 200].

Lemma Unmarshal_total_witness :
  match Params_Unmarshal ex_bytes Params_zero with
  | Err err => bool_decide (err = ErrUnexpectedEOF)
  | Ok _ => false
  end = true /\
  returns (unmarshal_body Params_cases ex_bytes) (Params_zero, 0) (Params_Unmarshal ex_bytes Params_zero).
Proof.
  split; [vm_compute; reflexivity|].
  refine (proj1 (proj2 (Unmarshal_total ex_bytes Params_zero MsgAuctionBid_zero MsgUpdateParams_zero
    (MkGenesisState Params_zero) tt _))). vm_compute. reflexivity.
Defined.
