(* ===== verification/BuilderProto.v ===== *)
(** * x/builder/types: the other methods of the generated messages

    genesis.pb.go, tx.pb.go and query.pb.go give every message, besides its encoding, methods for the
    proto package of gogoproto: Reset, String, Descriptor, MarshalTo, the getters and the XXX methods;
    their init functions register the types and the compressed descriptors.  The proto package is the
    class [GogoProto]. *)
From S2P Require Import Prelude Hash Sdk Concrete BuilderTypes Wire BuilderWire BuilderWireFacts.
#[local] Open Scope Z_scope.

(** A slice with the bytes of its array that lie behind it. *)
Record GoSlice : Type := MkGoSlice { visible : bytes; spare : bytes }.
Definition backing (b : GoSlice) : bytes := visible b ++ spare b.

(** The library finds the type of a message by reflection: here, by its name. *)
Class GogoProto : Type := {
  ProtoMessage : Type;
  Registry : Type;
  CompactTextString {T} : string -> option T -> string;
  info_Marshal {T} : string -> GoSlice -> T -> outcome (result bytes);
  info_Merge {T} : string -> option T -> ProtoMessage -> outcome (option T);
  info_DiscardUnknown {T} : string -> option T -> option T;
  RegisterType : string -> string -> Registry -> Registry;
  RegisterFile : string -> bytes -> Registry -> Registry }.

Section Frames.
Context {GP : GogoProto}.

(** [ *m = T{} ] *)
Definition Reset_to {T} (zero : T) : ST (option T) unit :=
  m ← st_get;
  match m with None => st_panic "nil pointer dereference" | Some _ => st_put (Some zero) end.

(** [m.MarshalToSizedBuffer(dAtA[:size])]: a slice may be extended up to its capacity. *)
Definition MarshalTo_with (size : Z) (m : ST bytes (result Z)) : ST GoSlice (result Z) := fun dAtA =>
  let '(r, buf) := on_prefix size m (backing dAtA) in
  let n := length (visible dAtA) in
  (r, MkGoSlice (take n buf) (drop n buf)).

(** Encoding into a buffer; the result is its first bytes. *)
Definition marshal_into (buf : bytes) (m : ST bytes (result Z)) : outcome (result bytes) :=
  match m buf with
  | (Ret (Ok n), buf) =>
      if (0 <=? n) && (n <=? len buf) then Ret (Ok (take (Z.to_nat n) buf)) else Panic "slice bounds out of range"
  | (Ret (Err err), _) => Ret (Err err)
  | (Panic w, _) => Panic w
  end.

Definition XXX_Marshal_with (info : outcome (result bytes)) (m : ST bytes (result Z)) (b : GoSlice)
    (deterministic : bool) : outcome (result bytes) :=
  if deterministic then info else marshal_into (backing b) m.
End Frames.

Section Messages.
Context {sdk : Sdk} {W : WireLib} {GP : GogoProto}.

(** ** genesis.pb.go *)

Definition fileDescriptor_287f1bdff5ccfc33 : bytes := [
  x1f; x8b; x08; x00; x00; x00; x00; x00; x02; xff; x94; x92; xc1; x6e; xd3; x40;
  x10; x86; x63; x5a; x22; xba; x49; xa9; x6a; x55; x91; x5b; x90; x1b; xf5; x00;
  x51; xa5; xec; x2a; x80; x10; xe2; x96; x10; x8a; x90; x38; x44; xee; x09; x2e;
  xd6; x7a; x3d; x75; x57; xe9; xee; x5a; xbb; x1b; x93; xf6; x11; x38; xf1; x18;
  x1c; x7b; x40; x3c; x43; x8f; x15; x27; xc4; xa1; x42; xc9; xa1; xaf; x81; xec;
  x75; x8b; x38; xf6; x62; xd9; xf3; xcd; xfc; xf3; xcf; x78; xd0; xe3; x5c; x25;
  x24; x99; xf1; x93; x14; x34; x29; x06; x24; x03; x09; x86; x1b; x9c; x6b; x65;
  x95; xff; x30; x57; x09; xae; x29; x2e; x06; x3b; x5b; x99; xca; x54; x85; x48;
  xf9; xe6; xb2; x76; x42; xa6; x8c; x50; x86; x24; xd4; x00; x29; x06; x09; x58;
  x3a; x20; x4c; x71; x59; xf3; x4d; x2a; xb8; x54; xa4; x7a; xd6; xa1; x6d; x57;
  x12; x3b; x2d; xf7; xe1; xd0; xde; x18; xb5; xdf; x39; x13; x87; x96; x5a; xf0;
  x5f; xa0; x66; x4e; x35; x15; x26; xf0; xba; x5e; xaf; xf5; xac; x83; xff; x37;
  x85; x27; x15; x1d; xad; x5e; x5c; xed; x36; xa2; x3a; x77; xef; xc7; x0a; x6a;
  x3a; xe0; x3f; x41; x1b; x82; xce; xe3; x64; x26; xd3; x13; x88; x0d; x3f; x83;
  x4a; x69; x3d; x5a; x17; x74; x3e; xaa; xa2; x87; xfc; xac; x6c; xd4; x01; xc3;
  xb4; xfa; x1c; x53; xc6; xd4; x4c; xda; x98; xa6; xa9; x06; x63; x82; x7b; x5d;
  xaf; xd7; x8e; xb6; x1c; x1d; x3a; x38; x74; xcc; x7f; x8b; x5a; x1a; x0c; xe8;
  x02; xe2; x23; x80; x60; xa5; xf2; xb8; x8d; xeb; x91; xca; x95; xe0; x7a; x25;
  xf8; x8d; xe2; x72; xb4; x56; xda; xfc; x76; x7d; xbe; xef; x45; xa8; x2e; x3c;
  x00; xf0; x27; x68; x53; x70; x19; x27; x3c; x8d; xb9; x64; x1a; x04; x48; x1b;
  xac; xde; x41; x6c; x43; x70; x39; xe2; xe9; xfb; x9b; x62; xff; x15; x0a; x8e;
  xb4; x92; x36; xd6; x33; x29; xb9; xcc; xaa; x5d; x03; xb3; x5c; xc9; xe0; x7e;
  xd7; xeb; x3d; x88; x3a; x15; x8f; x1c; x9e; xdc; x52; xff; x23; x6a; xe7; x5a;
  xe5; xca; x80; xae; x66; x6a; x76; xbd; xde; xda; xe8; x65; xd9; xeb; xf7; xd5;
  xee; x23; xe7; xc6; xa4; x53; xcc; x15; x11; xd4; x1e; xe3; x0f; x90; x51; x76;
  x3a; x06; xf6; xf3; x7b; x1f; xd5; x66; xc7; xc0; x9c; xb1; xd6; x8d; xd6; x01;
  xc0; xeb; xee; x97; xeb; xf3; xfd; x5a; xa1; x6f; xd2; x29; x99; xdf; x1e; x5f;
  xfd; x1b; x87; x17; x8b; xd0; xbb; x5c; x84; xde; x9f; x45; xe8; x7d; x5d; x86;
  x8d; xcb; x65; xd8; xf8; xb5; x0c; x1b; x9f; x9e; x66; xdc; x1e; xcf; x12; xcc;
  x94; x20; x66; xca; xf3; xbe; x80; x82; x94; xe7; xfb; x4f; xc3; x9e; xe6; x60;
  x92; x66; x75; x48; xcf; xff; x06; x00; x00; xff; xff; x0b; xb6; x7e; x29; xdc;
  x02; x00; x00 ].

Definition GenesisState_Reset : ST (option GenesisState) unit := Reset_to (MkGenesisState Params_zero).
Definition GenesisState_String (m : option GenesisState) : string := CompactTextString "GenesisState" m.
Definition GenesisState_Descriptor : bytes * list Z := (fileDescriptor_287f1bdff5ccfc33, [0]).
Definition GenesisState_MarshalTo (m : GenesisState) : ST GoSlice (result Z) := MarshalTo_with (GenesisState_Size m) (GenesisState_MarshalToSizedBuffer m).
Definition GenesisState_XXX_Unmarshal (b : bytes) (m : GenesisState) : result GenesisState := GenesisState_Unmarshal b m.
Definition GenesisState_XXX_Marshal (b : GoSlice) (deterministic : bool) (m : GenesisState) : outcome (result bytes) :=
  XXX_Marshal_with (info_Marshal "GenesisState" b m) (GenesisState_MarshalToSizedBuffer m) b deterministic.
Definition GenesisState_XXX_Merge (src : ProtoMessage) (m : option GenesisState) : outcome (option GenesisState) := info_Merge "GenesisState" m src.
Definition GenesisState_XXX_Size (m : GenesisState) : Z := GenesisState_Size m.
Definition GenesisState_XXX_DiscardUnknown (m : option GenesisState) : option GenesisState := info_DiscardUnknown "GenesisState" m.
Definition GenesisState_GetParams (m : option GenesisState) : Params := from_option gs_Params Params_zero m.

Definition Params_Reset : ST (option Params) unit := Reset_to Params_zero.
Definition Params_String (m : option Params) : string := CompactTextString "Params" m.
Definition Params_Descriptor : bytes * list Z := (fileDescriptor_287f1bdff5ccfc33, [1]).
Definition Params_MarshalTo (m : Params) : ST GoSlice (result Z) := MarshalTo_with (Params_Size m) (Params_MarshalToSizedBuffer m).
Definition Params_XXX_Unmarshal (b : bytes) (m : Params) : result Params := Params_Unmarshal b m.
Definition Params_XXX_Marshal (b : GoSlice) (deterministic : bool) (m : Params) : outcome (result bytes) :=
  XXX_Marshal_with (info_Marshal "Params" b m) (Params_MarshalToSizedBuffer m) b deterministic.
Definition Params_XXX_Merge (src : ProtoMessage) (m : option Params) : outcome (option Params) := info_Merge "Params" m src.
Definition Params_XXX_Size (m : Params) : Z := Params_Size m.
Definition Params_XXX_DiscardUnknown (m : option Params) : option Params := info_DiscardUnknown "Params" m.
Definition Params_GetMaxBundleSize (m : option Params) : Z := from_option MaxBundleSize 0 m.
Definition Params_GetEscrowAccountAddress (m : option Params) : option bytes := from_option EscrowAccountAddress None m.
Definition Params_GetReserveFee (m : option Params) : Coin := from_option ReserveFee Coin_zero_value m.
Definition Params_GetMinBidIncrement (m : option Params) : Coin := from_option MinBidIncrement Coin_zero_value m.
Definition Params_GetFrontRunningProtection (m : option Params) : bool := from_option FrontRunningProtection false m.

Definition genesis_init_types (r : Registry) : Registry :=
    RegisterType "Params" "pob.builder.v1.Params" (
    RegisterType "GenesisState" "pob.builder.v1.GenesisState" r).
Definition genesis_init_file (r : Registry) : Registry := RegisterFile "pob/builder/v1/genesis.proto" fileDescriptor_287f1bdff5ccfc33 r.

(** ** query.pb.go *)

Definition fileDescriptor_fe4920efc6923232 : bytes := [
  x1f; x8b; x08; x00; x00; x00; x00; x00; x02; xff; xe2; x92; x2a; xc8; x4f; xd2;
  x4f; x2a; xcd; xcc; x49; x49; x2d; xd2; x2f; x33; xd4; x2f; x2c; x4d; x2d; xaa;
  xd4; x2b; x28; xca; x2f; xc9; x17; xe2; x2b; xc8; x4f; xd2; x83; xca; xe9; x95;
  x19; x4a; x89; xa4; xe7; xa7; xe7; x83; xa5; xf4; x41; x2c; x88; x2a; x29; x99;
  xf4; xfc; xfc; xf4; x9c; x54; xfd; xc4; x82; x4c; xfd; xc4; xbc; xbc; xfc; x92;
  xc4; x92; xcc; xfc; xbc; x62; xa8; xac; x74; x72; x7e; x71; x6e; x7e; x31; xc4;
  x5c; x34; x0b; xa4; x64; xd0; x2c; x4f; x4f; xcd; x4b; x2d; xce; x84; x6a; x55;
  x12; xe1; x12; x0a; x04; x29; x0e; x48; x2c; x4a; xcc; x2d; x0e; x4a; x2d; x2c;
  x4d; x2d; x2e; x51; xf2; xe6; x12; x46; x11; x2d; x2e; xc8; xcf; x2b; x4e; x15;
  x32; xe1; x62; x2b; x00; x8b; x48; x30; x2a; x30; x6a; x70; x1b; x89; xe9; xa1;
  x3a; x5e; x0f; xa2; xde; x89; xe5; xc4; x3d; x79; x86; x20; xa8; x5a; xa3; x7a;
  x2e; x56; xb0; x61; x42; x65; x5c; x6c; x10; x05; x42; x4a; xe8; x1a; x31; xdd;
  x20; xa5; x8c; x57; x0d; xc4; x45; x4a; xca; x1d; xcf; x37; x68; x31; x36; x5d;
  x7e; x32; x99; x49; x42; x48; x4c; x1f; xcd; xab; x10; x07; x38; x39; x9e; x78;
  x24; xc7; x78; xe1; x91; x1c; xe3; x83; x47; x72; x8c; x13; x1e; xcb; x31; x5c;
  x78; x2c; xc7; x70; xe3; xb1; x1c; x43; x94; x7a; x7a; x66; x49; x46; x69; x92;
  x5e; x72; x7e; xae; x7e; x71; x76; x66; x81; x6e; x6e; x6a; x19; xd8; x90; x0a;
  xb8; x31; x25; x95; x05; xa9; xc5; x49; x6c; xe0; xd0; x32; x06; x04; x00; x00;
  xff; xff; xcd; x67; x4e; x59; xca; x01; x00; x00 ].

Definition QueryParamsRequest_Reset : ST (option unit) unit := Reset_to tt.
Definition QueryParamsRequest_String (m : option unit) : string := CompactTextString "QueryParamsRequest" m.
Definition QueryParamsRequest_Descriptor : bytes * list Z := (fileDescriptor_fe4920efc6923232, [0]).
Definition QueryParamsRequest_MarshalTo (m : unit) : ST GoSlice (result Z) := MarshalTo_with (Empty_Size m) (Empty_MarshalToSizedBuffer m).
Definition QueryParamsRequest_XXX_Unmarshal (b : bytes) (m : unit) : result unit := QueryParamsRequest_Unmarshal b m.
Definition QueryParamsRequest_XXX_Marshal (b : GoSlice) (deterministic : bool) (m : unit) : outcome (result bytes) :=
  XXX_Marshal_with (info_Marshal "QueryParamsRequest" b m) (Empty_MarshalToSizedBuffer m) b deterministic.
Definition QueryParamsRequest_XXX_Merge (src : ProtoMessage) (m : option unit) : outcome (option unit) := info_Merge "QueryParamsRequest" m src.
Definition QueryParamsRequest_XXX_Size (m : unit) : Z := Empty_Size m.
Definition QueryParamsRequest_XXX_DiscardUnknown (m : option unit) : option unit := info_DiscardUnknown "QueryParamsRequest" m.

Definition QueryParamsResponse_Reset : ST (option Params) unit := Reset_to Params_zero.
Definition QueryParamsResponse_String (m : option Params) : string := CompactTextString "QueryParamsResponse" m.
Definition QueryParamsResponse_Descriptor : bytes * list Z := (fileDescriptor_fe4920efc6923232, [1]).
Definition QueryParamsResponse_MarshalTo (m : Params) : ST GoSlice (result Z) := MarshalTo_with (QueryParamsResponse_Size m) (QueryParamsResponse_MarshalToSizedBuffer m).
Definition QueryParamsResponse_XXX_Unmarshal (b : bytes) (m : Params) : result Params := QueryParamsResponse_Unmarshal b m.
Definition QueryParamsResponse_XXX_Marshal (b : GoSlice) (deterministic : bool) (m : Params) : outcome (result bytes) :=
  XXX_Marshal_with (info_Marshal "QueryParamsResponse" b m) (QueryParamsResponse_MarshalToSizedBuffer m) b deterministic.
Definition QueryParamsResponse_XXX_Merge (src : ProtoMessage) (m : option Params) : outcome (option Params) := info_Merge "QueryParamsResponse" m src.
Definition QueryParamsResponse_XXX_Size (m : Params) : Z := QueryParamsResponse_Size m.
Definition QueryParamsResponse_XXX_DiscardUnknown (m : option Params) : option Params := info_DiscardUnknown "QueryParamsResponse" m.
Definition QueryParamsResponse_GetParams (m : option Params) : Params := default Params_zero m.

Definition query_init_types (r : Registry) : Registry :=
    RegisterType "QueryParamsResponse" "pob.builder.v1.QueryParamsResponse" (
    RegisterType "QueryParamsRequest" "pob.builder.v1.QueryParamsRequest" r).
Definition query_init_file (r : Registry) : Registry := RegisterFile "pob/builder/v1/query.proto" fileDescriptor_fe4920efc6923232 r.

(** ** tx.pb.go *)

Definition fileDescriptor_5cab4e3a4b082d0a : bytes := [
  x1f; x8b; x08; x00; x00; x00; x00; x00; x02; xff; x84; x52; xcf; x6b; x13; x41;
  x14; xce; x34; x1a; xc8; x18; x15; xd7; xd6; xfc; xa8; xdd; x84; x05; x69; x08;
  x74; xc7; xd4; xd2; x43; x6f; x59; xcf; x01; x59; x11; xc4; x8b; xcc; x66; x87;
  xe9; x60; x77; x66; xd9; x99; x84; xf6; x26; x3d; x7a; x12; xfc; x07; x3c; x7a;
  xcc; x41; xff; x87; x9e; xa4; xe8; x41; x4f; x22; x89; x10; xff; x0c; x99; xdd;
  xd9; x36; x1b; xc5; x5e; x42; xf6; x7d; xdf; xfb; xde; xfb; xbe; x79; xb0; x1e;
  x8b; x00; x05; x63; x76; x14; x92; x04; x4d; xfa; x48; x1d; xbb; x71; x22; x94;
  xb0; x6e; xc5; x22; x70; x0d; xe0; x4e; xfa; xad; x75; x2a; xa8; x48; x21; xa4;
  xff; x65; xac; xd6; x7d; x2a; x04; x3d; x22; x08; xc7; x0c; x61; xce; x85; xc2;
  x8a; x09; x2e; x0d; x6a; x8f; x84; x8c; x84; x44; x01; x96; x04; x4d; xfa; x01;
  x51; xb8; x8f; x46; x82; xf1; xbc; x7b; x65; x38; x25; x9c; x48; x96; x77; x37;
  xb3; xee; x97; xd9; xd0; xec; xc3; x40; x75; x23; x1c; x49; xaa; xfb; x22; x49;
  x0d; x70; x07; x47; x8c; x0b; x94; xfe; x66; x25; xe7; x33; x80; x37; x87; x92;
  x0e; xc6; x23; xbd; x9a; xc7; x42; xeb; x21; xac; x04; x2c; x0c; x49; xd2; x00;
  x1d; xd0; xad; x7a; x8d; x2f; x1f; x77; xd6; x8d; xfe; x20; x0c; x13; x22; xe5;
  x53; x95; x30; x4e; x7d; xc3; xb3; xf6; x61; x39; x60; x61; x63; xad; x03; xba;
  x37; x76; x9b; xae; xe1; x6a; x5b; xae; xb1; xe5; x3e; x16; x8c; x7b; xd5; xb3;
  x1f; xed; xd2; x87; xc5; xb4; x07; x7c; xdd; x60; x39; xb0; xa6; x12; xcc; x25;
  x4e; x67; xcb; x46; xb9; x53; xee; xd6; xfc; x42; xed; x00; xfd; x7e; xdf; x2e;
  x9d; x2e; xa6; x3d; x33; xec; xcd; x62; xda; xdb; xd4; xc1; x1c; x5f; x44; x53;
  x58; xdf; xa9; xc3; x8d; x42; xc1; x27; x32; x16; x5c; x12; xe7; x13; x80; xb7;
  x87; x92; x3e; x8b; x43; xac; xc8; x13; x9c; xe0; x48; x5a; xfb; xb0; x8a; xc7;
  xea; x50; x24; x4c; x9d; x5c; x69; xf7; x92; x6a; xed; xc1; x4a; x9c; x2a; x18;
  xd3; xf7; xdc; xe2; x3d; xb8; x99; xbe; x77; x4d; x3b; xf6; x0d; xf7; x60; x2f;
  xf7; x72; xa9; xa4; xed; x6c; xfd; x65; x67; x79; x47; xa7; x09; xeb; x2b; xa5;
  xdc; xd2; xee; x37; x00; xcb; x43; x49; x2d; x01; xe1; xd2; x03; x6e; xad; x2e;
  x53; xc8; xa3; xf5; xe0; xbf; xf0; x45; x5c; x9b; xa7; x5f; x7f; xbd; x5b; xdb;
  x70; xee; xa2; x95; x33; xd4; x2f; xf7; x1c; xd6; x0a; x39; xb6; xff; xa1; xb9;
  x4c; x68; x6d; x5f; x41; xc8; xc7; xb6; xae; xbf; xd6; xf7; xe1; x0d; xce; x66;
  x36; x38; x9f; xd9; xe0; xe7; xcc; x06; x6f; xe7; x76; xe9; x7c; x6e; x97; xbe;
  xcf; xed; xd2; x8b; x6d; xca; xd4; xe1; x38; x70; x47; x22; x42; xf2; x15; x8b;
  x77; x22; x32; x41; xc5; x04; xd5; x49; x4c; x64; x50; x49; x0f; xfc; xd1; x9f;
  x00; x00; x00; xff; xff; xf0; xeb; xfe; x5c; xc4; x03; x00; x00 ].

Definition MsgAuctionBid_Reset : ST (option MsgAuctionBid) unit := Reset_to MsgAuctionBid_zero.
Definition MsgAuctionBid_String (m : option MsgAuctionBid) : string := CompactTextString "MsgAuctionBid" m.
Definition MsgAuctionBid_Descriptor : bytes * list Z := (fileDescriptor_5cab4e3a4b082d0a, [0]).
Definition MsgAuctionBid_MarshalTo (m : MsgAuctionBid) : ST GoSlice (result Z) := MarshalTo_with (MsgAuctionBid_Size m) (MsgAuctionBid_MarshalToSizedBuffer m).
Definition MsgAuctionBid_XXX_Unmarshal (b : bytes) (m : MsgAuctionBid) : result MsgAuctionBid := MsgAuctionBid_Unmarshal b m.
Definition MsgAuctionBid_XXX_Marshal (b : GoSlice) (deterministic : bool) (m : MsgAuctionBid) : outcome (result bytes) :=
  XXX_Marshal_with (info_Marshal "MsgAuctionBid" b m) (MsgAuctionBid_MarshalToSizedBuffer m) b deterministic.
Definition MsgAuctionBid_XXX_Merge (src : ProtoMessage) (m : option MsgAuctionBid) : outcome (option MsgAuctionBid) := info_Merge "MsgAuctionBid" m src.
Definition MsgAuctionBid_XXX_Size (m : MsgAuctionBid) : Z := MsgAuctionBid_Size m.
Definition MsgAuctionBid_XXX_DiscardUnknown (m : option MsgAuctionBid) : option MsgAuctionBid := info_DiscardUnknown "MsgAuctionBid" m.
Definition MsgAuctionBid_GetBidder (m : option MsgAuctionBid) : string := from_option msg_Bidder "" m.
Definition MsgAuctionBid_GetBid (m : option MsgAuctionBid) : Coin := from_option msg_Bid Coin_zero_value m.
Definition MsgAuctionBid_GetTransactions (m : option MsgAuctionBid) : list bytes := from_option msg_Transactions [] m.

Definition MsgAuctionBidResponse_Reset : ST (option unit) unit := Reset_to tt.
Definition MsgAuctionBidResponse_String (m : option unit) : string := CompactTextString "MsgAuctionBidResponse" m.
Definition MsgAuctionBidResponse_Descriptor : bytes * list Z := (fileDescriptor_5cab4e3a4b082d0a, [1]).
Definition MsgAuctionBidResponse_MarshalTo (m : unit) : ST GoSlice (result Z) := MarshalTo_with (Empty_Size m) (Empty_MarshalToSizedBuffer m).
Definition MsgAuctionBidResponse_XXX_Unmarshal (b : bytes) (m : unit) : result unit := MsgAuctionBidResponse_Unmarshal b m.
Definition MsgAuctionBidResponse_XXX_Marshal (b : GoSlice) (deterministic : bool) (m : unit) : outcome (result bytes) :=
  XXX_Marshal_with (info_Marshal "MsgAuctionBidResponse" b m) (Empty_MarshalToSizedBuffer m) b deterministic.
Definition MsgAuctionBidResponse_XXX_Merge (src : ProtoMessage) (m : option unit) : outcome (option unit) := info_Merge "MsgAuctionBidResponse" m src.
Definition MsgAuctionBidResponse_XXX_Size (m : unit) : Z := Empty_Size m.
Definition MsgAuctionBidResponse_XXX_DiscardUnknown (m : option unit) : option unit := info_DiscardUnknown "MsgAuctionBidResponse" m.

Definition MsgUpdateParams_Reset : ST (option MsgUpdateParams) unit := Reset_to MsgUpdateParams_zero.
Definition MsgUpdateParams_String (m : option MsgUpdateParams) : string := CompactTextString "MsgUpdateParams" m.
Definition MsgUpdateParams_Descriptor : bytes * list Z := (fileDescriptor_5cab4e3a4b082d0a, [2]).
Definition MsgUpdateParams_MarshalTo (m : MsgUpdateParams) : ST GoSlice (result Z) := MarshalTo_with (MsgUpdateParams_Size m) (MsgUpdateParams_MarshalToSizedBuffer m).
Definition MsgUpdateParams_XXX_Unmarshal (b : bytes) (m : MsgUpdateParams) : result MsgUpdateParams := MsgUpdateParams_Unmarshal b m.
Definition MsgUpdateParams_XXX_Marshal (b : GoSlice) (deterministic : bool) (m : MsgUpdateParams) : outcome (result bytes) :=
  XXX_Marshal_with (info_Marshal "MsgUpdateParams" b m) (MsgUpdateParams_MarshalToSizedBuffer m) b deterministic.
Definition MsgUpdateParams_XXX_Merge (src : ProtoMessage) (m : option MsgUpdateParams) : outcome (option MsgUpdateParams) := info_Merge "MsgUpdateParams" m src.
Definition MsgUpdateParams_XXX_Size (m : MsgUpdateParams) : Z := MsgUpdateParams_Size m.
Definition MsgUpdateParams_XXX_DiscardUnknown (m : option MsgUpdateParams) : option MsgUpdateParams := info_DiscardUnknown "MsgUpdateParams" m.
Definition MsgUpdateParams_GetAuthority (m : option MsgUpdateParams) : string := from_option Authority "" m.
Definition MsgUpdateParams_GetParams (m : option MsgUpdateParams) : Params := from_option mup_Params Params_zero m.

Definition MsgUpdateParamsResponse_Reset : ST (option unit) unit := Reset_to tt.
Definition MsgUpdateParamsResponse_String (m : option unit) : string := CompactTextString "MsgUpdateParamsResponse" m.
Definition MsgUpdateParamsResponse_Descriptor : bytes * list Z := (fileDescriptor_5cab4e3a4b082d0a, [3]).
Definition MsgUpdateParamsResponse_MarshalTo (m : unit) : ST GoSlice (result Z) := MarshalTo_with (Empty_Size m) (Empty_MarshalToSizedBuffer m).
Definition MsgUpdateParamsResponse_XXX_Unmarshal (b : bytes) (m : unit) : result unit := MsgUpdateParamsResponse_Unmarshal b m.
Definition MsgUpdateParamsResponse_XXX_Marshal (b : GoSlice) (deterministic : bool) (m : unit) : outcome (result bytes) :=
  XXX_Marshal_with (info_Marshal "MsgUpdateParamsResponse" b m) (Empty_MarshalToSizedBuffer m) b deterministic.
Definition MsgUpdateParamsResponse_XXX_Merge (src : ProtoMessage) (m : option unit) : outcome (option unit) := info_Merge "MsgUpdateParamsResponse" m src.
Definition MsgUpdateParamsResponse_XXX_Size (m : unit) : Z := Empty_Size m.
Definition MsgUpdateParamsResponse_XXX_DiscardUnknown (m : option unit) : option unit := info_DiscardUnknown "MsgUpdateParamsResponse" m.

Definition tx_init_types (r : Registry) : Registry :=
    RegisterType "MsgUpdateParamsResponse" "pob.builder.v1.MsgUpdateParamsResponse" (
    RegisterType "MsgUpdateParams" "pob.builder.v1.MsgUpdateParams" (
    RegisterType "MsgAuctionBidResponse" "pob.builder.v1.MsgAuctionBidResponse" (
    RegisterType "MsgAuctionBid" "pob.builder.v1.MsgAuctionBid" r))).
Definition tx_init_file (r : Registry) : Registry := RegisterFile "pob/builder/v1/tx.proto" fileDescriptor_5cab4e3a4b082d0a r.

(** ** The copies of the files *)

(** Each file has the routines of the encoding of its own, and [soz], which nothing calls: the size of
    the varint of the zigzag encoding. *)
Definition soz (x : Z) : Z :=
  sov (Z.lxor (wrap_u64 (Z.shiftl x 1)) (wrap_u64 (Z.shiftr (wrap_i64 x) 63))).
Definition sozGenesis : Z -> Z := soz.
Definition sozTx : Z -> Z := soz.
Definition sozQuery : Z -> Z := soz.
Definition sovTx : Z -> Z := sov.
Definition sovQuery : Z -> Z := sov.
Definition encodeVarintTx : Z -> Z -> ST bytes Z := encodeVarint.
Definition encodeVarintQuery : Z -> Z -> ST bytes Z := encodeVarint.
Definition skipTx : bytes -> result Z := skip.
Definition skipQuery : bytes -> result Z := skip.

Definition QueryParamsRequest_Size (m : unit) : Z := Empty_Size m.
Definition QueryParamsRequest_MarshalToSizedBuffer (m : unit) : ST bytes (result Z) := Empty_MarshalToSizedBuffer m.
Definition QueryParamsRequest_Marshal (m : unit) : outcome (result bytes) := Empty_Marshal m.
Definition MsgUpdateParamsResponse_Size (m : unit) : Z := Empty_Size m.
Definition MsgUpdateParamsResponse_MarshalToSizedBuffer (m : unit) : ST bytes (result Z) := Empty_MarshalToSizedBuffer m.
Definition MsgUpdateParamsResponse_Marshal (m : unit) : outcome (result bytes) := Empty_Marshal m.

(** The zigzag encoding puts the sign into the lowest bit: small numbers of either sign take one byte. *)
Lemma soz_small x : -64 <= x < 64 -> soz (wrap_u64 x) = 1.
Proof.
  intros H. assert (Hx : x = -64 + Z.of_nat (Z.to_nat (x + 64))) by lia.
  assert (Hn : (Z.to_nat (x + 64) < 128)%nat) by lia. rewrite Hx.
  generalize dependent (Z.to_nat (x + 64)). intros n _ Hn.
  assert (Hall : forallb (fun n => soz (wrap_u64 (-64 + Z.of_nat n)) =? 1) (seq 0 128) = true) by (vm_compute; reflexivity).
  rewrite forallb_forall in Hall. apply Z.eqb_eq, Hall, in_seq. lia.
Qed.

(** ** How the library marshals *)

(** [proto.Marshal] of a message with these methods: an empty slice with room for the message. *)
Definition proto_Marshal {T} (xxx_Size : T -> Z) (xxx_Marshal : GoSlice -> bool -> T -> outcome (result bytes)) (m : T)
    : outcome (result bytes) :=
  xxx_Marshal (MkGoSlice [] (replicate (Z.to_nat (xxx_Size m)) x00)) false m.

(** It is the Marshal method of the message. *)
Lemma proto_Marshal_is_Marshal :
  (forall m, proto_Marshal GenesisState_XXX_Size GenesisState_XXX_Marshal m = GenesisState_Marshal m) /\
  (forall m, proto_Marshal Params_XXX_Size Params_XXX_Marshal m = Params_Marshal m) /\
  (forall m, proto_Marshal QueryParamsRequest_XXX_Size QueryParamsRequest_XXX_Marshal m = Empty_Marshal m) /\
  (forall m, proto_Marshal QueryParamsResponse_XXX_Size QueryParamsResponse_XXX_Marshal m = QueryParamsResponse_Marshal m) /\
  (forall m, proto_Marshal MsgAuctionBid_XXX_Size MsgAuctionBid_XXX_Marshal m = MsgAuctionBid_Marshal m) /\
  (forall m, proto_Marshal MsgAuctionBidResponse_XXX_Size MsgAuctionBidResponse_XXX_Marshal m = Empty_Marshal m) /\
  (forall m, proto_Marshal MsgUpdateParams_XXX_Size MsgUpdateParams_XXX_Marshal m = MsgUpdateParams_Marshal m) /\
  (forall m, proto_Marshal MsgUpdateParamsResponse_XXX_Size MsgUpdateParamsResponse_XXX_Marshal m = Empty_Marshal m).
Proof. split_and!; reflexivity. Qed.

(** Resetting a message gives its zero value. *)
Lemma messages_reset_to_zero :
  (forall m, GenesisState_Reset (Some m) = (Ret tt, Some (MkGenesisState Params_zero))) /\
  (forall m, Params_Reset (Some m) = (Ret tt, Some Params_zero)) /\
  (forall m, QueryParamsRequest_Reset (Some m) = (Ret tt, Some tt)) /\
  (forall m, QueryParamsResponse_Reset (Some m) = (Ret tt, Some Params_zero)) /\
  (forall m, MsgAuctionBid_Reset (Some m) = (Ret tt, Some MsgAuctionBid_zero)) /\
  (forall m, MsgAuctionBidResponse_Reset (Some m) = (Ret tt, Some tt)) /\
  (forall m, MsgUpdateParams_Reset (Some m) = (Ret tt, Some MsgUpdateParams_zero)) /\
  (forall m, MsgUpdateParamsResponse_Reset (Some m) = (Ret tt, Some tt)).
Proof. split_and!; reflexivity. Qed.
End Messages.

(** In a buffer with more room than the message needs, XXX_Marshal returns the wrong bytes: the message
    is written to the end of the buffer, and the first ones are returned. *)
Lemma XXX_Marshal_needs_exact_room {GP : GogoProto} :
  let m := MkMsgUpdateParams "authority" ex_params in
  let room := Z.to_nat (MsgUpdateParams_Size m) in
  MsgUpdateParams_XXX_Marshal (MkGoSlice [] (replicate room x00)) false m = MsgUpdateParams_Marshal m /\
  MsgUpdateParams_XXX_Marshal (MkGoSlice [] (replicate (S room) x00)) false m <> MsgUpdateParams_Marshal m.
Proof. split; [reflexivity|]. vm_compute. discriminate. Qed.
