(* ===== verification/Pulsar.v ===== *)
(** * api/pob: what the generated protobuf API files share

    genesis.pulsar.go, tx.pulsar.go, query.pulsar.go, module.pulsar.go and auction.pulsar.go hold
    the same methods for every message: fast reflection over its fields, and the functions of
    ProtoMethods.  This file has the code of one field of each kind, the methods over a table of
    fields, the views of the repeated and the map field, and the frames of size, marshal and
    unmarshal; PulsarMessages has the messages.

    A message pointer is an [option], nil is [None].  The values of the protoreflect package, the
    runtime package of cosmos-proto, the proto package's dispatch to the functions of a nested
    message and the Coin of the SDK's API are parameters. *)
From S2P Require Import Prelude Hash Wire.
#[local] Open Scope Z_scope.

(** A Go byte slice: nil is [None]. *)
Abbreviation GoBytes := (option bytes).
Definition content (b : GoBytes) : bytes := default [] b.

(** ** The functions of ProtoMethods *)

(** Size takes the Deterministic flag, Marshal the flag and the buffer to append to, Unmarshal the
    DiscardUnknown flag and the bytes. *)
Record Methods (T : Type) : Type := MkMethods {
  Methods_Size : bool -> option T -> Z;
  Methods_Marshal : bool -> GoBytes -> option T -> outcome (result GoBytes);
  Methods_Unmarshal : bool -> bytes -> option T -> result (option T)
}.
Arguments MkMethods {T} _ _ _.
Arguments Methods_Size {T} _ _ _.
Arguments Methods_Marshal {T} _ _ _ _.
Arguments Methods_Unmarshal {T} _ _ _ _.

(** ** The packages the files call *)

Class PulsarLib : Type := {
  (** github.com/cosmos/cosmos-proto/runtime *)
  runtime_Sov : Z -> Z;
  runtime_EncodeVarint : Z -> Z -> ST bytes Z;
  runtime_Skip : bytes -> result Z;
  (** [options.Size], [options.Marshal] and [options.Unmarshal] of the proto package, given the
      function of the message they are called on. *)
  options_Size : forall {T}, (bool -> option T -> Z) -> bool -> option T -> Z;
  options_Marshal : forall {T}, (bool -> GoBytes -> option T -> outcome (result GoBytes)) ->
    bool -> option T -> outcome (result bytes);
  options_Unmarshal : forall {T}, (bool -> bytes -> option T -> result (option T)) ->
    bool -> bytes -> option T -> result (option T);
  (** [v1beta1.Coin] of cosmossdk.io/api: [new(v1beta1.Coin)] and its functions. *)
  ApiCoin : Type;
  new_ApiCoin : ApiCoin;
  ApiCoin_Methods : Methods ApiCoin;
  (** The order in which a loop visits the keys of a map. *)
  range_keys : gmap string GoBytes -> list string
}.

(** [protoreflect.Value], over the types of its messages, lists and maps. *)
Class ProtoValue (M L P : Type) : Type := {
  Value : Type;
  ValueOfUint32 : Z -> Value;
  ValueOfUint64 : Z -> Value;
  ValueOfInt64 : Z -> Value;
  ValueOfBool : bool -> Value;
  ValueOfString : string -> Value;
  ValueOfBytes : GoBytes -> Value;
  ValueOfMessage : M -> Value;
  ValueOfList : L -> Value;
  ValueOfMap : P -> Value;
  (** [Value{}] *)
  InvalidValue : Value;
  Value_IsValid : Value -> bool;
  (** [v.Interface().(string)] *)
  Value_string : Value -> outcome string;
  Value_Uint : Value -> outcome Z;
  Value_Int : Value -> outcome Z;
  Value_Bool : Value -> outcome bool;
  Value_Bytes : Value -> outcome GoBytes;
  Value_Message : Value -> outcome M;
  Value_List : Value -> outcome L;
  Value_Map : Value -> outcome P
}.

(** What the methods ask a [protoreflect.FieldDescriptor]. *)
Record FieldDescriptor : Type := MkFD { FullName : string; IsExtension : bool }.

(** The list and the map view: a pointer to the slice or map of the message, nil for the empty
    view that Get returns. *)
Record TransactionsList : Type := MkTransactionsList { list_ptr : option (option (list GoBytes)) }.
Record RegistryMap : Type := MkRegistryMap { map_ptr : option (option (gmap string GoBytes)) }.

(** ** One field *)

Section Reflection.
Context {M L P : Type} {PV : ProtoValue M L P}.

(** The code of a field in each method. *)
Record Field (T : Type) : Type := MkField {
  field_name : string;
  (** The condition of Range and Has. *)
  populated : T -> bool;
  range_value : T -> Value;
  get_value : T -> Value;
  cleared : T -> T;
  assigned : Value -> T -> outcome T;
  mutable : T -> outcome (T * Value);
  new_value : Value
}.

Definition not_mutable {T} (name : string) (x : T) : outcome (T * Value) :=
  Panic ("field " +:+ name +:+ " is not mutable").

(** A scalar: its condition, its value, its zero, the conversion of Set. *)
Definition scalar_field {A T} (set : A -> bool) (value : A -> Value) (zero : A)
    (convert : Value -> outcome A) (name : string) (get : T -> A) (put : A -> T -> T) : Field T :=
  {| field_name := name;
     populated x := set (get x);
     range_value x := value (get x);
     get_value x := value (get x);
     cleared := put zero;
     assigned v x := a ← convert v; Ret (put a x);
     mutable := not_mutable name;
     new_value := value zero |}.

Definition uint32_field {T} : string -> (T -> Z) -> (Z -> T -> T) -> Field T :=
  scalar_field (fun n => negb (n =? 0)) ValueOfUint32 0
    (fun v => n ← Value_Uint v; Ret (wrap_u32 n)).
Definition uint64_field {T} : string -> (T -> Z) -> (Z -> T -> T) -> Field T :=
  scalar_field (fun n => negb (n =? 0)) ValueOfUint64 0 Value_Uint.
Definition int64_field {T} : string -> (T -> Z) -> (Z -> T -> T) -> Field T :=
  scalar_field (fun n => negb (n =? 0)) ValueOfInt64 0 Value_Int.
Definition bool_field {T} : string -> (T -> bool) -> (bool -> T -> T) -> Field T :=
  scalar_field (fun b => b) ValueOfBool false Value_Bool.
Definition string_field {T} : string -> (T -> string) -> (string -> T -> T) -> Field T :=
  scalar_field (fun s => negb (bool_decide (s = ""%string))) ValueOfString ""%string Value_string.
Definition bytes_field {T} : string -> (T -> GoBytes) -> (GoBytes -> T -> T) -> Field T :=
  scalar_field (fun b => negb (len (content b) =? 0)) ValueOfBytes None Value_Bytes.

(** A nested message: [inject] and [project] are the conversion to protoreflect.Message and the
    type assertion back. *)
Definition message_field {A T} (new : A) (inject : option A -> M) (project : M -> outcome (option A))
    (name : string) (get : T -> option A) (put : option A -> T -> T) : Field T :=
  {| field_name := name;
     populated x := bool_decide (is_Some (get x));
     range_value x := ValueOfMessage (inject (get x));
     get_value x := ValueOfMessage (inject (get x));
     cleared := put None;
     assigned v x := m ← Value_Message v; a ← project m; Ret (put a x);
     mutable x :=
       let a := default new (get x) in
       Ret (put (Some a) x, ValueOfMessage (inject (Some a)));
     new_value := ValueOfMessage (inject (Some new)) |}.

(** The repeated field, and the map field.  Set dereferences the pointer of the view. *)
Definition list_field {T} (inject : TransactionsList -> L) (project : L -> outcome TransactionsList)
    (name : string) (get : T -> option (list GoBytes)) (put : option (list GoBytes) -> T -> T) : Field T :=
  {| field_name := name;
     populated x := negb (len (default [] (get x)) =? 0);
     range_value x := ValueOfList (inject (MkTransactionsList (Some (get x))));
     get_value x :=
       if len (default [] (get x)) =? 0 then ValueOfList (inject (MkTransactionsList None))
       else ValueOfList (inject (MkTransactionsList (Some (get x))));
     cleared := put None;
     assigned v x :=
       lv ← Value_List v;
       clv ← project lv;
       match list_ptr clv with
       | Some l => Ret (put l x)
       | None => Panic "nil pointer dereference"
       end;
     mutable x :=
       let l := Some (default [] (get x)) in
       Ret (put l x, ValueOfList (inject (MkTransactionsList (Some l))));
     new_value := ValueOfList (inject (MkTransactionsList (Some (Some [])))) |}.

Definition map_field {T} (inject : RegistryMap -> P) (project : P -> outcome RegistryMap)
    (name : string) (get : T -> option (gmap string GoBytes))
    (put : option (gmap string GoBytes) -> T -> T) : Field T :=
  {| field_name := name;
     populated x := negb (bool_decide (size (default ∅ (get x)) = 0%nat));
     range_value x := ValueOfMap (inject (MkRegistryMap (Some (get x))));
     get_value x :=
       if bool_decide (size (default ∅ (get x)) = 0%nat) then ValueOfMap (inject (MkRegistryMap None))
       else ValueOfMap (inject (MkRegistryMap (Some (get x))));
     cleared := put None;
     assigned v x :=
       mv ← Value_Map v;
       cmv ← project mv;
       match map_ptr cmv with
       | Some m => Ret (put m x)
       | None => Panic "nil pointer dereference"
       end;
     mutable x :=
       let m := Some (default ∅ (get x)) in
       Ret (put m x, ValueOfMap (inject (MkRegistryMap (Some m))));
     new_value := ValueOfMap (inject (MkRegistryMap (Some (Some ∅)))) |}.

(** ** The methods of protoreflect.Message *)

(** A message type: its full name, its fields, [new(T)], its unknown fields. *)
Record FastReflection (T : Type) : Type := MkReflection {
  full_name : string;
  fields : list (Field T);
  new_message : T;
  unknownFields : T -> bytes;
  with_unknown : bytes -> T -> T
}.
Arguments field_name {T} _.
Arguments populated {T} _ _.
Arguments range_value {T} _ _.
Arguments get_value {T} _ _.
Arguments cleared {T} _ _.
Arguments assigned {T} _ _ _.
Arguments mutable {T} _ _.
Arguments new_value {T} _.
Arguments full_name {T} _.
Arguments fields {T} _.
Arguments new_message {T} _.
Arguments unknownFields {T} _ _.
Arguments with_unknown {T} _ _ _.

Section Methods.
Context {T : Type} (R : FastReflection T).

(** A field access through the receiver. *)
Definition deref (x : option T) : outcome T :=
  match x with Some x => Ret x | None => Panic "nil pointer dereference" end.

(** The switch on [fd.FullName()] with its [default] branch. *)
Definition field_switch (fd : FieldDescriptor) : outcome (Field T) :=
  match list_find (fun f => field_name f = FullName fd) (fields R) with
  | Some (_, f) => Ret f
  | None =>
      if IsExtension fd
      then Panic ("proto3 declared messages do not support extensions: " +:+ full_name R)
      else Panic ("message " +:+ full_name R +:+ " does not contain field " +:+ FullName fd)
  end.

Definition New : option T := Some (new_message R).
Definition Zero : option T := None.
Definition IsValid (x : option T) : bool := bool_decide (is_Some x).

(** The variable [fd_..._...] of a field. *)
Definition fd_of (f : Field T) : FieldDescriptor := {| FullName := field_name f; IsExtension := false |}.

Fixpoint range_fields {S} (l : list (Field T)) (x : option T)
    (f : FieldDescriptor -> Value -> ST S bool) : ST S unit :=
  match l with
  | [] => mret tt
  | fl :: l =>
      m ← st_lift (deref x);
      if populated fl m then
        continue ← f (fd_of fl) (range_value fl m);
        if continue : bool then range_fields l x f else mret tt
      else range_fields l x f
  end.
Definition Range {S} (x : option T) (f : FieldDescriptor -> Value -> ST S bool) : ST S unit :=
  range_fields (fields R) x f.

Definition Has (x : option T) (fd : FieldDescriptor) : outcome bool :=
  f ← field_switch fd; x ← deref x; Ret (populated f x).

Definition Get (x : option T) (fd : FieldDescriptor) : outcome Value :=
  f ← field_switch fd; x ← deref x; Ret (get_value f x).

Definition Clear (fd : FieldDescriptor) : ST (option T) unit :=
  f ← st_lift (field_switch fd);
  x ← st_get; x ← st_lift (deref x);
  st_put (Some (cleared f x)).

Definition Set_ (fd : FieldDescriptor) (value : Value) : ST (option T) unit :=
  f ← st_lift (field_switch fd);
  x ← st_get; x ← st_lift (deref x);
  x ← st_lift (assigned f value x);
  st_put (Some x).

Definition Mutable (fd : FieldDescriptor) : ST (option T) Value :=
  f ← st_lift (field_switch fd);
  x ← st_get; x ← st_lift (deref x);
  '(x, v) ← st_lift (mutable f x);
  _ ← st_put (Some x);
  mret v.

Definition NewField (fd : FieldDescriptor) : outcome Value :=
  f ← field_switch fd; Ret (new_value f).

(** No message has a oneof. *)
Definition WhichOneof (d : string) : outcome (option FieldDescriptor) :=
  Panic (d +:+ " is not a oneof field in " +:+ full_name R).

Definition GetUnknown (x : option T) : outcome bytes :=
  x ← deref x; Ret (unknownFields R x).
Definition SetUnknown (b : bytes) : ST (option T) unit :=
  x ← st_get; x ← st_lift (deref x); st_put (Some (with_unknown R b x)).
End Methods.

(** ** The view of the repeated field (tx.pulsar.go, [_MsgAuctionBid_3_list])

    The state is the slice a non-nil pointer of the view points to. *)
Definition list_deref : ST (option (option (list GoBytes))) (option (list GoBytes)) :=
  l ← st_get;
  match l with Some l => mret l | None => st_panic "nil pointer dereference" end.

Definition list_Len (x : TransactionsList) : Z :=
  match list_ptr x with None => 0 | Some l => len (default [] l) end.

Definition list_Get (i : Z) : ST (option (option (list GoBytes))) Value :=
  l ← list_deref;
  match guard (0 <= i);; default [] l !! Z.to_nat i with
  | Some b => mret (ValueOfBytes b)
  | None => st_panic "index out of range"
  end.

Definition list_Set (i : Z) (value : Value) : ST (option (option (list GoBytes))) unit :=
  b ← st_lift (Value_Bytes value);
  l ← list_deref;
  if (0 <=? i) && (i <? len (default [] l)) then st_put (Some (Some (<[Z.to_nat i := b]> (default [] l))))
  else st_panic "index out of range".

Definition list_Append (value : Value) : ST (option (option (list GoBytes))) unit :=
  b ← st_lift (Value_Bytes value);
  l ← list_deref;
  st_put (Some (Some (default [] l ++ [b]))).

Definition list_AppendMutable : outcome Value :=
  Panic "AppendMutable can not be called on a list field that is not of Message kind".

(** A reslice to [n] elements; a length beyond the slice, up to its capacity, is not modelled. *)
Definition list_Truncate (n : Z) : ST (option (option (list GoBytes))) unit :=
  l ← list_deref;
  if (0 <=? n) && (n <=? len (default [] l)) then st_put (Some (take (Z.to_nat n) <$> l))
  else st_panic "slice bounds out of range".

Definition list_NewElement : Value := ValueOfBytes None.
Definition list_IsValid (x : TransactionsList) : bool := bool_decide (is_Some (list_ptr x)).

(** ** The view of the map field (auction.pulsar.go, [_VoteExtensionInfo_2_map]) *)

Definition map_Len (x : RegistryMap) : Z :=
  match map_ptr x with None => 0 | Some m => Z.of_nat (size (default ∅ m)) end.

(** The loop of Range, over the keys in the order of the run. *)
Fixpoint map_range_loop {S} (m : gmap string GoBytes) (keys : list string)
    (f : Value -> Value -> ST S bool) : ST S unit :=
  match keys with
  | [] => mret tt
  | k :: keys =>
      continue ← f (ValueOfString k) (ValueOfBytes (default None (m !! k)));
      if continue : bool then map_range_loop m keys f else mret tt
  end.
Definition map_Range `{PulsarLib} {S} (x : RegistryMap) (f : Value -> Value -> ST S bool) : ST S unit :=
  match map_ptr x with
  | None => mret tt
  | Some m => map_range_loop (default ∅ m) (range_keys (default ∅ m)) f
  end.

Definition map_Has (x : RegistryMap) (key : string) : bool :=
  match map_ptr x with
  | None => false
  | Some m => bool_decide (is_Some (default ∅ m !! key))
  end.

Definition map_Get (x : RegistryMap) (key : string) : Value :=
  match map_ptr x with
  | None => InvalidValue
  | Some m => match default ∅ m !! key with Some v => ValueOfBytes v | None => InvalidValue end
  end.

(** The state is what the pointer of the view points to; deleting from a nil map does nothing,
    writing to one panics. *)
Definition map_Clear (key : string) : ST (option (option (gmap string GoBytes))) unit :=
  m ← st_get;
  match m with
  | None => mret tt
  | Some m => st_put (Some (delete key <$> m))
  end.

Definition map_Set (keyValid : bool) (key : string) (value : Value)
    : ST (option (option (gmap string GoBytes))) unit :=
  if negb keyValid || negb (Value_IsValid value) then st_panic "invalid key or value provided"
  else
    b ← st_lift (Value_Bytes value);
    m ← st_get;
    match m with
    | None => st_panic "nil pointer dereference"
    | Some None => st_panic "assignment to entry in nil map"
    | Some (Some m) => st_put (Some (Some (<[key := b]> m)))
    end.

Definition map_Mutable : outcome Value :=
  Panic "should not call Mutable on protoreflect.Map whose value is not of type protoreflect.Message".
Definition map_NewValue : Value := ValueOfBytes None.
Definition map_IsValid (x : RegistryMap) : bool := bool_decide (is_Some (map_ptr x)).
End Reflection.

Arguments field_name {M L P PV T} _.
Arguments populated {M L P PV T} _ _.
Arguments range_value {M L P PV T} _ _.
Arguments get_value {M L P PV T} _ _.
Arguments cleared {M L P PV T} _ _.
Arguments assigned {M L P PV T} _ _ _.
Arguments mutable {M L P PV T} _ _.
Arguments new_value {M L P PV T} _.
Arguments MkReflection {M L P PV T} _ _ _ _ _.
Arguments full_name {M L P PV T} _.
Arguments fields {M L P PV T} _.
Arguments new_message {M L P PV T} _.
Arguments unknownFields {M L P PV T} _ _.
Arguments with_unknown {M L P PV T} _ _ _.

(** ** size, marshal and unmarshal *)

Section Frames.
Context {PL : PulsarLib}.

(** A length-delimited field: its bytes, its length, its tag. *)
Definition put_delimited (tag : Z) (src : bytes) (i : Z) : ST bytes Z :=
  i ← copy_back src i;
  i ← runtime_EncodeVarint i (wrap_u64 (len src));
  put_back tag i.

Definition put_varint (tag v : Z) (i : Z) : ST bytes Z :=
  i ← runtime_EncodeVarint i (wrap_u64 v); put_back tag i.

Definition put_bool (tag : Z) (b : bool) (i : Z) : ST bytes Z :=
  i ← put_back (if b then 1 else 0) i; put_back tag i.

(** A nested message, marshalled by the proto package; nothing when it is nil. *)
Definition put_nested {T} (meths : Methods T) (det : bool) (tag : Z) (m : option T) (i : Z)
    : ST bytes (result Z) :=
  match m with
  | None => mret (Ok i)
  | Some _ =>
      encoded ← st_lift (options_Marshal (Methods_Marshal meths) det m);
      match encoded with
      | Err err => mret (Err err)
      | Ok encoded => i ← put_delimited tag encoded i; mret (Ok i)
      end
  end.

(** The sizes of the fields. *)
Definition size_varint (v : Z) : Z := 1 + runtime_Sov (wrap_u64 v).
Definition size_delimited (l : Z) : Z := 1 + l + runtime_Sov (wrap_u64 l).
Definition size_optional (l : Z) : Z := if 0 <? l then size_delimited l else 0.
Definition size_nested {T} (meths : Methods T) (det : bool) (m : option T) : Z :=
  match m with
  | None => 0
  | Some _ => size_delimited (options_Size (Methods_Size meths) det m)
  end.

Definition size_frame {T} (unknown : T -> bytes) (body : bool -> T -> Z) (det : bool) (x : option T) : Z :=
  match x with None => 0 | Some x => body det x + len (unknown x) end.

(** The unknown fields go to the end of the buffer, the fields before them, from the last one. *)
Definition marshal_frame {T} (unknown : T -> bytes) (size : bool -> option T -> Z)
    (body : bool -> T -> Z -> ST bytes (result Z)) (det : bool) (buf : GoBytes) (x : option T)
    : outcome (result GoBytes) :=
  match x with
  | None => Ret (Ok buf)
  | Some m =>
      let size := options_Size size det x in
      let dAtA := replicate (Z.to_nat size) x00 in
      match then_ok (always (copy_back (unknown m))) (body det m) (len dAtA) dAtA with
      | (Ret (Ok _), dAtA) => Ret (Ok (Some (match buf with Some b => b ++ dAtA | None => dAtA end)))
      | (Ret (Err err), _) => Ret (Err err)
      | (Panic w, _) => Panic w
      end
  end.

(** The [default] branch of the field switch. *)
Definition keep_unknown {T} (add : bytes -> T -> T) (discard : bool) (dAtA : bytes) (preIndex : Z)
    (x : T) : result (T * Z) :=
  skippy ← runtime_Skip (drop (Z.to_nat preIndex) dAtA);
  if (skippy <? 0) || (wrap_i64 (preIndex + skippy) <? 0) then Err ErrInvalidLength
  else if len dAtA <? wrap_i64 (preIndex + skippy) then Err ErrUnexpectedEOF
  else
    Ok (if discard then x else add (slice dAtA preIndex (preIndex + skippy)) x,
        wrap_i64 (preIndex + skippy)).

Definition unmarshal_frame {T} (cases : bool -> FieldCases T) (discard : bool) (dAtA : bytes)
    (x : option T) : result (option T) :=
  match x with
  | None => Ok None
  | Some x => x ← Unmarshal_with (cases discard) dAtA x; Ok (Some x)
  end.

(** A nested message is allocated when it is nil, and merged into. *)
Definition merge_nested {T} (meths : Methods T) (new : T) (discard : bool) (m : option T) (v : bytes)
    : result (option T) :=
  options_Unmarshal (Methods_Unmarshal meths) discard v (Some (default new m)).
End Frames.
