(* ===== verification/PulsarMessages.v ===== *)
(** * api/pob: the messages of the generated protobuf API

    The messages of genesis.pulsar.go, tx.pulsar.go, query.pulsar.go (package builderv1),
    module.pulsar.go (modulev1) and auction.pulsar.go (abciv1): for each one its struct, its
    reflection as a table of fields, the functions of its ProtoMethods, and its getters.  The
    prefix Api tells the structs from those of x/builder/types. *)
From S2P Require Import Prelude Hash Wire Pulsar.
From stdpp Require Import sorting.
#[local] Open Scope Z_scope.

Section Structs.
Context {PL : PulsarLib}.

(** ** genesis.pulsar.go *)

Record ApiParams : Type := MkApiParams {
  ap_MaxBundleSize : Z;
  ap_EscrowAccountAddress : GoBytes;
  ap_ReserveFee : option ApiCoin;
  ap_MinBidIncrement : option ApiCoin;
  ap_FrontRunningProtection : bool;
  ap_ProposerFee : string;
  ap_unknown : bytes
}.

Record ApiGenesisState : Type := MkApiGenesisState {
  ag_Params : option ApiParams;
  ag_unknown : bytes
}.

(** ** tx.pulsar.go *)

Record ApiMsgAuctionBid : Type := MkApiMsgAuctionBid {
  ab_Bidder : string;
  ab_Bid : option ApiCoin;
  ab_Transactions : option (list GoBytes);
  ab_unknown : bytes
}.

Record ApiMsgUpdateParams : Type := MkApiMsgUpdateParams {
  au_Authority : string;
  au_Params : option ApiParams;
  au_unknown : bytes
}.

(** MsgAuctionBidResponse, MsgUpdateParamsResponse and, in query.pulsar.go, QueryParamsRequest
    have no fields. *)
Record ApiEmpty : Type := MkApiEmpty { ae_unknown : bytes }.

(** ** query.pulsar.go *)

Record ApiQueryParamsResponse : Type := MkApiQueryParamsResponse {
  aq_Params : option ApiParams;
  aq_unknown : bytes
}.

(** ** module.pulsar.go *)

Record ApiModule : Type := MkApiModule { am_Authority : string; am_unknown : bytes }.

(** ** auction.pulsar.go *)

Record ApiAuctionInfo : Type := MkApiAuctionInfo {
  ai_ExtendedCommitInfo : GoBytes;
  ai_MaxTxBytes : Z;
  ai_NumTxs : Z;
  ai_unknown : bytes
}.

Record ApiVoteExtensionInfo : Type := MkApiVoteExtensionInfo {
  av_Registry : option (gmap string GoBytes);
  av_unknown : bytes
}.

(** ** What a protoreflect.Message, List or Map can be *)

Inductive ApiMessage : Type :=
| CoinMessage (m : option ApiCoin)
| ParamsMessage (m : option ApiParams)
| OtherMessage (name : string).

Inductive ApiList : Type :=
| MsgAuctionBid_3_list (l : TransactionsList)
| OtherList.

Inductive ApiMap : Type :=
| VoteExtensionInfo_2_map (m : RegistryMap)
| OtherMap.

(** The type assertions. *)
Definition as_Coin (m : ApiMessage) : outcome (option ApiCoin) :=
  match m with CoinMessage c => Ret c | _ => Panic "interface conversion: not a *v1beta1.Coin" end.
Definition as_Params (m : ApiMessage) : outcome (option ApiParams) :=
  match m with ParamsMessage p => Ret p | _ => Panic "interface conversion: not a *Params" end.
Definition as_Transactions (l : ApiList) : outcome TransactionsList :=
  match l with
  | MsgAuctionBid_3_list l => Ret l
  | OtherList => Panic "interface conversion: not a *_MsgAuctionBid_3_list"
  end.
Definition as_Registry (m : ApiMap) : outcome RegistryMap :=
  match m with
  | VoteExtensionInfo_2_map m => Ret m
  | OtherMap => Panic "interface conversion: not a *_VoteExtensionInfo_2_map"
  end.
End Structs.

Section Messages.
Context {PL : PulsarLib} {PV : ProtoValue ApiMessage ApiList ApiMap}.

Definition coin_field {T} := message_field (T := T) new_ApiCoin CoinMessage as_Coin.

(** ** Params *)

Definition new_ApiParams : ApiParams := MkApiParams 0 None None None false "" [].

Definition ap_with_unknown (u : bytes) (x : ApiParams) : ApiParams :=
  MkApiParams (ap_MaxBundleSize x) (ap_EscrowAccountAddress x) (ap_ReserveFee x)
    (ap_MinBidIncrement x) (ap_FrontRunningProtection x) (ap_ProposerFee x) u.
Definition ap_set_MaxBundleSize (v : Z) (x : ApiParams) : ApiParams :=
  MkApiParams v (ap_EscrowAccountAddress x) (ap_ReserveFee x)
    (ap_MinBidIncrement x) (ap_FrontRunningProtection x) (ap_ProposerFee x) (ap_unknown x).
Definition ap_set_EscrowAccountAddress (v : GoBytes) (x : ApiParams) : ApiParams :=
  MkApiParams (ap_MaxBundleSize x) v (ap_ReserveFee x)
    (ap_MinBidIncrement x) (ap_FrontRunningProtection x) (ap_ProposerFee x) (ap_unknown x).
Definition ap_set_ReserveFee (v : option ApiCoin) (x : ApiParams) : ApiParams :=
  MkApiParams (ap_MaxBundleSize x) (ap_EscrowAccountAddress x) v
    (ap_MinBidIncrement x) (ap_FrontRunningProtection x) (ap_ProposerFee x) (ap_unknown x).
Definition ap_set_MinBidIncrement (v : option ApiCoin) (x : ApiParams) : ApiParams :=
  MkApiParams (ap_MaxBundleSize x) (ap_EscrowAccountAddress x) (ap_ReserveFee x)
    v (ap_FrontRunningProtection x) (ap_ProposerFee x) (ap_unknown x).
Definition ap_set_FrontRunningProtection (v : bool) (x : ApiParams) : ApiParams :=
  MkApiParams (ap_MaxBundleSize x) (ap_EscrowAccountAddress x) (ap_ReserveFee x)
    (ap_MinBidIncrement x) v (ap_ProposerFee x) (ap_unknown x).
Definition ap_set_ProposerFee (v : string) (x : ApiParams) : ApiParams :=
  MkApiParams (ap_MaxBundleSize x) (ap_EscrowAccountAddress x) (ap_ReserveFee x)
    (ap_MinBidIncrement x) (ap_FrontRunningProtection x) v (ap_unknown x).

Definition ApiParams_fields : list (Field ApiParams) := [
  uint32_field "pob.builder.v1.Params.max_bundle_size" ap_MaxBundleSize ap_set_MaxBundleSize;
  bytes_field "pob.builder.v1.Params.escrow_account_address"
    ap_EscrowAccountAddress ap_set_EscrowAccountAddress;
  coin_field "pob.builder.v1.Params.reserve_fee" ap_ReserveFee ap_set_ReserveFee;
  coin_field "pob.builder.v1.Params.min_bid_increment" ap_MinBidIncrement ap_set_MinBidIncrement;
  bool_field "pob.builder.v1.Params.front_running_protection"
    ap_FrontRunningProtection ap_set_FrontRunningProtection;
  string_field "pob.builder.v1.Params.proposer_fee" ap_ProposerFee ap_set_ProposerFee ].

Definition fastReflection_Params : FastReflection ApiParams :=
  MkReflection "pob.builder.v1.Params" ApiParams_fields new_ApiParams ap_unknown ap_with_unknown.

Definition ApiParams_size (det : bool) (x : ApiParams) : Z :=
  (if negb (ap_MaxBundleSize x =? 0) then size_varint (ap_MaxBundleSize x) else 0) +
  size_optional (len (content (ap_EscrowAccountAddress x))) +
  size_nested ApiCoin_Methods det (ap_ReserveFee x) +
  size_nested ApiCoin_Methods det (ap_MinBidIncrement x) +
  (if ap_FrontRunningProtection x then 2 else 0) +
  size_optional (len (string_bytes (ap_ProposerFee x))).

Definition ApiParams_marshal (det : bool) (x : ApiParams) : Z -> ST bytes (result Z) :=
  then_ok (always (when (0 <? len (string_bytes (ap_ProposerFee x)))
    (put_delimited 0x32 (string_bytes (ap_ProposerFee x)))))
  (then_ok (always (when (ap_FrontRunningProtection x) (put_bool 0x28 (ap_FrontRunningProtection x))))
  (then_ok (put_nested ApiCoin_Methods det 0x22 (ap_MinBidIncrement x))
  (then_ok (put_nested ApiCoin_Methods det 0x1a (ap_ReserveFee x))
  (then_ok (always (when (0 <? len (content (ap_EscrowAccountAddress x)))
    (put_delimited 0x12 (content (ap_EscrowAccountAddress x)))))
  (always (when (negb (ap_MaxBundleSize x =? 0)) (put_varint 0x8 (ap_MaxBundleSize x)))))))).

Definition ap_add_unknown (u : bytes) (x : ApiParams) : ApiParams :=
  ap_with_unknown (ap_unknown x ++ u) x.

Definition ApiParams_cases (discard : bool) : FieldCases ApiParams :=
  fun fieldNum wireType dAtA preIndex iNdEx x =>
  if fieldNum =? 1 then
    field_of wireType 0 (varint wrap_u32 dAtA iNdEx) (fun v => Ok (ap_set_MaxBundleSize v x))
  else if fieldNum =? 2 then
    field_of wireType 2 (read_bytes dAtA iNdEx) (fun v => Ok (ap_set_EscrowAccountAddress (Some v) x))
  else if fieldNum =? 3 then
    field_of wireType 2 (read_bytes dAtA iNdEx)
      (fun v => c ← merge_nested ApiCoin_Methods new_ApiCoin discard (ap_ReserveFee x) v;
                Ok (ap_set_ReserveFee c x))
  else if fieldNum =? 4 then
    field_of wireType 2 (read_bytes dAtA iNdEx)
      (fun v => c ← merge_nested ApiCoin_Methods new_ApiCoin discard (ap_MinBidIncrement x) v;
                Ok (ap_set_MinBidIncrement c x))
  else if fieldNum =? 5 then
    field_of wireType 0 (varint wrap_i64 dAtA iNdEx)
      (fun v => Ok (ap_set_FrontRunningProtection (negb (v =? 0)) x))
  else if fieldNum =? 6 then
    field_of wireType 2 (read_string dAtA iNdEx) (fun v => Ok (ap_set_ProposerFee (bytes_string v) x))
  else keep_unknown ap_add_unknown discard dAtA preIndex x.

Definition ApiParams_Methods : Methods ApiParams :=
  let size := size_frame ap_unknown ApiParams_size in
  MkMethods size (marshal_frame ap_unknown size ApiParams_marshal) (unmarshal_frame ApiParams_cases).

Definition ApiParams_GetMaxBundleSize (x : option ApiParams) : Z := from_option ap_MaxBundleSize 0 x.
Definition ApiParams_GetEscrowAccountAddress (x : option ApiParams) : GoBytes :=
  from_option ap_EscrowAccountAddress None x.
Definition ApiParams_GetReserveFee (x : option ApiParams) : option ApiCoin :=
  from_option ap_ReserveFee None x.
Definition ApiParams_GetMinBidIncrement (x : option ApiParams) : option ApiCoin :=
  from_option ap_MinBidIncrement None x.
Definition ApiParams_GetFrontRunningProtection (x : option ApiParams) : bool :=
  from_option ap_FrontRunningProtection false x.
Definition ApiParams_GetProposerFee (x : option ApiParams) : string := from_option ap_ProposerFee "" x.

Definition params_field {T} := message_field (T := T) new_ApiParams ParamsMessage as_Params.

(** ** GenesisState *)

Definition new_ApiGenesisState : ApiGenesisState := MkApiGenesisState None [].
Definition ag_set_Params (v : option ApiParams) (x : ApiGenesisState) : ApiGenesisState :=
  MkApiGenesisState v (ag_unknown x).
Definition ag_with_unknown (u : bytes) (x : ApiGenesisState) : ApiGenesisState :=
  MkApiGenesisState (ag_Params x) u.

Definition fastReflection_GenesisState : FastReflection ApiGenesisState :=
  MkReflection "pob.builder.v1.GenesisState"
    [params_field "pob.builder.v1.GenesisState.params" ag_Params ag_set_Params]
    new_ApiGenesisState ag_unknown ag_with_unknown.

Definition ApiGenesisState_size (det : bool) (x : ApiGenesisState) : Z :=
  size_nested ApiParams_Methods det (ag_Params x).
Definition ApiGenesisState_marshal (det : bool) (x : ApiGenesisState) : Z -> ST bytes (result Z) :=
  put_nested ApiParams_Methods det 0xa (ag_Params x).
Definition ApiGenesisState_cases (discard : bool) : FieldCases ApiGenesisState :=
  fun fieldNum wireType dAtA preIndex iNdEx x =>
  if fieldNum =? 1 then
    field_of wireType 2 (read_bytes dAtA iNdEx)
      (fun v => p ← merge_nested ApiParams_Methods new_ApiParams discard (ag_Params x) v;
                Ok (ag_set_Params p x))
  else keep_unknown (fun u x => ag_with_unknown (ag_unknown x ++ u) x) discard dAtA preIndex x.
Definition ApiGenesisState_Methods : Methods ApiGenesisState :=
  let size := size_frame ag_unknown ApiGenesisState_size in
  MkMethods size (marshal_frame ag_unknown size ApiGenesisState_marshal)
    (unmarshal_frame ApiGenesisState_cases).

Definition ApiGenesisState_GetParams (x : option ApiGenesisState) : option ApiParams :=
  from_option ag_Params None x.

(** ** MsgAuctionBid *)

Definition new_ApiMsgAuctionBid : ApiMsgAuctionBid := MkApiMsgAuctionBid "" None None [].
Definition ab_set_Bidder (v : string) (x : ApiMsgAuctionBid) : ApiMsgAuctionBid :=
  MkApiMsgAuctionBid v (ab_Bid x) (ab_Transactions x) (ab_unknown x).
Definition ab_set_Bid (v : option ApiCoin) (x : ApiMsgAuctionBid) : ApiMsgAuctionBid :=
  MkApiMsgAuctionBid (ab_Bidder x) v (ab_Transactions x) (ab_unknown x).
Definition ab_set_Transactions (v : option (list GoBytes)) (x : ApiMsgAuctionBid) : ApiMsgAuctionBid :=
  MkApiMsgAuctionBid (ab_Bidder x) (ab_Bid x) v (ab_unknown x).
Definition ab_with_unknown (u : bytes) (x : ApiMsgAuctionBid) : ApiMsgAuctionBid :=
  MkApiMsgAuctionBid (ab_Bidder x) (ab_Bid x) (ab_Transactions x) u.

Definition fastReflection_MsgAuctionBid : FastReflection ApiMsgAuctionBid :=
  MkReflection "pob.builder.v1.MsgAuctionBid"
    [string_field "pob.builder.v1.MsgAuctionBid.bidder" ab_Bidder ab_set_Bidder;
     coin_field "pob.builder.v1.MsgAuctionBid.bid" ab_Bid ab_set_Bid;
     list_field MsgAuctionBid_3_list as_Transactions "pob.builder.v1.MsgAuctionBid.transactions"
       ab_Transactions ab_set_Transactions]
    new_ApiMsgAuctionBid ab_unknown ab_with_unknown.

(** A method of the list view that Mutable returned, whose pointer is the address of the field. *)
Definition on_transactions {A} (m : ST (option (option (list GoBytes))) A) : ST ApiMsgAuctionBid A :=
  fun x =>
    match m (Some (ab_Transactions x)) with
    | (r, Some l) => (r, ab_set_Transactions l x)
    | (r, None) => (r, x)
    end.

Definition ApiMsgAuctionBid_size (det : bool) (x : ApiMsgAuctionBid) : Z :=
  size_optional (len (string_bytes (ab_Bidder x))) +
  size_nested ApiCoin_Methods det (ab_Bid x) +
  fold_left (fun n b => n + size_delimited (len (content b))) (default [] (ab_Transactions x)) 0.

Definition put_tx_list (l : list GoBytes) (i : Z) : ST bytes Z :=
  fold_left (fun m b => i ← m; put_delimited 0x1a (content b) i) (rev l) (mret i).

Definition ApiMsgAuctionBid_marshal (det : bool) (x : ApiMsgAuctionBid) : Z -> ST bytes (result Z) :=
  then_ok (always (put_tx_list (default [] (ab_Transactions x))))
  (then_ok (put_nested ApiCoin_Methods det 0x12 (ab_Bid x))
  (always (when (0 <? len (string_bytes (ab_Bidder x)))
    (put_delimited 0xa (string_bytes (ab_Bidder x)))))).

Definition ApiMsgAuctionBid_cases (discard : bool) : FieldCases ApiMsgAuctionBid :=
  fun fieldNum wireType dAtA preIndex iNdEx x =>
  if fieldNum =? 1 then
    field_of wireType 2 (read_string dAtA iNdEx) (fun v => Ok (ab_set_Bidder (bytes_string v) x))
  else if fieldNum =? 2 then
    field_of wireType 2 (read_bytes dAtA iNdEx)
      (fun v => c ← merge_nested ApiCoin_Methods new_ApiCoin discard (ab_Bid x) v; Ok (ab_set_Bid c x))
  else if fieldNum =? 3 then
    field_of wireType 2 (read_bytes dAtA iNdEx)
      (fun v => Ok (ab_set_Transactions (Some (default [] (ab_Transactions x) ++ [Some v])) x))
  else keep_unknown (fun u x => ab_with_unknown (ab_unknown x ++ u) x) discard dAtA preIndex x.

Definition ApiMsgAuctionBid_Methods : Methods ApiMsgAuctionBid :=
  let size := size_frame ab_unknown ApiMsgAuctionBid_size in
  MkMethods size (marshal_frame ab_unknown size ApiMsgAuctionBid_marshal)
    (unmarshal_frame ApiMsgAuctionBid_cases).

Definition ApiMsgAuctionBid_GetBidder (x : option ApiMsgAuctionBid) : string := from_option ab_Bidder "" x.
Definition ApiMsgAuctionBid_GetBid (x : option ApiMsgAuctionBid) : option ApiCoin :=
  from_option ab_Bid None x.
Definition ApiMsgAuctionBid_GetTransactions (x : option ApiMsgAuctionBid) : option (list GoBytes) :=
  from_option ab_Transactions None x.

(** ** MsgUpdateParams *)

Definition new_ApiMsgUpdateParams : ApiMsgUpdateParams := MkApiMsgUpdateParams "" None [].
Definition au_set_Authority (v : string) (x : ApiMsgUpdateParams) : ApiMsgUpdateParams :=
  MkApiMsgUpdateParams v (au_Params x) (au_unknown x).
Definition au_set_Params (v : option ApiParams) (x : ApiMsgUpdateParams) : ApiMsgUpdateParams :=
  MkApiMsgUpdateParams (au_Authority x) v (au_unknown x).
Definition au_with_unknown (u : bytes) (x : ApiMsgUpdateParams) : ApiMsgUpdateParams :=
  MkApiMsgUpdateParams (au_Authority x) (au_Params x) u.

Definition fastReflection_MsgUpdateParams : FastReflection ApiMsgUpdateParams :=
  MkReflection "pob.builder.v1.MsgUpdateParams"
    [string_field "pob.builder.v1.MsgUpdateParams.authority" au_Authority au_set_Authority;
     params_field "pob.builder.v1.MsgUpdateParams.params" au_Params au_set_Params]
    new_ApiMsgUpdateParams au_unknown au_with_unknown.

Definition ApiMsgUpdateParams_size (det : bool) (x : ApiMsgUpdateParams) : Z :=
  size_optional (len (string_bytes (au_Authority x))) +
  size_nested ApiParams_Methods det (au_Params x).
Definition ApiMsgUpdateParams_marshal (det : bool) (x : ApiMsgUpdateParams) : Z -> ST bytes (result Z) :=
  then_ok (put_nested ApiParams_Methods det 0x12 (au_Params x))
  (always (when (0 <? len (string_bytes (au_Authority x)))
    (put_delimited 0xa (string_bytes (au_Authority x))))).
Definition ApiMsgUpdateParams_cases (discard : bool) : FieldCases ApiMsgUpdateParams :=
  fun fieldNum wireType dAtA preIndex iNdEx x =>
  if fieldNum =? 1 then
    field_of wireType 2 (read_string dAtA iNdEx) (fun v => Ok (au_set_Authority (bytes_string v) x))
  else if fieldNum =? 2 then
    field_of wireType 2 (read_bytes dAtA iNdEx)
      (fun v => p ← merge_nested ApiParams_Methods new_ApiParams discard (au_Params x) v;
                Ok (au_set_Params p x))
  else keep_unknown (fun u x => au_with_unknown (au_unknown x ++ u) x) discard dAtA preIndex x.
Definition ApiMsgUpdateParams_Methods : Methods ApiMsgUpdateParams :=
  let size := size_frame au_unknown ApiMsgUpdateParams_size in
  MkMethods size (marshal_frame au_unknown size ApiMsgUpdateParams_marshal)
    (unmarshal_frame ApiMsgUpdateParams_cases).

Definition ApiMsgUpdateParams_GetAuthority (x : option ApiMsgUpdateParams) : string :=
  from_option au_Authority "" x.
Definition ApiMsgUpdateParams_GetParams (x : option ApiMsgUpdateParams) : option ApiParams :=
  from_option au_Params None x.

(** ** The messages without fields *)

Definition new_ApiEmpty : ApiEmpty := MkApiEmpty [].
Definition empty_reflection (name : string) : FastReflection ApiEmpty :=
  MkReflection name [] new_ApiEmpty ae_unknown (fun u x => MkApiEmpty u).
Definition fastReflection_MsgAuctionBidResponse : FastReflection ApiEmpty :=
  empty_reflection "pob.builder.v1.MsgAuctionBidResponse".
Definition fastReflection_MsgUpdateParamsResponse : FastReflection ApiEmpty :=
  empty_reflection "pob.builder.v1.MsgUpdateParamsResponse".
Definition fastReflection_QueryParamsRequest : FastReflection ApiEmpty :=
  empty_reflection "pob.builder.v1.QueryParamsRequest".

Definition empty_size (det : bool) (x : ApiEmpty) : Z := 0.
Definition empty_marshal (det : bool) (x : ApiEmpty) : Z -> ST bytes (result Z) := fun i => mret (Ok i).
Definition empty_cases (discard : bool) : FieldCases ApiEmpty :=
  fun fieldNum wireType dAtA preIndex iNdEx x =>
  keep_unknown (fun u x => MkApiEmpty (ae_unknown x ++ u)) discard dAtA preIndex x.
Definition empty_Methods : Methods ApiEmpty :=
  let size := size_frame ae_unknown empty_size in
  MkMethods size (marshal_frame ae_unknown size empty_marshal) (unmarshal_frame empty_cases).
Definition ApiMsgAuctionBidResponse_Methods : Methods ApiEmpty := empty_Methods.
Definition ApiMsgUpdateParamsResponse_Methods : Methods ApiEmpty := empty_Methods.
Definition ApiQueryParamsRequest_Methods : Methods ApiEmpty := empty_Methods.

(** ** QueryParamsResponse *)

Definition new_ApiQueryParamsResponse : ApiQueryParamsResponse := MkApiQueryParamsResponse None [].
Definition aq_set_Params (v : option ApiParams) (x : ApiQueryParamsResponse) : ApiQueryParamsResponse :=
  MkApiQueryParamsResponse v (aq_unknown x).
Definition aq_with_unknown (u : bytes) (x : ApiQueryParamsResponse) : ApiQueryParamsResponse :=
  MkApiQueryParamsResponse (aq_Params x) u.

Definition fastReflection_QueryParamsResponse : FastReflection ApiQueryParamsResponse :=
  MkReflection "pob.builder.v1.QueryParamsResponse"
    [params_field "pob.builder.v1.QueryParamsResponse.params" aq_Params aq_set_Params]
    new_ApiQueryParamsResponse aq_unknown aq_with_unknown.

Definition ApiQueryParamsResponse_size (det : bool) (x : ApiQueryParamsResponse) : Z :=
  size_nested ApiParams_Methods det (aq_Params x).
Definition ApiQueryParamsResponse_marshal (det : bool) (x : ApiQueryParamsResponse)
    : Z -> ST bytes (result Z) :=
  put_nested ApiParams_Methods det 0xa (aq_Params x).
Definition ApiQueryParamsResponse_cases (discard : bool) : FieldCases ApiQueryParamsResponse :=
  fun fieldNum wireType dAtA preIndex iNdEx x =>
  if fieldNum =? 1 then
    field_of wireType 2 (read_bytes dAtA iNdEx)
      (fun v => p ← merge_nested ApiParams_Methods new_ApiParams discard (aq_Params x) v;
                Ok (aq_set_Params p x))
  else keep_unknown (fun u x => aq_with_unknown (aq_unknown x ++ u) x) discard dAtA preIndex x.
Definition ApiQueryParamsResponse_Methods : Methods ApiQueryParamsResponse :=
  let size := size_frame aq_unknown ApiQueryParamsResponse_size in
  MkMethods size (marshal_frame aq_unknown size ApiQueryParamsResponse_marshal)
    (unmarshal_frame ApiQueryParamsResponse_cases).

Definition ApiQueryParamsResponse_GetParams (x : option ApiQueryParamsResponse) : option ApiParams :=
  from_option aq_Params None x.

(** ** Module *)

Definition new_ApiModule : ApiModule := MkApiModule "" [].
Definition am_set_Authority (v : string) (x : ApiModule) : ApiModule := MkApiModule v (am_unknown x).
Definition am_with_unknown (u : bytes) (x : ApiModule) : ApiModule := MkApiModule (am_Authority x) u.

Definition fastReflection_Module : FastReflection ApiModule :=
  MkReflection "pob.builder.module.v1.Module"
    [string_field "pob.builder.module.v1.Module.authority" am_Authority am_set_Authority]
    new_ApiModule am_unknown am_with_unknown.

Definition ApiModule_size (det : bool) (x : ApiModule) : Z :=
  size_optional (len (string_bytes (am_Authority x))).
Definition ApiModule_marshal (det : bool) (x : ApiModule) : Z -> ST bytes (result Z) :=
  always (when (0 <? len (string_bytes (am_Authority x)))
    (put_delimited 0x12 (string_bytes (am_Authority x)))).
Definition ApiModule_cases (discard : bool) : FieldCases ApiModule :=
  fun fieldNum wireType dAtA preIndex iNdEx x =>
  if fieldNum =? 2 then
    field_of wireType 2 (read_string dAtA iNdEx) (fun v => Ok (am_set_Authority (bytes_string v) x))
  else keep_unknown (fun u x => am_with_unknown (am_unknown x ++ u) x) discard dAtA preIndex x.
Definition ApiModule_Methods : Methods ApiModule :=
  let size := size_frame am_unknown ApiModule_size in
  MkMethods size (marshal_frame am_unknown size ApiModule_marshal) (unmarshal_frame ApiModule_cases).

Definition ApiModule_GetAuthority (x : option ApiModule) : string := from_option am_Authority "" x.

(** ** AuctionInfo *)

Definition new_ApiAuctionInfo : ApiAuctionInfo := MkApiAuctionInfo None 0 0 [].
Definition ai_set_ExtendedCommitInfo (v : GoBytes) (x : ApiAuctionInfo) : ApiAuctionInfo :=
  MkApiAuctionInfo v (ai_MaxTxBytes x) (ai_NumTxs x) (ai_unknown x).
Definition ai_set_MaxTxBytes (v : Z) (x : ApiAuctionInfo) : ApiAuctionInfo :=
  MkApiAuctionInfo (ai_ExtendedCommitInfo x) v (ai_NumTxs x) (ai_unknown x).
Definition ai_set_NumTxs (v : Z) (x : ApiAuctionInfo) : ApiAuctionInfo :=
  MkApiAuctionInfo (ai_ExtendedCommitInfo x) (ai_MaxTxBytes x) v (ai_unknown x).
Definition ai_with_unknown (u : bytes) (x : ApiAuctionInfo) : ApiAuctionInfo :=
  MkApiAuctionInfo (ai_ExtendedCommitInfo x) (ai_MaxTxBytes x) (ai_NumTxs x) u.

Definition fastReflection_AuctionInfo : FastReflection ApiAuctionInfo :=
  MkReflection "pob.abci.v1.AuctionInfo"
    [bytes_field "pob.abci.v1.AuctionInfo.extended_commit_info"
       ai_ExtendedCommitInfo ai_set_ExtendedCommitInfo;
     int64_field "pob.abci.v1.AuctionInfo.max_tx_bytes" ai_MaxTxBytes ai_set_MaxTxBytes;
     uint64_field "pob.abci.v1.AuctionInfo.num_txs" ai_NumTxs ai_set_NumTxs]
    new_ApiAuctionInfo ai_unknown ai_with_unknown.

Definition ApiAuctionInfo_size (det : bool) (x : ApiAuctionInfo) : Z :=
  size_optional (len (content (ai_ExtendedCommitInfo x))) +
  (if negb (ai_MaxTxBytes x =? 0) then size_varint (ai_MaxTxBytes x) else 0) +
  (if negb (ai_NumTxs x =? 0) then size_varint (ai_NumTxs x) else 0).
Definition ApiAuctionInfo_marshal (det : bool) (x : ApiAuctionInfo) : Z -> ST bytes (result Z) :=
  then_ok (always (when (negb (ai_NumTxs x =? 0)) (put_varint 0x18 (ai_NumTxs x))))
  (then_ok (always (when (negb (ai_MaxTxBytes x =? 0)) (put_varint 0x10 (ai_MaxTxBytes x))))
  (always (when (0 <? len (content (ai_ExtendedCommitInfo x)))
    (put_delimited 0xa (content (ai_ExtendedCommitInfo x)))))).
Definition ApiAuctionInfo_cases (discard : bool) : FieldCases ApiAuctionInfo :=
  fun fieldNum wireType dAtA preIndex iNdEx x =>
  if fieldNum =? 1 then
    field_of wireType 2 (read_bytes dAtA iNdEx) (fun v => Ok (ai_set_ExtendedCommitInfo (Some v) x))
  else if fieldNum =? 2 then
    field_of wireType 0 (varint wrap_i64 dAtA iNdEx) (fun v => Ok (ai_set_MaxTxBytes v x))
  else if fieldNum =? 3 then
    field_of wireType 0 (varint wrap_u64 dAtA iNdEx) (fun v => Ok (ai_set_NumTxs v x))
  else keep_unknown (fun u x => ai_with_unknown (ai_unknown x ++ u) x) discard dAtA preIndex x.
Definition ApiAuctionInfo_Methods : Methods ApiAuctionInfo :=
  let size := size_frame ai_unknown ApiAuctionInfo_size in
  MkMethods size (marshal_frame ai_unknown size ApiAuctionInfo_marshal)
    (unmarshal_frame ApiAuctionInfo_cases).

Definition ApiAuctionInfo_GetExtendedCommitInfo (x : option ApiAuctionInfo) : GoBytes :=
  from_option ai_ExtendedCommitInfo None x.
Definition ApiAuctionInfo_GetMaxTxBytes (x : option ApiAuctionInfo) : Z := from_option ai_MaxTxBytes 0 x.
Definition ApiAuctionInfo_GetNumTxs (x : option ApiAuctionInfo) : Z := from_option ai_NumTxs 0 x.

(** ** VoteExtensionInfo *)

Definition new_ApiVoteExtensionInfo : ApiVoteExtensionInfo := MkApiVoteExtensionInfo None [].
Definition av_set_Registry (v : option (gmap string GoBytes)) (x : ApiVoteExtensionInfo)
    : ApiVoteExtensionInfo := MkApiVoteExtensionInfo v (av_unknown x).
Definition av_with_unknown (u : bytes) (x : ApiVoteExtensionInfo) : ApiVoteExtensionInfo :=
  MkApiVoteExtensionInfo (av_Registry x) u.

Definition fastReflection_VoteExtensionInfo : FastReflection ApiVoteExtensionInfo :=
  MkReflection "pob.abci.v1.VoteExtensionInfo"
    [map_field VoteExtensionInfo_2_map as_Registry "pob.abci.v1.VoteExtensionInfo.registry"
       av_Registry av_set_Registry]
    new_ApiVoteExtensionInfo av_unknown av_with_unknown.

(** The keys in the order of the deterministic and of the plain loop: [sort.Strings] orders them
    by their bytes. *)
Definition string_le (a b : string) : Prop := String.leb a b = true.
#[export] Instance string_le_dec : RelDecision string_le := fun a b => decide (String.leb a b = true).
Definition registry_keys (det : bool) (m : gmap string GoBytes) : list string :=
  if det then merge_sort string_le (range_keys m) else range_keys m.

Definition entry_size (k : string) (v : GoBytes) : Z :=
  size_delimited (len (string_bytes k)) + size_delimited (len (content v)).
Definition ApiVoteExtensionInfo_size (det : bool) (x : ApiVoteExtensionInfo) : Z :=
  let m := default ∅ (av_Registry x) in
  fold_left (fun n k => n + size_delimited (entry_size k (default None (m !! k)))) (registry_keys det m) 0.

(** The closure MaRsHaLmAp. *)
Definition put_entry (k : string) (v : GoBytes) (baseI : Z) : ST bytes Z :=
  i ← put_delimited 0x12 (content v) baseI;
  i ← put_delimited 0xa (string_bytes k) i;
  i ← runtime_EncodeVarint i (wrap_u64 (baseI - i));
  put_back 0x12 i.

(** The deterministic loop runs from the last key, the plain one in the order of the map. *)
Definition put_registry (m : gmap string GoBytes) (keys : list string) (i : Z) : ST bytes Z :=
  fold_left (fun st k => i ← st; put_entry k (default None (m !! k)) i) keys (mret i).
Definition ApiVoteExtensionInfo_marshal (det : bool) (x : ApiVoteExtensionInfo)
    : Z -> ST bytes (result Z) :=
  let m := default ∅ (av_Registry x) in
  always (put_registry m (if det then rev (registry_keys true m) else registry_keys false m)).

(** One field of an entry; the key and the value are read up to the end of the whole input. *)
Definition entry_body (dAtA : bytes) (postIndex : Z) (s : string * GoBytes * Z)
    : (string * GoBytes * Z) + result (string * GoBytes) :=
  let '(mapkey, mapvalue, iNdEx) := s in
  if iNdEx <? postIndex then
    let entryPreIndex := iNdEx in
    match ('(wire, iNdEx) ← varint wrap_u64 dAtA iNdEx;
           let fieldNum := wrap_i32 (Z.shiftr wire 3) in
           if fieldNum =? 1 then
             '(k, iNdEx) ← read_string dAtA iNdEx; Ok (bytes_string k, mapvalue, iNdEx)
           else if fieldNum =? 2 then
             '(v, iNdEx) ← read_string dAtA iNdEx; Ok (mapkey, Some v, iNdEx)
           else
             skippy ← runtime_Skip (drop (Z.to_nat entryPreIndex) dAtA);
             if (skippy <? 0) || (wrap_i64 (entryPreIndex + skippy) <? 0) then Err ErrInvalidLength
             else if postIndex <? wrap_i64 (entryPreIndex + skippy) then Err ErrUnexpectedEOF
             else Ok (mapkey, mapvalue, wrap_i64 (entryPreIndex + skippy))) with
    | Err err => inr (Err err)
    | Ok s => inl s
    end
  else inr (Ok (mapkey, mapvalue)).

Definition read_entry (dAtA : bytes) (iNdEx : Z) : result (string * GoBytes * Z) :=
  '(msglen, iNdEx) ← varint wrap_i64 dAtA iNdEx;
  '(_, postIndex) ← read_delimited dAtA (msglen, iNdEx);
  '(k, v) ← default (Err out_of_fuel)
              (iterate (S (length dAtA)) (entry_body dAtA postIndex) (""%string, None, iNdEx));
  Ok (k, v, postIndex).

Definition ApiVoteExtensionInfo_cases (discard : bool) : FieldCases ApiVoteExtensionInfo :=
  fun fieldNum wireType dAtA preIndex iNdEx x =>
  if fieldNum =? 2 then
    field_of wireType 2 (read_entry dAtA iNdEx)
      (fun '(k, v) => Ok (av_set_Registry (Some (<[k := v]> (default ∅ (av_Registry x)))) x))
  else keep_unknown (fun u x => av_with_unknown (av_unknown x ++ u) x) discard dAtA preIndex x.

Definition ApiVoteExtensionInfo_Methods : Methods ApiVoteExtensionInfo :=
  let size := size_frame av_unknown ApiVoteExtensionInfo_size in
  MkMethods size (marshal_frame av_unknown size ApiVoteExtensionInfo_marshal)
    (unmarshal_frame ApiVoteExtensionInfo_cases).

Definition ApiVoteExtensionInfo_GetRegistry (x : option ApiVoteExtensionInfo)
    : option (gmap string GoBytes) := from_option av_Registry None x.
End Messages.
