(* ===== verification/PulsarFacts.v ===== *)
(** * The reflection of the API messages

    Every field of a message is a lens on its struct: the switch of a method finds the field of
    the descriptor, a write through it is read back, and the other fields and the unknown fields
    stay.  [api_message] lists the messages; the properties hold for each of them. *)
From S2P Require Import Prelude Hash Wire Pulsar PulsarMessages.
From Stdlib Require Import ZifyBool.
#[local] Open Scope Z_scope.

(** ** What the protoreflect package says about its values *)

Class ProtoValueLaws {M L P} (PV : ProtoValue M L P) : Prop := {
  value_uint32 n : Value_Uint (ValueOfUint32 n) = Ret n;
  value_uint64 n : Value_Uint (ValueOfUint64 n) = Ret n;
  value_int64 n : Value_Int (ValueOfInt64 n) = Ret n;
  value_bool b : Value_Bool (ValueOfBool b) = Ret b;
  value_string s : Value_string (ValueOfString s) = Ret s;
  value_bytes b : Value_Bytes (ValueOfBytes b) = Ret b;
  value_message m : Value_Message (ValueOfMessage m) = Ret m;
  value_list l : Value_List (ValueOfList l) = Ret l;
  value_map m : Value_Map (ValueOfMap m) = Ret m
}.

(** ** Fields as lenses *)

Record lens (T : Type) : Type := MkLens {
  lens_type : Type;
  lens_get : T -> lens_type;
  lens_put : lens_type -> T -> T
}.
Arguments MkLens {T} _ _ _.
Arguments lens_type {T} _.
Arguments lens_get {T} _ _.
Arguments lens_put {T} _ _ _.

(** The fields of the schema that hold messages, lists or maps; the others are scalars. *)
Definition composite_fields : list string :=
  [ "pob.builder.v1.GenesisState.params"; "pob.builder.v1.Params.reserve_fee";
    "pob.builder.v1.Params.min_bid_increment"; "pob.builder.v1.MsgAuctionBid.bid";
    "pob.builder.v1.MsgAuctionBid.transactions"; "pob.builder.v1.MsgUpdateParams.params";
    "pob.builder.v1.QueryParamsResponse.params"; "pob.abci.v1.VoteExtensionInfo.registry" ]%string.
Definition is_composite (name : string) : bool := existsb (String.eqb name) composite_fields.

Section FieldLaws.
Context {M L P : Type} {PV : ProtoValue M L P} {PVL : ProtoValueLaws PV}.

(** The field [f] reads and writes its message through [l]; [typed] messages hold values of
    their Go types. *)
Record field_lens {T} (typed : T -> Prop) (f : Field T) (l : lens T) : Prop := {
  fl_cleared x : exists a, cleared f x = lens_put l a x;
  fl_assigned v x x' : assigned f v x = Ret x' -> exists a, x' = lens_put l a x;
  fl_mutable x :
    if is_composite (field_name f) then
      if populated f x then mutable f x = Ret (x, get_value f x)
      else exists a, mutable f x = Ret (lens_put l a x, new_value f) /\
        assigned f (new_value f) x = Ret (lens_put l a x)
    else exists w, mutable f x = Panic w;
  fl_observes x y : lens_get l x = lens_get l y ->
    populated f x = populated f y /\ get_value f x = get_value f y /\ range_value f x = range_value f y;
  fl_clear_has x : populated f (cleared f x) = false;
  fl_range x : populated f x = true -> range_value f x = get_value f x;
  fl_set x y : typed y -> populated f y = true ->
    exists a, assigned f (get_value f y) x = Ret (lens_put l a x) /\
      populated f (lens_put l a x) = true /\ get_value f (lens_put l a x) = get_value f y;
  fl_new x : exists x', assigned f (new_value f) x = Ret x'
}.

(** The lens reads what it wrote. *)
Definition put_get {A T} (get : T -> A) (put : A -> T -> T) : Prop := forall a x, get (put a x) = a.
(** Writing what it reads changes nothing. *)
Definition put_same {A T} (get : T -> A) (put : A -> T -> T) : Prop := forall x, put (get x) x = x.

Lemma scalar_field_lens {A T} (typed : T -> Prop) set (value : A -> Value) zero convert name get put :
  put_get get put -> is_composite name = false -> set zero = false ->
  (forall y, typed y -> set (get y) = true -> convert (value (get y)) = Ret (get y)) ->
  (exists a, convert (value zero) = Ret a) ->
  field_lens typed (scalar_field (T := T) set value zero convert name get put) (MkLens A get put).
Proof.
  intros Hpg Hn Hz Hc [a0 Ha0]. split; cbn -[is_composite]; unfold not_mutable; st_unfold.
  - eauto.
  - intros v x x'. destruct (convert v); [|done]. intros [= <-]. eauto.
  - intros x. rewrite Hn. eauto.
  - by intros x y ->.
  - intros x. by rewrite Hpg.
  - done.
  - intros x y Hy Hs. exists (get y). rewrite (Hc y Hy Hs), !Hpg. done.
  - intros x. rewrite Ha0. eauto.
Qed.

Lemma message_field_lens {A T} (typed : T -> Prop) (new : A) inject project name get put :
  put_get get put -> put_same get put -> is_composite name = true -> (forall a, project (inject a) = Ret a) ->
  field_lens typed (message_field (T := T) new inject project name get put) (MkLens (option A) get put).
Proof.
  intros Hpg Hps Hn Hp. split; cbn -[is_composite]; st_unfold.
  - eauto.
  - intros v x x'. destruct (Value_Message v); [|done]. destruct (project a); [|done]. intros [= <-]. eauto.
  - intros x. rewrite Hn, value_message, Hp. pose proof (Hps x) as Hx. destruct (get x); cbn; [by rewrite Hx|eauto].
  - by intros x y ->.
  - intros x. by rewrite Hpg.
  - done.
  - intros x y _ Hs. exists (get y). by rewrite value_message, Hp, !Hpg.
  - intros x. rewrite value_message, Hp. eauto.
Qed.

Lemma list_field_lens {T} (typed : T -> Prop) inject project name get put :
  put_get get put -> put_same get put -> is_composite name = true -> (forall l, project (inject l) = Ret l) ->
  field_lens typed (list_field (T := T) inject project name get put)
    (MkLens (option (list GoBytes)) get put).
Proof.
  intros Hpg Hps Hn Hp. split; cbn -[is_composite]; st_unfold.
  - eauto.
  - intros v x x'. destruct (Value_List v); [|done]. destruct (project a) as [[[l|]]|]; try done.
    intros [= <-]. eauto.
  - intros x. rewrite Hn, value_list, Hp. pose proof (Hps x) as Hx. cbn.
    destruct (get x) as [[|b l]|]; cbn -[len]; [by eexists| |by eexists].
    rewrite len_cons. pose proof (len_nonneg l). destruct (Z.eqb_spec (1 + len l) 0); [lia|]. cbn. by rewrite Hx.
  - by intros x y ->.
  - intros x. by rewrite Hpg.
  - intros x H. by destruct (len _ =? 0).
  - intros x y _ H. exists (get y). destruct (len (default [] (get y)) =? 0) eqn:E; [done|].
    rewrite value_list, Hp, !Hpg. cbn. by rewrite E.
  - intros x. rewrite value_list, Hp. cbn. eauto.
Qed.

Lemma map_field_lens {T} (typed : T -> Prop) inject project name get put :
  put_get get put -> put_same get put -> is_composite name = true -> (forall m, project (inject m) = Ret m) ->
  field_lens typed (map_field (T := T) inject project name get put)
    (MkLens (option (gmap string GoBytes)) get put).
Proof.
  intros Hpg Hps Hn Hp. split; cbn -[size is_composite]; st_unfold.
  - eauto.
  - intros v x x'. destruct (Value_Map v); [|done]. destruct (project a) as [[[m|]]|]; try done.
    intros [= <-]. eauto.
  - intros x. rewrite Hn, value_map, Hp. pose proof (Hps x) as Hx. cbn -[size].
    destruct (get x) as [m|]; cbn -[size]; unfold id.
    + destruct (decide (size m = 0%nat)) as [E|E].
      * rewrite (bool_decide_eq_true_2 _ E). cbn. apply map_size_empty_inv in E as ->. by eexists.
      * by rewrite (bool_decide_eq_false_2 _ E), Hx.
    + rewrite bool_decide_eq_true_2 by apply map_size_empty. cbn. by eexists.
  - by intros x y ->.
  - intros x. rewrite Hpg. cbn. done.
  - intros x H. by case_bool_decide.
  - intros x y _ H. exists (get y). case_bool_decide as E; [done|].
    rewrite value_map, Hp, !Hpg. cbn -[size]. rewrite bool_decide_eq_false_2 by done. done.
  - intros x. rewrite value_map, Hp. cbn. eauto.
Qed.

(** ** Messages *)

(** The fields have distinct names and independent lenses, and leave the unknown fields alone. *)
Record reflection_ok {T} (R : FastReflection T) (typed : T -> Prop) : Prop := {
  rok_lenses : exists ls,
    Forall2 (field_lens typed) (fields R) ls /\
    (forall i j li lj a x, ls !! i = Some li -> ls !! j = Some lj -> i <> j ->
       lens_get lj (lens_put li a x) = lens_get lj x) /\
    (forall li a x, In li ls -> unknownFields R (lens_put li a x) = unknownFields R x);
  rok_names : NoDup (map field_name (fields R))
}.
End FieldLaws.

(** The lenses of a concrete message: they are given, their pairs are enumerated. *)
Ltac lens_cases i H :=
  destruct i as [|i];
  [cbn in H; first [discriminate H|injection H as <-]|cbn in H; first [discriminate H|lens_cases i H]].
Ltac independent_lenses :=
  let i := fresh "i" in let j := fresh "j" in
  intros i j li lj a x Hi Hj Hne; lens_cases i Hi; try (lens_cases j Hj; done).
Ltac reflection_ok lenses :=
  split;
  [exists lenses; split_and!;
    [repeat first [apply Forall2_nil_2 | apply Forall2_cons_2]
    |independent_lenses
    |intros li a x Hin; cbn in Hin; repeat destruct Hin as [<-|Hin]; try destruct Hin; reflexivity]
  |cbn; apply (bool_decide_unpack _); vm_compute; exact I].

Section ApiMessages.
Context {PL : PulsarLib} {PV : ProtoValue ApiMessage ApiList ApiMap} {PVL : ProtoValueLaws PV}.

(** Values of the Go types of the fields. *)
Definition ApiParams_typed (x : ApiParams) : Prop := in_u32 (ap_MaxBundleSize x).
Definition ApiAuctionInfo_typed (x : ApiAuctionInfo) : Prop :=
  in_i64 (ai_MaxTxBytes x) /\ in_u64 (ai_NumTxs x).
Definition any_typed {T} (x : T) : Prop := True.

Lemma uint32_lens {T} (typed : T -> Prop) name get put :
  put_get get put -> is_composite name = false -> (forall x, typed x -> in_u32 (get x)) ->
  field_lens typed (uint32_field (T := T) name get put) (MkLens Z get put).
Proof.
  intros Hpg Hn Ht. apply scalar_field_lens; [done..| |].
  - intros y Hy _. st_unfold. rewrite value_uint32, wrap_u32_id; auto.
  - st_unfold. rewrite value_uint32. eauto.
Qed.

Lemma uint64_lens {T} (typed : T -> Prop) name get put :
  put_get get put -> is_composite name = false ->
  field_lens typed (uint64_field (T := T) name get put) (MkLens Z get put).
Proof. intros Hpg Hn. apply scalar_field_lens; eauto using value_uint64. Qed.

Lemma int64_lens {T} (typed : T -> Prop) name get put :
  put_get get put -> is_composite name = false ->
  field_lens typed (int64_field (T := T) name get put) (MkLens Z get put).
Proof. intros Hpg Hn. apply scalar_field_lens; eauto using value_int64. Qed.

Lemma bool_lens {T} (typed : T -> Prop) name get put :
  put_get get put -> is_composite name = false ->
  field_lens typed (bool_field (T := T) name get put) (MkLens bool get put).
Proof. intros Hpg Hn. apply scalar_field_lens; eauto using value_bool. Qed.

Lemma string_lens {T} (typed : T -> Prop) name get put :
  put_get get put -> is_composite name = false ->
  field_lens typed (string_field (T := T) name get put) (MkLens string get put).
Proof. intros Hpg Hn. apply scalar_field_lens; eauto using value_string. Qed.

Lemma bytes_lens {T} (typed : T -> Prop) name get put :
  put_get get put -> is_composite name = false ->
  field_lens typed (bytes_field (T := T) name get put) (MkLens GoBytes get put).
Proof. intros Hpg Hn. apply scalar_field_lens; eauto using value_bytes. Qed.

Lemma coin_lens {T} (typed : T -> Prop) name get put :
  put_get get put -> put_same get put -> is_composite name = true ->
  field_lens typed (coin_field (T := T) name get put) (MkLens (option ApiCoin) get put).
Proof. intros Hpg Hps Hn. by apply message_field_lens. Qed.

Lemma params_lens {T} (typed : T -> Prop) name get put :
  put_get get put -> put_same get put -> is_composite name = true ->
  field_lens typed (params_field (T := T) name get put) (MkLens (option ApiParams) get put).
Proof. intros Hpg Hps Hn. by apply message_field_lens. Qed.

Lemma Params_reflection_ok : reflection_ok fastReflection_Params ApiParams_typed.
Proof.
  reflection_ok [MkLens _ ap_MaxBundleSize ap_set_MaxBundleSize;
    MkLens _ ap_EscrowAccountAddress ap_set_EscrowAccountAddress;
    MkLens _ ap_ReserveFee ap_set_ReserveFee; MkLens _ ap_MinBidIncrement ap_set_MinBidIncrement;
    MkLens _ ap_FrontRunningProtection ap_set_FrontRunningProtection;
    MkLens _ ap_ProposerFee ap_set_ProposerFee].
  - by apply uint32_lens.
  - by apply bytes_lens.
  - apply coin_lens; by first [done|intros []].
  - apply coin_lens; by first [done|intros []].
  - by apply bool_lens.
  - by apply string_lens.
Qed.

Lemma GenesisState_reflection_ok : reflection_ok fastReflection_GenesisState any_typed.
Proof. reflection_ok [MkLens _ ag_Params ag_set_Params]. apply params_lens; by first [done|intros []]. Qed.

Lemma MsgAuctionBid_reflection_ok : reflection_ok fastReflection_MsgAuctionBid any_typed.
Proof.
  reflection_ok [MkLens _ ab_Bidder ab_set_Bidder; MkLens _ ab_Bid ab_set_Bid;
    MkLens _ ab_Transactions ab_set_Transactions].
  - by apply string_lens.
  - apply coin_lens; by first [done|intros []].
  - apply list_field_lens; by first [done|intros []].
Qed.

Lemma MsgUpdateParams_reflection_ok : reflection_ok fastReflection_MsgUpdateParams any_typed.
Proof.
  reflection_ok [MkLens _ au_Authority au_set_Authority; MkLens _ au_Params au_set_Params].
  - by apply string_lens.
  - apply params_lens; by first [done|intros []].
Qed.

Lemma empty_reflection_ok name : reflection_ok (empty_reflection name) any_typed.
Proof. reflection_ok (@nil (lens ApiEmpty)). Qed.

Lemma QueryParamsResponse_reflection_ok : reflection_ok fastReflection_QueryParamsResponse any_typed.
Proof. reflection_ok [MkLens _ aq_Params aq_set_Params]. apply params_lens; by first [done|intros []]. Qed.

Lemma Module_reflection_ok : reflection_ok fastReflection_Module any_typed.
Proof. reflection_ok [MkLens _ am_Authority am_set_Authority]. by apply string_lens. Qed.

Lemma AuctionInfo_reflection_ok : reflection_ok fastReflection_AuctionInfo any_typed.
Proof.
  reflection_ok [MkLens _ ai_ExtendedCommitInfo ai_set_ExtendedCommitInfo;
    MkLens _ ai_MaxTxBytes ai_set_MaxTxBytes; MkLens _ ai_NumTxs ai_set_NumTxs].
  - by apply bytes_lens.
  - by apply int64_lens.
  - by apply uint64_lens.
Qed.

Lemma VoteExtensionInfo_reflection_ok : reflection_ok fastReflection_VoteExtensionInfo any_typed.
Proof. reflection_ok [MkLens _ av_Registry av_set_Registry]. apply map_field_lens; by first [done|intros []]. Qed.

(** The messages of the API. *)
Inductive api_message : forall T, FastReflection T -> (T -> Prop) -> Prop :=
| api_Params : api_message ApiParams fastReflection_Params ApiParams_typed
| api_GenesisState : api_message ApiGenesisState fastReflection_GenesisState any_typed
| api_MsgAuctionBid : api_message ApiMsgAuctionBid fastReflection_MsgAuctionBid any_typed
| api_MsgAuctionBidResponse : api_message ApiEmpty fastReflection_MsgAuctionBidResponse any_typed
| api_MsgUpdateParams : api_message ApiMsgUpdateParams fastReflection_MsgUpdateParams any_typed
| api_MsgUpdateParamsResponse : api_message ApiEmpty fastReflection_MsgUpdateParamsResponse any_typed
| api_QueryParamsRequest : api_message ApiEmpty fastReflection_QueryParamsRequest any_typed
| api_QueryParamsResponse : api_message ApiQueryParamsResponse fastReflection_QueryParamsResponse any_typed
| api_Module : api_message ApiModule fastReflection_Module any_typed
| api_AuctionInfo : api_message ApiAuctionInfo fastReflection_AuctionInfo any_typed
| api_VoteExtensionInfo : api_message ApiVoteExtensionInfo fastReflection_VoteExtensionInfo any_typed.

Lemma api_message_ok {T} (R : FastReflection T) typed : api_message T R typed -> reflection_ok R typed.
Proof.
  destruct 1; auto using Params_reflection_ok, GenesisState_reflection_ok, MsgAuctionBid_reflection_ok,
    MsgUpdateParams_reflection_ok, QueryParamsResponse_reflection_ok, Module_reflection_ok,
    AuctionInfo_reflection_ok, VoteExtensionInfo_reflection_ok; apply empty_reflection_ok.
Qed.
End ApiMessages.

(** ** The methods *)

Section MethodFacts.
Context {M L P : Type} {PV : ProtoValue M L P} {PVL : ProtoValueLaws PV}.
Context {T : Type} (R : FastReflection T) (typed : T -> Prop).

(** Nothing but the field of the descriptor differs. *)
Definition same_elsewhere (fd : FieldDescriptor) (x x' : T) : Prop :=
  (forall fd', FullName fd' <> FullName fd ->
     Has R (Some x') fd' = Has R (Some x) fd' /\ Get R (Some x') fd' = Get R (Some x) fd') /\
  GetUnknown R (Some x') = GetUnknown R (Some x).

Definition has_field (fd : FieldDescriptor) : Prop := In (FullName fd) (map field_name (fields R)).

Lemma field_switch_In fd f : field_switch R fd = Ret f -> In f (fields R) /\ field_name f = FullName fd.
Proof.
  unfold field_switch. destruct (list_find _ _) as [[i g]|] eqn:E; [|by destruct (IsExtension fd)].
  intros [= ->]. apply list_find_Some in E as (Hi & Hn & _).
  split; [apply list_elem_of_In; by eapply list_elem_of_lookup_2|done].
Qed.

Lemma field_switch_has fd : has_field fd -> exists f, field_switch R fd = Ret f.
Proof.
  unfold field_switch, has_field. intros H. destruct (list_find _ _) as [[i g]|] eqn:E; [eauto|].
  apply in_map_iff in H as (g & Hg & Hin). apply list_find_None in E.
  rewrite List.Forall_forall in E. by destruct (E g Hin).
Qed.

Lemma field_switch_unknown fd : ~ has_field fd -> exists w, field_switch R fd = Panic w.
Proof.
  intros H. destruct (field_switch R fd) as [f|] eqn:E; [|eauto]. destruct H.
  apply field_switch_In in E as [Hin Hn].
  unfold has_field. rewrite <- Hn. by apply (in_map field_name).
Qed.

Context (HR : reflection_ok R typed).

Lemma field_switch_fd f : In f (fields R) -> field_switch R (fd_of f) = Ret f.
Proof.
  intros Hin. destruct (field_switch_has (fd_of f)) as [g Hg]; [by apply (in_map field_name)|]. rewrite Hg. f_equal.
  apply field_switch_In in Hg as [Hg Hn]. cbn in Hn. pose proof (rok_names _ _ HR) as Hnd.
  apply list_elem_of_In, list_elem_of_lookup_1 in Hin as [i Hi].
  apply list_elem_of_In, list_elem_of_lookup_1 in Hg as [j Hj].
  assert (i = j) as ->; [|congruence].
  eapply (NoDup_lookup _ _ _ (field_name f) Hnd); rewrite list_lookup_fmap; [by rewrite Hi|].
  rewrite Hj. cbn. by rewrite Hn.
Qed.

(** A field and its lens: what a write through the lens leaves. *)
Lemma field_lens_frame fd f :
  field_switch R fd = Ret f ->
  exists l, field_lens typed f l /\ forall a x, same_elsewhere fd x (lens_put l a x).
Proof.
  intros Hf. apply field_switch_In in Hf as [Hin Hn]. destruct (rok_lenses _ _ HR) as (ls & Hls & Hind & Hu).
  apply list_elem_of_In, list_elem_of_lookup_1 in Hin as [i Hi].
  destruct (Forall2_lookup_l _ _ _ _ _ Hls Hi) as (l & Hl & Hfl).
  exists l. split; [done|]. intros a x. split.
  - intros fd' Hne. unfold Has, Get. st_unfold. cbn [deref].
    destruct (field_switch R fd') as [g|] eqn:Eg; [|done].
    apply field_switch_In in Eg as [Hg Hgn]. apply list_elem_of_In, list_elem_of_lookup_1 in Hg as [j Hj].
    destruct (Forall2_lookup_l _ _ _ _ _ Hls Hj) as (l' & Hl' & Hgl).
    assert (i <> j) by (intros ->; congruence).
    destruct (fl_observes _ _ _ Hgl (lens_put l a x) x) as (-> & -> & _); [by apply (Hind i j)|done].
  - unfold GetUnknown. st_unfold. cbn [deref]. rewrite Hu; [done|].
    apply list_elem_of_In. by eapply list_elem_of_lookup_2.
Qed.

Lemma Clear_spec fd x : has_field fd ->
  exists x', Clear R fd (Some x) = (Ret tt, Some x') /\
    Has R (Some x') fd = Ret false /\ same_elsewhere fd x x'.
Proof.
  intros H. destruct (field_switch_has fd H) as [f Hf]. destruct (field_lens_frame fd f Hf) as (l & Hl & Hfr).
  exists (cleared f x). unfold Clear, Has. st_unfold. rewrite Hf. cbn [deref].
  split; [done|]. split; [by rewrite (fl_clear_has _ _ _ Hl)|].
  destruct (fl_cleared _ _ _ Hl x) as [a ->]. apply Hfr.
Qed.

Lemma Set_spec fd v x y : typed y -> Has R (Some y) fd = Ret true -> Get R (Some y) fd = Ret v ->
  exists x', Set_ R fd v (Some x) = (Ret tt, Some x') /\
    Has R (Some x') fd = Ret true /\ Get R (Some x') fd = Ret v /\ same_elsewhere fd x x'.
Proof.
  unfold Has, Get, Set_. st_unfold. cbn [deref]. destruct (field_switch R fd) as [f|] eqn:Hf; [|done].
  intros Hy [= Hp] [= <-]. destruct (field_lens_frame fd f Hf) as (l & Hl & Hfr).
  destruct (fl_set _ _ _ Hl x y Hy Hp) as (a & Ha & Hp' & Hg). rewrite Ha.
  exists (lens_put l a x). by rewrite Hp', Hg.
Qed.

Lemma NewField_spec fd x : has_field fd ->
  exists v x', NewField R fd = Ret v /\ Set_ R fd v (Some x) = (Ret tt, Some x') /\ same_elsewhere fd x x'.
Proof.
  intros H. destruct (field_switch_has fd H) as [f Hf]. destruct (field_lens_frame fd f Hf) as (l & Hl & Hfr).
  destruct (fl_new _ _ _ Hl x) as [x' Hx']. exists (new_value f), x'.
  unfold NewField, Set_. st_unfold. rewrite Hf. cbn [deref]. rewrite Hx'.
  split_and!; [done..|]. destruct (fl_assigned _ _ _ Hl _ _ _ Hx') as [a ->]. apply Hfr.
Qed.

(** Mutable of a populated composite field is Get; of one that is not populated it sets the value
    of NewField and gives it; of a scalar field it panics and changes nothing. *)
Definition mutates (fd : FieldDescriptor) (x : T) : Prop :=
  if is_composite (FullName fd) then
    (forall v, Has R (Some x) fd = Ret true -> Get R (Some x) fd = Ret v ->
       Mutable R fd (Some x) = (Ret v, Some x)) /\
    (Has R (Some x) fd = Ret false -> exists v x', NewField R fd = Ret v /\
       Set_ R fd v (Some x) = (Ret tt, Some x') /\ Mutable R fd (Some x) = (Ret v, Some x') /\
       same_elsewhere fd x x')
  else exists w, Mutable R fd (Some x) = (Panic w, Some x).

Lemma Mutable_spec fd x : has_field fd -> mutates fd x.
Proof.
  intros H. destruct (field_switch_has fd H) as [f Hf]. destruct (field_lens_frame fd f Hf) as (l & Hl & Hfr).
  pose proof (fl_mutable _ _ _ Hl x) as Hm. unfold mutates, Mutable, Has, Get, NewField, Set_. st_unfold. rewrite Hf.
  cbn [deref]. apply field_switch_In in Hf as [_ Hn]. rewrite Hn in Hm. destruct (is_composite (FullName fd)).
  - destruct (populated f x); [split; [|done]; intros v _ [= <-]; by rewrite Hm|].
    split; [done|]. destruct Hm as (a & Hm & Ha). intros _. exists (new_value f), (lens_put l a x).
    by rewrite Hm, Ha.
  - destruct Hm as [w ->]. by exists w.
Qed.

(** ** Range *)

(** Calling [f] on the pairs in order until it returns false. *)
Fixpoint visit {S} (l : list (FieldDescriptor * Value)) (f : FieldDescriptor -> Value -> ST S bool)
    : ST S unit :=
  match l with
  | [] => mret tt
  | (fd, v) :: l => continue ← f fd v; if continue : bool then visit l f else mret tt
  end.

Definition populated_fields (x : T) : list (FieldDescriptor * Value) :=
  map (fun f => (fd_of f, get_value f x)) (List.filter (fun f => populated f x) (fields R)).

Lemma field_range f x : In f (fields R) -> populated f x = true -> range_value f x = get_value f x.
Proof.
  intros Hin Hp. destruct (field_lens_frame (fd_of f) f) as (l & Hl & _); [by apply field_switch_fd|].
  by apply (fl_range _ _ _ Hl).
Qed.

Lemma Range_visit {S} x (f : FieldDescriptor -> Value -> ST S bool) s :
  Range R (Some x) f s = visit (populated_fields x) f s.
Proof.
  unfold Range, populated_fields.
  enough (G : forall l s, incl l (fields R) ->
    range_fields l (Some x) f s = visit (map (fun f => (fd_of f, get_value f x))
      (List.filter (fun f => populated f x) l)) f s) by (apply G, incl_refl).
  induction l as [|g l IH]; intros s0 Hl; [done|].
  assert (Hg : In g (fields R)) by (apply Hl; by left).
  assert (Hl' : incl l (fields R)) by (intros h Hh; apply Hl; by right).
  cbn [range_fields List.filter]. st_unfold. cbn [deref].
  destruct (populated g x) eqn:Hp; [|by apply IH].
  cbn [map visit]. st_unfold. rewrite (field_range g x Hg Hp).
  destruct (f _ _ s0) as [[[|]|] s1]; [by apply IH|done..].
Qed.

Lemma populated_fields_In x fd v :
  In (fd, v) (populated_fields x) <->
  IsExtension fd = false /\ Has R (Some x) fd = Ret true /\ Get R (Some x) fd = Ret v.
Proof.
  unfold populated_fields, Has, Get. st_unfold. cbn [deref]. rewrite in_map_iff. split.
  - intros (f & [= <- <-] & Hf). apply filter_In in Hf as [Hin Hp].
    rewrite (field_switch_fd f Hin), Hp. done.
  - intros (He & Hh & Hg). destruct (field_switch R fd) as [f|] eqn:Ef; [|done].
    apply field_switch_In in Ef as [Hin Hn]. injection Hh as Hp. injection Hg as <-.
    exists f. rewrite filter_In. split; [|done]. unfold fd_of. rewrite Hn. destruct fd; cbn in *. by subst.
Qed.

Lemma populated_fields_NoDup x : NoDup (map (fun p => FullName p.1) (populated_fields x)).
Proof.
  unfold populated_fields. rewrite map_map. cbn.
  pose proof (rok_names _ _ HR) as Hnd. revert Hnd. generalize (fields R).
  induction l as [|f l IH]; cbn; intros Hnd; [constructor|].
  apply list.NoDup_cons in Hnd as [Hf Hnd]. destruct (populated f x); [|auto]. cbn.
  apply list.NoDup_cons. split; [|auto]. intros Hin. apply Hf.
  apply list_elem_of_In, in_map_iff in Hin as (g & Hg & Hgin). apply filter_In in Hgin as [Hgin _].
  apply list_elem_of_In. rewrite <- Hg. by apply in_map.
Qed.
End MethodFacts.

(** ** Properties *)

Section Properties.
Context {PL : PulsarLib} {PV : ProtoValue ApiMessage ApiList ApiMap} {PVL : ProtoValueLaws PV}.

(** C30: for every message of the API and every descriptor of one of its fields: Clear makes Has
    false; Set of a value that a message of the type holds in the field is read back by Has and
    Get; NewField gives a value that Set accepts; Mutable of a message, list or map that is set
    gives it and changes nothing, of one that is not set it sets the value of NewField and gives
    that, of a scalar it panics and changes nothing; and none of them changes another field or
    the unknown fields. *)
Theorem reflection_writes_one_field {T} (R : FastReflection T) typed (x y : T) (fd : FieldDescriptor) :
  api_message T R typed -> typed y -> has_field R fd ->
  (exists x', Clear R fd (Some x) = (Ret tt, Some x') /\
     Has R (Some x') fd = Ret false /\ same_elsewhere R fd x x') /\
  (forall v, Has R (Some y) fd = Ret true -> Get R (Some y) fd = Ret v ->
     exists x', Set_ R fd v (Some x) = (Ret tt, Some x') /\
       Has R (Some x') fd = Ret true /\ Get R (Some x') fd = Ret v /\ same_elsewhere R fd x x') /\
  (exists v x', NewField R fd = Ret v /\ Set_ R fd v (Some x) = (Ret tt, Some x') /\
     same_elsewhere R fd x x') /\
  mutates R fd x.
Proof.
  intros HR%api_message_ok Hy Hfd. split_and!.
  - by apply (Clear_spec R typed).
  - intros v. by apply (Set_spec R typed).
  - by apply (NewField_spec R typed).
  - by apply (Mutable_spec R typed).
Qed.

(** Range calls its argument on exactly the populated fields, each once, with the values that
    Get gives, in a fixed order, and stops at the first call that returns false. *)
Theorem Range_visits_populated {T} (R : FastReflection T) typed (x : T) :
  api_message T R typed ->
  exists l,
    (forall S (f : FieldDescriptor -> Value -> ST S bool) s, Range R (Some x) f s = visit l f s) /\
    (forall fd v, In (fd, v) l <->
       IsExtension fd = false /\ Has R (Some x) fd = Ret true /\ Get R (Some x) fd = Ret v) /\
    NoDup (map (fun p => FullName p.1) l).
Proof.
  intros HR%api_message_ok. exists (populated_fields R x). split_and!.
  - intros S f s. by apply (Range_visit R typed).
  - intros fd v. by apply (populated_fields_In R typed).
  - by apply (populated_fields_NoDup R typed).
Qed.

(** a descriptor that is not of the message, an extension for one, makes every method panic
    and leave the message as it was; and so does a nil message (Zero, the invalid message of
    IsValid) for a descriptor of the message: it cannot be read as an empty message. *)
Theorem reflection_panics {T} (R : FastReflection T) typed :
  api_message T R typed ->
  (forall fd x v, ~ has_field R fd -> exists w,
     Has R x fd = Panic w /\ Get R x fd = Panic w /\ NewField R fd = Panic w /\
     Clear R fd x = (Panic w, x) /\ Set_ R fd v x = (Panic w, x) /\ Mutable R fd x = (Panic w, x)) /\
  (forall fd v, has_field R fd ->
     let w := "nil pointer dereference"%string in
     Has R None fd = Panic w /\ Get R None fd = Panic w /\
     Clear R fd None = (Panic w, None) /\ Set_ R fd v None = (Panic w, None) /\
     Mutable R fd None = (Panic w, None)) /\
  IsValid (Zero (T := T)) = false /\ IsValid (New R) = true.
Proof.
  intros _. split_and!; [| |done..].
  - intros fd x v H. destruct (field_switch_unknown R fd H) as [w Hw]. exists w.
    unfold Has, Get, NewField, Clear, Set_, Mutable. st_unfold. by rewrite Hw.
  - intros fd v H. destruct (field_switch_has R fd H) as [f Hf].
    unfold Has, Get, Clear, Set_, Mutable. st_unfold. by rewrite Hf.
Qed.

Definition bid_fd : FieldDescriptor :=
  {| FullName := "pob.builder.v1.MsgAuctionBid.bid"; IsExtension := false |}.
Definition transactions_fd : FieldDescriptor :=
  {| FullName := "pob.builder.v1.MsgAuctionBid.transactions"; IsExtension := false |}.

Lemma switch_bid : field_switch fastReflection_MsgAuctionBid bid_fd
  = Ret (coin_field "pob.builder.v1.MsgAuctionBid.bid" ab_Bid ab_set_Bid).
Proof. reflexivity. Qed.
Lemma switch_transactions : field_switch fastReflection_MsgAuctionBid transactions_fd
  = Ret (list_field MsgAuctionBid_3_list as_Transactions "pob.builder.v1.MsgAuctionBid.transactions"
       ab_Transactions ab_set_Transactions).
Proof. reflexivity. Qed.

(** A composite value that is empty and read-only: Set stores the nil message of an unpopulated
    field and panics on the empty list of one. *)
Lemma Set_read_only_value (x y : ApiMsgAuctionBid) :
  ab_Bid y = None -> ab_Transactions y = None ->
  (exists v, Get fastReflection_MsgAuctionBid (Some y) bid_fd = Ret v /\
     Set_ fastReflection_MsgAuctionBid bid_fd v (Some x) = (Ret tt, Some (ab_set_Bid None x))) /\
  (exists v w, Get fastReflection_MsgAuctionBid (Some y) transactions_fd = Ret v /\
     Set_ fastReflection_MsgAuctionBid transactions_fd v (Some x) = (Panic w, Some x)).
Proof.
  intros Hb Ht. unfold Get, Set_. st_unfold. rewrite switch_bid, switch_transactions. cbn. st_unfold. split.
  - eexists. split; [reflexivity|]. by rewrite Hb, value_message.
  - rewrite Ht. exists (ValueOfList (MsgAuctionBid_3_list (MkTransactionsList None))). eexists.
    split; [reflexivity|]. by rewrite value_list.
Qed.

(** Appending byte strings through the list view of Mutable. *)
Fixpoint append_all (l : list GoBytes) : ST ApiMsgAuctionBid unit :=
  match l with
  | [] => mret tt
  | b :: l => _ ← on_transactions (list_Append (ValueOfBytes b)); append_all l
  end.

Lemma append_all_spec l x :
  append_all l x = (Ret tt, match l with
                            | [] => x
                            | _ => ab_set_Transactions (Some (default [] (ab_Transactions x) ++ l)) x
                            end).
Proof.
  revert x. induction l as [|b l IH]; intros x; [done|]. cbn [append_all].
  unfold on_transactions at 1, list_Append, list_deref. st_unfold. rewrite value_bytes.
  rewrite IH. destruct l as [|c l]; [done|]. cbn [ab_Transactions ab_set_Transactions default].
  unfold id. by rewrite <- app_assoc.
Qed.

(** The list that Mutable returns for the transactions of a bid message is a reference into
    the message: what is appended through it is what the message holds and what the list of Get
    reads, after the transactions the message had; the other fields stay. *)
Theorem transactions_appended (x : ApiMsgAuctionBid) (l : list GoBytes) :
  exists x0 x',
    Mutable fastReflection_MsgAuctionBid transactions_fd (Some x)
      = (Ret (ValueOfList (MsgAuctionBid_3_list (MkTransactionsList (Some (ab_Transactions x0))))), Some x0) /\
    append_all l x0 = (Ret tt, x') /\
    ab_Transactions x' = Some (default [] (ab_Transactions x) ++ l) /\
    same_elsewhere fastReflection_MsgAuctionBid transactions_fd x x' /\
    list_Len (MkTransactionsList (Some (ab_Transactions x'))) = len (default [] (ab_Transactions x)) + len l /\
    forall i, 0 <= i < len (default [] (ab_Transactions x) ++ l) -> exists b,
      (default [] (ab_Transactions x) ++ l) !! Z.to_nat i = Some b /\
      on_transactions (list_Get i) x' = (Ret (ValueOfBytes b), x').
Proof.
  set (old := default [] (ab_Transactions x)).
  exists (ab_set_Transactions (Some old) x), (ab_set_Transactions (Some (old ++ l)) x).
  split; [reflexivity|]. split.
  { rewrite append_all_spec. destruct l; [by rewrite app_nil_r|done]. }
  split; [done|]. split.
  { destruct (field_lens_frame fastReflection_MsgAuctionBid any_typed MsgAuctionBid_reflection_ok transactions_fd
      _ switch_transactions) as (lens & Hl & Hfr).
    destruct (fl_assigned _ _ _ Hl
      (ValueOfList (MsgAuctionBid_3_list (MkTransactionsList (Some (Some (old ++ l)))))) x
      (ab_set_Transactions (Some (old ++ l)) x)) as [a ->]; [|apply Hfr].
    cbn. st_unfold. by rewrite value_list. }
  split; [unfold list_Len; cbn; by rewrite len_app|].
  intros i Hi. destruct (lookup_lt_is_Some_2 (old ++ l) (Z.to_nat i)) as [b Hb]; [unfold len in Hi; lia|].
  exists b. split; [done|]. unfold on_transactions, list_Get, list_deref. st_unfold.
  cbn [ab_Transactions ab_set_Transactions default]. unfold id.
  rewrite option_guard_True by lia. by rewrite Hb.
Qed.
End Properties.
