(* ===== verification/PulsarWire.v ===== *)
(** * The frames of size, marshal and unmarshal of the API messages

    [message_codec] is what a message promises to the message that holds it: its size is the
    length of its encoding, Marshal appends the encoding to the buffer, Unmarshal of the encoding
    into a new message gives the message back, but for what the wire cannot tell apart.  A message
    has a codec when its fields are written and consumed ([frame_codec]); unknown fields are kept
    or discarded. *)
From S2P Require Import Prelude Hash Wire WireFacts Pulsar.
From Stdlib Require Import ZifyBool.
#[local] Open Scope Z_scope.

(** ** Codecs *)

Record message_codec {T} (meths : Methods T) (new : T) (ok : T -> Prop)
    (bytes_of : bool -> T -> bytes) (canon : bool -> T -> T) : Prop := {
  mc_size det x : ok x -> Methods_Size meths det (Some x) = len (bytes_of det x);
  mc_marshal det buf x : ok x ->
    Methods_Marshal meths det buf (Some x) = Ret (Ok (Some (content buf ++ bytes_of det x)));
  mc_unmarshal det discard x : ok x ->
    Methods_Unmarshal meths discard (bytes_of det x) (Some new) = Ok (Some (canon discard x));
  mc_short det x : ok x -> len (bytes_of det x) < 2 ^ 62
}.

(** ** What the packages promise *)

Class PulsarLaws (PL : PulsarLib) : Type := {
  sov_spec v : in_u64 v -> runtime_Sov v = len (varint_of v);
  EncodeVarint_spec v : in_u64 v -> writes (fun i => runtime_EncodeVarint i v) (varint_of v);
  (** Skip moves past the field at the start of its argument, whatever follows. *)
  Skip_positive b n : runtime_Skip b = Ok n -> len b < 2 ^ 63 - 8 -> 0 < n < 2 ^ 63;
  Skip_prefix b rest : runtime_Skip b = Ok (len b) -> len (b ++ rest) < 2 ^ 63 - 8 ->
    runtime_Skip (b ++ rest) = Ok (len b);
  options_Size_spec {T} (size : bool -> option T -> Z) det x : options_Size size det x = size det x;
  (** Marshal calls the function of the message with an empty buffer. *)
  options_Marshal_spec {T} (marshal : bool -> GoBytes -> option T -> outcome (result GoBytes)) det x b :
    (forall buf, content buf = [] -> marshal det buf x = Ret (Ok (Some b))) ->
    options_Marshal marshal det x = Ret (Ok b);
  options_Unmarshal_spec {T} (unmarshal : bool -> bytes -> option T -> result (option T)) discard b x y :
    unmarshal discard b (Some x) = Ok (Some y) -> options_Unmarshal unmarshal discard b (Some x) = Ok (Some y);
  (** The codec of the SDK's coin. *)
  api_coin_ok : ApiCoin -> Prop;
  api_coin_bytes : ApiCoin -> bytes;
  api_coin_canon : bool -> ApiCoin -> ApiCoin;
  api_coin_codec :
    message_codec ApiCoin_Methods new_ApiCoin api_coin_ok (fun _ => api_coin_bytes) api_coin_canon;
  (** A loop over a map visits every key once. *)
  range_keys_spec m : range_keys m ≡ₚ map fst (map_to_list m)
}.

Section Frames.
Context {PL : PulsarLib} {LW : PulsarLaws PL}.

(** ** Writers and sizes *)

Lemma in_u64_len {A} (l : list A) : len l < 2 ^ 64 -> in_u64 (len l).
Proof. intros H. unfold in_u64. pose proof (len_nonneg l). lia. Qed.

Lemma writes_delimited tag v : len v < 2 ^ 64 -> writes (put_delimited tag v) (field_bytes tag v).
Proof.
  intros Hl. unfold put_delimited, field_bytes. rewrite wrap_u64_id by by apply in_u64_len.
  rewrite app_assoc.
  apply (writes_bind (copy_back v) (fun i => i ← runtime_EncodeVarint i (len v); put_back tag i));
    [apply writes_copy_back|].
  apply (writes_bind (fun i => runtime_EncodeVarint i (len v)) (put_back tag));
    [by apply EncodeVarint_spec, in_u64_len|apply writes_put_back].
Qed.

Definition varint_field (tag v : Z) : bytes := [Z_byte tag] ++ varint_of (wrap_u64 v).

Lemma wrap_u64_range v : in_u64 (wrap_u64 v).
Proof. unfold in_u64, wrap_u64. apply Z.mod_pos_bound. lia. Qed.

Lemma writes_put_varint tag v : writes (put_varint tag v) (varint_field tag v).
Proof.
  unfold put_varint. apply (writes_bind (fun i => runtime_EncodeVarint i (wrap_u64 v)) (put_back tag));
    [apply EncodeVarint_spec, wrap_u64_range|apply writes_put_back].
Qed.

Lemma writes_put_bool tag b : writes (put_bool tag b) ([Z_byte tag] ++ [Z_byte (if b then 1 else 0)]).
Proof. apply (writes_bind (put_back _) (put_back tag)); apply writes_put_back. Qed.

Lemma size_varint_spec tag v : size_varint v = len (varint_field tag v).
Proof.
  unfold size_varint, varint_field. rewrite sov_spec by apply wrap_u64_range. by rewrite len_app.
Qed.

Lemma size_delimited_spec tag v : len v < 2 ^ 64 -> size_delimited (len v) = len (field_bytes tag v).
Proof.
  intros H. unfold size_delimited, field_bytes. rewrite wrap_u64_id, sov_spec by by apply in_u64_len.
  rewrite !len_app, len_cons, len_nil. lia.
Qed.

Lemma if_len (b : bool) (l : bytes) : len (if b then l else []) = if b then len l else 0.
Proof. by destruct b. Qed.

(** An optional length-delimited field. *)
Definition optional_field (tag : Z) (v : bytes) : bytes := if 0 <? len v then field_bytes tag v else [].

Lemma optional_field_lt tag v B : 0 < B -> len (optional_field tag v) < B -> len v < B.
Proof.
  unfold optional_field. destruct (Z.ltb_spec 0 (len v)); [|lia]. intros _ H'. by eapply len_field_lt.
Qed.

Lemma size_optional_spec tag v : len v < 2 ^ 64 -> size_optional (len v) = len (optional_field tag v).
Proof.
  intros H. unfold size_optional, optional_field. rewrite if_len. by rewrite (size_delimited_spec tag).
Qed.

Lemma writes_optional tag v :
  len v < 2 ^ 64 -> writes_ok (always (when (0 <? len v) (put_delimited tag v))) (optional_field tag v).
Proof. intros H. by apply writes_always, writes_when, writes_delimited. Qed.

Section Nested.
Context {T} (meths : Methods T) (new : T) (ok : T -> Prop) (bytes_of : bool -> T -> bytes)
  (canon : bool -> T -> T) (HC : message_codec meths new ok bytes_of canon).

Definition nested_field (det : bool) (tag : Z) (m : option T) : bytes :=
  match m with None => [] | Some m => field_bytes tag (bytes_of det m) end.

Definition nested_ok (m : option T) : Prop := forall x, m = Some x -> ok x.

Lemma writes_nested det tag m :
  nested_ok m -> writes_ok (put_nested meths det tag m) (nested_field det tag m).
Proof.
  intros Hm. destruct m as [m|]; [|apply writes_done]. specialize (Hm m eq_refl).
  unfold put_nested, nested_field. pose proof (mc_short _ _ _ _ _ HC det m Hm).
  intros pre slot out Hs. st_unfold.
  rewrite (options_Marshal_spec _ _ _ (bytes_of det m)).
  - pose proof (writes_always _ _ (writes_delimited tag (bytes_of det m) ltac:(lia)) pre slot out Hs) as Hw.
    unfold always in Hw. by st_unfold in Hw.
  - intros buf Hb. by rewrite (mc_marshal _ _ _ _ _ HC), Hb.
Qed.

Lemma size_nested_spec det tag m :
  nested_ok m -> size_nested meths det m = len (nested_field det tag m).
Proof.
  intros Hm. destruct m as [m|]; [|done]. specialize (Hm m eq_refl). cbn.
  rewrite options_Size_spec, (mc_size _ _ _ _ _ HC) by done.
  apply size_delimited_spec. pose proof (mc_short _ _ _ _ _ HC det m Hm). lia.
Qed.

Lemma consumes_nested {U} (cases : FieldCases U) det discard tag m (get : U -> option T)
    (put : option T -> U -> U) x :
  0 < Z.shiftr tag 3 -> tag < 128 -> Z.land tag 7 = 2 ->
  (forall dAtA pre i, cases (Z.shiftr tag 3) (Z.land tag 7) dAtA pre i x
     = field_of (Z.land tag 7) 2 (read_bytes dAtA i)
         (fun v => c ← merge_nested meths new discard (get x) v; Ok (put c x))) ->
  get x = None -> put None x = x -> nested_ok m ->
  consumes cases x (nested_field det tag m) (put (canon discard <$> m) x).
Proof.
  intros Hf Ht Hw Hc Hg Hp Hm. destruct m as [m|]; cbn [nested_field fmap option_fmap option_map].
  - eapply consumes_bytes_field; [done..|exact Hc|]. unfold merge_nested. rewrite Hg. cbn [default].
    st_unfold. by rewrite (options_Unmarshal_spec _ _ _ _ (canon discard m))
      by by apply (mc_unmarshal _ _ _ _ _ HC), Hm.
  - rewrite Hp. apply consumes_nil.
Qed.
End Nested.

(** ** Unknown fields *)

(** Fields with numbers that the message does not have, whose ends Skip finds. *)
Inductive unknown_ok (known : list Z) : bytes -> Prop :=
| unknown_nil : unknown_ok known []
| unknown_field_ok t body rest :
    in_u64 t -> 0 < wrap_i32 (Z.shiftr t 3) -> ~ In (wrap_i32 (Z.shiftr t 3)) known ->
    Z.land t 7 <> 4 ->
    runtime_Skip (varint_of t ++ body) = Ok (len (varint_of t ++ body)) ->
    unknown_ok known rest -> unknown_ok known ((varint_of t ++ body) ++ rest).

Lemma slice_app (dAtA : bytes) i (u rest : bytes) :
  0 <= i -> drop (Z.to_nat i) dAtA = u ++ rest -> slice dAtA i (i + len u) = u.
Proof.
  intros Hi Hd. unfold slice. replace (Z.to_nat _) with (length u) by (unfold len; lia).
  by rewrite Hd, take_app_length.
Qed.

Lemma drop_bound {A} (dAtA : list A) i u rest :
  0 <= i -> u <> [] -> drop (Z.to_nat i) dAtA = u ++ rest -> i + len u <= len dAtA.
Proof.
  intros Hi Hu Hd. apply (f_equal length) in Hd. rewrite length_drop, length_app in Hd.
  destruct u; [done|]. cbn [length] in Hd. unfold len. cbn [length]. lia.
Qed.

Lemma keep_unknown_spec {T} (add : bytes -> T -> T) discard dAtA i u rest x :
  0 <= i -> len dAtA < 2 ^ 63 - 8 -> drop (Z.to_nat i) dAtA = u ++ rest ->
  runtime_Skip u = Ok (len u) ->
  keep_unknown add discard dAtA i x = Ok (if discard then x else add u x, i + len u).
Proof.
  intros Hi Hl Hd Hs. unfold keep_unknown. rewrite Hd.
  assert (Hlen : len (u ++ rest) < 2 ^ 63 - 8).
  { rewrite <- Hd. unfold len in *. rewrite length_drop. lia. }
  rewrite Skip_prefix by done. st_unfold.
  assert (Hpos : 0 < len u).
  { apply (Skip_positive u (len u)) in Hs; [lia|]. rewrite len_app in Hlen. pose proof (len_nonneg rest). lia. }
  assert (Hb : i + len u <= len dAtA) by (apply (drop_bound _ _ _ rest); [done| |done]; by intros ->).
  rewrite wrap_i64_id by (unfold in_i64; lia).
  repeat case_match; try lia. all: by rewrite ?(slice_app _ _ _ rest).
Qed.

Lemma varint_nonempty v : 0 < len (varint_of v).
Proof.
  unfold varint_of. cbn [varint_bytes]. case_match; rewrite len_cons;
    match goal with |- context [len ?l] => pose proof (len_nonneg l) end; lia.
Qed.

Lemma keep_unknown_progress {T} (add : bytes -> T -> T) discard dAtA pre i x x' j :
  keep_unknown add discard dAtA pre x = Ok (x', j) -> 0 <= pre < i -> i <= len dAtA ->
  len dAtA < 2 ^ 63 - 8 -> pre < j <= len dAtA.
Proof.
  unfold keep_unknown. st_unfold. intros H Hp Hi Hl.
  destruct (runtime_Skip _) as [n|] eqn:E; [|done].
  apply Skip_positive in E; [|unfold len in *; rewrite length_drop; lia].
  pose proof (wrap_i64_add pre n). repeat case_match; simplify_eq; lia.
Qed.

Section Unknown.
Context {T} (cases : FieldCases T) (known : list Z) (discard : bool) (add : bytes -> T -> T)
  (Hcases : forall f w dAtA pre i x, ~ In f known ->
     cases f w dAtA pre i x = keep_unknown add discard dAtA pre x)
  (Hnil : forall x, add [] x = x)
  (Happ : forall u v x, add v (add u x) = add (u ++ v) x).

Lemma consumes_unknown u x :
  unknown_ok known u -> consumes cases x u (if discard then x else add u x).
Proof.
  intros H. revert x. induction H as [|t body rest Ht Hf Hk Hw Hs _ IH]; intros x.
  { rewrite Hnil. destruct discard; apply consumes_nil. }
  apply (consumes_app _ _ (if discard then x else add (varint_of t ++ body) x)).
  2: { specialize (IH (if discard then x else add (varint_of t ++ body) x)).
       destruct discard; [done|]. by rewrite Happ in IH. }
  clear IH. intros dAtA i rst r Hi Hl Hd Hr. eapply returns_later; [|exact Hr].
  unfold unmarshal_body, read_field. pose proof (varint_nonempty t) as Hv.
  assert (Hb : i + len (varint_of t ++ body) <= len dAtA).
  { apply (drop_bound _ _ _ rst); [done| |done]. intros E. apply app_nil in E as [E _].
    by rewrite E in Hv. }
  rewrite len_app in Hb. pose proof (len_nonneg body).
  destruct (Z.ltb_spec i (len dAtA)); [|lia]. st_unfold.
  rewrite (varint_spec wrap_u64 (2 ^ 64) t dAtA i (body ++ rst));
    [|by intros; apply wrap_u64_id|lia|unfold in_u64 in Ht; lia|done|by rewrite app_assoc].
  destruct (Z.eqb_spec (Z.land t 7) 4); [done|].
  destruct (Z.leb_spec (wrap_i32 (Z.shiftr t 3)) 0); [lia|].
  rewrite Hcases by done. by rewrite (keep_unknown_spec _ _ _ _ _ rst) by done.
Qed.

End Unknown.

(** ** Messages *)

Section Message.
Context {T} (new : T) (unknown : T -> bytes) (with_unknown : bytes -> T -> T)
  (size : bool -> T -> Z) (marshal : bool -> T -> Z -> ST bytes (result Z))
  (cases : bool -> FieldCases T) (known : list Z)
  (known_ok : T -> Prop) (known_bytes : bool -> T -> bytes) (known_canon : bool -> T -> T).

Definition frame_methods : Methods T :=
  MkMethods (size_frame unknown size) (marshal_frame unknown (size_frame unknown size) marshal)
    (unmarshal_frame cases).

(** What the fields of a message have to do, the unknown ones aside: they are written, sized,
    and read into a new message. *)
Record fields_codec : Prop := {
  fc_writes det x : known_ok x -> len (known_bytes det x) < 2 ^ 62 ->
    writes_ok (marshal det x) (known_bytes det x);
  fc_size det x : known_ok x -> len (known_bytes det x) < 2 ^ 62 -> size det x = len (known_bytes det x);
  fc_consumes det discard x : known_ok x ->
    consumes (cases discard) new (known_bytes det x) (known_canon discard x);
  fc_unknown discard f w dAtA pre i x : ~ In f known ->
    cases discard f w dAtA pre i x
    = keep_unknown (fun u x => with_unknown (unknown x ++ u) x) discard dAtA pre x;
  fc_progress discard : cases_progress (cases discard);
  fc_canon_unknown discard x : unknown (known_canon discard x) = [];
  fc_get u x : unknown (with_unknown u x) = u;
  fc_put u v x : with_unknown v (with_unknown u x) = with_unknown v x;
  fc_same x : with_unknown (unknown x) x = x
}.

Definition frame_bytes (det : bool) (x : T) : bytes := known_bytes det x ++ unknown x.
Definition frame_canon (discard : bool) (x : T) : T :=
  with_unknown (if discard then [] else unknown x) (known_canon discard x).
Record frame_ok (x : T) : Prop := {
  fo_known : known_ok x;
  fo_unknown : unknown_ok known (unknown x);
  fo_short det : len (frame_bytes det x) < 2 ^ 62
}.

Lemma frame_codec :
  fields_codec -> message_codec frame_methods new frame_ok frame_bytes frame_canon.
Proof.
  intros HF. assert (Hlt : forall det x, frame_ok x -> len (known_bytes det x) < 2 ^ 62).
  { intros det x Hx. pose proof (fo_short x Hx det) as Hs. by apply len_app_lt in Hs as [Hs _]. }
  assert (Hsize : forall det x, frame_ok x -> size_frame unknown size det (Some x) = len (frame_bytes det x)).
  { intros det x Hx. unfold frame_bytes. cbn. rewrite len_app.
    by rewrite (fc_size HF) by (apply Hx || by apply Hlt). }
  split.
  - apply Hsize.
  - intros det buf x Hx. cbn. unfold marshal_frame. rewrite options_Size_spec, Hsize by done.
    set (dAtA := replicate _ x00).
    assert (Hd : length dAtA = length (frame_bytes det x)).
    { unfold dAtA. rewrite length_replicate. unfold len. lia. }
    pose proof (writes_then_ok _ _ _ _ (writes_always _ _ (writes_copy_back (unknown x)))
      (fc_writes HF det x (fo_known x Hx) (Hlt det x Hx)) [] dAtA [] Hd) as Hw.
    cbn [app] in Hw. rewrite !app_nil_r in Hw. rewrite Hw. by destruct buf.
  - intros det discard x Hx. cbn [frame_methods Methods_Unmarshal]. unfold unmarshal_frame. st_unfold.
    rewrite (Unmarshal_consumes (cases discard) new (frame_bytes det x) (frame_canon discard x)); [done| | |].
    + apply (fc_progress HF).
    + pose proof (fo_short x Hx det). lia.
    + unfold frame_bytes. apply (consumes_app _ _ (known_canon discard x)); [by apply (fc_consumes HF), Hx|].
      pose proof (consumes_unknown (cases discard) known discard
        (fun u x => with_unknown (unknown x ++ u) x) (fc_unknown HF discard)) as Hu.
      unfold frame_canon. specialize (Hu (fun y => eq_trans (f_equal (fun u => with_unknown u y) (app_nil_r _))
        (fc_same HF y))).
      specialize (Hu ltac:(intros u v y; cbn; by rewrite (fc_get HF), (fc_put HF), app_assoc)
        (unknown x) (known_canon discard x) (fo_unknown x Hx)).
      cbn in Hu. rewrite (fc_canon_unknown HF) in Hu. cbn [app] in Hu. destruct discard; [|done].
      rewrite <- (fc_canon_unknown HF true x), (fc_same HF). done.
  - intros det x Hx. apply (fo_short x Hx).
Qed.
End Message.
End Frames.

(** Every case of a switch reads on, or is the default. *)
Tactic Notation "fields_progress" reference(cases) :=
  intros discard f w dAtA pre i m m' j Hp Hi Hl H; unfold cases in H;
  repeat match type of H with
         | (if ?b then _ else _) = _ => destruct b
         end; try done;
  first [by apply (keep_unknown_progress _ _ _ _ i) in H
        |apply field_of_ok in H as (_ & v & Hr & _);
         first [apply read_bytes_progress in Hr | apply read_string_progress in Hr
               |apply varint_progress in Hr]; lia].
(** A field number that is not of the message reaches the default branch. *)
Tactic Notation "fields_unknown" reference(cases) :=
  intros discard f w dAtA pre i x Hf; cbn in Hf; unfold cases;
  repeat match goal with |- context [f =? ?n] => destruct (Z.eqb_spec f n); [subst; tauto|] end; done.
