(* ===== verification/PulsarWireFacts.v ===== *)
(** * The encodings of the API messages

    Every message of the API has a codec: size, round trip, unknown fields.  The reference
    encodings agree with those of x/builder/types, so that what a client encodes with the API the
    chain decodes. *)
From S2P Require Import Prelude Hash Wire WireFacts Pulsar PulsarMessages PulsarFacts PulsarWire.
From stdpp Require Import sorting.
From Stdlib Require Import ZifyBool.
#[local] Open Scope Z_scope.

(** ** Varints of signed integers *)

Definition reads (wrap : Z -> Z) (v : Z) : Prop :=
  forall dAtA i rest, 0 <= i -> drop (Z.to_nat i) dAtA = varint_of (wrap_u64 v) ++ rest ->
    varint wrap dAtA i = Ok (v, i + len (varint_of (wrap_u64 v))).

Lemma reads_u32 v : in_u32 v -> reads wrap_u32 v.
Proof.
  intros H dAtA i rest Hi Hd. unfold in_u32 in H. rewrite wrap_u64_id in * by (unfold in_u64; lia).
  apply (varint_spec wrap_u32 (2 ^ 32) v dAtA i rest); [intros; by apply wrap_u32_id|lia..|done].
Qed.

Lemma reads_u64 v : in_u64 v -> reads wrap_u64 v.
Proof.
  intros H dAtA i rest Hi Hd. unfold in_u64 in H. rewrite wrap_u64_id in * by done.
  apply (varint_spec wrap_u64 (2 ^ 64) v dAtA i rest); [intros; by apply wrap_u64_id|lia..|done].
Qed.

(** The signed value of 64 bits sets the bits above them when the top bit is set. *)
Definition sign_bits (z : Z) : Z := Z.lor z (if 2 ^ 63 <=? z then - 2 ^ 64 else 0).

Lemma wrap_i64_sign_bits z : in_u64 z -> wrap_i64 z = sign_bits z.
Proof.
  unfold in_u64, wrap_i64, sign_bits. intros H. destruct (Z.leb_spec (2 ^ 63) z).
  - pose proof (lor_shiftl_add z (-1) 64 ltac:(lia) ltac:(lia)) as E.
    change (Z.shiftl (-1) 64) with (- 2 ^ 64) in E. rewrite E.
    rewrite <- (Z_mod_plus_full _ (-1)), Z.mod_small by lia. lia.
  - rewrite Z.lor_0_r, Z.mod_small by lia. lia.
Qed.

Lemma in_u64_shiftr z : in_u64 z -> Z.shiftr z 63 = if 2 ^ 63 <=? z then 1 else 0.
Proof.
  unfold in_u64. intros H. rewrite Z.shiftr_div_pow2 by lia. destruct (Z.leb_spec (2 ^ 63) z).
  - symmetry. apply (Z.div_unique _ _ _ (z - 2 ^ 63)); lia.
  - by rewrite Z.div_small by lia.
Qed.

Lemma in_u64_lor a b : in_u64 a -> in_u64 b -> in_u64 (Z.lor a b).
Proof.
  unfold in_u64. intros Ha Hb. split; [apply Z.lor_nonneg; lia|].
  destruct (decide (Z.lor a b = 0)) as [->|Hn]; [lia|].
  assert (0 <= Z.lor a b) by (apply Z.lor_nonneg; lia).
  apply Z.log2_lt_pow2; [lia|]. rewrite Z.log2_lor by lia.
  assert (Hlt : forall z, 0 <= z < 2 ^ 64 -> Z.log2 z < 64).
  { intros z Hz. destruct (decide (z = 0)) as [->|]; [done|]. apply Z.log2_lt_pow2; lia. }
  apply Z.max_lub_lt; auto.
Qed.

Lemma wrap_i64_lor a b : in_u64 a -> in_u64 b -> wrap_i64 (Z.lor a b) = Z.lor (wrap_i64 a) (wrap_i64 b).
Proof.
  intros Ha Hb. pose proof (in_u64_lor a b Ha Hb) as Hab.
  pose proof (Z.shiftr_lor a b 63) as E. rewrite !in_u64_shiftr in E by done.
  rewrite !wrap_i64_sign_bits by done. unfold sign_bits.
  destruct (2 ^ 63 <=? a), (2 ^ 63 <=? b), (2 ^ 63 <=? Z.lor a b); try discriminate E;
    rewrite ?Z.lor_0_r; try done.
  - rewrite (Z.lor_comm b), Z.lor_assoc, <- (Z.lor_assoc a (- 2 ^ 64) (- 2 ^ 64)), Z.lor_diag.
    by rewrite <- !Z.lor_assoc, (Z.lor_comm b).
  - by rewrite <- !Z.lor_assoc, (Z.lor_comm b).
  - by rewrite Z.lor_assoc.
Qed.

Lemma wrap_i64_u64 z : wrap_i64 (wrap_u64 z) = wrap_i64 z.
Proof. unfold wrap_i64, wrap_u64. by rewrite Zplus_mod_idemp_l. Qed.

Lemma read_varint_signed sh dAtA i acc :
  in_u64 acc ->
  read_varint wrap_i64 sh dAtA i (wrap_i64 acc)
  = match read_varint wrap_u64 sh dAtA i acc with Ok (v, j) => Ok (wrap_i64 v, j) | Err e => Err e end.
Proof.
  revert i acc. induction sh as [|s sh IH]; intros i acc Ha; cbn [read_varint]; [done|].
  destruct (dAtA !! Z.to_nat i) as [b|]; [|done].
  set (g := Z.shiftl (Z.land (byte_Z b) 127) s).
  assert (E : Z.lor (wrap_i64 acc) (wrap_i64 g) = wrap_i64 (Z.lor acc (wrap_u64 g))).
  { by rewrite wrap_i64_lor, wrap_i64_u64 by (done || apply wrap_u64_range). }
  rewrite E. destruct (byte_Z b <? 128); [done|].
  apply IH, in_u64_lor; [done|apply wrap_u64_range].
Qed.

Lemma reads_i64 v : in_i64 v -> reads wrap_i64 v.
Proof.
  intros H dAtA i rest Hi Hd. unfold varint. change 0 with (wrap_i64 0) at 1.
  rewrite read_varint_signed by (unfold in_u64; lia).
  pose proof (varint_spec wrap_u64 (2 ^ 64) (wrap_u64 v) dAtA i rest) as Hv. unfold varint in Hv.
  pose proof (wrap_u64_range v) as Hr. unfold in_u64 in Hr.
  rewrite Hv; [by rewrite wrap_i64_u64, wrap_i64_id| |lia..|done]. intros. by apply wrap_u64_id.
Qed.

(** ** Optional fields are consumed *)

Section Consumes.
Context {T} (cases : FieldCases T).

Lemma consumes_optional_varint tag wrap v (put : Z -> T -> T) x :
  0 < Z.shiftr tag 3 -> tag < 128 -> Z.land tag 7 = 0 -> reads wrap v ->
  (forall dAtA pre i, cases (Z.shiftr tag 3) (Z.land tag 7) dAtA pre i x
     = field_of (Z.land tag 7) 0 (varint wrap dAtA i) (fun v => Ok (put v x))) ->
  put 0 x = x ->
  consumes cases x (if negb (v =? 0) then varint_field tag v else []) (put v x).
Proof.
  intros Hf Ht Hw Hr Hc Hp. apply (consumes_if _ _ _ _ (put v x)).
  - intros _. apply consumes_field; [done..|by rewrite Hw|]. intros dAtA pre i rest Hi Hl Hd.
    rewrite Hc, Hw. unfold field_of. cbn [negb Z.eqb]. by rewrite (Hr dAtA i rest) by done.
  - destruct (Z.eqb_spec v 0) as [->|]; by rewrite ?Hp.
Qed.

Definition canon_bytes (b : GoBytes) : GoBytes := if 0 <? len (content b) then b else None.

Lemma consumes_optional_bytes tag b (put : GoBytes -> T -> T) x :
  0 < Z.shiftr tag 3 -> tag < 128 -> Z.land tag 7 = 2 ->
  (forall dAtA pre i, cases (Z.shiftr tag 3) (Z.land tag 7) dAtA pre i x
     = field_of (Z.land tag 7) 2 (read_bytes dAtA i) (fun v => Ok (put (Some v) x))) ->
  put None x = x ->
  consumes cases x (optional_field tag (content b)) (put (canon_bytes b) x).
Proof.
  intros Hf Ht Hw Hc Hp. apply (consumes_if _ _ _ _ (put b x)).
  - intros Hl. eapply consumes_bytes_field; [done..|exact Hc|]. cbn beta.
    by destruct b as [b|]; [|done].
  - unfold canon_bytes. by destruct (0 <? len (content b)).
Qed.

Lemma consumes_optional_string tag s (put : string -> T -> T) x :
  0 < Z.shiftr tag 3 -> tag < 128 -> Z.land tag 7 = 2 ->
  (forall dAtA pre i, cases (Z.shiftr tag 3) (Z.land tag 7) dAtA pre i x
     = field_of (Z.land tag 7) 2 (read_string dAtA i) (fun v => Ok (put (bytes_string v) x))) ->
  put ""%string x = x ->
  consumes cases x (optional_field tag (string_bytes s)) (put s x).
Proof.
  intros Hf Ht Hw Hc Hp. apply (consumes_if _ _ _ _ (put s x)).
  - intros _. eapply consumes_string_field; [done..|exact Hc|]. cbn beta. by rewrite string_bytes_string.
  - destruct s as [|a s]; [done|]. cbn [string_bytes]. rewrite len_cons.
    pose proof (len_nonneg (string_bytes s)). by replace (0 <? _) with true by lia.
Qed.

Lemma consumes_optional_bool tag (b : bool) (put : bool -> T -> T) x :
  0 < Z.shiftr tag 3 -> tag < 128 -> Z.land tag 7 = 0 ->
  (forall dAtA pre i, cases (Z.shiftr tag 3) (Z.land tag 7) dAtA pre i x
     = field_of (Z.land tag 7) 0 (varint wrap_i64 dAtA i) (fun v => Ok (put (negb (v =? 0)) x))) ->
  put false x = x ->
  consumes cases x (if b then [Z_byte tag] ++ [Z_byte (if b then 1 else 0)] else []) (put b x).
Proof.
  intros Hf Ht Hw Hc Hp. apply (consumes_if _ _ _ _ (put b x)); [intros ->|by destruct b].
  apply (consumes_varint_field _ _ tag wrap_i64 (2 ^ 63) 1 (fun v => Ok (put (negb (v =? 0)) x)));
    try done. intros z Hz. apply wrap_i64_id. unfold in_i64. lia.
Qed.
End Consumes.

(** ** The messages of builderv1, modulev1 and abciv1 *)

Section Codecs.
Context {PL : PulsarLib} {LW : PulsarLaws PL}.

Definition coin_nested_ok := nested_ok api_coin_ok.
Definition coin_nested (det : bool) (tag : Z) (m : option ApiCoin) : bytes :=
  nested_field (fun _ => api_coin_bytes) det tag m.

Definition ApiParams_known_ok (x : ApiParams) : Prop :=
  in_u32 (ap_MaxBundleSize x) /\ coin_nested_ok (ap_ReserveFee x) /\ coin_nested_ok (ap_MinBidIncrement x).
Definition ApiParams_bytes (det : bool) (x : ApiParams) : bytes :=
  (((((if negb (ap_MaxBundleSize x =? 0) then varint_field 0x8 (ap_MaxBundleSize x) else []) ++
      optional_field 0x12 (content (ap_EscrowAccountAddress x))) ++
     coin_nested det 0x1a (ap_ReserveFee x)) ++
    coin_nested det 0x22 (ap_MinBidIncrement x)) ++
   (if ap_FrontRunningProtection x
    then [Z_byte 0x28] ++ [Z_byte (if ap_FrontRunningProtection x then 1 else 0)] else [])) ++
  optional_field 0x32 (string_bytes (ap_ProposerFee x)).
Definition ApiParams_canon (discard : bool) (x : ApiParams) : ApiParams :=
  MkApiParams (ap_MaxBundleSize x) (canon_bytes (ap_EscrowAccountAddress x))
    (api_coin_canon discard <$> ap_ReserveFee x) (api_coin_canon discard <$> ap_MinBidIncrement x)
    (ap_FrontRunningProtection x) (ap_ProposerFee x) [].

Lemma ApiParams_fields_codec :
  fields_codec new_ApiParams ap_unknown ap_with_unknown ApiParams_size ApiParams_marshal
    ApiParams_cases [1; 2; 3; 4; 5; 6] ApiParams_known_ok ApiParams_bytes ApiParams_canon.
Proof.
  split; try done.
  - intros det x (Hm & Hr & Hi) Hs. unfold ApiParams_bytes in *.
    apply len_app_lt in Hs as [Hs Hfee%optional_field_lt]; [|lia].
    do 3 apply len_app_lt in Hs as [Hs _]. apply len_app_lt in Hs as [_ Hesc%optional_field_lt]; [|lia].
    apply writes_then_ok; [apply writes_optional; lia|].
    apply writes_then_ok; [apply writes_always, writes_when, writes_put_bool|].
    apply writes_then_ok; [by eapply writes_nested; [apply api_coin_codec|]|].
    apply writes_then_ok; [by eapply writes_nested; [apply api_coin_codec|]|].
    apply writes_then_ok; [apply writes_optional; lia|].
    apply writes_always, writes_when, writes_put_varint.
  - intros det x (Hm & Hr & Hi) Hs. unfold ApiParams_bytes, ApiParams_size in *.
    apply len_app_lt in Hs as [Hs Hfee%optional_field_lt]; [|lia].
    do 3 apply len_app_lt in Hs as [Hs _]. apply len_app_lt in Hs as [_ Hesc%optional_field_lt]; [|lia].
    rewrite !len_app, !if_len, (size_varint_spec 0x8), (size_optional_spec 0x12), (size_optional_spec 0x32) by lia.
    rewrite (size_nested_spec _ _ _ _ _ api_coin_codec det 0x1a), (size_nested_spec _ _ _ _ _ api_coin_codec det 0x22) by done.
    done.
  - intros det discard x (Hm & Hr & Hi). destruct x as [mb esc res inc frp fee u]. cbn in *.
    pose (p1 := ap_set_MaxBundleSize mb new_ApiParams).
    pose (p2 := ap_set_EscrowAccountAddress (canon_bytes esc) p1).
    pose (p3 := ap_set_ReserveFee (api_coin_canon discard <$> res) p2).
    pose (p4 := ap_set_MinBidIncrement (api_coin_canon discard <$> inc) p3).
    pose (p5 := ap_set_FrontRunningProtection frp p4).
    apply (consumes_app _ _ p5); [apply (consumes_app _ _ p4); [apply (consumes_app _ _ p3);
      [apply (consumes_app _ _ p2); [apply (consumes_app _ _ p1)|]|]|]|].
    + by apply (consumes_optional_varint _ 0x8 wrap_u32 mb ap_set_MaxBundleSize); [..|apply reads_u32| |].
    + by apply (consumes_optional_bytes _ 0x12 esc ap_set_EscrowAccountAddress).
    + by apply (consumes_nested _ _ _ _ _ api_coin_codec _ det discard 0x1a res ap_ReserveFee ap_set_ReserveFee).
    + by apply (consumes_nested _ _ _ _ _ api_coin_codec _ det discard 0x22 inc ap_MinBidIncrement ap_set_MinBidIncrement).
    + by apply (consumes_optional_bool _ 0x28 frp ap_set_FrontRunningProtection).
    + by apply (consumes_optional_string (ApiParams_cases discard) 0x32 fee ap_set_ProposerFee p5).
  - fields_unknown ApiParams_cases.
  - fields_progress ApiParams_cases.
  - by intros [].
Qed.

Definition ApiParams_ok : ApiParams -> Prop :=
  frame_ok ap_unknown [1; 2; 3; 4; 5; 6] ApiParams_known_ok ApiParams_bytes.
Lemma ApiParams_codec :
  message_codec ApiParams_Methods new_ApiParams ApiParams_ok (frame_bytes ap_unknown ApiParams_bytes)
    (frame_canon ap_unknown ap_with_unknown ApiParams_canon).
Proof. apply frame_codec, ApiParams_fields_codec. Qed.
Definition params_nested (det : bool) (tag : Z) (m : option ApiParams) : bytes :=
  nested_field (frame_bytes ap_unknown ApiParams_bytes) det tag m.
Definition params_canon (discard : bool) : ApiParams -> ApiParams :=
  frame_canon ap_unknown ap_with_unknown ApiParams_canon discard.

(** A message whose only field holds parameters, with the tag of field 1. *)
Definition ApiGenesisState_ok : ApiGenesisState -> Prop :=
  frame_ok ag_unknown [1] (fun x => nested_ok ApiParams_ok (ag_Params x))
    (fun det x => params_nested det 0xa (ag_Params x)).
Lemma ApiGenesisState_codec :
  message_codec ApiGenesisState_Methods new_ApiGenesisState ApiGenesisState_ok
    (frame_bytes ag_unknown (fun det x => params_nested det 0xa (ag_Params x)))
    (frame_canon ag_unknown ag_with_unknown
       (fun discard x => MkApiGenesisState (params_canon discard <$> ag_Params x) [])).
Proof.
  apply frame_codec. split; try done.
  - intros det x Hp _. eapply writes_nested; [apply ApiParams_codec|done].
  - intros det x Hp _. by apply (size_nested_spec _ _ _ _ _ ApiParams_codec).
  - intros det discard x Hp.
    by apply (consumes_nested _ _ _ _ _ ApiParams_codec (ApiGenesisState_cases discard) det discard 0xa
      (ag_Params x) ag_Params ag_set_Params new_ApiGenesisState).
  - fields_unknown ApiGenesisState_cases.
  - fields_progress ApiGenesisState_cases.
  - by intros [].
Qed.

Definition ApiQueryParamsResponse_ok : ApiQueryParamsResponse -> Prop :=
  frame_ok aq_unknown [1] (fun x => nested_ok ApiParams_ok (aq_Params x))
    (fun det x => params_nested det 0xa (aq_Params x)).
Lemma ApiQueryParamsResponse_codec :
  message_codec ApiQueryParamsResponse_Methods new_ApiQueryParamsResponse ApiQueryParamsResponse_ok
    (frame_bytes aq_unknown (fun det x => params_nested det 0xa (aq_Params x)))
    (frame_canon aq_unknown aq_with_unknown
       (fun discard x => MkApiQueryParamsResponse (params_canon discard <$> aq_Params x) [])).
Proof.
  apply frame_codec. split; try done.
  - intros det x Hp _. eapply writes_nested; [apply ApiParams_codec|done].
  - intros det x Hp _. by apply (size_nested_spec _ _ _ _ _ ApiParams_codec).
  - intros det discard x Hp.
    by apply (consumes_nested _ _ _ _ _ ApiParams_codec (ApiQueryParamsResponse_cases discard) det discard
      0xa (aq_Params x) aq_Params aq_set_Params new_ApiQueryParamsResponse).
  - fields_unknown ApiQueryParamsResponse_cases.
  - fields_progress ApiQueryParamsResponse_cases.
  - by intros [].
Qed.

Definition ApiMsgUpdateParams_bytes (det : bool) (x : ApiMsgUpdateParams) : bytes :=
  optional_field 0xa (string_bytes (au_Authority x)) ++ params_nested det 0x12 (au_Params x).
Definition ApiMsgUpdateParams_canon (discard : bool) (x : ApiMsgUpdateParams) : ApiMsgUpdateParams :=
  MkApiMsgUpdateParams (au_Authority x) (params_canon discard <$> au_Params x) [].
Definition ApiMsgUpdateParams_ok : ApiMsgUpdateParams -> Prop :=
  frame_ok au_unknown [1; 2] (fun x => nested_ok ApiParams_ok (au_Params x)) ApiMsgUpdateParams_bytes.
Lemma ApiMsgUpdateParams_codec :
  message_codec ApiMsgUpdateParams_Methods new_ApiMsgUpdateParams ApiMsgUpdateParams_ok
    (frame_bytes au_unknown ApiMsgUpdateParams_bytes)
    (frame_canon au_unknown au_with_unknown ApiMsgUpdateParams_canon).
Proof.
  apply frame_codec. split; try done.
  - intros det x Hp Hs. apply len_app_lt in Hs as [Ha%optional_field_lt _]; [|lia].
    apply writes_then_ok; [eapply writes_nested; [apply ApiParams_codec|done]|apply writes_optional; lia].
  - intros det x Hp Hs. apply len_app_lt in Hs as [Ha%optional_field_lt _]; [|lia].
    unfold ApiMsgUpdateParams_size, ApiMsgUpdateParams_bytes. rewrite len_app, (size_optional_spec 0xa) by lia.
    by rewrite (size_nested_spec _ _ _ _ _ ApiParams_codec det 0x12).
  - intros det discard x Hp.
    apply (consumes_app _ _ (au_set_Authority (au_Authority x) new_ApiMsgUpdateParams)).
    + by apply (consumes_optional_string (ApiMsgUpdateParams_cases discard) 0xa (au_Authority x) au_set_Authority).
    + by apply (consumes_nested _ _ _ _ _ ApiParams_codec (ApiMsgUpdateParams_cases discard) det discard
        0x12 (au_Params x) au_Params au_set_Params (au_set_Authority (au_Authority x) new_ApiMsgUpdateParams)).
  - fields_unknown ApiMsgUpdateParams_cases.
  - fields_progress ApiMsgUpdateParams_cases.
  - by intros [].
Qed.

Definition ApiEmpty_ok : ApiEmpty -> Prop := frame_ok ae_unknown [] (fun _ => True) (fun _ _ => []).
Lemma ApiEmpty_codec :
  message_codec empty_Methods new_ApiEmpty ApiEmpty_ok (frame_bytes ae_unknown (fun _ _ => []))
    (frame_canon ae_unknown (fun u x => MkApiEmpty u) (fun _ _ => new_ApiEmpty)).
Proof.
  apply frame_codec. split; try done.
  - intros det x _ _. apply writes_done.
  - intros det discard x _. apply consumes_nil.
  - fields_progress empty_cases.
  - by intros [].
Qed.

Definition ApiModule_ok : ApiModule -> Prop :=
  frame_ok am_unknown [2] (fun _ => True) (fun _ x => optional_field 0x12 (string_bytes (am_Authority x))).
Lemma ApiModule_codec :
  message_codec ApiModule_Methods new_ApiModule ApiModule_ok
    (frame_bytes am_unknown (fun _ x => optional_field 0x12 (string_bytes (am_Authority x))))
    (frame_canon am_unknown am_with_unknown (fun _ x => MkApiModule (am_Authority x) [])).
Proof.
  apply frame_codec. split; try done.
  - intros det x _ Hs%optional_field_lt; [|lia]. apply writes_optional. lia.
  - intros det x _ Hs%optional_field_lt; [|lia]. apply size_optional_spec. lia.
  - intros det discard x _.
    by apply (consumes_optional_string (ApiModule_cases discard) 0x12 (am_Authority x) am_set_Authority new_ApiModule).
  - fields_unknown ApiModule_cases.
  - fields_progress ApiModule_cases.
  - by intros [].
Qed.

Definition ApiAuctionInfo_bytes (det : bool) (x : ApiAuctionInfo) : bytes :=
  (optional_field 0xa (content (ai_ExtendedCommitInfo x)) ++
   (if negb (ai_MaxTxBytes x =? 0) then varint_field 0x10 (ai_MaxTxBytes x) else [])) ++
  (if negb (ai_NumTxs x =? 0) then varint_field 0x18 (ai_NumTxs x) else []).
Definition ApiAuctionInfo_canon (discard : bool) (x : ApiAuctionInfo) : ApiAuctionInfo :=
  MkApiAuctionInfo (canon_bytes (ai_ExtendedCommitInfo x)) (ai_MaxTxBytes x) (ai_NumTxs x) [].
Definition ApiAuctionInfo_ok : ApiAuctionInfo -> Prop :=
  frame_ok ai_unknown [1; 2; 3] ApiAuctionInfo_typed ApiAuctionInfo_bytes.
Lemma ApiAuctionInfo_codec :
  message_codec ApiAuctionInfo_Methods new_ApiAuctionInfo ApiAuctionInfo_ok
    (frame_bytes ai_unknown ApiAuctionInfo_bytes)
    (frame_canon ai_unknown ai_with_unknown ApiAuctionInfo_canon).
Proof.
  apply frame_codec. split; try done.
  - intros det x _ Hs. do 2 apply len_app_lt in Hs as [Hs _]. apply optional_field_lt in Hs; [|lia].
    apply writes_then_ok; [apply writes_always, writes_when, writes_put_varint|].
    apply writes_then_ok; [apply writes_always, writes_when, writes_put_varint|apply writes_optional; lia].
  - intros det x _ Hs. unfold ApiAuctionInfo_size, ApiAuctionInfo_bytes in *.
    do 2 apply len_app_lt in Hs as [Hs _]. apply optional_field_lt in Hs; [|lia].
    rewrite !len_app, !if_len, (size_varint_spec 0x10), (size_varint_spec 0x18), (size_optional_spec 0xa) by lia.
    done.
  - intros det discard x [Hm Hn]. destruct x as [ext mtx num u]. cbn in *.
    pose (a1 := ai_set_ExtendedCommitInfo (canon_bytes ext) new_ApiAuctionInfo).
    pose (a2 := ai_set_MaxTxBytes mtx a1).
    apply (consumes_app _ _ a2); [apply (consumes_app _ _ a1)|].
    + by apply (consumes_optional_bytes _ 0xa ext ai_set_ExtendedCommitInfo).
    + by apply (consumes_optional_varint _ 0x10 wrap_i64 mtx ai_set_MaxTxBytes); [..|apply reads_i64| |].
    + by apply (consumes_optional_varint (ApiAuctionInfo_cases discard) 0x18 wrap_u64 num ai_set_NumTxs a2);
        [..|apply reads_u64| |].
  - fields_unknown ApiAuctionInfo_cases.
  - fields_progress ApiAuctionInfo_cases.
  - by intros [].
Qed.

(** *** MsgAuctionBid *)

Definition tx_list_bytes (l : list GoBytes) : bytes :=
  concat (map (fun b => field_bytes 0x1a (content b)) l).
Definition canon_list (l : option (list GoBytes)) : option (list GoBytes) :=
  match default [] l with [] => None | l => Some (map (fun b => Some (content b)) l) end.

Lemma tx_list_lt l : len (tx_list_bytes l) < 2 ^ 62 -> Forall (fun b => len (content b) < 2 ^ 62) l.
Proof.
  unfold tx_list_bytes. induction l as [|b l IH]; cbn [map concat]; intros H; constructor.
  - by apply len_app_lt in H as [H%len_field_lt _].
  - by apply len_app_lt in H as [_ H%IH].
Qed.

Lemma writes_tx_list l :
  Forall (fun b => len (content b) < 2 ^ 62) l -> writes (put_tx_list l) (tx_list_bytes l).
Proof.
  unfold put_tx_list, tx_list_bytes. induction l as [|b l IH]; intros Hf; [apply writes_nil|].
  apply list.Forall_cons in Hf as [Hb Hf]. cbn [rev map concat].
  intros pre slot out Hl. rewrite fold_left_app. cbn [fold_left].
  apply (writes_bind (fun i => fold_left (fun m b => i ← m; put_delimited 0x1a (content b) i) (rev l) (mret i))
    (put_delimited 0x1a (content b))); [by apply IH|apply writes_delimited; lia|done].
Qed.

(** The loop of a size function. *)
Lemma sum_loop {A} (f : A -> Z) (g : A -> bytes) (l : list A) n :
  Forall (fun a => f a = len (g a)) l ->
  fold_left (fun n a => n + f a) l n = n + len (concat (map g l)).
Proof.
  revert n. induction l as [|a l IH]; intros n Hf; cbn [fold_left map concat]; [by rewrite len_nil, Z.add_0_r|].
  apply list.Forall_cons in Hf as [Ha Hf]. rewrite IH, len_app, Ha by done. lia.
Qed.

Lemma consumes_tx_list discard l b c acc :
  consumes (ApiMsgAuctionBid_cases discard)
    (MkApiMsgAuctionBid b c (match acc with [] => None | _ => Some acc end) [])
    (tx_list_bytes l)
    (MkApiMsgAuctionBid b c (match acc ++ map (fun b => Some (content b)) l with [] => None | l => Some l end) []).
Proof.
  unfold tx_list_bytes. revert acc. induction l as [|tx l IH]; intros acc; cbn [map concat].
  - rewrite app_nil_r. destruct acc; apply consumes_nil.
  - apply (consumes_app _ _ (MkApiMsgAuctionBid b c (Some (acc ++ [Some (content tx)])) [])).
    + eapply consumes_bytes_field; [done..|reflexivity|]. cbn. by destruct acc.
    + specialize (IH (acc ++ [Some (content tx)])). rewrite <- app_assoc in IH. cbn [app] in IH.
      by destruct acc.
Qed.

Definition ApiMsgAuctionBid_bytes (det : bool) (x : ApiMsgAuctionBid) : bytes :=
  (optional_field 0xa (string_bytes (ab_Bidder x)) ++ coin_nested det 0x12 (ab_Bid x)) ++
  tx_list_bytes (default [] (ab_Transactions x)).
Definition ApiMsgAuctionBid_canon (discard : bool) (x : ApiMsgAuctionBid) : ApiMsgAuctionBid :=
  MkApiMsgAuctionBid (ab_Bidder x) (api_coin_canon discard <$> ab_Bid x) (canon_list (ab_Transactions x)) [].
Definition ApiMsgAuctionBid_ok : ApiMsgAuctionBid -> Prop :=
  frame_ok ab_unknown [1; 2; 3] (fun x => coin_nested_ok (ab_Bid x)) ApiMsgAuctionBid_bytes.

Lemma ApiMsgAuctionBid_codec :
  message_codec ApiMsgAuctionBid_Methods new_ApiMsgAuctionBid ApiMsgAuctionBid_ok
    (frame_bytes ab_unknown ApiMsgAuctionBid_bytes)
    (frame_canon ab_unknown ab_with_unknown ApiMsgAuctionBid_canon).
Proof.
  apply frame_codec. split; try done.
  - intros det x Hc Hs. apply len_app_lt in Hs as [Hs Ht%tx_list_lt].
    apply len_app_lt in Hs as [Ha%optional_field_lt _]; [|lia].
    apply writes_then_ok; [by apply writes_always, writes_tx_list|].
    apply writes_then_ok; [by eapply writes_nested; [apply api_coin_codec|]|apply writes_optional; lia].
  - intros det x Hc Hs. apply len_app_lt in Hs as [Hs Ht%tx_list_lt].
    apply len_app_lt in Hs as [Ha%optional_field_lt _]; [|lia].
    unfold ApiMsgAuctionBid_size, ApiMsgAuctionBid_bytes. rewrite !len_app, (size_optional_spec 0xa) by lia.
    rewrite (size_nested_spec _ _ _ _ _ api_coin_codec det 0x12) by done.
    rewrite (sum_loop _ (fun b => field_bytes 0x1a (content b))); [done|].
    eapply list.Forall_impl; [exact Ht|]. cbn. intros b Hb. apply size_delimited_spec. lia.
  - intros det discard x Hc. destruct x as [bidder bid txs u]. cbn in Hc.
    unfold ApiMsgAuctionBid_bytes, ApiMsgAuctionBid_canon, canon_list.
    cbn [ab_Bidder ab_Bid ab_Transactions].
    pose (b1 := ab_set_Bidder bidder new_ApiMsgAuctionBid).
    pose (b2 := ab_set_Bid (api_coin_canon discard <$> bid) b1).
    apply (consumes_app _ _ b2); [apply (consumes_app _ _ b1)|].
    + by apply (consumes_optional_string (ApiMsgAuctionBid_cases discard) 0xa bidder ab_set_Bidder).
    + by apply (consumes_nested _ _ _ _ _ api_coin_codec (ApiMsgAuctionBid_cases discard) det discard 0x12
        bid ab_Bid ab_set_Bid b1).
    + pose proof (consumes_tx_list discard (default [] txs) bidder (api_coin_canon discard <$> bid) []) as H.
      by destruct (default [] txs).
  - fields_unknown ApiMsgAuctionBid_cases.
  - fields_progress ApiMsgAuctionBid_cases.
  - by intros [].
Qed.

(** *** VoteExtensionInfo *)

Definition entry_payload (k : string) (v : GoBytes) : bytes :=
  field_bytes 0xa (string_bytes k) ++ field_bytes 0x12 (content v).
Definition registry_bytes (m : gmap string GoBytes) (keys : list string) : bytes :=
  concat (map (fun k => field_bytes 0x12 (entry_payload k (default None (m !! k)))) keys).
(** The keys in the order of their entries in the encoding. *)
Definition registry_order (det : bool) (m : gmap string GoBytes) : list string :=
  if det then registry_keys true m else rev (registry_keys false m).
Definition canon_map (m : gmap string GoBytes) : gmap string GoBytes := (fun v => Some (content v)) <$> m.
Definition canon_registry (r : option (gmap string GoBytes)) : option (gmap string GoBytes) :=
  if bool_decide (default ∅ r = ∅) then None else canon_map <$> r.

Lemma payload_lt k v B : len (entry_payload k v) < B -> len (string_bytes k) < B /\ len (content v) < B.
Proof. intros [Hk%len_field_lt Hv%len_field_lt]%len_app_lt. done. Qed.

Lemma writes_entry k v :
  len (entry_payload k v) < 2 ^ 62 -> writes (put_entry k v) (field_bytes 0x12 (entry_payload k v)).
Proof.
  intros Hl. destruct (payload_lt k v _ Hl) as [Hk Hv].
  assert (Hw : writes (fun i => i ← put_delimited 0x12 (content v) i; put_delimited 0xa (string_bytes k) i)
                 (entry_payload k v)).
  { apply (writes_bind (put_delimited 0x12 (content v)) (put_delimited 0xa (string_bytes k)));
      apply writes_delimited; lia. }
  pose proof (writes_bind (fun i => runtime_EncodeVarint i (len (entry_payload k v))) (put_back 0x12) _ _
    (EncodeVarint_spec _ (in_u64_len (entry_payload k v) ltac:(lia))) (writes_put_back 0x12)) as Hh.
  intros pre slot out Hs. unfold field_bytes in *. rewrite app_assoc in Hs.
  destruct (split_slot _ _ _ Hs) as (s1 & s2 & -> & L1 & L2).
  specialize (Hw (pre ++ s2) s1 out L1). specialize (Hh pre s2 (entry_payload k v ++ out) L2).
  unfold put_entry. st_unfold in Hw. st_unfold in Hh. st_unfold.
  rewrite <- (app_assoc s2), (app_assoc pre s2 (s1 ++ out)), (app_assoc pre s2 s1).
  destruct (put_delimited 0x12 (content v) _ _) as [[i1|] b1]; [|done].
  destruct (put_delimited 0xa (string_bytes k) i1 b1) as [[i2|] b2]; [|done].
  injection Hw as -> ->.
  assert (E : len ((pre ++ s2) ++ s1) - len (pre ++ s2) = len (entry_payload k v)).
  { rewrite len_app. unfold len in *. lia. }
  rewrite E, wrap_u64_id, <- (app_assoc pre) by (apply in_u64_len; lia).
  destruct (runtime_EncodeVarint _ _ _) as [[i3|] b3]; [|done].
  rewrite Hh. by rewrite <- !app_assoc.
Qed.

Lemma registry_lt m keys k :
  len (registry_bytes m keys) < 2 ^ 62 -> In k keys -> len (entry_payload k (default None (m !! k))) < 2 ^ 62.
Proof.
  unfold registry_bytes. induction keys as [|k' keys IH]; cbn [map concat]; [done|].
  intros [H1%len_field_lt H2]%len_app_lt [->|Hin]; [done|by apply IH].
Qed.

Lemma writes_registry m keys :
  len (registry_bytes m (rev keys)) < 2 ^ 62 -> writes (put_registry m keys) (registry_bytes m (rev keys)).
Proof.
  unfold put_registry. induction keys as [|k keys IH] using rev_ind; intros Hl; [apply writes_nil|].
  rewrite rev_app_distr in *. cbn [rev app] in *.
  assert (Hk := registry_lt m _ k Hl (or_introl eq_refl)).
  apply len_app_lt in Hl as [_ Hl]. intros pre slot out Hs. rewrite fold_left_app. cbn [fold_left].
  apply (writes_bind
    (fun i => fold_left (fun st k => i ← st; put_entry k (default None (m !! k)) i) keys (mret i))
    (put_entry k (default None (m !! k)))); [by apply IH|by apply writes_entry|done].
Qed.

Lemma registry_size det m :
  len (registry_bytes m (registry_order det m)) < 2 ^ 62 ->
  fold_left (fun n k => n + size_delimited (entry_size k (default None (m !! k)))) (registry_keys det m) 0
  = len (registry_bytes m (registry_order det m)).
Proof.
  intros Hl. assert (Hin : forall k, In k (registry_keys det m) -> In k (registry_order det m)).
  { intros k Hk. unfold registry_order. destruct det; [done|]. by apply -> in_rev. }
  rewrite (sum_loop _ (fun k => field_bytes 0x12 (entry_payload k (default None (m !! k))))).
  - unfold registry_order. destruct det; [done|]. unfold registry_bytes.
    rewrite map_rev. generalize (map (fun k => field_bytes 0x12 (entry_payload k (default None (m !! k))))
      (registry_keys false m)). intros l. unfold len.
    rewrite !length_concat, map_rev. f_equal. induction (map length l) as [|n ns IH]; [done|].
    cbn [rev]. rewrite list_sum_app. cbn [list_sum foldr] in *. unfold list_sum in *. cbn [foldr]. lia.
  - apply List.Forall_forall. intros k Hk. pose proof (registry_lt m _ k Hl (Hin k Hk)) as Hp.
    unfold entry_size. pose proof (payload_lt _ _ _ Hp) as [Hk1 Hv1].
    rewrite (size_delimited_spec 0xa (string_bytes k)), (size_delimited_spec 0x12 (content _)) by lia.
    rewrite <- len_app. apply (size_delimited_spec 0x12 (entry_payload k (default None (m !! k)))). lia.
Qed.

(** Reading an entry that was written. *)
Lemma read_tag dAtA i tag v rest :
  0 <= i -> 0 <= tag < 128 -> drop (Z.to_nat i) dAtA = ([Z_byte tag] ++ v) ++ rest ->
  varint wrap_u64 dAtA i = Ok (tag, i + 1) /\ drop (Z.to_nat (i + 1)) dAtA = v ++ rest.
Proof.
  intros Hi Ht Hd. assert (Hvt : varint_of tag = [Z_byte tag]).
  { unfold varint_of. cbn [varint_bytes]. destruct (Z.leb_spec 128 tag); [lia|done]. }
  split.
  - rewrite (varint_spec wrap_u64 (2 ^ 64) tag dAtA i (v ++ rest)); [by rewrite Hvt| |lia..|].
    + intros. by apply wrap_u64_id.
    + by rewrite Hvt, Hd, <- app_assoc.
  - rewrite <- app_assoc in Hd. apply drop_cons_lookup in Hd as [_ Hd].
    by replace (Z.to_nat (i + 1)) with (S (Z.to_nat i)) by lia.
Qed.

Lemma entry_field dAtA post i tag n d rest k0 v0 :
  0 <= i -> len dAtA < 2 ^ 63 - 8 -> drop (Z.to_nat i) dAtA = field_bytes tag d ++ rest ->
  i < post -> (tag = 0xa /\ n = 1 \/ tag = 0x12 /\ n = 2) ->
  entry_body dAtA post (k0, v0, i)
  = inl (if n =? 1 then (bytes_string d, v0, i + len (field_bytes tag d))
         else (k0, Some d, i + len (field_bytes tag d))) /\
  drop (Z.to_nat (i + len (field_bytes tag d))) dAtA = rest.
Proof.
  intros Hi Hl Hd Hp Hn. pose proof (len_nonneg (field_bytes tag d)) as Hnn. split.
  2: { rewrite Z2Nat.inj_add, <- drop_drop, Hd by done. unfold len. by rewrite Nat2Z.id, drop_app_length. }
  unfold entry_body. destruct (Z.ltb_spec i post); [|lia]. st_unfold.
  destruct (read_tag dAtA i tag (varint_of (len d) ++ d) rest Hi ltac:(lia) Hd) as [-> Hd'].
  rewrite (read_string_spec dAtA d (i + 1) rest) by (done || lia).
  replace (i + len (field_bytes tag d)) with (i + 1 + len (varint_of (len d) ++ d))
    by (unfold field_bytes; rewrite !len_app, len_cons, len_nil; lia).
  destruct Hn as [[-> ->]|[-> ->]]; done.
Qed.

Lemma read_entry_spec dAtA i k v rest :
  0 <= i -> len dAtA < 2 ^ 63 - 8 ->
  drop (Z.to_nat i) dAtA = (varint_of (len (entry_payload k v)) ++ entry_payload k v) ++ rest ->
  read_entry dAtA i = Ok (k, Some (content v), i + len (varint_of (len (entry_payload k v)) ++ entry_payload k v)).
Proof.
  intros Hi Hl Hd. pose proof (len_bound _ _ _ _ _ Hd Hl) as Hb. pose proof (len_nonneg (entry_payload k v)).
  rewrite <- app_assoc in Hd. unfold read_entry. st_unfold.
  rewrite (varint_spec wrap_i64 (2 ^ 63) (len (entry_payload k v)) dAtA i (entry_payload k v ++ rest));
    [|intros; apply wrap_i64_id; unfold in_i64; lia|lia..|done].
  apply drop_varint in Hd as [Hi' Hd]; [|done|unfold in_u64; lia].
  set (j := i + len (varint_of (len (entry_payload k v)))) in *.
  rewrite (read_delimited_spec _ (entry_payload k v) _ rest) by (done || lia).
  set (post := j + len (entry_payload k v)).
  unfold entry_payload in Hd. rewrite <- app_assoc in Hd.
  assert (Hlen : post = j + len (field_bytes 0xa (string_bytes k)) + len (field_bytes 0x12 (content v)))
    by (unfold post, entry_payload; rewrite len_app; lia).
  assert (Hpos : forall tag d, 0 < len (field_bytes tag d)).
  { intros tag d. pose proof (field_nonempty tag d) as Hne.
    destruct (field_bytes tag d) as [|x l]; [done|]. rewrite len_cons. pose proof (len_nonneg l). lia. }
  pose proof (Hpos 0xa (string_bytes k)). pose proof (Hpos 0x12 (content v)).
  destruct (entry_field dAtA post j 0xa 1 _ _ ""%string None ltac:(lia) Hl Hd ltac:(lia) ltac:(tauto)) as [E1 Hd1].
  cbn [Z.eqb Pos.eqb] in E1. rewrite string_bytes_string in E1.
  destruct (entry_field dAtA post (j + len (field_bytes 0xa (string_bytes k))) 0x12 2 _ _ k None ltac:(lia) Hl Hd1 ltac:(lia) ltac:(tauto)) as [E2 Hd2].
  cbn [Z.eqb Pos.eqb] in E2. rewrite <- Hlen in E2.
  assert (E3 : entry_body dAtA post (k, Some (content v), post) = inr (Ok (k, Some (content v)))).
  { unfold entry_body. by rewrite Z.ltb_irrefl. }
  destruct (length dAtA) as [|[|n]] eqn:Hn.
  - unfold len in Hi'. rewrite Hn in Hi'. apply nil_length_inv in Hn as ->. rewrite drop_nil in Hd. done.
  - exfalso. apply (f_equal length) in Hd. rewrite length_drop, !length_app, Hn in Hd.
    unfold field_bytes in Hd. rewrite !length_app in Hd. cbn [length] in Hd. lia.
  - cbn [iterate]. rewrite E1. cbn [iterate]. rewrite E2. cbn [iterate]. rewrite E3. cbn [default].
    do 2 f_equal. unfold post, j. rewrite len_app. lia.
Qed.

Definition insert_entries (m acc : gmap string GoBytes) (keys : list string) : gmap string GoBytes :=
  fold_left (fun acc k => <[k := Some (content (default None (m !! k)))]> acc) keys acc.

Lemma consumes_registry discard m keys r :
  (r = None -> keys <> []) ->
  consumes (ApiVoteExtensionInfo_cases discard) (MkApiVoteExtensionInfo r []) (registry_bytes m keys)
    (MkApiVoteExtensionInfo (Some (insert_entries m (default ∅ r) keys)) []).
Proof.
  unfold registry_bytes, insert_entries. revert r. induction keys as [|k keys IH]; intros r Hr; cbn [map concat fold_left].
  - destruct r as [r|]; [|by destruct Hr]. apply consumes_nil.
  - set (v := default None (m !! k)).
    apply (consumes_app _ _ (MkApiVoteExtensionInfo (Some (<[k := Some (content v)]> (default ∅ r))) [])).
    2: by apply (IH (Some _)).
    unfold field_bytes. apply consumes_field; [done..|]. intros dAtA pre i rest Hi Hl Hd.
    change (Z.shiftr 18 3) with 2. change (Z.land 18 7) with 2.
    unfold ApiVoteExtensionInfo_cases, field_of. cbn [Z.eqb Pos.eqb negb].
    rewrite (read_entry_spec dAtA i k v rest) by done. st_unfold. done.
Qed.

Lemma insert_entries_lookup m acc keys k :
  insert_entries m acc keys !! k
  = if bool_decide (k ∈ keys) then Some (Some (content (default None (m !! k)))) else acc !! k.
Proof.
  unfold insert_entries. revert acc. induction keys as [|k' keys IH]; intros acc; cbn [fold_left].
  { by rewrite bool_decide_eq_false_2 by apply not_elem_of_nil. }
  rewrite IH. destruct (decide (k ∈ keys)) as [H|H].
  - rewrite !bool_decide_eq_true_2; [done|by apply list_elem_of_further|done].
  - rewrite (bool_decide_eq_false_2 (k ∈ keys)) by done. destruct (decide (k = k')) as [->|Hne].
    + rewrite bool_decide_eq_true_2 by apply list_elem_of_here. by rewrite lookup_insert_eq.
    + rewrite bool_decide_eq_false_2 by (rewrite elem_of_cons; tauto). by rewrite lookup_insert_ne.
Qed.

Lemma registry_keys_perm det m : registry_keys det m ≡ₚ map fst (map_to_list m).
Proof.
  unfold registry_keys. destruct det; [rewrite merge_sort_Permutation|]; apply range_keys_spec.
Qed.

Lemma registry_order_elem det m k : k ∈ registry_order det m <-> is_Some (m !! k).
Proof.
  transitivity (k ∈ registry_keys det m).
  { unfold registry_order. destruct det; [done|]. by rewrite !list_elem_of_In, <- in_rev. }
  rewrite registry_keys_perm, list_elem_of_In, in_map_iff. split.
  - intros ([k' v] & <- & Hin). apply list_elem_of_In, elem_of_map_to_list in Hin. eauto.
  - intros [v Hv]. exists (k, v). split; [done|]. by apply list_elem_of_In, elem_of_map_to_list.
Qed.

Lemma insert_entries_canon det m : insert_entries m ∅ (registry_order det m) = canon_map m.
Proof.
  apply map_eq. intros k. rewrite insert_entries_lookup. unfold canon_map. rewrite lookup_fmap, lookup_empty.
  case_bool_decide as H; rewrite registry_order_elem in H.
  - by destruct H as [v ->].
  - by apply eq_None_not_Some in H as ->.
Qed.

Definition ApiVoteExtensionInfo_bytes (det : bool) (x : ApiVoteExtensionInfo) : bytes :=
  registry_bytes (default ∅ (av_Registry x)) (registry_order det (default ∅ (av_Registry x))).
Definition ApiVoteExtensionInfo_canon (discard : bool) (x : ApiVoteExtensionInfo) : ApiVoteExtensionInfo :=
  MkApiVoteExtensionInfo (canon_registry (av_Registry x)) [].
Definition ApiVoteExtensionInfo_ok : ApiVoteExtensionInfo -> Prop :=
  frame_ok av_unknown [2] (fun _ => True) ApiVoteExtensionInfo_bytes.

Lemma registry_order_nil det : registry_order det ∅ = [].
Proof.
  destruct (registry_order det ∅) as [|k l] eqn:E; [done|].
  assert (H : k ∈ registry_order det ∅) by (rewrite E; apply list_elem_of_here).
  rewrite registry_order_elem, lookup_empty in H. by destruct H.
Qed.

Lemma read_entry_progress dAtA i e j :
  read_entry dAtA i = Ok (e, j) -> 0 <= i -> len dAtA < 2 ^ 63 - 8 -> i < j <= len dAtA.
Proof.
  unfold read_entry. st_unfold. intros H Hi Hl.
  destruct (varint wrap_i64 dAtA i) as [[n k]|] eqn:E; [|done].
  pose proof (varint_i64 _ _ _ _ E). apply varint_progress in E; [|done].
  destruct (read_delimited dAtA (n, k)) as [[d p]|] eqn:Ed; [|done].
  apply read_delimited_progress in Ed; [|lia..|done].
  destruct (default _ _) as [[k' v']|]; simplify_eq. lia.
Qed.

Lemma ApiVoteExtensionInfo_codec :
  message_codec ApiVoteExtensionInfo_Methods new_ApiVoteExtensionInfo ApiVoteExtensionInfo_ok
    (frame_bytes av_unknown ApiVoteExtensionInfo_bytes)
    (frame_canon av_unknown av_with_unknown ApiVoteExtensionInfo_canon).
Proof.
  apply frame_codec. split; try done.
  - intros det x _ Hs. apply writes_always. unfold ApiVoteExtensionInfo_bytes, registry_order in *.
    destruct det; [|by apply writes_registry].
    rewrite <- (rev_involutive (registry_keys true (default ∅ (av_Registry x)))) in Hs |- *.
    rewrite (rev_involutive (registry_keys _ _)) at 1. by apply writes_registry.
  - intros det x _ Hs. by apply registry_size.
  - intros det discard x _. unfold ApiVoteExtensionInfo_bytes, ApiVoteExtensionInfo_canon, canon_registry.
    case_bool_decide as He.
    + rewrite He, registry_order_nil. apply consumes_nil.
    + destruct (av_Registry x) as [m|]; [|done]. cbn [default fmap option_fmap option_map] in *. unfold id in *.
      rewrite <- (insert_entries_canon det m). apply (consumes_registry discard m _ None).
      intros _ Hn. apply He, map_eq. intros k. rewrite lookup_empty. apply eq_None_not_Some.
      intros Hk. apply (registry_order_elem det) in Hk. rewrite Hn in Hk. by apply not_elem_of_nil in Hk.
  - fields_unknown ApiVoteExtensionInfo_cases.
  - intros discard f w dAtA pre i m m' j Hp Hi Hl H. unfold ApiVoteExtensionInfo_cases in H.
    destruct (f =? 2); [|by apply (keep_unknown_progress _ _ _ _ i) in H].
    apply field_of_ok in H as (_ & v & Hr & _). apply read_entry_progress in Hr; lia.
  - by intros [].
Qed.
End Codecs.
