(* ===== verification/PulsarConcrete.v ===== *)
(** * A concrete protobuf runtime and coin

    Instances of the parameters of the API files: protoreflect values as a sum, the runtime
    package by the routines of Wire, a coin with a denomination and an amount.  They show that the
    hypotheses of the API properties can hold. *)
From S2P Require Import Prelude Hash Wire WireFacts Pulsar PulsarFacts PulsarWire PulsarMessages PulsarWireFacts.
From Stdlib Require Import ZifyBool.
#[local] Open Scope Z_scope.

(** ** Values *)

Inductive c_value (M L P : Type) : Type :=
| CInvalid
| CUint32 (n : Z)
| CUint64 (n : Z)
| CInt64 (n : Z)
| CBool (b : bool)
| CString (s : string)
| CBytes (b : GoBytes)
| CMessage (m : M)
| CList (l : L)
| CMap (m : P).
Arguments CInvalid {M L P}.
Arguments CUint32 {M L P} n.
Arguments CUint64 {M L P} n.
Arguments CInt64 {M L P} n.
Arguments CBool {M L P} b.
Arguments CString {M L P} s.
Arguments CBytes {M L P} b.
Arguments CMessage {M L P} m.
Arguments CList {M L P} l.
Arguments CMap {M L P} m.

Definition type_mismatch {A} : outcome A := Panic "type mismatch".

#[export] Instance concrete_value (M L P : Type) : ProtoValue M L P := {|
  Value := c_value M L P;
  ValueOfUint32 := CUint32; ValueOfUint64 := CUint64; ValueOfInt64 := CInt64; ValueOfBool := CBool;
  ValueOfString := CString; ValueOfBytes := CBytes; ValueOfMessage := CMessage;
  ValueOfList := CList; ValueOfMap := CMap; InvalidValue := CInvalid;
  Value_IsValid v := match v with CInvalid => false | _ => true end;
  Value_string v := match v with CString s => Ret s | _ => type_mismatch end;
  Value_Uint v := match v with CUint32 n | CUint64 n => Ret n | _ => type_mismatch end;
  Value_Int v := match v with CInt64 n => Ret n | _ => type_mismatch end;
  Value_Bool v := match v with CBool b => Ret b | _ => type_mismatch end;
  Value_Bytes v := match v with CBytes b => Ret b | _ => type_mismatch end;
  Value_Message v := match v with CMessage m => Ret m | _ => type_mismatch end;
  Value_List v := match v with CList l => Ret l | _ => type_mismatch end;
  Value_Map v := match v with CMap m => Ret m | _ => type_mismatch end |}.

#[export] Instance concrete_value_laws M L P : ProtoValueLaws (concrete_value M L P).
Proof. by split. Qed.

(** ** Skip finds the end of a field whatever follows it *)

Lemma read_varint_app wrap sh d e i acc r :
  read_varint wrap sh d i acc = Ok r -> read_varint wrap sh (d ++ e) i acc = Ok r.
Proof.
  revert i acc. induction sh as [|s sh IH]; intros i acc; cbn; [done|].
  destruct (d !! Z.to_nat i) as [b|] eqn:E; [|done].
  rewrite (lookup_app_l_Some _ _ _ _ E). destruct (byte_Z b <? 128); auto.
Qed.

Lemma varint_app wrap d e i r : varint wrap d i = Ok r -> varint wrap (d ++ e) i = Ok r.
Proof. apply read_varint_app. Qed.

Lemma skip_value_app w d e i depth r :
  skip_value w d i depth = Ok r -> skip_value w (d ++ e) i depth = Ok r.
Proof.
  unfold skip_value. st_unfold. intros H.
  destruct (w =? 0).
  { destruct (varint wrap_u64 d i) as [[v j]|] eqn:E; [|done]. by rewrite (varint_app _ _ e _ _ E). }
  destruct (w =? 1); [done|]. destruct (w =? 2); [|done].
  destruct (varint wrap_i64 d i) as [[v j]|] eqn:E; [|done]. by rewrite (varint_app _ _ e _ _ E).
Qed.

Lemma skip_body_app d e s r :
  skip_body d s = r -> (forall err, r <> inr (Err err)) -> skip_body (d ++ e) s = r.
Proof.
  destruct s as [i depth]. unfold skip_body. st_unfold. rewrite len_app. pose proof (len_nonneg e).
  destruct (Z.ltb_spec i (len d)); [|intros <- Hr; by destruct (Hr ErrUnexpectedEOF)].
  destruct (Z.ltb_spec i (len d + len e)); [|lia].
  destruct (varint wrap_u64 d i) as [[w k]|err] eqn:E; [|intros <- Hr; by destruct (Hr err)].
  rewrite (varint_app _ _ e _ _ E).
  destruct (skip_value (Z.land w 7) d k depth) as [[j dep]|err] eqn:E'; [|intros <- Hr; by destruct (Hr err)].
  by rewrite (skip_value_app _ _ e _ _ _ E').
Qed.

Lemma skip_app d e n : skip d = Ok n -> skip (d ++ e) = Ok n.
Proof.
  unfold skip. intros H. destruct (iterate (S (length d)) (skip_body d) (0, 0)) as [r|] eqn:E; [|done].
  cbn [default] in H. unfold id in H. subst r.
  replace (S (length (d ++ e))) with (S (length d) + length e)%nat by (rewrite length_app; lia).
  rewrite (iterate_more _ _ _ _ (Ok n)); [done|]. revert E. generalize (0, 0). generalize (S (length d)).
  induction n0 as [|fuel IH]; intros s; cbn [iterate]; [done|].
  destruct (skip_body d s) as [s'|r] eqn:Eb.
  - rewrite (skip_body_app _ e _ _ Eb) by done. apply IH.
  - intros [= ->]. by rewrite (skip_body_app _ e _ _ Eb) by done.
Qed.

(** ** The runtime, without a coin *)

Definition no_coin : Methods unit :=
  MkMethods (fun _ _ => 0) (fun _ buf _ => Ret (Ok (Some (content buf)))) (fun _ _ m => Ok m).

Definition c_marshal {T} (marshal : bool -> GoBytes -> option T -> outcome (result GoBytes)) (det : bool)
    (x : option T) : outcome (result bytes) :=
  match marshal det (Some []) x with
  | Ret (Ok b) => Ret (Ok (content b))
  | Ret (Err err) => Ret (Err err)
  | Panic w => Panic w
  end.

Definition runtime_of (coin : Type) (new : coin) (meths : Methods coin) : PulsarLib := {|
  runtime_Sov := sov;
  runtime_EncodeVarint := encodeVarint;
  runtime_Skip := skip;
  options_Size T size := size;
  options_Marshal T marshal := c_marshal marshal;
  options_Unmarshal T unmarshal := unmarshal;
  ApiCoin := coin;
  new_ApiCoin := new;
  ApiCoin_Methods := meths;
  range_keys m := map fst (map_to_list m) |}.

(** The laws of the runtime do not depend on the coin, but for its codec. *)
Definition runtime_laws (coin : Type) (new : coin) (meths : Methods coin) (ok : coin -> Prop)
    (bytes_of : coin -> bytes) (canon : bool -> coin -> coin)
    (HC : message_codec meths new ok (fun _ => bytes_of) canon) : PulsarLaws (runtime_of coin new meths).
Proof.
  refine {| api_coin_ok := (ok : @ApiCoin (runtime_of coin new meths) -> Prop);
            api_coin_bytes := (bytes_of : @ApiCoin (runtime_of coin new meths) -> bytes);
            api_coin_canon := (canon : bool -> @ApiCoin (runtime_of coin new meths) -> _);
            api_coin_codec := HC |}.
  - intros v Hv. symmetry. by apply varint_of_length.
  - intros v Hv. by apply writes_varint.
  - intros b n H Hl. by apply (skip_positive b).
  - intros b rest H _. by apply skip_app.
  - done.
  - intros T marshal det x b H. cbn. unfold c_marshal. by rewrite H.
  - done.
  - done.
Defined.

Definition pre_runtime : PulsarLib := runtime_of unit tt no_coin.
#[local] Instance pre_laws : PulsarLaws pre_runtime.
Proof.
  apply (runtime_laws unit tt no_coin (fun _ => True) (fun _ => []) (fun _ u => u)).
  split; try done.
  - intros det buf x _. cbn. by rewrite app_nil_r.
  - by intros det discard [].
Defined.

(** ** A coin: two strings *)

Record CCoin : Type := MkCCoin { cc_denom : string; cc_amount : string; cc_unknown : bytes }.
Definition new_CCoin : CCoin := MkCCoin "" "" [].
Definition cc_with_unknown (u : bytes) (c : CCoin) : CCoin := MkCCoin (cc_denom c) (cc_amount c) u.

Section Coin.
#[local] Existing Instance pre_runtime.

Definition CCoin_size (det : bool) (c : CCoin) : Z :=
  size_optional (len (string_bytes (cc_denom c))) + size_optional (len (string_bytes (cc_amount c))).
Definition CCoin_marshal (det : bool) (c : CCoin) : Z -> ST bytes (result Z) :=
  then_ok (always (when (0 <? len (string_bytes (cc_amount c))) (put_delimited 0x12 (string_bytes (cc_amount c)))))
  (always (when (0 <? len (string_bytes (cc_denom c))) (put_delimited 0xa (string_bytes (cc_denom c))))).
Definition CCoin_cases (discard : bool) : FieldCases CCoin :=
  fun fieldNum wireType dAtA preIndex iNdEx c =>
  if fieldNum =? 1 then
    field_of wireType 2 (read_string dAtA iNdEx)
      (fun v => Ok (MkCCoin (bytes_string v) (cc_amount c) (cc_unknown c)))
  else if fieldNum =? 2 then
    field_of wireType 2 (read_string dAtA iNdEx)
      (fun v => Ok (MkCCoin (cc_denom c) (bytes_string v) (cc_unknown c)))
  else keep_unknown (fun u c => cc_with_unknown (cc_unknown c ++ u) c) discard dAtA preIndex c.
Definition CCoin_Methods : Methods CCoin :=
  frame_methods cc_unknown CCoin_size CCoin_marshal CCoin_cases.

Definition CCoin_bytes (c : CCoin) : bytes :=
  optional_field 0xa (string_bytes (cc_denom c)) ++ optional_field 0x12 (string_bytes (cc_amount c)).
Definition CCoin_ok : CCoin -> Prop := frame_ok cc_unknown [1; 2] (fun _ => True) (fun _ => CCoin_bytes).

Lemma CCoin_codec :
  message_codec CCoin_Methods new_CCoin CCoin_ok (fun _ c => CCoin_bytes c ++ cc_unknown c)
    (frame_canon cc_unknown cc_with_unknown (fun _ c => cc_with_unknown [] c)).
Proof.
  apply (frame_codec (T := CCoin) new_CCoin cc_unknown cc_with_unknown). split; try done.
  - intros det c _ Hs. unfold CCoin_bytes in Hs.
    apply len_app_lt in Hs as [Hd%optional_field_lt Ha%optional_field_lt]; try lia.
    apply writes_then_ok; apply writes_optional; lia.
  - intros det c _ Hs. unfold CCoin_bytes, CCoin_size in *.
    apply len_app_lt in Hs as [Hd%optional_field_lt Ha%optional_field_lt]; try lia.
    by rewrite len_app, (size_optional_spec 0xa), (size_optional_spec 0x12) by lia.
  - intros det discard c _.
    apply (consumes_app _ _ (MkCCoin (cc_denom c) "" [])).
    + by apply (consumes_optional_string (CCoin_cases discard) 0xa (cc_denom c)
        (fun s c => MkCCoin s (cc_amount c) (cc_unknown c)) new_CCoin).
    + by apply (consumes_optional_string (CCoin_cases discard) 0x12 (cc_amount c)
        (fun s c => MkCCoin (cc_denom c) s (cc_unknown c)) (MkCCoin (cc_denom c) "" [])).
  - fields_unknown CCoin_cases.
  - fields_progress CCoin_cases.
  - by intros [].
Qed.
End Coin.

#[export] Instance concrete_pulsar : PulsarLib := runtime_of CCoin new_CCoin CCoin_Methods.
#[export] Instance concrete_pulsar_laws : PulsarLaws concrete_pulsar :=
  runtime_laws CCoin new_CCoin CCoin_Methods CCoin_ok (fun c => CCoin_bytes c ++ cc_unknown c)
    (frame_canon cc_unknown cc_with_unknown (fun _ c => cc_with_unknown [] c)) CCoin_codec.
