(* ===== verification/PulsarProps.v ===== *)
(** * What the generated API promises its clients

    Round trips of every message with its unknown fields, the agreement with the encodings of
    x/builder/types, the order of a deterministic encoding, and the witnesses of the properties of
    the reflection. *)
From stdpp Require Import sorting.
From S2P Require Import Prelude Hash Sdk SkipListFacts Concrete BuilderTypes Wire WireFacts BuilderWire BuilderWireFacts Pulsar PulsarMessages PulsarFacts PulsarWire PulsarWireFacts PulsarConcrete.
From Stdlib Require Import ZifyBool.
#[local] Open Scope Z_scope.

Section Wire.
Context {PL : PulsarLib} {LW : PulsarLaws PL}.

(** The messages with their functions, a new message, the messages that have an encoding, and what
    is read back: empty and nil byte strings, lists and maps are not told apart, discarded unknown
    fields are missing. *)
Inductive api_wire : forall T, Methods T -> T -> (T -> Prop) -> (bool -> T -> T) -> Prop :=
| wire_Params : api_wire ApiParams ApiParams_Methods new_ApiParams ApiParams_ok params_canon
| wire_GenesisState : api_wire ApiGenesisState ApiGenesisState_Methods new_ApiGenesisState ApiGenesisState_ok
    (frame_canon ag_unknown ag_with_unknown
       (fun discard x => MkApiGenesisState (params_canon discard <$> ag_Params x) []))
| wire_MsgAuctionBid : api_wire ApiMsgAuctionBid ApiMsgAuctionBid_Methods new_ApiMsgAuctionBid ApiMsgAuctionBid_ok
    (frame_canon ab_unknown ab_with_unknown ApiMsgAuctionBid_canon)
| wire_MsgAuctionBidResponse : api_wire ApiEmpty ApiMsgAuctionBidResponse_Methods new_ApiEmpty ApiEmpty_ok
    (frame_canon ae_unknown (fun u x => MkApiEmpty u) (fun _ _ => new_ApiEmpty))
| wire_MsgUpdateParams : api_wire ApiMsgUpdateParams ApiMsgUpdateParams_Methods new_ApiMsgUpdateParams ApiMsgUpdateParams_ok
    (frame_canon au_unknown au_with_unknown ApiMsgUpdateParams_canon)
| wire_MsgUpdateParamsResponse : api_wire ApiEmpty ApiMsgUpdateParamsResponse_Methods new_ApiEmpty ApiEmpty_ok
    (frame_canon ae_unknown (fun u x => MkApiEmpty u) (fun _ _ => new_ApiEmpty))
| wire_QueryParamsRequest : api_wire ApiEmpty ApiQueryParamsRequest_Methods new_ApiEmpty ApiEmpty_ok
    (frame_canon ae_unknown (fun u x => MkApiEmpty u) (fun _ _ => new_ApiEmpty))
| wire_QueryParamsResponse : api_wire ApiQueryParamsResponse ApiQueryParamsResponse_Methods
    new_ApiQueryParamsResponse ApiQueryParamsResponse_ok
    (frame_canon aq_unknown aq_with_unknown
       (fun discard x => MkApiQueryParamsResponse (params_canon discard <$> aq_Params x) []))
| wire_Module : api_wire ApiModule ApiModule_Methods new_ApiModule ApiModule_ok
    (frame_canon am_unknown am_with_unknown (fun _ x => MkApiModule (am_Authority x) []))
| wire_AuctionInfo : api_wire ApiAuctionInfo ApiAuctionInfo_Methods new_ApiAuctionInfo ApiAuctionInfo_ok
    (frame_canon ai_unknown ai_with_unknown ApiAuctionInfo_canon)
| wire_VoteExtensionInfo : api_wire ApiVoteExtensionInfo ApiVoteExtensionInfo_Methods
    new_ApiVoteExtensionInfo ApiVoteExtensionInfo_ok
    (frame_canon av_unknown av_with_unknown ApiVoteExtensionInfo_canon).

Lemma api_wire_codec {T} meths new ok canon :
  api_wire T meths new ok canon -> exists bytes_of, message_codec meths new ok bytes_of canon.
Proof.
  destruct 1; eexists; first [apply ApiParams_codec|apply ApiGenesisState_codec|apply ApiMsgAuctionBid_codec
    |apply ApiMsgUpdateParams_codec|apply ApiQueryParamsResponse_codec|apply ApiModule_codec
    |apply ApiAuctionInfo_codec|apply ApiVoteExtensionInfo_codec|apply ApiEmpty_codec].
Qed.

(** C27: every message of the API survives Marshal and Unmarshal.  Marshal appends to the given
    buffer exactly as many bytes as Size says, without a panic or an error; Unmarshal of those
    bytes into a new message gives the message, its unknown fields verbatim unless DiscardUnknown
    is set. *)
Theorem api_Marshal_roundtrip {T} (meths : Methods T) new ok canon (x : T) (det discard : bool) (buf : GoBytes) :
  api_wire T meths new ok canon -> ok x ->
  exists bz, Methods_Marshal meths det buf (Some x) = Ret (Ok (Some (content buf ++ bz))) /\
    len bz = Methods_Size meths det (Some x) /\
    Methods_Unmarshal meths discard bz (Some new) = Ok (Some (canon discard x)).
Proof.
  intros [bytes_of HC]%api_wire_codec Hx. exists (bytes_of det x). split_and!.
  - by apply (mc_marshal _ _ _ _ _ HC).
  - symmetry. by apply (mc_size _ _ _ _ _ HC).
  - by apply (mc_unmarshal _ _ _ _ _ HC).
Qed.

(** ** Agreement with x/builder/types *)

Context {sdk : Sdk} {DL : DecLaws sdk} {W : WireLib} {WL : WireLaws W}.

(** The same coin in both packages: present, with the same encoding. *)
Definition same_coin (c : option ApiCoin) (d : Coin) : Prop :=
  exists c', c = Some c' /\ api_coin_bytes c' = coin_bytes d.

Record same_params (x : ApiParams) (p : Params) : Prop := {
  sp_bundle : ap_MaxBundleSize x = MaxBundleSize p;
  sp_escrow : content (ap_EscrowAccountAddress x) = default [] (EscrowAccountAddress p);
  sp_reserve : same_coin (ap_ReserveFee x) (ReserveFee p);
  sp_increment : same_coin (ap_MinBidIncrement x) (MinBidIncrement p);
  sp_protection : ap_FrontRunningProtection x = FrontRunningProtection p;
  sp_fee : string_bytes (ap_ProposerFee x) = dec_bytes (ProposerFee p);
  sp_fee_set : dec_bytes (ProposerFee p) <> [];
  sp_unknown : ap_unknown x = []
}.

Record same_bid (x : ApiMsgAuctionBid) (m : MsgAuctionBid) : Prop := {
  sb_bidder : ab_Bidder x = msg_Bidder m;
  sb_bid : same_coin (ab_Bid x) (msg_Bid m);
  sb_transactions : map content (default [] (ab_Transactions x)) = msg_Transactions m;
  sb_unknown : ab_unknown x = []
}.

Lemma same_coin_bytes det tag c d : same_coin c d -> coin_nested det tag c = field_bytes tag (coin_bytes d).
Proof. intros (c' & -> & E). unfold coin_nested. cbn. by rewrite E. Qed.

Lemma varint_field_small tag v : in_u64 v -> varint_field tag v = [Z_byte tag] ++ varint_of v.
Proof. intros H. unfold varint_field. by rewrite wrap_u64_id. Qed.

Lemma same_params_bytes det x p :
  same_params x p -> params_ok p -> ApiParams_bytes det x = Params_bytes p.
Proof.
  intros [] Hp. unfold ApiParams_bytes, Params_bytes, optional_field.
  rewrite sp_bundle0, sp_escrow0, sp_protection0, sp_fee0.
  rewrite (same_coin_bytes _ _ _ _ sp_reserve0), (same_coin_bytes _ _ _ _ sp_increment0).
  rewrite varint_field_small by (destruct Hp as [Hb]; unfold in_u32, in_u64 in *; lia).
  replace (0 <? len (dec_bytes (ProposerFee p))) with true.
  - by destruct (FrontRunningProtection p).
  - destruct (dec_bytes (ProposerFee p)) as [|b l]; [done|]. rewrite len_cons. pose proof (len_nonneg l). lia.
Qed.

Lemma same_bid_bytes det x m : same_bid x m -> ApiMsgAuctionBid_bytes det x = MsgAuctionBid_bytes m.
Proof.
  intros []. unfold ApiMsgAuctionBid_bytes, MsgAuctionBid_bytes, optional_field.
  rewrite sb_bidder0, (same_coin_bytes _ _ _ _ sb_bid0). f_equal.
  unfold tx_list_bytes, transactions_bytes. rewrite <- sb_transactions0, map_map. done.
Qed.

(** A bid has the same bytes in both packages. *)
Lemma bid_encoding (x : ApiMsgAuctionBid) (m : MsgAuctionBid) det buf :
  same_bid x m -> ApiMsgAuctionBid_ok x -> bid_ok m ->
  Methods_Marshal ApiMsgAuctionBid_Methods det buf (Some x) = Ret (Ok (Some (content buf ++ MsgAuctionBid_bytes m))) /\
  MsgAuctionBid_Marshal m = Ret (Ok (MsgAuctionBid_bytes m)) /\
  MsgAuctionBid_Unmarshal (MsgAuctionBid_bytes m) MsgAuctionBid_zero = Ok m.
Proof.
  intros Hx Hxo Hm. rewrite (mc_marshal _ _ _ _ _ ApiMsgAuctionBid_codec) by done.
  unfold frame_bytes. rewrite (same_bid_bytes det x m) by done. rewrite (sb_unknown _ _ Hx), app_nil_r.
  split; [done|].
  split; [apply Marshal_encodes; [by apply MsgAuctionBid_encodes|by apply MsgAuctionBid_size]|].
  apply Unmarshal_consumes; [apply MsgAuctionBid_progress| |by apply MsgAuctionBid_consumes].
  destruct Hm. lia.
Qed.

(** A change of the parameters, and the reply with them. *)
Lemma same_params_nested det tag y p : same_params y p -> params_ok p ->
  params_nested det tag (Some y) = field_bytes tag (Params_bytes p).
Proof.
  intros Hy Hp. unfold params_nested, nested_field, frame_bytes.
  by rewrite (same_params_bytes det y p), (sp_unknown _ _ Hy), app_nil_r.
Qed.

Record same_update (x : ApiMsgUpdateParams) (u : MsgUpdateParams) : Prop := {
  su_authority : au_Authority x = Authority u;
  su_params : exists y, au_Params x = Some y /\ same_params y (mup_Params u);
  su_unknown : au_unknown x = []
}.

Lemma update_encoding x u det buf :
  same_update x u -> ApiMsgUpdateParams_ok x -> params_ok (mup_Params u) -> len (MsgUpdateParams_bytes u) < 2 ^ 62 ->
  Methods_Marshal ApiMsgUpdateParams_Methods det buf (Some x)
    = Ret (Ok (Some (content buf ++ MsgUpdateParams_bytes u))) /\
  MsgUpdateParams_Marshal u = Ret (Ok (MsgUpdateParams_bytes u)) /\
  MsgUpdateParams_Unmarshal (MsgUpdateParams_bytes u) MsgUpdateParams_zero = Ok u.
Proof.
  intros [Ha (y & Hy & Hs) Hu] Hx Hp Hl. rewrite (mc_marshal _ _ _ _ _ ApiMsgUpdateParams_codec) by done. split; [|split].
  - unfold frame_bytes, ApiMsgUpdateParams_bytes. by rewrite Hu, app_nil_r, Hy, (same_params_nested det 0x12 y (mup_Params u)), Ha.
  - apply Marshal_encodes; [by apply MsgUpdateParams_encodes|by apply MsgUpdateParams_size].
  - apply Unmarshal_consumes; [apply MsgUpdateParams_progress|lia|by apply MsgUpdateParams_consumes].
Qed.

(** The reply that holds [y]. *)
Definition api_response (y : ApiParams) : ApiQueryParamsResponse := MkApiQueryParamsResponse (Some y) [].

Lemma response_encoding y p det buf :
  same_params y p -> ApiQueryParamsResponse_ok (api_response y) -> params_ok p ->
  let bz := field_bytes 0xa (Params_bytes p) in
  Methods_Marshal ApiQueryParamsResponse_Methods det buf (Some (api_response y)) = Ret (Ok (Some (content buf ++ bz))) /\
  QueryParamsResponse_Marshal p = Ret (Ok bz) /\ QueryParamsResponse_Unmarshal bz Params_zero = Ok p /\
  Methods_Unmarshal ApiQueryParamsResponse_Methods false bz (Some new_ApiQueryParamsResponse)
    = Ok (Some (api_response (params_canon false y))).
Proof.
  intros Hs Hy Hp bz. pose proof ApiQueryParamsResponse_codec as HC.
  assert (Hb : forall det, frame_bytes aq_unknown (fun det x => params_nested det 0xa (aq_Params x)) det (api_response y) = bz).
  { intros d. unfold frame_bytes. cbn [api_response aq_Params aq_unknown]. by rewrite app_nil_r, (same_params_nested d 0xa y p). }
  split; [|split; [|split]].
  - rewrite (mc_marshal _ _ _ _ _ HC) by done. by rewrite Hb.
  - apply Marshal_encodes; [by apply nested_encodes|by apply nested_size].
  - apply Unmarshal_consumes; [apply QueryParamsResponse_progress|by apply nested_short|].
    eapply (consumes_bytes_field _ _ 0xa); [done..|reflexivity|]. by apply Params_Unmarshal_bytes.
  - rewrite <- (Hb det), (mc_unmarshal _ _ _ _ _ HC) by done. done.
Qed.

(** C28: what a client encodes with the API is what the chain encodes, for messages without unknown
    fields whose coins and proposer fee are set: a bid, the parameters, a change of the parameters
    and the reply of the query have the bytes of the same message of x/builder/types, and the
    chain's Unmarshal of them gives that message. *)
Theorem api_encoding_is_chain_encoding (x : ApiMsgAuctionBid) (m : MsgAuctionBid) (y : ApiParams) (p : Params)
    (z : ApiMsgUpdateParams) (u : MsgUpdateParams) (det : bool) :
  same_bid x m -> ApiMsgAuctionBid_ok x -> bid_ok m ->
  same_params y p -> ApiParams_ok y -> ApiQueryParamsResponse_ok (api_response y) -> params_ok p ->
  same_update z u -> ApiMsgUpdateParams_ok z -> params_ok (mup_Params u) -> len (MsgUpdateParams_bytes u) < 2 ^ 62 ->
  (exists bz, Methods_Marshal ApiMsgAuctionBid_Methods det None (Some x) = Ret (Ok (Some bz)) /\
     MsgAuctionBid_Marshal m = Ret (Ok bz) /\ MsgAuctionBid_Unmarshal bz MsgAuctionBid_zero = Ok m) /\
  (exists bz, Methods_Marshal ApiParams_Methods det None (Some y) = Ret (Ok (Some bz)) /\
     Params_Marshal p = Ret (Ok bz) /\ Params_Unmarshal bz Params_zero = Ok p) /\
  (exists bz, Methods_Marshal ApiMsgUpdateParams_Methods det None (Some z) = Ret (Ok (Some bz)) /\
     MsgUpdateParams_Marshal u = Ret (Ok bz) /\ MsgUpdateParams_Unmarshal bz MsgUpdateParams_zero = Ok u) /\
  (exists bz, Methods_Marshal ApiQueryParamsResponse_Methods det None (Some (api_response y)) = Ret (Ok (Some bz)) /\
     QueryParamsResponse_Marshal p = Ret (Ok bz) /\ QueryParamsResponse_Unmarshal bz Params_zero = Ok p).
Proof.
  intros Hx Hxo Hm Hy Hyo Hro Hp Hz Hzo Hu Hl. split; [|split; [|split]].
  - exists (MsgAuctionBid_bytes m). by apply (bid_encoding x m det None).
  - exists (Params_bytes p). rewrite (mc_marshal _ _ _ _ _ ApiParams_codec) by done.
    unfold frame_bytes. rewrite (same_params_bytes det y p) by done. rewrite (sp_unknown _ _ Hy), app_nil_r.
    split; [done|]. split; [by apply Params_Marshal_ok|by apply Params_Unmarshal_bytes].
  - exists (MsgUpdateParams_bytes u). by apply (update_encoding z u det None).
  - destruct (response_encoding y p det None Hy Hro Hp) as (H1 & H2 & H3 & _). by eexists.
Qed.
End Wire.

(** ** The order of a deterministic encoding *)

Section Deterministic.
Context {PL : PulsarLib} {LW : PulsarLaws PL}.

Lemma string_le_cons x y a b :
  string_le (String x a) (String y b) <->
  (N_of_ascii x < N_of_ascii y)%N \/ x = y /\ string_le a b.
Proof.
  unfold string_le, String.leb. cbn [String.compare]. unfold Ascii.compare.
  destruct (N.compare_spec (N_of_ascii x) (N_of_ascii y)) as [E|E|E].
  - apply (f_equal ascii_of_N) in E. rewrite !ascii_N_embedding in E. subst y.
    split; [by right|]. by intros [?%N.lt_irrefl|[_ ?]].
  - split; [by left|done].
  - split; [done|]. intros [H|[-> _]]; [|by apply N.lt_irrefl in E].
    by apply (N.lt_asymm _ _ E) in H.
Qed.

#[local] Instance string_le_trans : Transitive string_le.
Proof.
  intros a. induction a as [|x a IH]; intros b c Hab Hbc; [by destruct c|].
  destruct b as [|y b]; [done|]. destruct c as [|z c]; [done|].
  rewrite string_le_cons in *. destruct Hab as [Hab|[-> Hab]], Hbc as [Hbc|[-> Hbc]];
    [left; by etransitivity|by left|by left|right; split; [done|by eapply IH]].
Qed.
#[local] Instance string_le_antisymm : AntiSymm (=) string_le.
Proof. intros a b Ha Hb. by apply String.leb_antisym. Qed.
#[local] Instance string_le_total : Total string_le.
Proof. intros a b. apply String.leb_total. Qed.

(** With the Deterministic flag the entries of a registry are encoded in the byte order of
    their keys, each key once, before the unknown fields, whatever order a loop over the map
    takes; no other order of the keys is sorted, so the encoding is a function of the registry. *)
Theorem registry_deterministic (x : ApiVoteExtensionInfo) (m : gmap string GoBytes) (buf : GoBytes) :
  av_Registry x = Some m -> ApiVoteExtensionInfo_ok x ->
  exists keys,
    StronglySorted string_le keys /\ NoDup keys /\ (forall k, k ∈ keys <-> is_Some (m !! k)) /\
    Methods_Marshal ApiVoteExtensionInfo_Methods true buf (Some x)
      = Ret (Ok (Some (content buf ++ registry_bytes m keys ++ av_unknown x))) /\
    forall keys', StronglySorted string_le keys' -> NoDup keys' ->
      (forall k, k ∈ keys' <-> is_Some (m !! k)) -> keys' = keys.
Proof.
  intros Hm Hx. exists (registry_keys true m).
  assert (Hnd : NoDup (registry_keys true m)).
  { rewrite registry_keys_perm. apply NoDup_fst_map_to_list. }
  assert (Hin : forall k, k ∈ registry_keys true m <-> is_Some (m !! k)) by apply (registry_order_elem true).
  assert (Hsort : StronglySorted string_le (registry_keys true m)) by (apply StronglySorted_merge_sort; apply _).
  split_and!; [done..| |].
  - rewrite (mc_marshal _ _ _ _ _ ApiVoteExtensionInfo_codec) by done.
    unfold frame_bytes, ApiVoteExtensionInfo_bytes. by rewrite Hm.
  - intros keys' Hs Hn Hk. apply (StronglySorted_unique string_le); [done..|].
    apply NoDup_Permutation; [done..|]. intros k. by rewrite Hk, Hin.
Qed.
End Deterministic.

(** ** Unmarshalling returns *)

Section Totals.
Context {PL : PulsarLib} {LW : PulsarLaws PL}.

Lemma ApiParams_progress discard : cases_progress (ApiParams_cases discard).
Proof. apply (fc_progress _ _ _ _ _ _ _ _ _ _ ApiParams_fields_codec). Qed.

(** Unmarshalling any bytes into parameters, and reading any entry of a registry, returns: the
    loops, run without a bound, end with the results that the definitions compute. *)
Lemma api_Unmarshal_total (dAtA : bytes) (x : ApiParams) (discard : bool) (post i : Z) k v :
  len dAtA < 2 ^ 63 - 8 -> 0 <= i -> post <= len dAtA ->
  returns (unmarshal_body (ApiParams_cases discard) dAtA) (x, 0)
    (Unmarshal_with (ApiParams_cases discard) dAtA x) /\
  returns (entry_body dAtA post) (k, v, i)
    (default (Err out_of_fuel) (iterate (S (length dAtA)) (entry_body dAtA post) (k, v, i))).
Proof.
  intros Hl Hi Hp. split; [by apply Unmarshal_returns; [apply ApiParams_progress|]|].
  destruct (iterate_returns (entry_body dAtA post) (fun s => Z.to_nat (len dAtA - s.2))
    (fun s => 0 <= s.2) (S (length dAtA)) (k, v, i)) as (r & -> & Hr); [|done|cbn; unfold len; lia|done].
  intros [[k1 v1] i1] [[k2 v2] i2] H1 H. cbn in H1 |- *. unfold entry_body in H. st_unfold in H.
  destruct (Z.ltb_spec i1 post); [|done].
  destruct (varint wrap_u64 dAtA i1) as [[w j]|] eqn:E; [|done]. apply varint_progress in E; [|done].
  destruct (_ =? 1).
  { destruct (read_string dAtA j) as [[s j']|] eqn:Er; simplify_eq.
    apply read_string_progress in Er; lia. }
  destruct (_ =? 2).
  { destruct (read_string dAtA j) as [[s j']|] eqn:Er; simplify_eq.
    apply read_string_progress in Er; lia. }
  destruct (runtime_Skip _) as [n|] eqn:Es; [|done].
  apply Skip_positive in Es; [|unfold len in *; rewrite length_drop; lia].
  pose proof (wrap_i64_add i1 n). repeat case_match; simplify_eq; lia.
Qed.
End Totals.

(** ** An entry that overruns

    The length of a key is checked against the end of the input and not against the end of its
    entry: here the entry has two bytes, its key is read from the three bytes after it, which are
    then read again as a field of the message. *)
Definition overrun_bytes : bytes := map Z_byte [0x12; 2; 0x0a; 3; 0x1a; 1; 0x78].

Lemma entry_overrun :
  Methods_Unmarshal ApiVoteExtensionInfo_Methods false overrun_bytes (Some new_ApiVoteExtensionInfo)
  = Ok (Some (MkApiVoteExtensionInfo (Some {[ bytes_string (map Z_byte [0x1a; 1; 0x78]) := None ]})
                (map Z_byte [0x1a; 1; 0x78]))).
Proof. vm_compute. reflexivity. Qed.

(** ** Witnesses *)

Definition ex_ccoin : CCoin := MkCCoin "stake" "7" [].
Definition ex_unknown : bytes := map Z_byte [0x4a; 1; 7].
Definition ex_api_params : ApiParams :=
  MkApiParams 300 (Some [x01]) (Some ex_ccoin) None true "1" ex_unknown.
Definition ex_api_bid : ApiMsgAuctionBid :=
  MkApiMsgAuctionBid "bidder" (Some ex_ccoin) (Some [Some [x01; x02]; None]) ex_unknown.
Definition ex_coin_value : Value :=
  CMessage (L := ApiList) (P := ApiMap) (CoinMessage (PL := concrete_pulsar) (Some ex_ccoin)).
Definition fee_fd : FieldDescriptor := MkFD "pob.builder.v1.Params.reserve_fee" false.

Lemma reflection_writes_one_field_witness :
  (exists x', Clear fastReflection_Params fee_fd (Some ex_api_params) = (Ret tt, Some x') /\
     Has fastReflection_Params (Some x') fee_fd = Ret false /\
     same_elsewhere fastReflection_Params fee_fd ex_api_params x') /\
  (exists x', Set_ fastReflection_Params fee_fd ex_coin_value (Some new_ApiParams)
     = (Ret tt, Some x') /\ Has fastReflection_Params (Some x') fee_fd = Ret true).
Proof.
  assert (Hfd : has_field fastReflection_Params fee_fd) by (right; right; left; reflexivity).
  assert (Ht : ApiParams_typed ex_api_params) by (unfold ApiParams_typed, in_u32; cbn; lia).
  split.
  - apply (reflection_writes_one_field fastReflection_Params ApiParams_typed ex_api_params ex_api_params
      fee_fd api_Params Ht Hfd).
  - destruct (reflection_writes_one_field fastReflection_Params ApiParams_typed new_ApiParams ex_api_params
      fee_fd api_Params Ht Hfd) as (_ & Hset & _).
    destruct (Hset ex_coin_value eq_refl eq_refl) as (x' & H1 & H2 & _).
    exists x'. split; [exact H1|exact H2].
Defined.

Lemma Range_visits_populated_witness :
  exists l,
    (forall S (f : FieldDescriptor -> Value -> ST S bool) s,
       Range fastReflection_Params (Some ex_api_params) f s = visit l f s) /\
    (forall fd v, In (fd, v) l <->
       IsExtension fd = false /\ Has fastReflection_Params (Some ex_api_params) fd = Ret true /\
       Get fastReflection_Params (Some ex_api_params) fd = Ret v) /\
    NoDup (map (fun p => FullName p.1) l).
Proof. exact (Range_visits_populated fastReflection_Params ApiParams_typed ex_api_params api_Params). Defined.

Lemma reflection_panics_witness :
  (exists w, Has fastReflection_Params (Some ex_api_params) (MkFD "x" true) = Panic w) /\
  Has fastReflection_Params None fee_fd = Panic "nil pointer dereference".
Proof.
  destruct (reflection_panics fastReflection_Params ApiParams_typed api_Params) as (H1 & H2 & _). split.
  - destruct (H1 (MkFD "x" true) (Some ex_api_params) CInvalid) as (w & Hw & _); [|by exists w].
    intros H. cbn in H. repeat destruct H as [H|H]; discriminate || exact H.
  - apply (H2 fee_fd CInvalid). right; right; left; reflexivity.
Defined.

Lemma transactions_appended_witness :
  exists x0 x', Mutable fastReflection_MsgAuctionBid transactions_fd (Some new_ApiMsgAuctionBid)
    = (Ret (ValueOfList (MsgAuctionBid_3_list (MkTransactionsList (Some (ab_Transactions x0))))), Some x0) /\
    append_all [Some [x01]] x0 = (Ret tt, x') /\ ab_Transactions x' = Some [Some [x01]].
Proof.
  destruct (transactions_appended new_ApiMsgAuctionBid [Some [x01]]) as (x0 & x' & H1 & H2 & H3 & _).
  exists x0, x'. split; [exact H1|]. split; [exact H2|exact H3].
Defined.

Lemma ex_ccoin_ok : api_coin_ok (PL := concrete_pulsar) ex_ccoin.
Proof.
  change (CCoin_ok ex_ccoin). split; [done|apply unknown_nil|].
  intros det. vm_compute. reflexivity.
Qed.

Lemma ex_unknown_ok known : ~ In 9 known -> unknown_ok known ex_unknown.
Proof.
  intros H. apply (unknown_field_ok known 0x4a (map Z_byte [1; 7]) []).
  - unfold in_u64. lia.
  - vm_compute. reflexivity.
  - exact H.
  - vm_compute. discriminate.
  - vm_compute. reflexivity.
  - apply unknown_nil.
Qed.

Lemma ex_api_bid_ok : ApiMsgAuctionBid_ok ex_api_bid.
Proof.
  split.
  - intros c [= <-]. apply ex_ccoin_ok.
  - apply ex_unknown_ok. cbn. lia.
  - intros []; vm_compute; reflexivity.
Qed.

Lemma api_Marshal_roundtrip_witness :
  exists bz, Methods_Marshal ApiMsgAuctionBid_Methods true (Some [x0a]) (Some ex_api_bid)
      = Ret (Ok (Some (content (Some [x0a]) ++ bz))) /\
    len bz = Methods_Size ApiMsgAuctionBid_Methods true (Some ex_api_bid) /\
    Methods_Unmarshal ApiMsgAuctionBid_Methods false bz (Some new_ApiMsgAuctionBid)
    = Ok (Some (MkApiMsgAuctionBid "bidder" (Some ex_ccoin) (Some [Some [x01; x02]; Some []]) ex_unknown)).
Proof.
  exact (api_Marshal_roundtrip ApiMsgAuctionBid_Methods new_ApiMsgAuctionBid ApiMsgAuctionBid_ok _ ex_api_bid
    true false (Some [x0a]) wire_MsgAuctionBid ex_api_bid_ok).
Defined.

Definition ex_registry : gmap string GoBytes := {[ "b" := Some [x01]; "a" := None ]}.
Definition ex_vote : ApiVoteExtensionInfo := MkApiVoteExtensionInfo (Some ex_registry) ex_unknown.

Lemma registry_deterministic_witness :
  exists keys,
    StronglySorted string_le keys /\ NoDup keys /\ (forall k, k ∈ keys <-> is_Some (ex_registry !! k)) /\
    Methods_Marshal ApiVoteExtensionInfo_Methods true None (Some ex_vote)
      = Ret (Ok (Some (content None ++ registry_bytes ex_registry keys ++ ex_unknown))) /\
    forall keys', StronglySorted string_le keys' -> NoDup keys' ->
      (forall k, k ∈ keys' <-> is_Some (ex_registry !! k)) -> keys' = keys.
Proof.
  apply (registry_deterministic ex_vote ex_registry None); [reflexivity|]. split; [exact I| |].
  - apply ex_unknown_ok. cbn. lia.
  - intros []; vm_compute; reflexivity.
Defined.

(** A runtime whose coin is the SDK's: the encodings of the two packages then agree. *)
Definition sdk_coin_methods : Methods Coin :=
  MkMethods (fun _ c => from_option (fun c => len (coin_bytes c)) 0 c)
    (fun _ buf c => Ret (Ok (option_map (fun c => content buf ++ coin_bytes c) c)))
    (fun _ b c => r ← Coin_Unmarshal b (default Coin_zero_value c); Ok (Some r)).
Definition sdk_coin_ok (c : Coin) : Prop := coin_ok c /\ len (coin_bytes c) < 2 ^ 62.

Lemma sdk_coin_codec :
  message_codec sdk_coin_methods Coin_zero_value sdk_coin_ok (fun _ => coin_bytes) (fun _ c => c).
Proof.
  split; try done.
  - intros det discard c [(a & Ha & Hb) _].
    cbn [sdk_coin_methods Methods_Unmarshal default]. unfold default, id. st_unfold.
    by rewrite (coin_unmarshal c a Ha Hb).
  - by intros det c [_ H].
Qed.

Definition sdk_pulsar : PulsarLib := runtime_of Coin Coin_zero_value sdk_coin_methods.
Definition sdk_pulsar_laws : PulsarLaws sdk_pulsar :=
  runtime_laws Coin Coin_zero_value sdk_coin_methods sdk_coin_ok coin_bytes (fun _ c => c) sdk_coin_codec.

Definition ex_sdk_bid : ApiMsgAuctionBid (PL := sdk_pulsar) :=
  MkApiMsgAuctionBid (PL := sdk_pulsar) (msg_Bidder ex_msg) (Some (msg_Bid ex_msg))
    (Some (map Some (msg_Transactions ex_msg))) [].
Definition ex_sdk_params : ApiParams (PL := sdk_pulsar) :=
  MkApiParams (PL := sdk_pulsar) 300 (Some (ex_addr 9)) (Some (ReserveFee ex_params))
    (Some (MinBidIncrement ex_params)) true (bytes_string (dec_bytes (ProposerFee ex_params))) [].

Lemma ex_sdk_coin_ok a : Z.abs a < 2 ^ 256 -> len (coin_bytes (MkCoin "stake" (Some a))) < 2 ^ 62 ->
  sdk_coin_ok (MkCoin "stake" (Some a)).
Proof. intros Ha Hl. split; [by apply ex_coin_ok|done]. Qed.

Lemma ex_same_params : same_params (PL := sdk_pulsar) (LW := sdk_pulsar_laws) ex_sdk_params ex_params.
Proof.
  split; try reflexivity.
  - exists (ReserveFee ex_params). split; reflexivity.
  - exists (MinBidIncrement ex_params). split; reflexivity.
  - discriminate.
Qed.

Lemma ex_sdk_params_ok : ApiParams_ok (PL := sdk_pulsar) (LW := sdk_pulsar_laws) ex_sdk_params.
Proof.
  split; [|apply unknown_nil|intros det; vm_compute; reflexivity].
  split; [unfold in_u32; cbn; lia|]. split; intros c [= <-]; by apply ex_sdk_coin_ok.
Qed.

Definition ex_sdk_update : ApiMsgUpdateParams (PL := sdk_pulsar) :=
  MkApiMsgUpdateParams (PL := sdk_pulsar) (Authority ex_update) (Some ex_sdk_params) [].

Lemma ex_same_update : same_update (PL := sdk_pulsar) (LW := sdk_pulsar_laws) ex_sdk_update ex_update.
Proof. split; [done| |done]. exists ex_sdk_params. split; [done|apply ex_same_params]. Qed.

Lemma ex_sdk_update_ok : ApiMsgUpdateParams_ok (PL := sdk_pulsar) (LW := sdk_pulsar_laws) ex_sdk_update.
Proof.
  split; [|apply unknown_nil|intros det; vm_compute; reflexivity]. intros c [= <-]. apply ex_sdk_params_ok.
Qed.

Lemma ex_sdk_response_ok : ApiQueryParamsResponse_ok (PL := sdk_pulsar) (LW := sdk_pulsar_laws) (api_response ex_sdk_params).
Proof.
  split; [|apply unknown_nil|intros det; vm_compute; reflexivity]. intros c [= <-]. apply ex_sdk_params_ok.
Qed.

Lemma api_encoding_is_chain_encoding_witness :
  (exists bz, Methods_Marshal (ApiMsgAuctionBid_Methods (PL := sdk_pulsar)) true None (Some ex_sdk_bid)
      = Ret (Ok (Some bz)) /\
     MsgAuctionBid_Marshal ex_msg = Ret (Ok bz) /\ MsgAuctionBid_Unmarshal bz MsgAuctionBid_zero = Ok ex_msg) /\
  (exists bz, Methods_Marshal (ApiParams_Methods (PL := sdk_pulsar)) true None (Some ex_sdk_params)
      = Ret (Ok (Some bz)) /\
     Params_Marshal ex_params = Ret (Ok bz) /\ Params_Unmarshal bz Params_zero = Ok ex_params) /\
  (exists bz, Methods_Marshal (ApiMsgUpdateParams_Methods (PL := sdk_pulsar)) true None (Some ex_sdk_update)
      = Ret (Ok (Some bz)) /\
     MsgUpdateParams_Marshal ex_update = Ret (Ok bz) /\ MsgUpdateParams_Unmarshal bz MsgUpdateParams_zero = Ok ex_update) /\
  (exists bz, Methods_Marshal (ApiQueryParamsResponse_Methods (PL := sdk_pulsar)) true None (Some (api_response ex_sdk_params))
      = Ret (Ok (Some bz)) /\
     QueryParamsResponse_Marshal ex_params = Ret (Ok bz) /\ QueryParamsResponse_Unmarshal bz Params_zero = Ok ex_params).
Proof.
  apply (api_encoding_is_chain_encoding (PL := sdk_pulsar) (LW := sdk_pulsar_laws)
    ex_sdk_bid ex_msg ex_sdk_params ex_params ex_sdk_update ex_update true).
  - split; try reflexivity. exists (msg_Bid ex_msg). split; reflexivity.
  - split; [|apply unknown_nil|intros det; vm_compute; reflexivity].
    intros c [= <-]. by apply ex_sdk_coin_ok.
  - split; [by apply ex_coin_ok|vm_compute; reflexivity].
  - apply ex_same_params.
  - apply ex_sdk_params_ok.
  - apply ex_sdk_response_ok.
  - apply ex_params_ok.
  - apply ex_same_update.
  - apply ex_sdk_update_ok.
  - apply ex_params_ok.
  - vm_compute. reflexivity.
Defined.
