(* ===== verification/Descriptor.v ===== *)
(** * The contents of a protobuf file descriptor

    What the raw descriptors of the generated files mean: the fields of google/protobuf/descriptor.proto
    that the generated Go code depends on, read from their bytes.  Only statements use this file:
    the code hands the bytes to the protobuf runtime. *)
From S2P Require Import Prelude Hash.
#[local] Open Scope Z_scope.

(** ** The wire format *)

Inductive wire_value : Type := Varint (z : Z) | Delimited (b : bytes).
#[export] Instance wire_value_eq_dec : EqDecision wire_value.
Proof. solve_decision. Defined.

Fixpoint take_varint (l : bytes) : option (Z * bytes) :=
  match l with
  | [] => None
  | b :: l =>
      let b := byte_Z b in
      if b <? 128 then Some (b, l)
      else '(z, l) ← take_varint l; Some (b - 128 + 128 * z, l)
  end.

(** The fields of a message, in order; one step per byte is enough.  Fixed-width fields and groups do
    not occur in descriptors. *)
Fixpoint wire_fields (fuel : nat) (l : bytes) : option (list (Z * wire_value)) :=
  match fuel, l with
  | _, [] => Some []
  | O, _ => None
  | S fuel, _ =>
      '(key, l) ← take_varint l;
      '(v, l) ← (if key mod 8 =? 0 then '(z, l) ← take_varint l; Some (Varint z, l)
                 else if key mod 8 =? 2 then
                   '(n, l) ← take_varint l;
                   if len l <? n then None
                   else Some (Delimited (take (Z.to_nat n) l), drop (Z.to_nat n) l)
                 else None);
      rest ← wire_fields fuel l;
      Some ((key / 8, v) :: rest)
  end.
Definition fields_of (l : bytes) : list (Z * wire_value) := default [] (wire_fields (length l) l).

Definition all_delimited (n : Z) (l : list (Z * wire_value)) : list bytes :=
  omap (fun f => match f with (k, Delimited b) => if k =? n then Some b else None | _ => None end) l.
Definition last_string (n : Z) (l : list (Z * wire_value)) : string :=
  fold_left (fun _ b => bytes_string b) (all_delimited n l) ""%string.
Definition last_varint (n : Z) (l : list (Z * wire_value)) : Z :=
  fold_left (fun d f => match f with (k, Varint z) => if k =? n then z else d | _ => d end) l 0.

(** ** descriptor.proto *)

(** FieldDescriptorProto: [label] 3 is repeated; the types are the constants of the enum [Type]. *)
Record FieldProto : Type := MkFieldProto {
  f_name : string;
  f_number : Z;
  f_label : Z;
  f_type : Z;
  f_type_name : string
}.
Definition LABEL_REPEATED : Z := 3.
Definition TYPE_INT64 : Z := 3.
Definition TYPE_UINT64 : Z := 4.
Definition TYPE_BOOL : Z := 8.
Definition TYPE_STRING : Z := 9.
Definition TYPE_MESSAGE : Z := 11.
Definition TYPE_BYTES : Z := 12.
Definition TYPE_UINT32 : Z := 13.

Inductive MessageProto : Type := MkMessageProto {
  m_name : string;
  m_fields : list FieldProto;
  m_nested : list MessageProto;
  m_options : list (Z * wire_value)
}.

Record MethodProto : Type := MkMethodProto {
  me_name : string;
  me_input : string;
  me_output : string;
  me_options : list (Z * wire_value)
}.
Record ServiceProto : Type := MkServiceProto { s_name : string; s_methods : list MethodProto }.

Record FileProto : Type := MkFileProto {
  fp_name : string;
  fp_package : string;
  fp_dependencies : list string;
  fp_messages : list MessageProto;
  fp_enums : nat;
  fp_services : list ServiceProto;
  fp_extensions : nat;
  fp_syntax : string
}.

Definition read_field (b : bytes) : FieldProto :=
  let l := fields_of b in
  MkFieldProto (last_string 1 l) (last_varint 3 l) (last_varint 4 l) (last_varint 5 l) (last_string 6 l).

Fixpoint read_message (depth : nat) (b : bytes) : MessageProto :=
  let l := fields_of b in
  MkMessageProto (last_string 1 l) (map read_field (all_delimited 2 l))
    (match depth with O => [] | S depth => map (read_message depth) (all_delimited 3 l) end)
    (concat (map fields_of (all_delimited 7 l))).

Definition read_method (b : bytes) : MethodProto :=
  let l := fields_of b in
  MkMethodProto (last_string 1 l) (last_string 2 l) (last_string 3 l)
    (concat (map fields_of (all_delimited 4 l))).
Definition read_service (b : bytes) : ServiceProto :=
  let l := fields_of b in MkServiceProto (last_string 1 l) (map read_method (all_delimited 2 l)).

(** Messages are nested at most once per byte. *)
Definition read_file (b : bytes) : FileProto :=
  let l := fields_of b in
  MkFileProto (last_string 1 l) (last_string 2 l) (map bytes_string (all_delimited 3 l))
    (map (read_message (length b)) (all_delimited 4 l)) (length (all_delimited 5 l))
    (map read_service (all_delimited 6 l)) (length (all_delimited 7 l)) (last_string 12 l).

(** ** Names *)

Definition qualify (scope name : string) : string := scope +:+ "." +:+ name.

(** The messages of a file with their full names, the nested ones after the ones around them. *)
Fixpoint flatten (depth : nat) (scope : string) (l : list MessageProto) : list (string * MessageProto) :=
  map (fun m => (qualify scope (m_name m), m)) l ++
  match depth with
  | O => []
  | S depth => concat (map (fun m => flatten depth (qualify scope (m_name m)) (m_nested m)) l)
  end.
Definition all_messages (fp : FileProto) : list (string * MessageProto) := flatten 8 (fp_package fp) (fp_messages fp).

(** The type names that the fields and the methods of a file refer to, in order. *)
Definition type_name_of (f : FieldProto) : option string :=
  if f_type f =? TYPE_MESSAGE then Some (f_type_name f) else None.
Definition field_types (fp : FileProto) : list string :=
  concat (map (fun m => omap type_name_of (m_fields m.2)) (all_messages fp)).
Definition input_types (fp : FileProto) : list string :=
  concat (map (fun s => map me_input (s_methods s)) (fp_services fp)).
Definition output_types (fp : FileProto) : list string :=
  concat (map (fun s => map me_output (s_methods s)) (fp_services fp)).

(** The wire type of a field that is not packed. *)
Definition wire_type (f : FieldProto) : Z :=
  if bool_decide (f_type f ∈ [TYPE_STRING; TYPE_BYTES; TYPE_MESSAGE]) then 2 else 0.
