(* ===== verification/PulsarDescriptors.v ===== *)
(** * api/pob: descriptors and message types of the generated files

    Each generated file holds the bytes of its descriptor, the Go types and the dependency indexes
    that go with it, and the initialization that hands them to the protobuf runtime and keeps the
    descriptors of the messages and fields in package variables; each message the methods that tie
    it to its type.  The protobuf runtime is the class [ProtoImpl]; the path of the Go package that
    Build is also given is left out. *)
From S2P Require Import Prelude Hash Wire Pulsar PulsarMessages.
From stdpp Require Import functions.
#[local] Open Scope Z_scope.

(** ** The protobuf runtime *)

(** An element [( *T)(nil)] of a list of Go types, by the full name of the message that T
    implements; the nil that stands for a map entry is [None]. *)
Abbreviation GoType := (option string).
Definition go_type {M L P} {PV : ProtoValue M L P} {T} (R : FastReflection T) : GoType := Some (full_name R).
Definition Coin_type : GoType := Some "cosmos.base.v1beta1.Coin"%string.

(** The fields a message has besides those of the protobuf message. *)
Inductive InternalField : Type := StateField | SizeCacheField | UnknownFieldsField.

(** The Exporter of every message: the address of an internal field. *)
Definition exporter (i : Z) : option InternalField :=
  if i =? 0 then Some StateField
  else if i =? 1 then Some SizeCacheField
  else if i =? 2 then Some UnknownFieldsField
  else None.

(** [protoimpl.MessageInfo]: what the code sets of it. *)
Record MessageInfo : Type := MkMessageInfo { Exporter : option (Z -> option InternalField) }.

Record TypeBuilder : Type := MkTypeBuilder {
  RawDescriptor : GoBytes;
  NumEnums : Z;
  NumMessages : Z;
  NumExtensions : Z;
  NumServices : Z;
  GoTypes : option (list GoType);
  DependencyIndexes : option (list Z);
  MessageInfos : list MessageInfo
}.

Class ProtoImpl : Type := {
  RtFile : Type;
  RtMessage : Type;
  UnsafeEnabled : bool;
  (** [TypeBuilder.Build], the file of what it returns; it panics on inconsistent tables. *)
  Build : TypeBuilder -> outcome RtFile;
  (** [Messages().ByName] and [Fields().ByName]: nil for an unknown name. *)
  Messages_ByName : RtFile -> string -> option RtMessage;
  Fields_ByName : RtMessage -> string -> option FieldDescriptor;
  CompressGZIP : bytes -> bytes
}.

(** ** Initialization *)

(** What a generated file declares. *)
Record ProtoFile : Type := MkProtoFile {
  pf_path : string;
  pf_rawDesc : bytes;
  pf_goTypes : list GoType;
  pf_depIdxs : list Z;
  (** The length of msgTypes, and how many of them, the first ones, get an Exporter. *)
  pf_msgTypes : nat;
  pf_exporters : nat;
  pf_NumEnums : Z;
  pf_NumMessages : Z;
  pf_NumExtensions : Z;
  pf_NumServices : Z
}.

Section Init.
Context {PI : ProtoImpl}.

(** The package variables [File_...], [..._rawDesc], [..._goTypes], [..._depIdxs] and
    [..._msgTypes] of a file; initialization sets the three in the middle to nil. *)
Record FileVars : Type := MkFileVars {
  fv_File : option RtFile;
  fv_rawDesc : GoBytes;
  fv_goTypes : option (list GoType);
  fv_depIdxs : option (list Z);
  fv_msgTypes : list MessageInfo
}.

(** The variables of all the files, by path. *)
Definition Vars : Type := string -> FileVars.

Definition declared (pf : ProtoFile) : FileVars :=
  {| fv_File := None; fv_rawDesc := Some (pf_rawDesc pf); fv_goTypes := Some (pf_goTypes pf);
     fv_depIdxs := Some (pf_depIdxs pf); fv_msgTypes := replicate (pf_msgTypes pf) (MkMessageInfo None) |}.

Definition set_exporters (n : nat) (infos : list MessageInfo) : outcome (list MessageInfo) :=
  if (n <=? length infos)%nat then Ret (replicate n (MkMessageInfo (Some exporter)) ++ drop n infos)
  else Panic "index out of range".

(** [file_..._init]: [imports] are the calls of the init functions of the files it depends on. *)
Definition file_init (pf : ProtoFile) (imports : ST Vars unit) : ST Vars unit :=
  vars ← st_get;
  match fv_File (vars (pf_path pf)) with
  | Some _ => mret tt
  | None =>
      _ ← imports;
      vars ← st_get;
      let v : FileVars := vars (pf_path pf) in
      infos ← st_lift (if UnsafeEnabled then Ret (fv_msgTypes v)
                       else set_exporters (pf_exporters pf) (fv_msgTypes v));
      out ← st_lift (Build {| RawDescriptor := fv_rawDesc v;
                              NumEnums := pf_NumEnums pf; NumMessages := pf_NumMessages pf;
                              NumExtensions := pf_NumExtensions pf; NumServices := pf_NumServices pf;
                              GoTypes := fv_goTypes v; DependencyIndexes := fv_depIdxs v;
                              MessageInfos := infos |});
      st_put (<[pf_path pf := {| fv_File := Some out; fv_rawDesc := None; fv_goTypes := None;
                                 fv_depIdxs := None; fv_msgTypes := infos |}]> vars)
  end.

(** The variables [md_M] and [fd_M_...] of a message, as its init function sets them. *)
Record MessageVars : Type := MkMessageVars {
  mv_md : option RtMessage;
  mv_fds : list (option FieldDescriptor)
}.

Definition message_init (pf : ProtoFile) (init : ST Vars unit) (name : string) (fields : list string)
    : ST Vars MessageVars :=
  _ ← init;
  vars ← st_get;
  match fv_File (vars (pf_path pf)) with
  | None => st_panic "nil pointer dereference"
  | Some file =>
      let md := Messages_ByName file name in
      fds ← st_lift (mapM (fun f => match md with
                                    | Some md => Ret (Fields_ByName md f)
                                    | None => Panic "nil pointer dereference"
                                    end) fields);
      mret (MkMessageVars md fds)
  end.

(** [file_..._rawDescGZIP], with its sync.Once; the data is the raw descriptor at first. *)
Record GzipVars : Type := MkGzipVars { rawDescOnce : bool; rawDescData : bytes }.
Definition rawDescGZIP : ST GzipVars bytes :=
  g ← st_get;
  if rawDescOnce g then mret (rawDescData g)
  else
    let data := CompressGZIP (rawDescData g) in
    _ ← st_put (MkGzipVars true data);
    mret data.

(** ** Message types *)

Context {M L P : Type} {PV : ProtoValue M L P}.

(** The type of a message: its reflection and its element of msgTypes. *)
Record MessageType (T : Type) : Type := MkMessageType {
  mt_file : ProtoFile;
  mt_index : nat;
  mt_fast : FastReflection T
}.

Section Methods.
Context {T : Type} (mt : MessageType T).

(** The conversions between [*T] and [*fastReflection_T]. *)
Definition ProtoReflect (x : option T) : option T := x.
Definition Interface (x : option T) : option T := x.

Definition messageType_Zero : option T := None.
Definition messageType_New : option T := Some (new_message (mt_fast T mt)).
Definition messageType_Descriptor (v : MessageVars) : option RtMessage := mv_md v.
Definition Descriptor (v : MessageVars) (x : option T) : option RtMessage := mv_md v.
Definition Type_ (x : option T) : MessageType T := mt.

(** A message with the message info its field [state] points to. *)
Record Boxed : Type := MkBoxed { b_msg : T; b_info : option nat }.

(** What slowProtoReflect returns: the message state, or [mi.MessageOf(x)]. *)
Inductive Reflected : Type := StateOf | MessageOf (mi : nat).

Definition slowProtoReflect : ST (option Boxed) Reflected :=
  x ← st_get;
  match x with
  | Some b =>
      if UnsafeEnabled then
        _ ← match b_info b with
            | None => st_put (Some (MkBoxed (b_msg b) (Some (mt_index T mt))))
            | Some _ => mret tt
            end;
        mret StateOf
      else mret (MessageOf (mt_index T mt))
  | None => mret (MessageOf (mt_index T mt))
  end.

Definition Reset : ST (option Boxed) unit :=
  x ← st_get;
  match x with
  | None => st_panic "nil pointer dereference"
  | Some _ =>
      st_put (Some (MkBoxed (new_message (mt_fast T mt)) (if UnsafeEnabled then Some (mt_index T mt) else None)))
  end.

(** The deprecated method Descriptor: the compressed file and the path to the message. *)
Definition Descriptor_path : ST GzipVars (bytes * list Z) :=
  gz ← rawDescGZIP; mret (gz, [Z.of_nat (mt_index T mt)]).
End Methods.
End Init.
Arguments MkMessageType {M L P PV T} _ _ _.
Arguments mt_file {M L P PV T} _.
Arguments mt_index {M L P PV T} _.
Arguments mt_fast {M L P PV T} _.

Section Files.
Context {PL : PulsarLib} {PV : ProtoValue ApiMessage ApiList ApiMap} {PI : ProtoImpl}.

(** ** builder/v1/genesis.pulsar.go *)

Definition file_pob_builder_v1_genesis_proto_rawDesc : bytes := [
  x0a; x1c; x70; x6f; x62; x2f; x62; x75; x69; x6c; x64; x65; x72; x2f; x76; x31;
  x2f; x67; x65; x6e; x65; x73; x69; x73; x2e; x70; x72; x6f; x74; x6f; x12; x0e;
  x70; x6f; x62; x2e; x62; x75; x69; x6c; x64; x65; x72; x2e; x76; x31; x1a; x14;
  x67; x6f; x67; x6f; x70; x72; x6f; x74; x6f; x2f; x67; x6f; x67; x6f; x2e; x70;
  x72; x6f; x74; x6f; x1a; x1e; x63; x6f; x73; x6d; x6f; x73; x2f; x62; x61; x73;
  x65; x2f; x76; x31; x62; x65; x74; x61; x31; x2f; x63; x6f; x69; x6e; x2e; x70;
  x72; x6f; x74; x6f; x1a; x11; x61; x6d; x69; x6e; x6f; x2f; x61; x6d; x69; x6e;
  x6f; x2e; x70; x72; x6f; x74; x6f; x22; x44; x0a; x0c; x47; x65; x6e; x65; x73;
  x69; x73; x53; x74; x61; x74; x65; x12; x34; x0a; x06; x70; x61; x72; x61; x6d;
  x73; x18; x01; x20; x01; x28; x0b; x32; x16; x2e; x70; x6f; x62; x2e; x62; x75;
  x69; x6c; x64; x65; x72; x2e; x76; x31; x2e; x50; x61; x72; x61; x6d; x73; x42;
  x04; xc8; xde; x1f; x00; x52; x06; x70; x61; x72; x61; x6d; x73; x22; xae; x03;
  x0a; x06; x50; x61; x72; x61; x6d; x73; x12; x26; x0a; x0f; x6d; x61; x78; x5f;
  x62; x75; x6e; x64; x6c; x65; x5f; x73; x69; x7a; x65; x18; x01; x20; x01; x28;
  x0d; x52; x0d; x6d; x61; x78; x42; x75; x6e; x64; x6c; x65; x53; x69; x7a; x65;
  x12; x34; x0a; x16; x65; x73; x63; x72; x6f; x77; x5f; x61; x63; x63; x6f; x75;
  x6e; x74; x5f; x61; x64; x64; x72; x65; x73; x73; x18; x02; x20; x01; x28; x0c;
  x52; x14; x65; x73; x63; x72; x6f; x77; x41; x63; x63; x6f; x75; x6e; x74; x41;
  x64; x64; x72; x65; x73; x73; x12; x45; x0a; x0b; x72; x65; x73; x65; x72; x76;
  x65; x5f; x66; x65; x65; x18; x03; x20; x01; x28; x0b; x32; x19; x2e; x63; x6f;
  x73; x6d; x6f; x73; x2e; x62; x61; x73; x65; x2e; x76; x31; x62; x65; x74; x61;
  x31; x2e; x43; x6f; x69; x6e; x42; x09; xc8; xde; x1f; x00; xa8; xe7; xb0; x2a;
  x01; x52; x0a; x72; x65; x73; x65; x72; x76; x65; x46; x65; x65; x12; x50; x0a;
  x11; x6d; x69; x6e; x5f; x62; x69; x64; x5f; x69; x6e; x63; x72; x65; x6d; x65;
  x6e; x74; x18; x04; x20; x01; x28; x0b; x32; x19; x2e; x63; x6f; x73; x6d; x6f;
  x73; x2e; x62; x61; x73; x65; x2e; x76; x31; x62; x65; x74; x61; x31; x2e; x43;
  x6f; x69; x6e; x42; x09; xc8; xde; x1f; x00; xa8; xe7; xb0; x2a; x01; x52; x0f;
  x6d; x69; x6e; x42; x69; x64; x49; x6e; x63; x72; x65; x6d; x65; x6e; x74; x12;
  x38; x0a; x18; x66; x72; x6f; x6e; x74; x5f; x72; x75; x6e; x6e; x69; x6e; x67;
  x5f; x70; x72; x6f; x74; x65; x63; x74; x69; x6f; x6e; x18; x05; x20; x01; x28;
  x08; x52; x16; x66; x72; x6f; x6e; x74; x52; x75; x6e; x6e; x69; x6e; x67; x50;
  x72; x6f; x74; x65; x63; x74; x69; x6f; x6e; x12; x51; x0a; x0c; x70; x72; x6f;
  x70; x6f; x73; x65; x72; x5f; x66; x65; x65; x18; x06; x20; x01; x28; x09; x42;
  x2e; xc8; xde; x1f; x00; xda; xde; x1f; x26; x67; x69; x74; x68; x75; x62; x2e;
  x63; x6f; x6d; x2f; x63; x6f; x73; x6d; x6f; x73; x2f; x63; x6f; x73; x6d; x6f;
  x73; x2d; x73; x64; x6b; x2f; x74; x79; x70; x65; x73; x2e; x44; x65; x63; x52;
  x0b; x70; x72; x6f; x70; x6f; x73; x65; x72; x46; x65; x65; x3a; x20; x8a; xe7;
  xb0; x2a; x1b; x63; x6f; x73; x6d; x6f; x73; x2d; x73; x64; x6b; x2f; x78; x2f;
  x62; x75; x69; x6c; x64; x65; x72; x2f; x50; x61; x72; x61; x6d; x73; x42; xa7;
  x01; x0a; x12; x63; x6f; x6d; x2e; x70; x6f; x62; x2e; x62; x75; x69; x6c; x64;
  x65; x72; x2e; x76; x31; x42; x0c; x47; x65; x6e; x65; x73; x69; x73; x50; x72;
  x6f; x74; x6f; x50; x01; x5a; x29; x63; x6f; x73; x6d; x6f; x73; x73; x64; x6b;
  x2e; x69; x6f; x2f; x61; x70; x69; x2f; x70; x6f; x62; x2f; x62; x75; x69; x6c;
  x64; x65; x72; x2f; x76; x31; x3b; x62; x75; x69; x6c; x64; x65; x72; x76; x31;
  xa2; x02; x03; x50; x42; x58; xaa; x02; x0e; x50; x6f; x62; x2e; x42; x75; x69;
  x6c; x64; x65; x72; x2e; x56; x31; xca; x02; x0e; x50; x6f; x62; x5c; x42; x75;
  x69; x6c; x64; x65; x72; x5c; x56; x31; xe2; x02; x1a; x50; x6f; x62; x5c; x42;
  x75; x69; x6c; x64; x65; x72; x5c; x56; x31; x5c; x47; x50; x42; x4d; x65; x74;
  x61; x64; x61; x74; x61; xea; x02; x10; x50; x6f; x62; x3a; x3a; x42; x75; x69;
  x6c; x64; x65; x72; x3a; x3a; x56; x31; x62; x06; x70; x72; x6f; x74; x6f; x33 ].

Definition file_pob_builder_v1_genesis_proto_goTypes : list GoType := [
  go_type fastReflection_GenesisState;
  go_type fastReflection_Params;
  Coin_type ].

Definition file_pob_builder_v1_genesis_proto_depIdxs : list Z := [1; 2; 2; 3; 3; 3; 3; 0].

Definition file_pob_builder_v1_genesis_proto : ProtoFile :=
  {| pf_path := "pob/builder/v1/genesis.proto";
     pf_rawDesc := file_pob_builder_v1_genesis_proto_rawDesc;
     pf_goTypes := file_pob_builder_v1_genesis_proto_goTypes;
     pf_depIdxs := file_pob_builder_v1_genesis_proto_depIdxs;
     pf_msgTypes := 2; pf_exporters := 2;
     pf_NumEnums := 0; pf_NumMessages := 2; pf_NumExtensions := 0; pf_NumServices := 0 |}.

Definition file_pob_builder_v1_genesis_proto_init : ST Vars unit :=
  file_init file_pob_builder_v1_genesis_proto (mret tt).

Definition GenesisState_init : ST Vars MessageVars :=
  message_init file_pob_builder_v1_genesis_proto file_pob_builder_v1_genesis_proto_init "GenesisState" ["params"].
Definition GenesisState_messageType : MessageType _ :=
  MkMessageType file_pob_builder_v1_genesis_proto 0 fastReflection_GenesisState.

Definition Params_init : ST Vars MessageVars :=
  message_init file_pob_builder_v1_genesis_proto file_pob_builder_v1_genesis_proto_init "Params" ["max_bundle_size"; "escrow_account_address"; "reserve_fee"; "min_bid_increment"; "front_running_protection"; "proposer_fee"].
Definition Params_messageType : MessageType _ :=
  MkMessageType file_pob_builder_v1_genesis_proto 1 fastReflection_Params.

(** ** builder/v1/query.pulsar.go *)

Definition file_pob_builder_v1_query_proto_rawDesc : bytes := [
  x0a; x1a; x70; x6f; x62; x2f; x62; x75; x69; x6c; x64; x65; x72; x2f; x76; x31;
  x2f; x71; x75; x65; x72; x79; x2e; x70; x72; x6f; x74; x6f; x12; x0e; x70; x6f;
  x62; x2e; x62; x75; x69; x6c; x64; x65; x72; x2e; x76; x31; x1a; x14; x67; x6f;
  x67; x6f; x70; x72; x6f; x74; x6f; x2f; x67; x6f; x67; x6f; x2e; x70; x72; x6f;
  x74; x6f; x1a; x1c; x67; x6f; x6f; x67; x6c; x65; x2f; x61; x70; x69; x2f; x61;
  x6e; x6e; x6f; x74; x61; x74; x69; x6f; x6e; x73; x2e; x70; x72; x6f; x74; x6f;
  x1a; x1b; x63; x6f; x73; x6d; x6f; x73; x2f; x71; x75; x65; x72; x79; x2f; x76;
  x31; x2f; x71; x75; x65; x72; x79; x2e; x70; x72; x6f; x74; x6f; x1a; x1c; x70;
  x6f; x62; x2f; x62; x75; x69; x6c; x64; x65; x72; x2f; x76; x31; x2f; x67; x65;
  x6e; x65; x73; x69; x73; x2e; x70; x72; x6f; x74; x6f; x22; x14; x0a; x12; x51;
  x75; x65; x72; x79; x50; x61; x72; x61; x6d; x73; x52; x65; x71; x75; x65; x73;
  x74; x22; x4b; x0a; x13; x51; x75; x65; x72; x79; x50; x61; x72; x61; x6d; x73;
  x52; x65; x73; x70; x6f; x6e; x73; x65; x12; x34; x0a; x06; x70; x61; x72; x61;
  x6d; x73; x18; x01; x20; x01; x28; x0b; x32; x16; x2e; x70; x6f; x62; x2e; x62;
  x75; x69; x6c; x64; x65; x72; x2e; x76; x31; x2e; x50; x61; x72; x61; x6d; x73;
  x42; x04; xc8; xde; x1f; x00; x52; x06; x70; x61; x72; x61; x6d; x73; x32; x7f;
  x0a; x05; x51; x75; x65; x72; x79; x12; x76; x0a; x06; x50; x61; x72; x61; x6d;
  x73; x12; x22; x2e; x70; x6f; x62; x2e; x62; x75; x69; x6c; x64; x65; x72; x2e;
  x76; x31; x2e; x51; x75; x65; x72; x79; x50; x61; x72; x61; x6d; x73; x52; x65;
  x71; x75; x65; x73; x74; x1a; x23; x2e; x70; x6f; x62; x2e; x62; x75; x69; x6c;
  x64; x65; x72; x2e; x76; x31; x2e; x51; x75; x65; x72; x79; x50; x61; x72; x61;
  x6d; x73; x52; x65; x73; x70; x6f; x6e; x73; x65; x22; x23; x88; xe7; xb0; x2a;
  x01; x82; xd3; xe4; x93; x02; x18; x12; x16; x2f; x70; x6f; x62; x2f; x62; x75;
  x69; x6c; x64; x65; x72; x2f; x76; x31; x2f; x70; x61; x72; x61; x6d; x73; x42;
  xa5; x01; x0a; x12; x63; x6f; x6d; x2e; x70; x6f; x62; x2e; x62; x75; x69; x6c;
  x64; x65; x72; x2e; x76; x31; x42; x0a; x51; x75; x65; x72; x79; x50; x72; x6f;
  x74; x6f; x50; x01; x5a; x29; x63; x6f; x73; x6d; x6f; x73; x73; x64; x6b; x2e;
  x69; x6f; x2f; x61; x70; x69; x2f; x70; x6f; x62; x2f; x62; x75; x69; x6c; x64;
  x65; x72; x2f; x76; x31; x3b; x62; x75; x69; x6c; x64; x65; x72; x76; x31; xa2;
  x02; x03; x50; x42; x58; xaa; x02; x0e; x50; x6f; x62; x2e; x42; x75; x69; x6c;
  x64; x65; x72; x2e; x56; x31; xca; x02; x0e; x50; x6f; x62; x5c; x42; x75; x69;
  x6c; x64; x65; x72; x5c; x56; x31; xe2; x02; x1a; x50; x6f; x62; x5c; x42; x75;
  x69; x6c; x64; x65; x72; x5c; x56; x31; x5c; x47; x50; x42; x4d; x65; x74; x61;
  x64; x61; x74; x61; xea; x02; x10; x50; x6f; x62; x3a; x3a; x42; x75; x69; x6c;
  x64; x65; x72; x3a; x3a; x56; x31; x62; x06; x70; x72; x6f; x74; x6f; x33 ].

Definition file_pob_builder_v1_query_proto_goTypes : list GoType := [
  go_type fastReflection_QueryParamsRequest;
  go_type fastReflection_QueryParamsResponse;
  go_type fastReflection_Params ].

Definition file_pob_builder_v1_query_proto_depIdxs : list Z := [2; 0; 1; 2; 1; 1; 1; 0].

Definition file_pob_builder_v1_query_proto : ProtoFile :=
  {| pf_path := "pob/builder/v1/query.proto";
     pf_rawDesc := file_pob_builder_v1_query_proto_rawDesc;
     pf_goTypes := file_pob_builder_v1_query_proto_goTypes;
     pf_depIdxs := file_pob_builder_v1_query_proto_depIdxs;
     pf_msgTypes := 2; pf_exporters := 2;
     pf_NumEnums := 0; pf_NumMessages := 2; pf_NumExtensions := 0; pf_NumServices := 1 |}.

Definition file_pob_builder_v1_query_proto_init : ST Vars unit :=
  file_init file_pob_builder_v1_query_proto file_pob_builder_v1_genesis_proto_init.

Definition QueryParamsRequest_init : ST Vars MessageVars :=
  message_init file_pob_builder_v1_query_proto file_pob_builder_v1_query_proto_init "QueryParamsRequest" [].
Definition QueryParamsRequest_messageType : MessageType _ :=
  MkMessageType file_pob_builder_v1_query_proto 0 fastReflection_QueryParamsRequest.

Definition QueryParamsResponse_init : ST Vars MessageVars :=
  message_init file_pob_builder_v1_query_proto file_pob_builder_v1_query_proto_init "QueryParamsResponse" ["params"].
Definition QueryParamsResponse_messageType : MessageType _ :=
  MkMessageType file_pob_builder_v1_query_proto 1 fastReflection_QueryParamsResponse.

(** ** builder/v1/tx.pulsar.go *)

Definition file_pob_builder_v1_tx_proto_rawDesc : bytes := [
  x0a; x17; x70; x6f; x62; x2f; x62; x75; x69; x6c; x64; x65; x72; x2f; x76; x31;
  x2f; x74; x78; x2e; x70; x72; x6f; x74; x6f; x12; x0e; x70; x6f; x62; x2e; x62;
  x75; x69; x6c; x64; x65; x72; x2e; x76; x31; x1a; x14; x67; x6f; x67; x6f; x70;
  x72; x6f; x74; x6f; x2f; x67; x6f; x67; x6f; x2e; x70; x72; x6f; x74; x6f; x1a;
  x1c; x67; x6f; x6f; x67; x6c; x65; x2f; x61; x70; x69; x2f; x61; x6e; x6e; x6f;
  x74; x61; x74; x69; x6f; x6e; x73; x2e; x70; x72; x6f; x74; x6f; x1a; x1e; x63;
  x6f; x73; x6d; x6f; x73; x2f; x62; x61; x73; x65; x2f; x76; x31; x62; x65; x74;
  x61; x31; x2f; x63; x6f; x69; x6e; x2e; x70; x72; x6f; x74; x6f; x1a; x1c; x70;
  x6f; x62; x2f; x62; x75; x69; x6c; x64; x65; x72; x2f; x76; x31; x2f; x67; x65;
  x6e; x65; x73; x69; x73; x2e; x70; x72; x6f; x74; x6f; x1a; x19; x63; x6f; x73;
  x6d; x6f; x73; x5f; x70; x72; x6f; x74; x6f; x2f; x63; x6f; x73; x6d; x6f; x73;
  x2e; x70; x72; x6f; x74; x6f; x1a; x17; x63; x6f; x73; x6d; x6f; x73; x2f; x6d;
  x73; x67; x2f; x76; x31; x2f; x6d; x73; x67; x2e; x70; x72; x6f; x74; x6f; x1a;
  x11; x61; x6d; x69; x6e; x6f; x2f; x61; x6d; x69; x6e; x6f; x2e; x70; x72; x6f;
  x74; x6f; x22; xce; x01; x0a; x0d; x4d; x73; x67; x41; x75; x63; x74; x69; x6f;
  x6e; x42; x69; x64; x12; x30; x0a; x06; x62; x69; x64; x64; x65; x72; x18; x01;
  x20; x01; x28; x09; x42; x18; xd2; xb4; x2d; x14; x63; x6f; x73; x6d; x6f; x73;
  x2e; x41; x64; x64; x72; x65; x73; x73; x53; x74; x72; x69; x6e; x67; x52; x06;
  x62; x69; x64; x64; x65; x72; x12; x36; x0a; x03; x62; x69; x64; x18; x02; x20;
  x01; x28; x0b; x32; x19; x2e; x63; x6f; x73; x6d; x6f; x73; x2e; x62; x61; x73;
  x65; x2e; x76; x31; x62; x65; x74; x61; x31; x2e; x43; x6f; x69; x6e; x42; x09;
  xc8; xde; x1f; x00; xa8; xe7; xb0; x2a; x01; x52; x03; x62; x69; x64; x12; x22;
  x0a; x0c; x74; x72; x61; x6e; x73; x61; x63; x74; x69; x6f; x6e; x73; x18; x03;
  x20; x03; x28; x0c; x52; x0c; x74; x72; x61; x6e; x73; x61; x63; x74; x69; x6f;
  x6e; x73; x3a; x2f; xe8; xa0; x1f; x00; x82; xe7; xb0; x2a; x06; x62; x69; x64;
  x64; x65; x72; x8a; xe7; xb0; x2a; x1b; x70; x6f; x62; x2f; x78; x2f; x62; x75;
  x69; x6c; x64; x65; x72; x2f; x4d; x73; x67; x41; x75; x63; x74; x69; x6f; x6e;
  x42; x69; x64; x22; x17; x0a; x15; x4d; x73; x67; x41; x75; x63; x74; x69; x6f;
  x6e; x42; x69; x64; x52; x65; x73; x70; x6f; x6e; x73; x65; x22; xb5; x01; x0a;
  x0f; x4d; x73; x67; x55; x70; x64; x61; x74; x65; x50; x61; x72; x61; x6d; x73;
  x12; x36; x0a; x09; x61; x75; x74; x68; x6f; x72; x69; x74; x79; x18; x01; x20;
  x01; x28; x09; x42; x18; xd2; xb4; x2d; x14; x63; x6f; x73; x6d; x6f; x73; x2e;
  x41; x64; x64; x72; x65; x73; x73; x53; x74; x72; x69; x6e; x67; x52; x09; x61;
  x75; x74; x68; x6f; x72; x69; x74; x79; x12; x34; x0a; x06; x70; x61; x72; x61;
  x6d; x73; x18; x02; x20; x01; x28; x0b; x32; x16; x2e; x70; x6f; x62; x2e; x62;
  x75; x69; x6c; x64; x65; x72; x2e; x76; x31; x2e; x50; x61; x72; x61; x6d; x73;
  x42; x04; xc8; xde; x1f; x00; x52; x06; x70; x61; x72; x61; x6d; x73; x3a; x34;
  xe8; xa0; x1f; x00; x82; xe7; xb0; x2a; x09; x61; x75; x74; x68; x6f; x72; x69;
  x74; x79; x8a; xe7; xb0; x2a; x1d; x70; x6f; x62; x2f; x78; x2f; x62; x75; x69;
  x6c; x64; x65; x72; x2f; x4d; x73; x67; x55; x70; x64; x61; x74; x65; x50; x61;
  x72; x61; x6d; x73; x22; x19; x0a; x17; x4d; x73; x67; x55; x70; x64; x61; x74;
  x65; x50; x61; x72; x61; x6d; x73; x52; x65; x73; x70; x6f; x6e; x73; x65; x32;
  xd7; x01; x0a; x03; x4d; x73; x67; x12; x6f; x0a; x0a; x41; x75; x63; x74; x69;
  x6f; x6e; x42; x69; x64; x12; x1d; x2e; x70; x6f; x62; x2e; x62; x75; x69; x6c;
  x64; x65; x72; x2e; x76; x31; x2e; x4d; x73; x67; x41; x75; x63; x74; x69; x6f;
  x6e; x42; x69; x64; x1a; x25; x2e; x70; x6f; x62; x2e; x62; x75; x69; x6c; x64;
  x65; x72; x2e; x76; x31; x2e; x4d; x73; x67; x41; x75; x63; x74; x69; x6f; x6e;
  x42; x69; x64; x52; x65; x73; x70; x6f; x6e; x73; x65; x22; x1b; x82; xd3; xe4;
  x93; x02; x15; x22; x13; x2f; x70; x6f; x62; x2f; x62; x75; x69; x6c; x64; x65;
  x72; x2f; x76; x31; x2f; x62; x69; x64; x12; x58; x0a; x0c; x55; x70; x64; x61;
  x74; x65; x50; x61; x72; x61; x6d; x73; x12; x1f; x2e; x70; x6f; x62; x2e; x62;
  x75; x69; x6c; x64; x65; x72; x2e; x76; x31; x2e; x4d; x73; x67; x55; x70; x64;
  x61; x74; x65; x50; x61; x72; x61; x6d; x73; x1a; x27; x2e; x70; x6f; x62; x2e;
  x62; x75; x69; x6c; x64; x65; x72; x2e; x76; x31; x2e; x4d; x73; x67; x55; x70;
  x64; x61; x74; x65; x50; x61; x72; x61; x6d; x73; x52; x65; x73; x70; x6f; x6e;
  x73; x65; x1a; x05; x80; xe7; xb0; x2a; x01; x42; xa2; x01; x0a; x12; x63; x6f;
  x6d; x2e; x70; x6f; x62; x2e; x62; x75; x69; x6c; x64; x65; x72; x2e; x76; x31;
  x42; x07; x54; x78; x50; x72; x6f; x74; x6f; x50; x01; x5a; x29; x63; x6f; x73;
  x6d; x6f; x73; x73; x64; x6b; x2e; x69; x6f; x2f; x61; x70; x69; x2f; x70; x6f;
  x62; x2f; x62; x75; x69; x6c; x64; x65; x72; x2f; x76; x31; x3b; x62; x75; x69;
  x6c; x64; x65; x72; x76; x31; xa2; x02; x03; x50; x42; x58; xaa; x02; x0e; x50;
  x6f; x62; x2e; x42; x75; x69; x6c; x64; x65; x72; x2e; x56; x31; xca; x02; x0e;
  x50; x6f; x62; x5c; x42; x75; x69; x6c; x64; x65; x72; x5c; x56; x31; xe2; x02;
  x1a; x50; x6f; x62; x5c; x42; x75; x69; x6c; x64; x65; x72; x5c; x56; x31; x5c;
  x47; x50; x42; x4d; x65; x74; x61; x64; x61; x74; x61; xea; x02; x10; x50; x6f;
  x62; x3a; x3a; x42; x75; x69; x6c; x64; x65; x72; x3a; x3a; x56; x31; x62; x06;
  x70; x72; x6f; x74; x6f; x33 ].

Definition file_pob_builder_v1_tx_proto_goTypes : list GoType := [
  go_type fastReflection_MsgAuctionBid;
  go_type fastReflection_MsgAuctionBidResponse;
  go_type fastReflection_MsgUpdateParams;
  go_type fastReflection_MsgUpdateParamsResponse;
  Coin_type;
  go_type fastReflection_Params ].

Definition file_pob_builder_v1_tx_proto_depIdxs : list Z := [4; 5; 0; 2; 1; 3; 4; 2; 2; 2; 0].

Definition file_pob_builder_v1_tx_proto : ProtoFile :=
  {| pf_path := "pob/builder/v1/tx.proto";
     pf_rawDesc := file_pob_builder_v1_tx_proto_rawDesc;
     pf_goTypes := file_pob_builder_v1_tx_proto_goTypes;
     pf_depIdxs := file_pob_builder_v1_tx_proto_depIdxs;
     pf_msgTypes := 4; pf_exporters := 4;
     pf_NumEnums := 0; pf_NumMessages := 4; pf_NumExtensions := 0; pf_NumServices := 1 |}.

Definition file_pob_builder_v1_tx_proto_init : ST Vars unit :=
  file_init file_pob_builder_v1_tx_proto file_pob_builder_v1_genesis_proto_init.

Definition MsgAuctionBid_init : ST Vars MessageVars :=
  message_init file_pob_builder_v1_tx_proto file_pob_builder_v1_tx_proto_init "MsgAuctionBid" ["bidder"; "bid"; "transactions"].
Definition MsgAuctionBid_messageType : MessageType _ :=
  MkMessageType file_pob_builder_v1_tx_proto 0 fastReflection_MsgAuctionBid.

Definition MsgAuctionBidResponse_init : ST Vars MessageVars :=
  message_init file_pob_builder_v1_tx_proto file_pob_builder_v1_tx_proto_init "MsgAuctionBidResponse" [].
Definition MsgAuctionBidResponse_messageType : MessageType _ :=
  MkMessageType file_pob_builder_v1_tx_proto 1 fastReflection_MsgAuctionBidResponse.

Definition MsgUpdateParams_init : ST Vars MessageVars :=
  message_init file_pob_builder_v1_tx_proto file_pob_builder_v1_tx_proto_init "MsgUpdateParams" ["authority"; "params"].
Definition MsgUpdateParams_messageType : MessageType _ :=
  MkMessageType file_pob_builder_v1_tx_proto 2 fastReflection_MsgUpdateParams.

Definition MsgUpdateParamsResponse_init : ST Vars MessageVars :=
  message_init file_pob_builder_v1_tx_proto file_pob_builder_v1_tx_proto_init "MsgUpdateParamsResponse" [].
Definition MsgUpdateParamsResponse_messageType : MessageType _ :=
  MkMessageType file_pob_builder_v1_tx_proto 3 fastReflection_MsgUpdateParamsResponse.

(** ** builder/module/v1/module.pulsar.go *)

Definition file_pob_builder_module_v1_module_proto_rawDesc : bytes := [
  x0a; x22; x70; x6f; x62; x2f; x62; x75; x69; x6c; x64; x65; x72; x2f; x6d; x6f;
  x64; x75; x6c; x65; x2f; x76; x31; x2f; x6d; x6f; x64; x75; x6c; x65; x2e; x70;
  x72; x6f; x74; x6f; x12; x15; x70; x6f; x62; x2e; x62; x75; x69; x6c; x64; x65;
  x72; x2e; x6d; x6f; x64; x75; x6c; x65; x2e; x76; x31; x1a; x20; x63; x6f; x73;
  x6d; x6f; x73; x2f; x61; x70; x70; x2f; x76; x31; x61; x6c; x70; x68; x61; x31;
  x2f; x6d; x6f; x64; x75; x6c; x65; x2e; x70; x72; x6f; x74; x6f; x22; x51; x0a;
  x06; x4d; x6f; x64; x75; x6c; x65; x12; x1c; x0a; x09; x61; x75; x74; x68; x6f;
  x72; x69; x74; x79; x18; x02; x20; x01; x28; x09; x52; x09; x61; x75; x74; x68;
  x6f; x72; x69; x74; x79; x3a; x29; xba; xc0; x96; xda; x01; x23; x0a; x21; x67;
  x69; x74; x68; x75; x62; x2e; x63; x6f; x6d; x2f; x73; x6b; x69; x70; x2d; x6d;
  x65; x76; x2f; x70; x6f; x62; x2f; x78; x2f; x62; x75; x69; x6c; x64; x65; x72;
  x42; xd0; x01; x0a; x19; x63; x6f; x6d; x2e; x70; x6f; x62; x2e; x62; x75; x69;
  x6c; x64; x65; x72; x2e; x6d; x6f; x64; x75; x6c; x65; x2e; x76; x31; x42; x0b;
  x4d; x6f; x64; x75; x6c; x65; x50; x72; x6f; x74; x6f; x50; x01; x5a; x2f; x63;
  x6f; x73; x6d; x6f; x73; x73; x64; x6b; x2e; x69; x6f; x2f; x61; x70; x69; x2f;
  x70; x6f; x62; x2f; x62; x75; x69; x6c; x64; x65; x72; x2f; x6d; x6f; x64; x75;
  x6c; x65; x2f; x76; x31; x3b; x6d; x6f; x64; x75; x6c; x65; x76; x31; xa2; x02;
  x03; x50; x42; x4d; xaa; x02; x15; x50; x6f; x62; x2e; x42; x75; x69; x6c; x64;
  x65; x72; x2e; x4d; x6f; x64; x75; x6c; x65; x2e; x56; x31; xca; x02; x15; x50;
  x6f; x62; x5c; x42; x75; x69; x6c; x64; x65; x72; x5c; x4d; x6f; x64; x75; x6c;
  x65; x5c; x56; x31; xe2; x02; x21; x50; x6f; x62; x5c; x42; x75; x69; x6c; x64;
  x65; x72; x5c; x4d; x6f; x64; x75; x6c; x65; x5c; x56; x31; x5c; x47; x50; x42;
  x4d; x65; x74; x61; x64; x61; x74; x61; xea; x02; x18; x50; x6f; x62; x3a; x3a;
  x42; x75; x69; x6c; x64; x65; x72; x3a; x3a; x4d; x6f; x64; x75; x6c; x65; x3a;
  x3a; x56; x31; x62; x06; x70; x72; x6f; x74; x6f; x33 ].

Definition file_pob_builder_module_v1_module_proto_goTypes : list GoType := [
  go_type fastReflection_Module ].

Definition file_pob_builder_module_v1_module_proto_depIdxs : list Z := [0; 0; 0; 0; 0].

Definition file_pob_builder_module_v1_module_proto : ProtoFile :=
  {| pf_path := "pob/builder/module/v1/module.proto";
     pf_rawDesc := file_pob_builder_module_v1_module_proto_rawDesc;
     pf_goTypes := file_pob_builder_module_v1_module_proto_goTypes;
     pf_depIdxs := file_pob_builder_module_v1_module_proto_depIdxs;
     pf_msgTypes := 1; pf_exporters := 1;
     pf_NumEnums := 0; pf_NumMessages := 1; pf_NumExtensions := 0; pf_NumServices := 0 |}.

Definition file_pob_builder_module_v1_module_proto_init : ST Vars unit :=
  file_init file_pob_builder_module_v1_module_proto (mret tt).

Definition Module_init : ST Vars MessageVars :=
  message_init file_pob_builder_module_v1_module_proto file_pob_builder_module_v1_module_proto_init "Module" ["authority"].
Definition Module_messageType : MessageType _ :=
  MkMessageType file_pob_builder_module_v1_module_proto 0 fastReflection_Module.

(** ** abci/v1/auction.pulsar.go *)

Definition file_pob_abci_v1_auction_proto_rawDesc : bytes := [
  x0a; x19; x70; x6f; x62; x2f; x61; x62; x63; x69; x2f; x76; x31; x2f; x61; x75;
  x63; x74; x69; x6f; x6e; x2e; x70; x72; x6f; x74; x6f; x12; x0b; x70; x6f; x62;
  x2e; x61; x62; x63; x69; x2e; x76; x31; x22; x7a; x0a; x0b; x41; x75; x63; x74;
  x69; x6f; x6e; x49; x6e; x66; x6f; x12; x30; x0a; x14; x65; x78; x74; x65; x6e;
  x64; x65; x64; x5f; x63; x6f; x6d; x6d; x69; x74; x5f; x69; x6e; x66; x6f; x18;
  x01; x20; x01; x28; x0c; x52; x12; x65; x78; x74; x65; x6e; x64; x65; x64; x43;
  x6f; x6d; x6d; x69; x74; x49; x6e; x66; x6f; x12; x20; x0a; x0c; x6d; x61; x78;
  x5f; x74; x78; x5f; x62; x79; x74; x65; x73; x18; x02; x20; x01; x28; x03; x52;
  x0a; x6d; x61; x78; x54; x78; x42; x79; x74; x65; x73; x12; x17; x0a; x07; x6e;
  x75; x6d; x5f; x74; x78; x73; x18; x03; x20; x01; x28; x04; x52; x06; x6e; x75;
  x6d; x54; x78; x73; x22; x9a; x01; x0a; x11; x56; x6f; x74; x65; x45; x78; x74;
  x65; x6e; x73; x69; x6f; x6e; x49; x6e; x66; x6f; x12; x48; x0a; x08; x72; x65;
  x67; x69; x73; x74; x72; x79; x18; x02; x20; x03; x28; x0b; x32; x2c; x2e; x70;
  x6f; x62; x2e; x61; x62; x63; x69; x2e; x76; x31; x2e; x56; x6f; x74; x65; x45;
  x78; x74; x65; x6e; x73; x69; x6f; x6e; x49; x6e; x66; x6f; x2e; x52; x65; x67;
  x69; x73; x74; x72; x79; x45; x6e; x74; x72; x79; x52; x08; x72; x65; x67; x69;
  x73; x74; x72; x79; x1a; x3b; x0a; x0d; x52; x65; x67; x69; x73; x74; x72; x79;
  x45; x6e; x74; x72; x79; x12; x10; x0a; x03; x6b; x65; x79; x18; x01; x20; x01;
  x28; x09; x52; x03; x6b; x65; x79; x12; x14; x0a; x05; x76; x61; x6c; x75; x65;
  x18; x02; x20; x01; x28; x0c; x52; x05; x76; x61; x6c; x75; x65; x3a; x02; x38;
  x01; x42; x92; x01; x0a; x0f; x63; x6f; x6d; x2e; x70; x6f; x62; x2e; x61; x62;
  x63; x69; x2e; x76; x31; x42; x0c; x41; x75; x63; x74; x69; x6f; x6e; x50; x72;
  x6f; x74; x6f; x50; x01; x5a; x23; x63; x6f; x73; x6d; x6f; x73; x73; x64; x6b;
  x2e; x69; x6f; x2f; x61; x70; x69; x2f; x70; x6f; x62; x2f; x61; x62; x63; x69;
  x2f; x76; x31; x3b; x61; x62; x63; x69; x76; x31; xa2; x02; x03; x50; x41; x58;
  xaa; x02; x0b; x50; x6f; x62; x2e; x41; x62; x63; x69; x2e; x56; x31; xca; x02;
  x0b; x50; x6f; x62; x5c; x41; x62; x63; x69; x5c; x56; x31; xe2; x02; x17; x50;
  x6f; x62; x5c; x41; x62; x63; x69; x5c; x56; x31; x5c; x47; x50; x42; x4d; x65;
  x74; x61; x64; x61; x74; x61; xea; x02; x0d; x50; x6f; x62; x3a; x3a; x41; x62;
  x63; x69; x3a; x3a; x56; x31; x62; x06; x70; x72; x6f; x74; x6f; x33 ].

Definition file_pob_abci_v1_auction_proto_goTypes : list GoType := [
  go_type fastReflection_AuctionInfo;
  go_type fastReflection_VoteExtensionInfo;
  None ].

Definition file_pob_abci_v1_auction_proto_depIdxs : list Z := [2; 1; 1; 1; 1; 0].

Definition file_pob_abci_v1_auction_proto : ProtoFile :=
  {| pf_path := "pob/abci/v1/auction.proto";
     pf_rawDesc := file_pob_abci_v1_auction_proto_rawDesc;
     pf_goTypes := file_pob_abci_v1_auction_proto_goTypes;
     pf_depIdxs := file_pob_abci_v1_auction_proto_depIdxs;
     pf_msgTypes := 3; pf_exporters := 2;
     pf_NumEnums := 0; pf_NumMessages := 3; pf_NumExtensions := 0; pf_NumServices := 0 |}.

Definition file_pob_abci_v1_auction_proto_init : ST Vars unit :=
  file_init file_pob_abci_v1_auction_proto (mret tt).

Definition AuctionInfo_init : ST Vars MessageVars :=
  message_init file_pob_abci_v1_auction_proto file_pob_abci_v1_auction_proto_init "AuctionInfo" ["extended_commit_info"; "max_tx_bytes"; "num_txs"].
Definition AuctionInfo_messageType : MessageType _ :=
  MkMessageType file_pob_abci_v1_auction_proto 0 fastReflection_AuctionInfo.

Definition VoteExtensionInfo_init : ST Vars MessageVars :=
  message_init file_pob_abci_v1_auction_proto file_pob_abci_v1_auction_proto_init "VoteExtensionInfo" ["registry"].
Definition VoteExtensionInfo_messageType : MessageType _ :=
  MkMessageType file_pob_abci_v1_auction_proto 1 fastReflection_VoteExtensionInfo.

(** ** The packages *)

Definition all_files : list ProtoFile :=
  [file_pob_builder_v1_genesis_proto; file_pob_builder_v1_query_proto; file_pob_builder_v1_tx_proto;
   file_pob_builder_module_v1_module_proto; file_pob_abci_v1_auction_proto].

(** The variables before the first init function runs. *)
Definition initial_vars : Vars :=
  foldr (fun pf vars => <[pf_path pf := declared pf]> vars)
    (fun _ => {| fv_File := None; fv_rawDesc := None; fv_goTypes := None; fv_depIdxs := None; fv_msgTypes := [] |})
    all_files.
End Files.
