(* ===== verification/PulsarDescriptorFacts.v ===== *)
(** * api/pob: the descriptors describe the messages

    The bytes of the descriptors, the tables of the runtime, the reflection and the decoders of the
    generated files say the same about every message. *)
From S2P Require Import Prelude Hash Wire Pulsar PulsarMessages Descriptor PulsarDescriptors PulsarConcrete.
From stdpp Require Import functions.
#[local] Open Scope Z_scope.

(** ** What Build expects *)

(** The MessageOptions field [map_entry]. *)
Definition is_map_entry (m : MessageProto) : bool :=
  bool_decide ((7, Varint 1) ∈ m_options m).

Definition declared_type (m : string * MessageProto) : GoType :=
  if is_map_entry m.2 then None else Some m.1.

(** The type an index stands for: one of the messages of the file, or a dependency. *)
Definition resolve (fp : FileProto) (types : list GoType) (i : Z) : GoType :=
  match map fst (all_messages fp) !! Z.to_nat i with
  | Some name => Some name
  | None => default None (types !! Z.to_nat i)
  end.

(** The sub-list between two offsets; the offsets are the last five indexes. *)
Definition sub_list (deps : list Z) (from to : nat) : list Z :=
  let offset k := Z.to_nat (default 0 (rev deps !! k)) in
  drop (offset from) (take (offset to) deps).

Definition refers (fp : FileProto) (types : list GoType) (idxs : list Z) (names : list string) : bool :=
  bool_decide (map (fun i => String.append "." <$> resolve fp types i) idxs = map Some names).

(** The tables of a TypeBuilder fit the descriptor: the counts, the Go types (first the messages of
    the file in order, map entries without a type), and the lists of dependencies of the fields and
    of the inputs and outputs of methods. *)
Definition consistent (tb : TypeBuilder) : bool :=
  match RawDescriptor tb, GoTypes tb, DependencyIndexes tb with
  | Some raw, Some types, Some deps =>
      let fp := read_file raw in
      let messages := all_messages fp in
      bool_decide (NoDup (map fst messages)) &&
      (NumEnums tb =? Z.of_nat (fp_enums fp)) && (NumMessages tb =? len messages) &&
      (NumExtensions tb =? Z.of_nat (fp_extensions fp)) && (NumServices tb =? len (fp_services fp)) &&
      (length (MessageInfos tb) =? length messages)%nat &&
      bool_decide (take (length messages) types = map declared_type messages) &&
      refers fp types (sub_list deps 0 1) (field_types fp) &&
      refers fp types (sub_list deps 3 4) (input_types fp) &&
      refers fp types (drop (Z.to_nat (default 0 (rev deps !! 4%nat))) (take (length deps - 5) deps)) (output_types fp)
  | _, _, _ => false
  end.

(** What the runtime promises for consistent tables. *)
Class ProtoImplLaws (PI : ProtoImpl) : Prop := {
  build_consistent tb : consistent tb = true -> exists f, Build tb = Ret f;
  build_describes tb f raw m : Build tb = Ret f -> RawDescriptor tb = Some raw ->
    In m (fp_messages (read_file raw)) ->
    exists md, Messages_ByName f (m_name m) = Some md /\
      forall fl, In fl (m_fields m) -> Fields_ByName md (f_name fl) =
        Some (MkFD (qualify (qualify (fp_package (read_file raw)) (m_name m)) (f_name fl)) false)
}.

Section Facts.
Context {PL : PulsarLib} {PV : ProtoValue ApiMessage ApiList ApiMap} {PI : ProtoImpl} {PIL : ProtoImplLaws PI}.

(** ** Initialization *)

Definition builder_of (pf : ProtoFile) (infos : list MessageInfo) : TypeBuilder :=
  {| RawDescriptor := Some (pf_rawDesc pf); NumEnums := pf_NumEnums pf; NumMessages := pf_NumMessages pf;
     NumExtensions := pf_NumExtensions pf; NumServices := pf_NumServices pf;
     GoTypes := Some (pf_goTypes pf); DependencyIndexes := Some (pf_depIdxs pf); MessageInfos := infos |}.

(** The tables of the five files fit their descriptors. *)
Lemma files_consistent pf infos :
  In pf all_files -> length infos = pf_msgTypes pf -> consistent (builder_of pf infos) = true.
Proof.
  intros H HL. unfold consistent. cbn [MessageInfos builder_of]. rewrite HL.
  repeat (destruct H as [<-|H]; [vm_compute; reflexivity|]). destruct H.
Qed.

Lemma set_exporters_length n infos infos' : set_exporters n infos = Ret infos' -> length infos' = length infos.
Proof.
  unfold set_exporters. destruct (Nat.leb_spec n (length infos)); [|done]. intros [= <-].
  rewrite length_app, length_replicate, length_drop. lia.
Qed.

(** The variables of a file: untouched, or built from its descriptor. *)
Definition built (pf : ProtoFile) (v : FileVars) : Prop :=
  exists f infos, v = MkFileVars (Some f) None None None infos /\ Build (builder_of pf infos) = Ret f.
Definition initialized (vars : Vars) : Prop :=
  forall pf, In pf all_files -> vars (pf_path pf) = declared pf \/ built pf (vars (pf_path pf)).

Lemma files_distinct pf pf' : In pf all_files -> In pf' all_files -> pf_path pf = pf_path pf' -> pf = pf'.
Proof.
  intros H H' E. cbn in H, H'.
  destruct_or! H; destruct_or! H'; subst; try done; discriminate E.
Qed.

Lemma initial_initialized : initialized initial_vars.
Proof. intros pf H. left. cbn in H. destruct_or! H; subst; try done; reflexivity. Qed.

(** What an init function does: it returns, its file is built afterwards, and it leaves the files
    alone that it does not import. *)
Definition inits (pf : ProtoFile) (touched : list string) (init : ST Vars unit) : Prop :=
  forall vars, initialized vars -> exists vars', init vars = (Ret tt, vars') /\ initialized vars' /\
    built pf (vars' (pf_path pf)) /\ forall path, path ∉ touched -> vars' path = vars path.

Lemma exporters_fit pf : In pf all_files -> exists infos,
  (if UnsafeEnabled then Ret (fv_msgTypes (declared pf)) else set_exporters (pf_exporters pf) (fv_msgTypes (declared pf)))
    = Ret infos /\ length infos = pf_msgTypes pf.
Proof.
  intros H. destruct UnsafeEnabled.
  - eexists. split; [done|]. apply length_replicate.
  - assert (E : exists infos, set_exporters (pf_exporters pf) (fv_msgTypes (declared pf)) = Ret infos).
    { cbn in H. destruct_or! H; subst; try done; by eexists. }
    destruct E as [infos E]. exists infos. split; [done|].
    rewrite (set_exporters_length _ _ _ E). apply length_replicate.
Qed.

Lemma file_init_inits pf touched imports : In pf all_files -> pf_path pf ∉ touched ->
  (forall vars, initialized vars -> exists vars', imports vars = (Ret tt, vars') /\ initialized vars' /\
     forall path, path ∉ touched -> vars' path = vars path) ->
  inits pf (pf_path pf :: touched) (file_init pf imports).
Proof.
  intros Hin Hnt HI vars Hv. unfold file_init. st_unfold.
  destruct (Hv pf Hin) as [Hd|Hb].
  - rewrite Hd. cbn [declared fv_File]. destruct (HI vars Hv) as (vars1 & -> & Hv1 & Hk).
    rewrite Hk, Hd by done.
    destruct (exporters_fit pf Hin) as (infos & -> & HL). cbn [declared fv_rawDesc fv_goTypes fv_depIdxs].
    change (Build _) with (Build (builder_of pf infos)).
    destruct (build_consistent _ (files_consistent pf infos Hin HL)) as [f HB]. rewrite HB.
    assert (Hbuilt : built pf (MkFileVars (Some f) None None None infos)) by (by exists f, infos).
    eexists. split; [reflexivity|]. split; [|split].
    + intros pf' Hin'. destruct (decide (pf_path pf = pf_path pf')) as [E|E].
      * pose proof (files_distinct _ _ Hin Hin' E) as <-. right. by rewrite fn_lookup_insert.
      * rewrite fn_lookup_insert_ne by done. by apply Hv1.
    + by rewrite fn_lookup_insert.
    + intros path Hp. apply not_elem_of_cons in Hp as [Hne Hp].
      rewrite fn_lookup_insert_ne by done. by apply Hk.
  - destruct Hb as (f & infos & E & HB). rewrite E. cbn [fv_File]. exists vars. split; [done|]. split; [done|].
    split; [rewrite E; by exists f, infos|]. done.
Qed.

Lemma genesis_inits :
  inits file_pob_builder_v1_genesis_proto [pf_path file_pob_builder_v1_genesis_proto] file_pob_builder_v1_genesis_proto_init.
Proof. apply file_init_inits; [by left|apply not_elem_of_nil|]. intros vars Hv. by exists vars. Qed.

Lemma importing_inits pf : In pf all_files -> pf_path pf <> pf_path file_pob_builder_v1_genesis_proto ->
  inits pf [pf_path pf; pf_path file_pob_builder_v1_genesis_proto] (file_init pf file_pob_builder_v1_genesis_proto_init).
Proof.
  intros Hin Hne. apply file_init_inits; [done|by rewrite list_elem_of_singleton|]. intros vars Hv.
  destruct (genesis_inits vars Hv) as (vars1 & H1 & Hv1 & _ & Hk). by exists vars1.
Qed.

Lemma alone_inits pf : In pf all_files -> inits pf [pf_path pf] (file_init pf (mret tt)).
Proof. intros Hin. apply file_init_inits; [done|apply not_elem_of_nil|]. intros vars Hv. by exists vars. Qed.

(** ** The variables of the messages *)

(** The init function of a message sets its variables to its descriptor and to the descriptors of the
    fields of its reflection, in order. *)
Definition sets_variables {T} (R : FastReflection T) (init : ST Vars MessageVars) : Prop :=
  forall vars, initialized vars -> exists md vars', initialized vars' /\
    init vars = (Ret (MkMessageVars (Some md) (map (fun f => Some (fd_of f)) (fields R))), vars').

(** A message of the file whose fields are the fields of a reflection. *)
Definition has_message {T} (pf : ProtoFile) (R : FastReflection T) (name : string) (names : list string) : Prop :=
  let fp := read_file (pf_rawDesc pf) in
  exists m, find (fun m => String.eqb (m_name m) name) (fp_messages fp) = Some m /\ map f_name (m_fields m) = names /\
    map (fun n => qualify (qualify (fp_package fp) name) n) names = map field_name (fields R).

Lemma mapM_names {T} (look : string -> option FieldDescriptor) prefix (fs : list (Field T)) names :
  (forall n, In n names -> look n = Some (MkFD (qualify prefix n) false)) ->
  map (fun n => qualify prefix n) names = map field_name fs ->
  mapM (fun n => Ret (look n)) names = Ret (map (fun f => Some (fd_of f)) fs).
Proof.
  revert fs. induction names as [|n names IH]; intros [|f fs] Hl E; try discriminate E; [done|].
  cbn [map] in E. injection E as E1 E2. cbn [mapM]. rewrite (Hl n) by (by left).
  cbn. rewrite (IH fs) by (try done; intros n' H; apply Hl; by right). cbn. unfold fd_of at 2. by rewrite <- E1.
Qed.

Lemma message_init_sets {T} pf touched (R : FastReflection T) init name names :
  inits pf touched init -> has_message pf R name names -> sets_variables R (message_init pf init name names).
Proof.
  intros HI (m & Hm & <- & Hn) vars Hv. apply find_some in Hm as [Hm <-%String.eqb_eq]. unfold message_init. st_unfold.
  destruct (HI vars Hv) as (vars1 & -> & Hv1 & (f & infos & -> & HB) & _). cbn [fv_File].
  destruct (build_describes _ _ _ m HB eq_refl Hm) as (md & -> & Hf).
  rewrite (mapM_names _ (qualify (fp_package (read_file (pf_rawDesc pf))) (m_name m)) (fields R)); [by exists md, vars1| |done].
  intros n Hin. apply in_map_iff in Hin as (fl & <- & Hin). by apply Hf.
Qed.

(** ** Fields *)

(** The value NewField returns has the type of the field. *)
Definition value_of_type (fl : FieldProto) (v : Value) : Prop :=
  if f_label fl =? LABEL_REPEATED then
    if f_type fl =? TYPE_MESSAGE then exists m, v = ValueOfMap m
    else f_type fl = TYPE_BYTES /\ exists l, v = ValueOfList l
  else if f_type fl =? TYPE_UINT32 then v = ValueOfUint32 0
  else if f_type fl =? TYPE_UINT64 then v = ValueOfUint64 0
  else if f_type fl =? TYPE_INT64 then v = ValueOfInt64 0
  else if f_type fl =? TYPE_BOOL then v = ValueOfBool false
  else if f_type fl =? TYPE_STRING then v = ValueOfString ""
  else if f_type fl =? TYPE_BYTES then v = ValueOfBytes None
  else f_type fl = TYPE_MESSAGE /\ exists m, v = ValueOfMessage m.

(** The value of a scalar field that begins at [i], and the index after it. *)
Definition read_value (fl : FieldProto) (dAtA : bytes) (i : Z) : result (Value * Z) :=
  if f_type fl =? TYPE_UINT32 then '(v, j) ← varint wrap_u32 dAtA i; Ok (ValueOfUint32 v, j)
  else if f_type fl =? TYPE_UINT64 then '(v, j) ← varint wrap_u64 dAtA i; Ok (ValueOfUint64 v, j)
  else if f_type fl =? TYPE_INT64 then '(v, j) ← varint wrap_i64 dAtA i; Ok (ValueOfInt64 v, j)
  else if f_type fl =? TYPE_BOOL then '(v, j) ← varint wrap_i64 dAtA i; Ok (ValueOfBool (negb (v =? 0)), j)
  else if f_type fl =? TYPE_STRING then '(v, j) ← read_string dAtA i; Ok (ValueOfString (bytes_string v), j)
  else '(v, j) ← read_bytes dAtA i; Ok (ValueOfBytes (Some v), j).

(** What the decoder reads under the number of a declared field goes into the field of the reflection
    of that name: every other field and the unknown fields stay, and a scalar is the value read. *)
Definition stores {T} (R : FastReflection T) (cases : bool -> FieldCases T) (fl : FieldProto) (f : Field T) : Prop :=
  forall discard w dAtA pre i x x' j, cases discard (f_number fl) w dAtA pre i x = Ok (x', j) ->
    Forall (fun g => field_name g = field_name f \/
      (populated g x' = populated g x /\ get_value g x' = get_value g x)) (fields R) /\
    unknownFields R x' = unknownFields R x /\
    (f_label fl <> LABEL_REPEATED -> f_type fl <> TYPE_MESSAGE -> read_value fl dAtA i = Ok (get_value f x', j)).

(** The decoder of a message stores each declared field in the field of the same name, accepts it with
    the declared wire type only, and keeps every other field as an unknown one. *)
Definition decodes_fields {T} (m : MessageProto) (R : FastReflection T) (cases : bool -> FieldCases T) : Prop :=
  Forall2 (stores R cases) (m_fields m) (fields R) /\
  (forall fl discard w dAtA pre i x, In fl (m_fields m) -> w <> wire_type fl ->
     cases discard (f_number fl) w dAtA pre i x = Err (Errorf "proto: wrong wireType")) /\
  forall n discard w dAtA pre i x, n ∉ map f_number (m_fields m) ->
    cases discard n w dAtA pre i x =
      keep_unknown (fun u x => with_unknown R (unknownFields R x ++ u) x) discard dAtA pre x.

(** The descriptor of a file has, at the index of a message type, a message of its name, with the
    fields of its reflection and of its decoder. *)
Definition describes {T} (mt : MessageType T) (cases : bool -> FieldCases T) : Prop :=
  let R := mt_fast mt in
  exists m, all_messages (read_file (pf_rawDesc (mt_file mt))) !! mt_index mt = Some (full_name R, m) /\
    pf_goTypes (mt_file mt) !! mt_index mt = Some (Some (full_name R)) /\
    map (fun fl => qualify (full_name R) (f_name fl)) (m_fields m) = map field_name (fields R) /\
    Forall2 (fun fl f => value_of_type fl (new_value f)) (m_fields m) (fields R) /\
    decodes_fields m R cases.

Lemma wrong_wire {A X} (w want : Z) (read : result (A * Z)) (store : A -> result X) :
  w <> want -> field_of w want read store = Err (Errorf "proto: wrong wireType").
Proof. intros H. unfold field_of. by rewrite (proj2 (Z.eqb_neq _ _) H). Qed.

(** The init function, the tables and the decoder of a message agree with its descriptor. *)
Definition described {T} (mt : MessageType T) (init : ST Vars MessageVars) (cases : bool -> FieldCases T) : Prop :=
  sets_variables (mt_fast mt) init /\ describes mt cases.

Ltac store_field :=
  intros discard w dAtA pre i x x' j H;
  unfold ApiGenesisState_cases, ApiParams_cases, ApiQueryParamsResponse_cases, ApiMsgAuctionBid_cases,
    ApiMsgUpdateParams_cases, ApiModule_cases, ApiAuctionInfo_cases, ApiVoteExtensionInfo_cases in H;
  cbn [f_number Z.eqb Pos.eqb] in H; apply field_of_ok in H as (_ & v & Hr & Hs);
  try match type of v with (_ * _)%type => destruct v end; st_unfold in Hs; repeat (case_match; try discriminate); injection Hs as <-;
  (split; [cbn; repeat first [apply List.Forall_cons; [first [by left|by right]|]|apply List.Forall_nil]|]);
  split; [reflexivity|]; intros H1 H2; try (by destruct H1); try (by destruct H2);
  unfold read_value; cbn -[read_string read_bytes varint]; rewrite Hr; reflexivity.

Ltac describe :=
  eexists; split; [vm_compute; reflexivity|]; split; [reflexivity|]; split; [reflexivity|]; split;
    [repeat constructor; cbn; eauto|]; split;
    [repeat first [apply Forall2_nil_2|apply Forall2_cons_2; [store_field|]]|]; split;
    [intros fl discard w dAtA pre i x Hin Hw; cbn in Hin; destruct_or! Hin; subst; try done; by apply wrong_wire
    |intros n discard w dAtA pre i x Hn; cbn [map m_fields f_number] in Hn; rewrite ?not_elem_of_cons in Hn;
     destruct_and? Hn].
Ltac known_message := eexists; split; [vm_compute; reflexivity|]; split; reflexivity.

Lemma imported_init {T} pf (R : FastReflection T) name names :
  In pf all_files -> pf_path pf <> pf_path file_pob_builder_v1_genesis_proto -> has_message pf R name names ->
  sets_variables R (message_init pf (file_init pf file_pob_builder_v1_genesis_proto_init) name names).
Proof. intros H1 H2. eapply message_init_sets, importing_inits; done. Qed.
Lemma alone_init {T} pf (R : FastReflection T) name names :
  In pf all_files -> has_message pf R name names ->
  sets_variables R (message_init pf (file_init pf (mret tt)) name names).
Proof. intros H. by eapply message_init_sets, alone_inits. Qed.

Ltac init_done := first [apply alone_init; [by cbn; eauto 6|known_message]
                        |apply imported_init; [by cbn; eauto 6|done|known_message]].
Ltac undeclared := unfold ApiGenesisState_cases, ApiParams_cases, ApiQueryParamsResponse_cases,
  ApiMsgAuctionBid_cases, ApiMsgUpdateParams_cases, ApiModule_cases, ApiAuctionInfo_cases,
  ApiVoteExtensionInfo_cases, empty_cases; rewrite ?(proj2 (Z.eqb_neq _ _)) by done; reflexivity.

(** C31: the descriptors of the generated files describe their messages.  In whatever order the init
    functions have run before, the init function of a message does not panic and sets the variables
    of the message to its descriptor and to the descriptors of exactly the fields of its reflection;
    at the index of the message type the descriptor has a message with the name and the field names
    of the reflection, NewField returns values of the declared types, and the decoder stores what it
    reads under a declared number in the field that the descriptor gives that number (a scalar as the
    value read, every other field unchanged), accepts it with the declared wire type only, and keeps
    every other number as unknown. *)
Theorem descriptors_describe_messages :
  initialized initial_vars /\
  described GenesisState_messageType GenesisState_init ApiGenesisState_cases /\
  described Params_messageType Params_init ApiParams_cases /\
  described QueryParamsRequest_messageType QueryParamsRequest_init empty_cases /\
  described QueryParamsResponse_messageType QueryParamsResponse_init ApiQueryParamsResponse_cases /\
  described MsgAuctionBid_messageType MsgAuctionBid_init ApiMsgAuctionBid_cases /\
  described MsgAuctionBidResponse_messageType MsgAuctionBidResponse_init empty_cases /\
  described MsgUpdateParams_messageType MsgUpdateParams_init ApiMsgUpdateParams_cases /\
  described MsgUpdateParamsResponse_messageType MsgUpdateParamsResponse_init empty_cases /\
  described Module_messageType Module_init ApiModule_cases /\
  described AuctionInfo_messageType AuctionInfo_init ApiAuctionInfo_cases /\
  described VoteExtensionInfo_messageType VoteExtensionInfo_init ApiVoteExtensionInfo_cases.
Proof.
  split; [apply initial_initialized|].
  split_and!; (split; [init_done|describe; undeclared]).
Qed.
End Facts.

(** ** Witness *)

(** A runtime that reads the descriptors itself. *)
#[export] Instance concrete_proto : ProtoImpl := {|
  RtFile := FileProto;
  RtMessage := string * MessageProto;
  UnsafeEnabled := true;
  Build tb := if consistent tb then Ret (read_file (content (RawDescriptor tb))) else Panic "mismatching cardinality";
  Messages_ByName f name :=
    (fun m => (qualify (fp_package f) name, m)) <$> find (fun m => String.eqb (m_name m) name) (fp_messages f);
  Fields_ByName md name :=
    (fun fl => MkFD (qualify md.1 name) false) <$> find (fun fl => String.eqb (f_name fl) name) (m_fields md.2);
  CompressGZIP b := b
|}.

Lemma find_first {A} (name : A -> string) (l : list A) (x : A) : In x l -> exists y,
  find (fun y => String.eqb (name y) (name x)) l = Some y /\ name y = name x /\ In y l.
Proof.
  intros H. destruct (find _ l) as [y|] eqn:E.
  - exists y. apply find_some in E as [? ?%String.eqb_eq]. done.
  - pose proof (find_none _ _ E x H) as E'. cbn in E'. by rewrite String.eqb_refl in E'.
Qed.

#[export] Instance concrete_proto_laws : ProtoImplLaws concrete_proto.
Proof.
  split; [intros tb H; cbn; rewrite H; by eexists|].
  intros tb f raw m HB Hr Hm. cbn in HB. destruct (consistent tb) eqn:HC; [|done].
  rewrite Hr in HB. cbn [content default] in HB. injection HB as <-. unfold consistent in HC. rewrite Hr in HC.
  assert (Hd : NoDup (map (fun m => qualify (fp_package (read_file raw)) (m_name m)) (fp_messages (read_file raw)))).
  { destruct (GoTypes tb), (DependencyIndexes tb); try done.
    rewrite !andb_true_iff in HC. destruct_and! HC. apply bool_decide_eq_true in H.
    unfold all_messages in H. cbn [flatten] in H. rewrite map_app, map_map in H. cbn [fst] in H.
    by apply list.NoDup_app in H as [H _]. }
  destruct (find_first m_name _ m Hm) as (m' & E & En & Hm').
  assert (m' = m) as -> by (eapply (NoDup_map_inj _ _ _ _ Hd); [done..|]; by rewrite En).
  exists (qualify (fp_package (read_file raw)) (m_name m), m). split; [unfold Messages_ByName, concrete_proto; by rewrite E|]. intros fl Hfl.
  destruct (find_first f_name _ fl Hfl) as (fl' & E' & _).
  unfold Fields_ByName, concrete_proto. cbn [fst snd]. by rewrite E'.
Qed.

Lemma descriptors_describe_messages_witness :
  initialized initial_vars /\
  described GenesisState_messageType GenesisState_init ApiGenesisState_cases /\
  described Params_messageType Params_init ApiParams_cases /\
  described QueryParamsRequest_messageType QueryParamsRequest_init empty_cases /\
  described QueryParamsResponse_messageType QueryParamsResponse_init ApiQueryParamsResponse_cases /\
  described MsgAuctionBid_messageType MsgAuctionBid_init ApiMsgAuctionBid_cases /\
  described MsgAuctionBidResponse_messageType MsgAuctionBidResponse_init empty_cases /\
  described MsgUpdateParams_messageType MsgUpdateParams_init ApiMsgUpdateParams_cases /\
  described MsgUpdateParamsResponse_messageType MsgUpdateParamsResponse_init empty_cases /\
  described Module_messageType Module_init ApiModule_cases /\
  described AuctionInfo_messageType AuctionInfo_init ApiAuctionInfo_cases /\
  described VoteExtensionInfo_messageType VoteExtensionInfo_init ApiVoteExtensionInfo_cases.
Proof. apply (descriptors_describe_messages (PL := concrete_pulsar) (PI := concrete_proto)). Defined.
