(* ===== verification/PulsarAccessors.v ===== *)
(** * api/pob: the methods of each message

    The methods the generated files define once for every message: on the structs Reset, String and
    the deprecated Descriptor, on the fast reflection those over no table of fields, and the compressed
    descriptor of each file. *)
From S2P Require Import Prelude Hash Wire Pulsar PulsarMessages PulsarDescriptors Descriptor PulsarDescriptorFacts.
#[local] Open Scope Z_scope.

(** [protoimpl.X.MessageStringOf]: the text of a message. *)
Class MessageText : Type := {
  MessageStringOf {M L P} {PV : ProtoValue M L P} {T} : FastReflection T -> option T -> string }.

Section Accessors.
Context {PL : PulsarLib} {PV : ProtoValue ApiMessage ApiList ApiMap} {PI : ProtoImpl} {MT : MessageText}.

(** ** builder/v1/genesis.pulsar.go *)

Definition file_pob_builder_v1_genesis_proto_rawDescData : GzipVars := MkGzipVars false file_pob_builder_v1_genesis_proto_rawDesc.
Definition file_pob_builder_v1_genesis_proto_rawDescGZIP : ST GzipVars bytes := rawDescGZIP.

Definition ApiGenesisState_Reset : ST (option (Boxed (T := ApiGenesisState))) unit := Reset GenesisState_messageType.
Definition ApiGenesisState_String (x : option ApiGenesisState) : string := MessageStringOf fastReflection_GenesisState x.
Definition ApiGenesisState_Descriptor : ST GzipVars (bytes * list Z) := Descriptor_path GenesisState_messageType.
Definition ApiGenesisState_Mutable := Mutable fastReflection_GenesisState.
Definition ApiGenesisState_NewField := NewField fastReflection_GenesisState.
Definition ApiGenesisState_WhichOneof := WhichOneof fastReflection_GenesisState.
Definition ApiGenesisState_GetUnknown := GetUnknown fastReflection_GenesisState.
Definition ApiGenesisState_IsValid (x : option ApiGenesisState) : bool := IsValid x.
Definition ApiGenesisState_Unmarshal := Methods_Unmarshal ApiGenesisState_Methods.

Definition ApiParams_Reset : ST (option (Boxed (T := ApiParams))) unit := Reset Params_messageType.
Definition ApiParams_String (x : option ApiParams) : string := MessageStringOf fastReflection_Params x.
Definition ApiParams_Descriptor : ST GzipVars (bytes * list Z) := Descriptor_path Params_messageType.
Definition ApiParams_Mutable := Mutable fastReflection_Params.
Definition ApiParams_NewField := NewField fastReflection_Params.
Definition ApiParams_WhichOneof := WhichOneof fastReflection_Params.
Definition ApiParams_GetUnknown := GetUnknown fastReflection_Params.
Definition ApiParams_IsValid (x : option ApiParams) : bool := IsValid x.
Definition ApiParams_Unmarshal := Methods_Unmarshal ApiParams_Methods.

(** ** builder/v1/query.pulsar.go *)

Definition file_pob_builder_v1_query_proto_rawDescData : GzipVars := MkGzipVars false file_pob_builder_v1_query_proto_rawDesc.
Definition file_pob_builder_v1_query_proto_rawDescGZIP : ST GzipVars bytes := rawDescGZIP.

Definition ApiQueryParamsRequest_Reset : ST (option (Boxed (T := ApiEmpty))) unit := Reset QueryParamsRequest_messageType.
Definition ApiQueryParamsRequest_String (x : option ApiEmpty) : string := MessageStringOf fastReflection_QueryParamsRequest x.
Definition ApiQueryParamsRequest_Descriptor : ST GzipVars (bytes * list Z) := Descriptor_path QueryParamsRequest_messageType.

Definition ApiQueryParamsResponse_Reset : ST (option (Boxed (T := ApiQueryParamsResponse))) unit := Reset QueryParamsResponse_messageType.
Definition ApiQueryParamsResponse_String (x : option ApiQueryParamsResponse) : string := MessageStringOf fastReflection_QueryParamsResponse x.
Definition ApiQueryParamsResponse_Descriptor : ST GzipVars (bytes * list Z) := Descriptor_path QueryParamsResponse_messageType.
Definition ApiQueryParamsResponse_Mutable := Mutable fastReflection_QueryParamsResponse.
Definition ApiQueryParamsResponse_NewField := NewField fastReflection_QueryParamsResponse.
Definition ApiQueryParamsResponse_WhichOneof := WhichOneof fastReflection_QueryParamsResponse.
Definition ApiQueryParamsResponse_GetUnknown := GetUnknown fastReflection_QueryParamsResponse.
Definition ApiQueryParamsResponse_IsValid (x : option ApiQueryParamsResponse) : bool := IsValid x.
Definition ApiQueryParamsResponse_Unmarshal := Methods_Unmarshal ApiQueryParamsResponse_Methods.

(** ** builder/v1/tx.pulsar.go *)

Definition file_pob_builder_v1_tx_proto_rawDescData : GzipVars := MkGzipVars false file_pob_builder_v1_tx_proto_rawDesc.
Definition file_pob_builder_v1_tx_proto_rawDescGZIP : ST GzipVars bytes := rawDescGZIP.

Definition ApiMsgAuctionBid_Reset : ST (option (Boxed (T := ApiMsgAuctionBid))) unit := Reset MsgAuctionBid_messageType.
Definition ApiMsgAuctionBid_String (x : option ApiMsgAuctionBid) : string := MessageStringOf fastReflection_MsgAuctionBid x.
Definition ApiMsgAuctionBid_Descriptor : ST GzipVars (bytes * list Z) := Descriptor_path MsgAuctionBid_messageType.
Definition ApiMsgAuctionBid_Mutable := Mutable fastReflection_MsgAuctionBid.
Definition ApiMsgAuctionBid_NewField := NewField fastReflection_MsgAuctionBid.
Definition ApiMsgAuctionBid_WhichOneof := WhichOneof fastReflection_MsgAuctionBid.
Definition ApiMsgAuctionBid_GetUnknown := GetUnknown fastReflection_MsgAuctionBid.
Definition ApiMsgAuctionBid_IsValid (x : option ApiMsgAuctionBid) : bool := IsValid x.
Definition ApiMsgAuctionBid_Unmarshal := Methods_Unmarshal ApiMsgAuctionBid_Methods.

Definition ApiMsgAuctionBidResponse_Reset : ST (option (Boxed (T := ApiEmpty))) unit := Reset MsgAuctionBidResponse_messageType.
Definition ApiMsgAuctionBidResponse_String (x : option ApiEmpty) : string := MessageStringOf fastReflection_MsgAuctionBidResponse x.
Definition ApiMsgAuctionBidResponse_Descriptor : ST GzipVars (bytes * list Z) := Descriptor_path MsgAuctionBidResponse_messageType.

Definition ApiMsgUpdateParams_Reset : ST (option (Boxed (T := ApiMsgUpdateParams))) unit := Reset MsgUpdateParams_messageType.
Definition ApiMsgUpdateParams_String (x : option ApiMsgUpdateParams) : string := MessageStringOf fastReflection_MsgUpdateParams x.
Definition ApiMsgUpdateParams_Descriptor : ST GzipVars (bytes * list Z) := Descriptor_path MsgUpdateParams_messageType.
Definition ApiMsgUpdateParams_Mutable := Mutable fastReflection_MsgUpdateParams.
Definition ApiMsgUpdateParams_NewField := NewField fastReflection_MsgUpdateParams.
Definition ApiMsgUpdateParams_WhichOneof := WhichOneof fastReflection_MsgUpdateParams.
Definition ApiMsgUpdateParams_GetUnknown := GetUnknown fastReflection_MsgUpdateParams.
Definition ApiMsgUpdateParams_IsValid (x : option ApiMsgUpdateParams) : bool := IsValid x.
Definition ApiMsgUpdateParams_Unmarshal := Methods_Unmarshal ApiMsgUpdateParams_Methods.

Definition ApiMsgUpdateParamsResponse_Reset : ST (option (Boxed (T := ApiEmpty))) unit := Reset MsgUpdateParamsResponse_messageType.
Definition ApiMsgUpdateParamsResponse_String (x : option ApiEmpty) : string := MessageStringOf fastReflection_MsgUpdateParamsResponse x.
Definition ApiMsgUpdateParamsResponse_Descriptor : ST GzipVars (bytes * list Z) := Descriptor_path MsgUpdateParamsResponse_messageType.

(** ** builder/module/v1/module.pulsar.go *)

Definition file_pob_builder_module_v1_module_proto_rawDescData : GzipVars := MkGzipVars false file_pob_builder_module_v1_module_proto_rawDesc.
Definition file_pob_builder_module_v1_module_proto_rawDescGZIP : ST GzipVars bytes := rawDescGZIP.

Definition ApiModule_Reset : ST (option (Boxed (T := ApiModule))) unit := Reset Module_messageType.
Definition ApiModule_String (x : option ApiModule) : string := MessageStringOf fastReflection_Module x.
Definition ApiModule_Descriptor : ST GzipVars (bytes * list Z) := Descriptor_path Module_messageType.
Definition ApiModule_Mutable := Mutable fastReflection_Module.
Definition ApiModule_NewField := NewField fastReflection_Module.
Definition ApiModule_WhichOneof := WhichOneof fastReflection_Module.
Definition ApiModule_GetUnknown := GetUnknown fastReflection_Module.
Definition ApiModule_IsValid (x : option ApiModule) : bool := IsValid x.
Definition ApiModule_Unmarshal := Methods_Unmarshal ApiModule_Methods.

(** ** abci/v1/auction.pulsar.go *)

Definition file_pob_abci_v1_auction_proto_rawDescData : GzipVars := MkGzipVars false file_pob_abci_v1_auction_proto_rawDesc.
Definition file_pob_abci_v1_auction_proto_rawDescGZIP : ST GzipVars bytes := rawDescGZIP.

Definition ApiAuctionInfo_Reset : ST (option (Boxed (T := ApiAuctionInfo))) unit := Reset AuctionInfo_messageType.
Definition ApiAuctionInfo_String (x : option ApiAuctionInfo) : string := MessageStringOf fastReflection_AuctionInfo x.
Definition ApiAuctionInfo_Descriptor : ST GzipVars (bytes * list Z) := Descriptor_path AuctionInfo_messageType.
Definition ApiAuctionInfo_Mutable := Mutable fastReflection_AuctionInfo.
Definition ApiAuctionInfo_NewField := NewField fastReflection_AuctionInfo.
Definition ApiAuctionInfo_WhichOneof := WhichOneof fastReflection_AuctionInfo.
Definition ApiAuctionInfo_GetUnknown := GetUnknown fastReflection_AuctionInfo.
Definition ApiAuctionInfo_IsValid (x : option ApiAuctionInfo) : bool := IsValid x.
Definition ApiAuctionInfo_Unmarshal := Methods_Unmarshal ApiAuctionInfo_Methods.

Definition ApiVoteExtensionInfo_Reset : ST (option (Boxed (T := ApiVoteExtensionInfo))) unit := Reset VoteExtensionInfo_messageType.
Definition ApiVoteExtensionInfo_String (x : option ApiVoteExtensionInfo) : string := MessageStringOf fastReflection_VoteExtensionInfo x.
Definition ApiVoteExtensionInfo_Descriptor : ST GzipVars (bytes * list Z) := Descriptor_path VoteExtensionInfo_messageType.
Definition ApiVoteExtensionInfo_Mutable := Mutable fastReflection_VoteExtensionInfo.
Definition ApiVoteExtensionInfo_NewField := NewField fastReflection_VoteExtensionInfo.
Definition ApiVoteExtensionInfo_WhichOneof := WhichOneof fastReflection_VoteExtensionInfo.
Definition ApiVoteExtensionInfo_GetUnknown := GetUnknown fastReflection_VoteExtensionInfo.
Definition ApiVoteExtensionInfo_IsValid (x : option ApiVoteExtensionInfo) : bool := IsValid x.
Definition ApiVoteExtensionInfo_Unmarshal := Methods_Unmarshal ApiVoteExtensionInfo_Methods.

(** ** What they do *)

(** The compressed descriptor is computed by the first call. *)
Lemma rawDescGZIP_once (raw : bytes) :
  let '(r, g) := rawDescGZIP (MkGzipVars false raw) in
  r = Ret (CompressGZIP raw) /\ rawDescGZIP g = (r, g).
Proof. done. Qed.

(** Resetting a message leaves one without a populated field and without unknown fields; a nil one panics. *)
Definition resets {T} (mt : MessageType T) (reset : ST (option (Boxed (T := T))) unit) : Prop :=
  (exists w, reset None = (Panic w, None)) /\
  forall b, exists b', reset (Some b) = (Ret tt, Some b') /\
    Forall (fun f => populated f (b_msg b') = false) (fields (mt_fast mt)) /\ unknownFields (mt_fast mt) (b_msg b') = [].

Lemma messages_reset :
  resets GenesisState_messageType ApiGenesisState_Reset /\
  resets Params_messageType ApiParams_Reset /\
  resets QueryParamsRequest_messageType ApiQueryParamsRequest_Reset /\
  resets QueryParamsResponse_messageType ApiQueryParamsResponse_Reset /\
  resets MsgAuctionBid_messageType ApiMsgAuctionBid_Reset /\
  resets MsgAuctionBidResponse_messageType ApiMsgAuctionBidResponse_Reset /\
  resets MsgUpdateParams_messageType ApiMsgUpdateParams_Reset /\
  resets MsgUpdateParamsResponse_messageType ApiMsgUpdateParamsResponse_Reset /\
  resets Module_messageType ApiModule_Reset /\
  resets AuctionInfo_messageType ApiAuctionInfo_Reset /\
  resets VoteExtensionInfo_messageType ApiVoteExtensionInfo_Reset.
Proof.
  split_and!; (split; [by eexists|]); intros b; eexists; (split; [reflexivity|]);
    (split; [repeat (apply List.Forall_cons; [reflexivity|]); apply List.Forall_nil|reflexivity]).
Qed.

(** The path of a message leads to its descriptor in the compressed file. *)
Definition located {T} (mt : MessageType T) (descriptor : ST GzipVars (bytes * list Z)) : Prop :=
  let raw := pf_rawDesc (mt_file mt) in
  fst (descriptor (MkGzipVars false raw)) = Ret (CompressGZIP raw, [Z.of_nat (mt_index mt)]) /\
  (fun m => qualify (fp_package (read_file raw)) (m_name m)) <$> fp_messages (read_file raw) !! mt_index mt
    = Some (full_name (mt_fast mt)).

Lemma messages_located :
  located GenesisState_messageType ApiGenesisState_Descriptor /\
  located Params_messageType ApiParams_Descriptor /\
  located QueryParamsRequest_messageType ApiQueryParamsRequest_Descriptor /\
  located QueryParamsResponse_messageType ApiQueryParamsResponse_Descriptor /\
  located MsgAuctionBid_messageType ApiMsgAuctionBid_Descriptor /\
  located MsgAuctionBidResponse_messageType ApiMsgAuctionBidResponse_Descriptor /\
  located MsgUpdateParams_messageType ApiMsgUpdateParams_Descriptor /\
  located MsgUpdateParamsResponse_messageType ApiMsgUpdateParamsResponse_Descriptor /\
  located Module_messageType ApiModule_Descriptor /\
  located AuctionInfo_messageType ApiAuctionInfo_Descriptor /\
  located VoteExtensionInfo_messageType ApiVoteExtensionInfo_Descriptor.
Proof. split_and!; (split; [reflexivity|vm_compute; reflexivity]). Qed.
End Accessors.
