(* ===== verification/Builder.v ===== *)
(** * x/builder: the keeper, the message and query servers, the reward providers, the ante decorator

    keeper/keeper.go, keeper/auction.go, keeper/msg_server.go, keeper/genesis.go,
    keeper/grpc_query.go, rewards/*.go, ante/ante.go.  The keeper works on the chain state
    ([Store]); the ante decorator also on the mempools ([State]). *)
From S2P Require Import Prelude Hash Sdk LaneMempool Lane AuctionLane BuilderTypes.

Section Keeper.
Context {sdk : Sdk} {PC : ParamsCodec}.

(** ** rewards *)

Definition FixedAddress_GetRewardsAddress (rewardsAddress : bytes) (s : Store) : result bytes :=
  if len rewardsAddress =? 0 then Err (Errorf "rewards address is empty") else Ok rewardsAddress.

Definition Proposer_GetRewardsAddress (s : Store) : result bytes :=
  prevPropConsAddr ← GetPreviousProposerConsAddr s;
  prevProposer ← GetValidatorByConsAddr s prevPropConsAddr;
  mret prevProposer.

(** ** keeper/keeper.go *)

Record Keeper : Type := MkKeeper {
  authority : string;
  rewardsAddressProvider : Store -> result bytes }.

(** [moduleAddress]: what the account keeper knows of the module account. *)
Definition NewKeeperWithRewardsAddressProvider (moduleAddress : option bytes)
    (rewardsAddressProvider : Store -> result bytes) (authority : string) : outcome Keeper :=
  match AccAddressFromBech32 authority with
  | Err err => Panic "invalid authority"
  | Ok _ =>
      match moduleAddress with
      | None => Panic "builder module account has not been set"
      | Some _ => Ret {| authority := authority; rewardsAddressProvider := rewardsAddressProvider |}
      end
  end.

Definition NewKeeper (moduleAddress : option bytes) (authority : string) : outcome Keeper :=
  NewKeeperWithRewardsAddressProvider moduleAddress Proposer_GetRewardsAddress authority.

Definition GetAuthority (k : Keeper) : string := authority k.

Definition GetParams (store : Store) : result Params :=
  let bz := kv_Get store KeyParams in
  if len bz =? 0 then Err (Errorf "no params found for the builder module")
  else codec_Unmarshal bz.

Definition SetParams (params : Params) : ST Store (option error) :=
  bz ← st_lift (codec_Marshal params);
  match bz with
  | Err err => mret (Some err)
  | Ok bz => _ ← st_modify (kv_Set KeyParams bz); mret None
  end.

Definition GetMaxBundleSize (store : Store) : result Z :=
  params ← GetParams store; mret (MaxBundleSize params).
Definition GetEscrowAccount (store : Store) : result (option bytes) :=
  params ← GetParams store; mret (EscrowAccountAddress params).
Definition GetReserveFee (store : Store) : result Coin :=
  params ← GetParams store; mret (ReserveFee params).
Definition GetMinBidIncrement (store : Store) : result Coin :=
  params ← GetParams store; mret (MinBidIncrement params).
Definition GetProposerFee (store : Store) : result Dec :=
  params ← GetParams store; mret (ProposerFee params).
Definition FrontRunningProtectionEnabled (store : Store) : result bool :=
  params ← GetParams store; mret (FrontRunningProtection params).

(** ** keeper/auction.go *)

Definition ValidateAuctionBid (store : Store) (bidder : bytes) (bid highestBid : Coin)
    : outcome (option error) :=
  if Coin_IsNil bid then mret (Some (Errorf "bid amount cannot be nil"))
  else
    match GetReserveFee store with
    | Err err => mret (Some err)
    | Ok reserveFee =>
        if negb (bool_decide (Denom bid = Denom reserveFee)) then
          mret (Some (Errorf "bid denom does not match the reserve fee denom"))
        else
          enough ← Coin_IsGTE bid reserveFee;
          if negb enough then mret (Some (Errorf "bid amount is less than the reserve fee"))
          else
            let funds :=
              let balances := bank_GetBalance store bidder (Denom bid) in
              covered ← Coin_IsGTE balances bid;
              mret (if negb covered then Some (Errorf "insufficient funds to bid") else None) in
            if negb (Coin_IsNil highestBid) then
              match GetMinBidIncrement store with
              | Err err => mret (Some err)
              | Ok minBidIncrement =>
                  if negb (bool_decide (Denom minBidIncrement = Denom bid)) then
                    mret (Some (Errorf "min bid increment denom does not match the bid denom"))
                  else
                    minBid ← Coin_Add highestBid minBidIncrement;
                    higher ← Coin_IsGTE bid minBid;
                    if negb higher then
                      mret (Some (Errorf "bid amount is less than the highest bid + min bid increment"))
                    else funds
              end
            else funds
    end.

(** [filterSigners] deletes from the first map what is not in the second. *)
Definition filterSigners (currentSigners txSigners : gset string) : gset string :=
  currentSigners ∩ txSigners.

(** keeper/errors.go *)
Definition NewFrontRunningError : error := FrontRunning.
Definition FrontRunningError_Error : string :=
  "bundle contains transactions signed by multiple parties; possible front-running or sandwich attack".

(** The loop of [ValidateAuctionBundle].  [prevSigners] is the map of the first transaction,
    mutated in place, until it is replaced by a new map ([own]); [first] is the caller's map. *)
Fixpoint bundle_loop (bidder : string) (first prevSigners : gset string) (own seenBidder : bool)
    (rest : list (gset string)) : option error * gset string :=
  match rest with
  | [] => (None, first)
  | txSigners :: rest =>
      let prevSigners := filterSigners prevSigners txSigners in
      let first := if own then first else prevSigners in
      if bool_decide (prevSigners = ∅) then
        if seenBidder then (Some NewFrontRunningError, first)
        else
          let prevSigners := filterSigners {[ bidder ]} txSigners in
          if bool_decide (prevSigners = ∅) then (Some NewFrontRunningError, first)
          else bundle_loop bidder first prevSigners true true rest
      else bundle_loop bidder first prevSigners own seenBidder rest
  end.

(** The result, and the signers the caller is left with. *)
Definition ValidateAuctionBundle (bidder : bytes) (bundleSigners : list (gset string))
    : option error * list (gset string) :=
  match bundleSigners with
  | first :: (_ :: _) as rest =>
      let seenBidder := bool_decide (AccAddress_String bidder ∈ first) in
      let '(err, first) := bundle_loop (AccAddress_String bidder) first first false seenBidder rest in
      (err, first :: rest)
  | _ => (None, bundleSigners)
  end.

Definition ValidateBidInfo (store : Store) (highestBid : Coin) (bidInfo : BidInfo)
    : outcome (option error) :=
  match GetMaxBundleSize store with
  | Err err => mret (Some err)
  | Ok maxBundleSize =>
      if maxBundleSize <? wrap_u32 (len (Transactions bidInfo)) then
        mret (Some (Errorf "bundle size exceeds max bundle size"))
      else
        err ← ValidateAuctionBid store (Bidder bidInfo) (Bid bidInfo) highestBid;
        match err with
        | Some err => mret (Some err)
        | None =>
            match FrontRunningProtectionEnabled store with
            | Err err => mret (Some err)
            | Ok protectionEnabled =>
                if protectionEnabled : bool then
                  mret (fst (ValidateAuctionBundle (Bidder bidInfo) (Signers bidInfo)))
                else mret None
            end
        end
  end.

(** ** keeper/msg_server.go *)

(** The event [AuctionBid] emits. *)
Record AuctionBidEvent : Type := MkEvent {
  ev_bidder : string;
  ev_bid : string;
  ev_proposer_reward : string;
  ev_bundled_txs : string }.

(** Paying a bid: the proposer's share, nil without one. *)
Definition pay_bid (k : Keeper) (params : Params) (bidder : bytes) (bid : Coin)
    : ST Store (option error * Coins) :=
  let escrowAddress := default [] (EscrowAccountAddress params) in
  if Dec_IsZero (ProposerFee params) then
    coins ← st_lift (NewCoins [bid]);
    err ← bank_SendCoins bidder escrowAddress coins;
    mret (err, None)
  else
    provided ← st_gets (rewardsAddressProvider k);
    let rewardsAddress := match provided with Ok addr => addr | Err _ => escrowAddress end in
    bid ← st_lift (NewDecCoinsFromCoins [bid]);
    let proposerReward := fst (DecCoins_TruncateDecimal (DecCoins_MulDecTruncate bid (ProposerFee params))) in
    err ← bank_SendCoins bidder rewardsAddress proposerReward;
    match err with
    | Some err => mret (Some err, proposerReward)
    | None =>
        reward ← st_lift (NewDecCoinsFromCoins (coins_list proposerReward));
        escrowTotal ← st_lift (DecCoins_Sub bid reward);
        let escrowReward := fst (DecCoins_TruncateDecimal escrowTotal) in
        err ← bank_SendCoins bidder escrowAddress escrowReward;
        mret (err, proposerReward)
    end.

Definition AuctionBid (k : Keeper) (msg : MsgAuctionBid) : ST Store (result AuctionBidEvent) :=
  match AccAddressFromBech32 (msg_Bidder msg) with
  | Err err => mret (Err err)
  | Ok bidder =>
      params ← st_gets GetParams;
      match params with
      | Err err => mret (Err err)
      | Ok params =>
          if MaxBundleSize params <? wrap_u32 (len (msg_Transactions msg)) then
            mret (Err (Errorf "the number of transactions in the bid is greater than the maximum allowed"))
          else
            '(err, proposerReward) ← pay_bid k params bidder (msg_Bid msg);
            match err with
            | Some err => mret (Err err)
            | None =>
                mret (Ok {| ev_bidder := msg_Bidder msg;
                            ev_bid := Coin_String (msg_Bid msg);
                            ev_proposer_reward := Coins_String proposerReward;
                            ev_bundled_txs := strings_Join
                              (map (fun refTxRaw => hex_EncodeToString (Sum256 refTxRaw)) (msg_Transactions msg)) "," |})
            end
      end
  end.

(** types/events.go, and what is emitted: the type of the event and its attributes. *)
Definition EventTypeAuctionBid : string := "auction_bid".
Definition EventAttrBidder : string := "bidder".
Definition EventAttrBid : string := "bid".
Definition EventAttrProposerReward : string := "proposer_reward".
Definition EventAttrBundledTxs : string := "bundled_txs".
Definition sdk_event (e : AuctionBidEvent) : string * list (string * string) :=
  (EventTypeAuctionBid,
   [(EventAttrBidder, ev_bidder e); (EventAttrBid, ev_bid e);
    (EventAttrProposerReward, ev_proposer_reward e); (EventAttrBundledTxs, ev_bundled_txs e)]).

Definition UpdateParams (k : Keeper) (msg : MsgUpdateParams) : ST Store (result unit) :=
  if negb (bool_decide (Authority msg = GetAuthority k)) then
    mret (Err (Errorf "this message can only be executed by the authority"))
  else
    err ← SetParams (mup_Params msg);
    match err with
    | Some err => mret (Err err)
    | None => mret (Ok tt)
    end.

(** ** keeper/genesis.go, keeper/grpc_query.go *)

Definition InitGenesis (gs : GenesisState) : ST Store unit :=
  err ← SetParams (gs_Params gs);
  match err with
  | Some err => st_panic "failed to set the params"
  | None => mret tt
  end.

Definition ExportGenesis (store : Store) : outcome GenesisState :=
  match GetParams store with
  | Err err => Panic "failed to get the params"
  | Ok params => Ret (NewGenesisState params)
  end.

(** The response holds the parameters. *)
Definition QueryServer_Params (store : Store) : result Params := GetParams store.
End Keeper.

(** ** ante/ante.go *)

Section Ante.
Context {sdk : Sdk} {PC : ParamsCodec} {M : Type} {LM : LaneMempool M}.
Abbreviation State := (Lane.State (M := M)).

(** The lane and the mempool the decorator asks. *)
Record BuilderDecorator : Type := NewBuilderDecorator {
  bd_txEncoder : TxEncoder;
  bd_GetAuctionBidInfo : Tx -> result (option BidInfo);
  bd_GetTopAuctionTx : Context -> ST State (option Tx);
  bd_Contains : Tx -> ST State bool }.

Definition ValidateTimeout (ctx : Context) (timeout : Z) : option error :=
  let currentBlockHeight :=
    if ctx_IsCheckTx ctx || ctx_IsReCheckTx ctx then wrap_i64 (ctx_BlockHeight ctx + 1)
    else ctx_BlockHeight ctx in
  if timeout <? currentBlockHeight then
    Some (Errorf "timeout height cannot be less than the current block height")
  else None.

(** The bid to beat: the top bid of the mempool when checking transactions, unless it is the
    transaction itself; nil otherwise. *)
Definition top_bid (bd : BuilderDecorator) (ctx : Context) (tx : Tx) : ST State (result Coin) :=
  let none := {| Denom := ""; Amount := None |} in
  if ctx_IsCheckTx ctx || ctx_IsReCheckTx ctx then
    topBidTx ← bd_GetTopAuctionTx bd ctx;
    match topBidTx with
    | None => mret (Ok none)
    | Some topBidTx =>
        match bd_txEncoder bd topBidTx with
        | Err err => mret (Err err)
        | Ok topBidBz =>
            match bd_txEncoder bd tx with
            | Err err => mret (Err err)
            | Ok currentTxBz =>
                if negb (bool_decide (topBidBz = currentTxBz)) then
                  match bd_GetAuctionBidInfo bd topBidTx with
                  | Err err => mret (Err err)
                  | Ok None => st_lift nil_deref
                  | Ok (Some topBidInfo) => mret (Ok (Bid topBidInfo))
                  end
                else mret (Ok none)
            end
        end
    end
  else mret (Ok none).

Definition AnteHandle (bd : BuilderDecorator) (ctx : Context) (tx : Tx) (simulate : bool)
    (next : AnteHandler (M := M)) : ST State (Context * option error) :=
  contains ← (if ctx_IsReCheckTx ctx then bd_Contains bd tx else mret true);
  if negb contains then
    mret (ctx, Some (Errorf "transaction not found in application-side mempool"))
  else
    match bd_GetAuctionBidInfo bd tx with
    | Err err => mret (ctx, Some err)
    | Ok None => next ctx tx simulate
    | Ok (Some bidInfo) =>
        match ValidateTimeout ctx (wrap_i64 (Timeout bidInfo)) with
        | Some err => mret (ctx, Some err)
        | None =>
            topBid ← top_bid bd ctx tx;
            match topBid with
            | Err err => mret (ctx, Some err)
            | Ok topBid =>
                st ← st_get;
                err ← st_lift (ValidateBidInfo (st_store st) topBid bidInfo);
                match err with
                | Some err => mret (ctx, Some (Wrap "failed to validate auction bid" err))
                | None => next ctx tx simulate
                end
            end
        end
    end.
End Ante.
