(* ===== verification/BuilderFacts.v ===== *)
(** * What the builder module guarantees

    Bundles, bids, payments, parameters, genesis and the ante decorator. *)
From S2P Require Import Prelude Hash Sdk SkipListFacts Concrete LaneMempool Lane LaneFacts AuctionLane AuctionFacts BuilderTypes Wire BuilderWire BuilderWireFacts Builder.
From Stdlib Require Import ZifyBool.
#[local] Open Scope Z_scope.

(** ** Bundles *)

Section Bundles.
Context {sdk : Sdk} {PC : ParamsCodec}.

(** Some signer signed all the transactions. *)
Definition common_signer (l : list (gset string)) : Prop := exists s, Forall (fun signers => s ∈ signers) l.

(** The first transactions have a common signer, the bidder signed the rest. *)
Definition searcher_bundle (bidder : string) (first : gset string) (rest : list (gset string)) : Prop :=
  common_signer (first :: rest) \/
  bidder ∉ first /\
  exists pre post, rest = pre ++ post /\ (pre = [] \/ common_signer (first :: pre)) /\
    Forall (fun signers => bidder ∈ signers) post.

Definition valid_bundle (bidder : string) (l : list (gset string)) : Prop :=
  match l with
  | first :: (_ :: _) as rest => searcher_bundle bidder first rest
  | _ => True
  end.

Lemma bundle_loop_seen b f prev own rest :
  fst (bundle_loop b f prev own true rest) = None <->
  rest = [] \/ exists s, s ∈ prev /\ Forall (fun signers => s ∈ signers) rest.
Proof.
  revert f prev own. induction rest as [|x rest IH]; intros f prev own; cbn [bundle_loop].
  - split; [by left|done].
  - unfold filterSigners. case_bool_decide as E; cbn [fst].
    + split; [done|]. intros [|(s & Hs & [Hx _]%list.Forall_cons)]; [done|]. set_solver.
    + rewrite IH. split.
      * intros [->|(s & Hs & Hr)]; right; [|exists s; split; [set_solver|constructor; [set_solver|done]]].
        apply set_choose_L in E as [s Hs]. exists s. split; [set_solver|]. constructor; [set_solver|done].
      * intros [|(s & Hs & [Hx Hr]%list.Forall_cons)]; [done|]. right. exists s. set_solver.
Qed.

Lemma bundle_loop_unseen b f prev rest :
  fst (bundle_loop b f prev false false rest) = None <->
  rest = [] \/ (exists s, s ∈ prev /\ Forall (fun signers => s ∈ signers) rest) \/
  exists pre post, rest = pre ++ post /\
    (pre = [] \/ exists s, s ∈ prev /\ Forall (fun signers => s ∈ signers) pre) /\
    Forall (fun signers => b ∈ signers) post.
Proof.
  revert f prev. induction rest as [|x rest IH]; intros f prev; cbn [bundle_loop].
  - split; [by left|done].
  - unfold filterSigners. case_bool_decide as E.
    + case_bool_decide as E'; cbn [fst].
      * split; [done|]. intros [|[(s & Hs & [Hx _]%list.Forall_cons)|(pre & post & Heq & Hpre & Hpost)]];
          [done|set_solver|]. destruct pre as [|y pre]; cbn in Heq; simplify_eq.
        -- apply list.Forall_cons in Hpost as [Hb _]. set_solver.
        -- destruct Hpre as [|(s & Hs & [Hx _]%list.Forall_cons)]; [done|set_solver].
      * rewrite bundle_loop_seen. split.
        -- intros H. right; right. exists [], (x :: rest). split; [done|]. split; [by left|].
           destruct H as [->|(s & Hs & Hr)].
           ++ constructor; [|done]. apply set_choose_L in E' as [s Hs]. set_solver.
           ++ apply elem_of_intersection in Hs as [->%elem_of_singleton Hs]. by constructor.
        -- intros [|[(s & Hs & [Hx _]%list.Forall_cons)|(pre & post & Heq & Hpre & Hpost)]];
             [done|set_solver|]. destruct pre as [|y pre]; cbn in Heq; simplify_eq.
           ++ apply list.Forall_cons in Hpost as [Hb Hr]. right. exists b. set_solver.
           ++ destruct Hpre as [|(s & Hs & [Hx _]%list.Forall_cons)]; [done|set_solver].
    + rewrite IH. apply set_choose_L in E as [s0 Hs0]. split.
      * intros [->|[(s & Hs & Hr)|(pre & post & -> & Hpre & Hpost)]].
        -- right; left. exists s0. split; [set_solver|]. constructor; [set_solver|done].
        -- right; left. exists s. split; [set_solver|]. constructor; [set_solver|done].
        -- right; right. exists (x :: pre), post. split; [done|]. split; [right|done].
           destruct Hpre as [->|(s & Hs & Hr)].
           ++ exists s0. split; [set_solver|]. constructor; [set_solver|done].
           ++ exists s. split; [set_solver|]. constructor; [set_solver|done].
      * intros [|[(s & Hs & [Hx Hr]%list.Forall_cons)|(pre & post & Heq & Hpre & Hpost)]]; [done| |].
        -- right; left. exists s. set_solver.
        -- destruct pre as [|y pre]; cbn in Heq; simplify_eq.
           ++ apply list.Forall_cons in Hpost as [Hb Hr]. right; right. exists [], rest. auto.
           ++ right; right. exists pre, post. split; [done|]. split; [|done]. right.
              destruct Hpre as [|(s & Hs & [Hx Hr]%list.Forall_cons)]; [done|]. exists s. set_solver.
Qed.

Lemma bundle_loop_error b f prev own seen rest :
  fst (bundle_loop b f prev own seen rest) = None \/
  fst (bundle_loop b f prev own seen rest) = Some FrontRunning.
Proof.
  revert f prev own seen. induction rest as [|x rest IH]; intros f prev own seen; cbn [bundle_loop]; [by left|].
  repeat case_bool_decide; repeat case_match; cbn [fst]; auto.
Qed.

(** The caller's first map only loses signers. *)
Lemma bundle_loop_caller b f prev own seen rest :
  (own = false -> prev ⊆ f) -> snd (bundle_loop b f prev own seen rest) ⊆ f.
Proof.
  revert f prev own seen. induction rest as [|x rest IH]; intros f prev own seen Hp; cbn [bundle_loop]; [done|].
  assert (Hsub : (if own then f else filterSigners prev x) ⊆ f).
  { unfold filterSigners. destruct own; [done|]. specialize (Hp eq_refl). set_solver. }
  repeat case_bool_decide; repeat case_match; cbn [snd]; try done;
    (etransitivity; [apply IH|]; done).
Qed.

(** C20: a bundle is accepted exactly when it has at most one transaction, or one account signed
    all of its transactions, or the bidder did not sign the first transaction and after a first
    group of transactions with a common signer the bidder signed every other one; anything else
    is rejected as front-running.  On the way the caller's signers of the first transaction may
    lose entries, nothing else changes. *)
Theorem ValidateAuctionBundle_spec (bidder : bytes) (bundleSigners : list (gset string)) :
  (fst (ValidateAuctionBundle bidder bundleSigners) = None <->
   valid_bundle (AccAddress_String bidder) bundleSigners) /\
  (fst (ValidateAuctionBundle bidder bundleSigners) = None \/
   fst (ValidateAuctionBundle bidder bundleSigners) = Some FrontRunning) /\
  Forall2 (⊆) (snd (ValidateAuctionBundle bidder bundleSigners)) bundleSigners /\
  tail (snd (ValidateAuctionBundle bidder bundleSigners)) = tail bundleSigners.
Proof.
  unfold ValidateAuctionBundle, valid_bundle.
  destruct bundleSigners as [|first [|x rest]];
    [cbn; repeat split; auto|cbn; repeat split; auto|].
  set (b := AccAddress_String bidder). set (loop := bundle_loop b first first false (bool_decide (b ∈ first)) (x :: rest)).
  pose proof (bundle_loop_error b first first false (bool_decide (b ∈ first)) (x :: rest)) as Herr.
  pose proof (bundle_loop_caller b first first false (bool_decide (b ∈ first)) (x :: rest) (fun _ => reflexivity first)) as Hsub.
  assert (Hiff : fst loop = None <-> searcher_bundle b first (x :: rest)).
  { unfold loop, searcher_bundle, common_signer. case_bool_decide as Hb.
    - rewrite bundle_loop_seen. split.
      + intros [|(s & Hs & Hr)]; [done|]. left. exists s. by constructor.
      + intros [(s & [Hs Hr]%list.Forall_cons)|[? _]]; [right; by exists s|done].
    - rewrite bundle_loop_unseen. split.
      + intros [|[(s & Hs & Hr)|(pre & post & Heq & Hpre & Hpost)]]; [done|left; exists s; by constructor|].
        right. split; [done|]. exists pre, post. split; [done|]. split; [|done].
        destruct Hpre as [->|(s & Hs & Hr)]; [by left|right; exists s; by constructor].
      + intros [(s & [Hs Hr]%list.Forall_cons)|(_ & pre & post & Heq & Hpre & Hpost)]; [right; left; by exists s|].
        right; right. exists pre, post. split; [done|]. split; [|done].
        destruct Hpre as [->|(s & [Hs Hr]%list.Forall_cons)]; [by left|right; by exists s]. }
  fold b loop in Herr, Hsub. destruct loop as [err first']. cbn [fst snd] in *.
  split; [done|]. split; [done|]. split; [|done]. constructor; [done|]. reflexivity.
Qed.
End Bundles.

(** ** Bids *)

Section Bids.
Context {sdk : Sdk} {CL : CoinLaws sdk} {DL : DecLaws sdk} {DCL : DecCoinLaws sdk} {BL : BankLaws sdk}
  {PC : ParamsCodec}.

(** When a bid is valid, branch by branch. *)
Lemma auction_bid_valid (s : Store) (p : Params) (bidder : bytes) (d : string) (b r i : Z)
    (highest : Coin) :
  GetParams s = Ok p ->
  Amount (ReserveFee p) = Some r -> Amount (MinBidIncrement p) = Some i ->
  (forall h, Amount highest = Some h -> Denom highest = d /\ Z.abs (h + i) < 2 ^ 256) ->
  exists res, ValidateAuctionBid s bidder (MkCoin d (Some b)) highest = Ret res /\
    (res = None <->
     d = Denom (ReserveFee p) /\ r <= b /\
     (forall h, Amount highest = Some h -> Denom (MinBidIncrement p) = d /\ h + i <= b) /\
     b <= balance s bidder d).
Proof.
  intros Hp Hr Hi Hh. destruct p as [mb esc [rd ra] [id ia] frp fee]. cbn in *. subst ra ia.
  destruct highest as [hd ha]. cbn in Hh.
  unfold ValidateAuctionBid, GetReserveFee, GetMinBidIncrement. rewrite Hp. st_unfold.
  cbn [ReserveFee MinBidIncrement Denom]. rewrite !coin_isnil. cbn [Amount].
  rewrite (bool_decide_eq_false_2 (Some b = None)) by done.
  case_bool_decide as Hd; cbn [negb]; [|eexists; split; [done|]; split; [done|by intros (? & _)]].
  subst rd. rewrite coin_gte. destruct (Z.leb_spec r b) as [Hrb|Hrb]; cbn [negb];
    [|eexists; split; [done|]; split; [done|lia]].
  rewrite bank_balance, coin_gte.
  destruct ha as [h|]; cbn [negb].
  - destruct (Hh h eq_refl) as [-> Hsum]. rewrite bool_decide_eq_false_2 by done. cbn [negb].
    case_bool_decide as Hid; cbn [negb].
    + subst id. rewrite coin_add, coin_gte by done.
      destruct (Z.leb_spec (h + i) b), (Z.leb_spec b (balance s bidder d)); cbn [negb];
        (eexists; split; [done|]); (split; [try done; intros _; split_and!; try done; intros h' [= <-]; auto|]);
        intros (_ & _ & Hall & Hle); try done; specialize (Hall h eq_refl); lia.
    + eexists; split; [done|]. split; [done|]. intros (_ & _ & Hall & _). by destruct (Hall h eq_refl).
  - rewrite bool_decide_eq_true_2 by done. cbn [negb].
    destruct (Z.leb_spec b (balance s bidder d)); cbn [negb];
      (eexists; split; [done|]); (split; [try done|]); intros (_ & _ & _ & Hle); try done; lia.
Qed.

(** C19: with well-formed parameters, and a highest bid of the bid's denomination if there is
    one, validating a bid never panics, and accepts it exactly when it is in the denomination of
    the reserve fee, reaches the reserve fee, exceeds the highest bid by at least the minimum
    increment (in the same denomination), and is covered by the bidder's balance. *)
Theorem ValidateAuctionBid_iff (s : Store) (p : Params) (bidder : bytes) (d : string) (b r i : Z)
    (highest : Coin) :
  GetParams s = Ok p ->
  Amount (ReserveFee p) = Some r -> Amount (MinBidIncrement p) = Some i ->
  (forall h, Amount highest = Some h -> Denom highest = d /\ Z.abs (h + i) < 2 ^ 256) ->
  exists res, ValidateAuctionBid s bidder (MkCoin d (Some b)) highest = Ret res /\
    (res = None <->
     d = Denom (ReserveFee p) /\ r <= b /\
     (forall h, Amount highest = Some h -> Denom (MinBidIncrement p) = d /\ h + i <= b) /\
     b <= balance s bidder d).
Proof. apply auction_bid_valid. Qed.

(** A highest bid of another denomination, from before a change of the parameters, makes the check of
    an otherwise valid bid panic. *)
Lemma old_denomination_panics (s : Store) (p : Params) bidder d b r i highest h :
  GetParams s = Ok p -> ReserveFee p = MkCoin d (Some r) -> MinBidIncrement p = MkCoin d (Some i) ->
  r <= b -> Amount highest = Some h -> Denom highest <> d ->
  exists w, ValidateAuctionBid s bidder (MkCoin d (Some b)) highest = Panic w.
Proof.
  intros Hp Hr Hi Hrb Hh Hd. unfold ValidateAuctionBid, GetReserveFee, GetMinBidIncrement. rewrite Hp. st_unfold.
  rewrite Hr, Hi, !coin_isnil. cbn [Denom Amount]. rewrite !(bool_decide_eq_true_2 (d = d)) by done. cbn [negb].
  rewrite bool_decide_eq_false_2 by done. rewrite coin_gte, (proj2 (Z.leb_le r b)) by done.
  rewrite bool_decide_eq_false_2 by (by rewrite Hh). cbn [negb].
  destruct (coin_add_mismatch highest (MkCoin d (Some i)) Hd) as [w ->]. by exists w.
Qed.

(** The funds an [AuctionBid] message moves: the proposer's share, rounded down, and the
    rest. *)
Definition proposer_share (a v : Z) : Z := a * v / dec_one.

Lemma share_bounds a v : 0 <= a -> 0 <= v <= dec_one -> 0 <= proposer_share a v <= a.
Proof.
  intros Ha Hv. unfold proposer_share, dec_one in *. split; [apply Z.div_pos; nia|].
  apply Z.div_le_upper_bound; nia.
Qed.

Lemma truncate_share a v : 0 <= a -> 0 <= v <= dec_one -> a * dec_one * v / dec_one / dec_one = proposer_share a v.
Proof.
  intros Ha Hv. unfold proposer_share.
  replace (a * dec_one * v) with (a * v * dec_one) by lia. by rewrite Z.div_mul by (unfold dec_one; lia).
Qed.

(** The account that gets the proposer's share: the escrow account when the provider fails. *)
Definition reward_account (k : Keeper) (p : Params) (s : Store) : bytes :=
  match rewardsAddressProvider k s with Ok addr => addr | Err _ => default [] (EscrowAccountAddress p) end.

(** The ledger after moving [share] to one account and [rest] to another. *)
Definition paid (s s' : Store) (bidder reward escrow : bytes) (d : string) (share rest : Z) : Prop :=
  forall a d', balance s' a d' = balance s a d'
    - (if decide (a = bidder /\ d' = d) then share + rest else 0)
    + (if decide (a = reward /\ d' = d) then share else 0)
    + (if decide (a = escrow /\ d' = d) then rest else 0).

(** A valid set of coins of one denomination. *)
Definition single (cs : Coins) (d : string) (a : Z) : Prop :=
  coins_valid cs /\ forall d', amount_of cs d' = if decide (d' = d) then a else 0.

Lemma send_single (s : Store) from to cs d a :
  single cs d a -> 0 <= a <= spendable s from d ->
  exists s', bank_SendCoins from to cs s = (Ret None, s') /\
    (forall x d', balance s' x d' = balance s x d'
       - (if decide (x = from /\ d' = d) then a else 0) + (if decide (x = to /\ d' = d) then a else 0)) /\
    spendable s from d - a <= spendable s' from d /\
    forall k, kv_Get s' k = kv_Get s k.
Proof.
  intros [Hval Hcs] Ha. destruct (bank_send_enough from to cs s) as [s' Hs']; [done| |].
  { intros d'. rewrite Hcs. pose proof (bank_spendable s from d'). case_decide; subst; lia. }
  exists s'. split; [done|]. split; [|split; [|intros k; by eapply bank_send_frame]].
  - intros x d'. rewrite (bank_send_ok _ _ _ _ _ Hs'), Hcs. repeat case_decide; naive_solver lia.
  - pose proof (bank_send_spendable _ _ _ _ _ Hs' from d) as Hsp. rewrite Hcs in Hsp. by rewrite !decide_True in Hsp.
Qed.

(** What the bid splits into: the share in coins, and the rest. *)
Lemma split_bid (p : Params) (c : Coin) a v :
  Amount c = Some a -> 0 <= a -> Coin_Validate c = None ->
  dec_val (ProposerFee p) = Some v -> 0 <= v <= dec_one ->
  exists ds es rs, NewDecCoinsFromCoins [c] = Ret ds /\
    let reward := fst (DecCoins_TruncateDecimal (DecCoins_MulDecTruncate ds (ProposerFee p))) in
    NewDecCoinsFromCoins (coins_list reward) = Ret es /\ DecCoins_Sub ds es = Ret rs /\
    single reward (Denom c) (proposer_share a v) /\
    single (fst (DecCoins_TruncateDecimal rs)) (Denom c) (a - proposer_share a v).
Proof.
  intros Ha Ha0 Hv Hfee Hv1. pose proof (share_bounds a v Ha0 Hv1) as Hb.
  assert (H1 : 0 < dec_one) by (unfold dec_one; lia).
  destruct (dec_from_coin c a Ha Hv) as (ds & Hds & Hamt). exists ds.
  assert (Hds0 : forall d, 0 <= dec_amount_of ds d) by (intros d; rewrite Hamt; case_decide; nia).
  set (ms := DecCoins_MulDecTruncate ds (ProposerFee p)).
  assert (Hms : forall d, dec_amount_of ms d = if decide (d = Denom c) then a * dec_one * v / dec_one else 0).
  { intros d. unfold ms. rewrite (mul_dec_truncate ds _ v d Hfee Hv1 Hds0), Hamt.
    case_decide; [done|]. by rewrite Z.mul_0_l, Z.div_0_l by lia. }
  assert (Hms0 : forall d, 0 <= dec_amount_of ms d).
  { intros d. rewrite Hms. case_decide; [|done]. apply Z.div_pos; nia. }
  assert (Hrew : single (fst (DecCoins_TruncateDecimal ms)) (Denom c) (proposer_share a v)).
  { split; [by apply truncate_valid|]. intros d. rewrite truncate_decimal, Hms by done. case_decide; [by apply truncate_share|].
    by rewrite Z.div_0_l by lia. }
  destruct (dec_from_truncated ms Hms0) as (es & Hes & Hesamt).
  destruct (dec_sub ds es) as (rs & Hrs & Hrsamt).
  { intros d. rewrite Hesamt, (proj2 Hrew), Hamt. case_decide; nia. }
  exists es, rs. split; [done|]. split; [done|]. split; [done|]. split; [done|].
  assert (Hrs' : forall d, dec_amount_of rs d
            = if decide (d = Denom c) then (a - proposer_share a v) * dec_one else 0).
  { intros d. rewrite Hrsamt, Hesamt, (proj2 Hrew), Hamt. case_decide; lia. }
  assert (Hrs0 : forall d, 0 <= dec_amount_of rs d) by (intros d; rewrite Hrs'; case_decide; nia).
  split; [by apply truncate_valid|]. intros d. rewrite truncate_decimal, Hrs' by done.
  case_decide; [by rewrite Z.div_mul by lia|by rewrite Z.div_0_l by lia].
Qed.

Lemma pay_bid_spec k p bidder c a v (s : Store) :
  Amount c = Some a -> 0 <= a -> Coin_Validate c = None ->
  dec_val (ProposerFee p) = Some v -> 0 <= v <= dec_one ->
  a <= spendable s bidder (Denom c) ->
  exists coins s', pay_bid k p bidder c s = (Ret (None, coins), s') /\
    paid s s' bidder (reward_account k p s) (default [] (EscrowAccountAddress p)) (Denom c)
      (proposer_share a v) (a - proposer_share a v) /\
    forall key, kv_Get s' key = kv_Get s key.
Proof.
  intros Ha Ha0 Hval Hfee Hv Hbal. pose proof (share_bounds a v Ha0 Hv) as Hb.
  unfold pay_bid, reward_account. rewrite (dec_iszero _ v Hfee). st_unfold.
  set (escrow := default [] (EscrowAccountAddress p)).
  destruct (Z.eqb_spec v 0) as [->|Hv0].
  - destruct (new_coins_spec c a Ha Ha0 Hval) as (cs & -> & Hcs).
    destruct (send_single s bidder escrow cs (Denom c) a Hcs) as (s' & -> & Hpaid & _ & Hkv); [lia|].
    exists None, s'. split; [done|]. split; [|done]. intros x d. rewrite Hpaid.
    unfold proposer_share. rewrite Z.mul_0_r, Z.div_0_l by (unfold dec_one; lia).
    repeat case_decide; lia.
  - destruct (split_bid p c a v Ha Ha0 Hval Hfee Hv) as (ds & es & rs & -> & Hes & Hrs & Hrew & Hrest).
    set (reward := match rewardsAddressProvider k s with Ok addr => addr | Err _ => escrow end).
    destruct (send_single s bidder reward _ (Denom c) _ Hrew) as (s1 & -> & Hpaid1 & Hsp1 & Hkv1); [lia|].
    rewrite Hes, Hrs.
    destruct (send_single s1 bidder escrow _ (Denom c) _ Hrest) as (s2 & -> & Hpaid2 & _ & Hkv2); [lia|].
    eexists _, s2. split; [done|]. split; [|intros key; by rewrite Hkv2].
    intros x d. rewrite Hpaid2, Hpaid1. repeat case_decide; lia.
Qed.

(** C18: a valid auction bid message that the bidder can spend succeeds, and moves exactly
    the bid: the proposer's share, rounded down, goes to the rewards account (the escrow account
    when the rewards provider fails), the rest of the bid to the escrow account, so the bidder
    pays the full bid and no remainder stays behind; the module's own state is untouched. *)
Theorem AuctionBid_moves_the_bid (k : Keeper) (msg : MsgAuctionBid) (s : Store) (p : Params)
    (bidder : bytes) (a v : Z) :
  AccAddressFromBech32 (msg_Bidder msg) = Ok bidder ->
  GetParams s = Ok p ->
  wrap_u32 (len (msg_Transactions msg)) <= MaxBundleSize p ->
  Amount (msg_Bid msg) = Some a -> 0 <= a -> Coin_Validate (msg_Bid msg) = None ->
  dec_val (ProposerFee p) = Some v -> 0 <= v <= dec_one ->
  a <= spendable s bidder (Denom (msg_Bid msg)) ->
  exists ev s', AuctionBid k msg s = (Ret (Ok ev), s') /\
    ev_bidder ev = msg_Bidder msg /\
    paid s s' bidder (reward_account k p s) (default [] (EscrowAccountAddress p)) (Denom (msg_Bid msg))
      (a * v / dec_one) (a - a * v / dec_one) /\
    forall key, kv_Get s' key = kv_Get s key.
Proof.
  intros Haddr Hp Hlen Ha Ha0 Hval Hfee Hv Hbal.
  destruct (pay_bid_spec k p bidder (msg_Bid msg) a v s) as (coins & s' & Hpay & Hpaid & Hkv); [done..|].
  unfold AuctionBid. rewrite Haddr. st_unfold. rewrite Hp.
  destruct (Z.ltb_spec (MaxBundleSize p) (wrap_u32 (len (msg_Transactions msg)))); [lia|].
  rewrite Hpay. eexists _, s'. split; [done|]. done.
Qed.

(** A bid of more coins than the bidder can spend is not paid, when neither account that gets a part of
    it is the bidder's own. *)
Lemma pay_bid_locked k p bidder c a v (s : Store) :
  Amount c = Some a -> 0 <= a -> Coin_Validate c = None ->
  dec_val (ProposerFee p) = Some v -> 0 <= v <= dec_one ->
  reward_account k p s <> bidder -> spendable s bidder (Denom c) < a ->
  exists err coins s', pay_bid k p bidder c s = (Ret (Some err, coins), s').
Proof.
  intros Ha Ha0 Hval Hfee Hv Hne Hlt. pose proof (share_bounds a v Ha0 Hv) as Hb.
  unfold pay_bid. unfold reward_account in Hne. rewrite (dec_iszero _ v Hfee). st_unfold.
  assert (Hsend : forall s to cs b, single cs (Denom c) b -> spendable s bidder (Denom c) < b ->
    exists err s', bank_SendCoins bidder to cs s = (Ret (Some err), s')).
  { intros s0 to cs b [Hcv Hcs] Hb0. apply (bank_send_locked _ _ _ _ (Denom c)); [done|]. by rewrite Hcs, decide_True. }
  destruct (Z.eqb_spec v 0) as [->|Hv0].
  - destruct (new_coins_spec c a Ha Ha0 Hval) as (cs & -> & Hcs).
    destruct (Hsend s (default [] (EscrowAccountAddress p)) cs a Hcs Hlt) as (err & s' & ->). by eexists _, _, _.
  - destruct (split_bid p c a v Ha Ha0 Hval Hfee Hv) as (ds & es & rs & -> & Hes & Hrs & Hrew & Hrest).
    set (reward := match rewardsAddressProvider k s with Ok addr => addr | Err _ => _ end) in *.
    match goal with |- context [bank_SendCoins bidder reward ?cs s] =>
      destruct (decide (spendable s bidder (Denom c) < proposer_share a v)) as [Hs|Hs];
      [destruct (Hsend s reward cs _ Hrew Hs) as (err & s' & ->); by eexists _, _, _|] end.
    destruct (send_single s bidder reward _ (Denom c) _ Hrew) as (s1 & E1 & _); [lia|].
    pose proof (bank_send_spent bidder reward _ s s1 (Denom c) ltac:(by intros ->) E1) as Hsp.
    rewrite (proj2 Hrew), decide_True in Hsp by done. rewrite E1, Hes, Hrs.
    destruct (Hsend s1 (default [] (EscrowAccountAddress p)) _ _ Hrest) as (err & s2 & ->); [lia|]. by eexists _, _, _.
Qed.

(** The check of a bid compares it with the balance, not with what the bidder can spend: a bid with
    locked coins that passes it fails when its message is delivered. *)
Theorem locked_bid_fails k msg (s : Store) p bidder a v r i highest :
  AccAddressFromBech32 (msg_Bidder msg) = Ok bidder -> GetParams s = Ok p ->
  Amount (msg_Bid msg) = Some a -> 0 <= a -> Coin_Validate (msg_Bid msg) = None ->
  dec_val (ProposerFee p) = Some v -> 0 <= v <= dec_one ->
  ReserveFee p = MkCoin (Denom (msg_Bid msg)) (Some r) -> Amount (MinBidIncrement p) = Some i -> Amount highest = None ->
  r <= a -> spendable s bidder (Denom (msg_Bid msg)) < a <= balance s bidder (Denom (msg_Bid msg)) ->
  reward_account k p s <> bidder ->
  ValidateAuctionBid s bidder (msg_Bid msg) highest = Ret None /\
  exists err s', AuctionBid k msg s = (Ret (Err err), s').
Proof.
  intros Haddr Hp Ha Ha0 Hval Hfee Hv Hres Hinc Hh Hra [Hsp Hbal] Hne. split.
  - destruct (msg_Bid msg) as [d o] eqn:Em. cbn in Ha, Hbal, Hres. subst o.
    destruct (auction_bid_valid s p bidder d a r i highest) as (res & Hr & Hiff);
      [done|by rewrite Hres|done|by intros h; rewrite Hh|].
    rewrite Hr. f_equal. apply Hiff. rewrite Hres. cbn. split_and!; try done. intros h. by rewrite Hh.
  - unfold AuctionBid. rewrite Haddr. st_unfold. rewrite Hp. destruct (_ <? _); [by eexists _, _|].
    destruct (pay_bid_locked k p bidder (msg_Bid msg) a v s) as (err & coins & s' & ->); [done..|]. by eexists _, _.
Qed.
End Bids.

(** ** Parameters and genesis *)

Section Parameters.
Context {sdk : Sdk} {CL : CoinLaws sdk} {DL : DecLaws sdk} {SL : StoreLaws sdk}
  {PC : ParamsCodec} {PL : ParamsCodecLaws PC}.

Lemma SetParams_GetParams (p : Params) (s : Store) :
  storable p -> exists s', SetParams p s = (Ret None, s') /\ GetParams s' = Ok p /\
    forall k, k <> KeyParams -> kv_Get s' k = kv_Get s k.
Proof.
  intros H. destruct (params_roundtrip p H) as (bz & Hm & Hne & Hu).
  unfold SetParams. st_unfold. rewrite Hm. eexists. split; [done|]. split.
  - unfold GetParams. rewrite kv_get_set, Hu.
    destruct bz as [|b bz]; [done|]. rewrite len_cons. pose proof (len_nonneg bz).
    by destruct (Z.eqb_spec (1 + len bz) 0); [lia|].
  - intros k Hk. by apply kv_get_set_ne.
Qed.

(** C22: the parameters change only by a message of the authority: any other sender gets an error
    and leaves the state as it was, and after the authority's message, if its parameters are
    [storable] (the escrow address is not an empty one), the keeper reads the new parameters back,
    nothing else of the module's store being touched. *)
Theorem UpdateParams_authority (k : Keeper) (msg : MsgUpdateParams) (s : Store) :
  storable (mup_Params msg) ->
  (Authority msg <> GetAuthority k ->
     exists err, UpdateParams k msg s = (Ret (Err err), s)) /\
  (Authority msg = GetAuthority k ->
     exists s', UpdateParams k msg s = (Ret (Ok tt), s') /\ GetParams s' = Ok (mup_Params msg) /\
       forall key, key <> KeyParams -> kv_Get s' key = kv_Get s key).
Proof.
  intros Hst. unfold UpdateParams. split; intros Ha.
  - rewrite bool_decide_eq_false_2 by done. eexists. done.
  - rewrite bool_decide_eq_true_2 by done. cbn [negb]. st_unfold.
    destruct (SetParams_GetParams (mup_Params msg) s Hst) as (s' & -> & Hg & Hk). by exists s'.
Qed.

(** A genesis state is exported as it was imported: after InitGenesis the export and the
    parameters query give it back, whatever the store held before. *)
Lemma InitGenesis_ExportGenesis (gs : GenesisState) (s : Store) :
  storable (gs_Params gs) ->
  exists s', InitGenesis gs s = (Ret tt, s') /\ ExportGenesis s' = Ret gs /\
    QueryServer_Params s' = Ok (gs_Params gs).
Proof.
  intros Hst. destruct (SetParams_GetParams (gs_Params gs) s Hst) as (s' & Hs' & Hg & _).
  exists s'. unfold InitGenesis, ExportGenesis, QueryServer_Params, NewGenesisState. st_unfold.
  rewrite Hs', Hg. by destruct gs.
Qed.

Lemma validateFee_iff (c : Coin) : validateFee c = None <-> Coin_Validate c = None.
Proof.
  unfold validateFee. rewrite coin_isnil. case_bool_decide as H; [|done].
  split; [done|]. intros Hv. apply coin_validate in Hv as (a & Ha & _). congruence.
Qed.

Lemma validateProposerFee_iff (d : Dec) :
  validateProposerFee d = None <-> exists v, dec_val d = Some v /\ 0 <= v <= dec_one.
Proof.
  unfold validateProposerFee. rewrite dec_isnil. destruct (dec_val d) as [v|] eqn:E; cbn.
  - rewrite (dec_isneg d v E), (dec_gt d _ v _ E dec_one_val).
    destruct (Z.ltb_spec v 0), (Z.ltb_spec dec_one v); split; try done;
      try (intros (w & [= <-] & ?); lia). intros _. exists v. auto.
  - split; [done|]. by intros (v & ? & _).
Qed.

(** Validating parameters never panics and accepts exactly those with an escrow address, a
    valid reserve fee and a valid, positive minimum increment of the same denomination, and a
    proposer fee between zero and one. *)
Lemma Params_Validate_spec (p : Params) :
  exists r, Params_Validate p = Ret r /\
    (r = None <->
     EscrowAccountAddress p <> None /\
     Coin_Validate (ReserveFee p) = None /\ Coin_Validate (MinBidIncrement p) = None /\
     Amount (MinBidIncrement p) <> Some 0 /\ Denom (ReserveFee p) = Denom (MinBidIncrement p) /\
     exists v, dec_val (ProposerFee p) = Some v /\ 0 <= v <= dec_one).
Proof.
  unfold Params_Validate. st_unfold.
  destruct (EscrowAccountAddress p) as [e|]; [|eexists; split; [done|]; naive_solver].
  destruct (validateFee (ReserveFee p)) eqn:Hr.
  { eexists; split; [done|]. split; [done|]. intros (_ & H & _). apply validateFee_iff in H. congruence. }
  apply validateFee_iff in Hr. destruct (validateFee (MinBidIncrement p)) eqn:Hi.
  { eexists; split; [done|]. split; [done|]. intros (_ & _ & H & _). apply validateFee_iff in H. congruence. }
  apply validateFee_iff in Hi. destruct (MinBidIncrement p) as [d oa].
  destruct (coin_validate _ Hi) as (a & Ha & Hb). cbn [Amount Denom] in *. subst oa.
  rewrite coin_new, coin_lte by (eauto using coin_validate_denom with lia).
  destruct (Z.leb_spec a 0); cbn [negb].
  { eexists; split; [done|]. split; [done|]. intros (_ & _ & _ & Hne & _). destruct Hne. f_equal. lia. }
  destruct (Nat.eqb_spec (size ({[Denom (ReserveFee p); d]} : gset string)) 1) as [Hs|Hs]; cbn [negb].
  - eexists; split; [done|]. rewrite validateProposerFee_iff.
    assert (Hd : Denom (ReserveFee p) = d).
    { apply size_1_elem_of in Hs as [x Hx]. set_solver. }
    split; [|by intros (_ & _ & _ & _ & _ & H')]. intros Hv. split_and!; try done. intros [= ->]. lia.
  - eexists; split; [done|]. split; [done|]. intros (_ & _ & _ & _ & Hd & _). destruct Hs. rewrite Hd.
    replace ({[d; d]} : gset string) with ({[d]} : gset string) by set_solver. apply size_singleton.
Qed.

(** An auction bid message passes its stateless checks exactly when the bidder is an
    address, the bid is a valid coin, and there is at least one transaction and no empty one. *)
Theorem MsgAuctionBid_ValidateBasic_iff (m : MsgAuctionBid) :
  MsgAuctionBid_ValidateBasic m = None <->
  (exists addr, AccAddressFromBech32 (msg_Bidder m) = Ok addr) /\ Coin_Validate (msg_Bid m) = None /\
  msg_Transactions m <> [] /\ Forall (fun tx => tx <> []) (msg_Transactions m).
Proof.
  unfold MsgAuctionBid_ValidateBasic.
  destruct (AccAddressFromBech32 (msg_Bidder m)) as [addr|]; [|split; [done|by intros [[? ?] _]]].
  rewrite coin_isnil. case_bool_decide as Hn.
  { split; [done|]. intros (_ & Hv & _). apply coin_validate in Hv as (a & Ha & _). congruence. }
  destruct (Coin_Validate (msg_Bid m)); [split; [done|by intros (_ & ? & _)]|].
  destruct (msg_Transactions m) as [|tx txs]; [split; [done|by intros (_ & _ & ? & _)]|].
  assert (Hlen : forall {A} (l : list A), (len l =? 0) = bool_decide (l = [])).
  { intros A [|x l]; [done|]. rewrite len_cons, bool_decide_eq_false_2 by done. pose proof (len_nonneg l). lia. }
  rewrite (Hlen _ (tx :: txs)), bool_decide_eq_false_2 by done.
  destruct (existsb _ _) eqn:E.
  - split; [done|]. intros (_ & _ & _ & Hf). apply existsb_exists in E as (t & Hin & Ht).
    rewrite List.Forall_forall in Hf. specialize (Hf t Hin). rewrite Hlen in Ht.
    by apply bool_decide_eq_true_1 in Ht.
  - split; [|done]. intros _. split; [by exists addr|]. split_and!; try done.
    apply List.Forall_forall. intros t Hin ->. apply not_true_iff_false in E. apply E.
    apply existsb_exists. by exists [].
Qed.
End Parameters.

(** ** The ante decorator *)

Section Decorator.
Context {sdk : Sdk} {PC : ParamsCodec} {M : Type} {LM : LaneMempool M}.
Abbreviation State := (Lane.State (M := M)).

(** The height the transaction will be executed at. *)
Definition next_height (ctx : Context) : Z :=
  if ctx_IsCheckTx ctx || ctx_IsReCheckTx ctx then ctx_BlockHeight ctx + 1 else ctx_BlockHeight ctx.

(** A bid accepted against a highest bid. *)
Definition acceptable (s : Store) (highest : Coin) (bi : BidInfo) : Prop :=
  exists p, GetParams s = Ok p /\ wrap_u32 (len (Transactions bi)) <= MaxBundleSize p /\
    ValidateAuctionBid s (Bidder bi) (Bid bi) highest = Ret None /\
    (FrontRunningProtection p = true -> fst (ValidateAuctionBundle (Bidder bi) (Signers bi)) = None).

Lemma ValidateBidInfo_iff (s : Store) highest bi :
  ValidateBidInfo s highest bi = Ret None <-> acceptable s highest bi.
Proof.
  unfold ValidateBidInfo, acceptable, GetMaxBundleSize, FrontRunningProtectionEnabled. st_unfold.
  destruct (GetParams s) as [p|]; [|split; [done|by intros (? & ? & _)]].
  destruct (Z.ltb_spec (MaxBundleSize p) (wrap_u32 (len (Transactions bi)))) as [Hl|Hl].
  { split; [done|]. intros (q & [= <-] & Hle & _). lia. }
  destruct (ValidateAuctionBid _ _ _ _) as [[err|]|]; [split; [done|by intros (? & _ & _ & ? & _)]| |
    split; [done|by intros (? & _ & _ & ? & _)]].
  destruct (FrontRunningProtection p) eqn:E.
  - split; [intros [= H]; by exists p|]. intros (q & [= <-] & _ & _ & H). by rewrite H.
  - split; [intros _; exists p; split_and!; try done; congruence|done].
Qed.

Lemma ValidateTimeout_iff ctx timeout :
  in_u64 timeout -> 0 <= ctx_BlockHeight ctx < 2 ^ 63 - 1 ->
  ValidateTimeout ctx (wrap_i64 timeout) = None <-> next_height ctx <= timeout < 2 ^ 63.
Proof.
  unfold ValidateTimeout, next_height, in_u64. intros Ht Hh.
  rewrite (wrap_i64_id (ctx_BlockHeight ctx + 1)) by (unfold in_i64; lia).
  assert (Hw : wrap_i64 timeout = if timeout <? 2 ^ 63 then timeout else timeout - 2 ^ 64).
  { unfold wrap_i64. destruct (Z.ltb_spec timeout (2 ^ 63)); [rewrite Z.mod_small; lia|].
    rewrite <- (Z_mod_plus_full _ (-1)), Z.mod_small; lia. }
  rewrite Hw. destruct (_ || _), (Z.ltb_spec timeout (2 ^ 63));
    match goal with |- context [?a <? ?b] => destruct (Z.ltb_spec a b) end; split; try done; lia.
Qed.

(** C21: a transaction passes the decorator only into the next handler, and a bid only after the
    checks: on a recheck the mempool still holds it; its timeout, read as a signed integer, is
    not before the height it will execute at, so timeouts of 2^63 and more are refused; and
    against the top bid of the mempool (no bid, outside of CheckTx) it satisfies the auction's
    rules: bundle size, bid, and, with front-running protection, the bundle's signers. *)
Theorem AnteHandle_accepts (bd : BuilderDecorator) (ctx : Context) (tx : Tx) (simulate : bool)
    (next : AnteHandler (M := M)) (st : State) (c : Context) (st' : State) :
  AnteHandle bd ctx tx simulate next st = (Ret (c, None), st') ->
  0 <= ctx_BlockHeight ctx < 2 ^ 63 - 1 ->
  (forall bi, bd_GetAuctionBidInfo bd tx = Ok (Some bi) -> in_u64 (Timeout bi)) ->
  exists st0 st1,
    (if ctx_IsReCheckTx ctx then bd_Contains bd tx st = (Ret true, st0) else st0 = st) /\
    next ctx tx simulate st1 = (Ret (c, None), st') /\
    (bd_GetAuctionBidInfo bd tx = Ok None /\ st1 = st0 \/
     exists bi topBid, bd_GetAuctionBidInfo bd tx = Ok (Some bi) /\
       next_height ctx <= Timeout bi < 2 ^ 63 /\
       top_bid bd ctx tx st0 = (Ret (Ok topBid), st1) /\
       (ctx_IsCheckTx ctx || ctx_IsReCheckTx ctx = false -> st1 = st0 /\ Amount topBid = None) /\
       acceptable (st_store st1) topBid bi).
Proof.
  unfold AnteHandle. st_unfold. intros H Hh Hto.
  set (m := (if ctx_IsReCheckTx ctx then bd_Contains bd tx else fun s => (Ret true, s))) in H.
  assert (Hm : forall r st0, m st = (Ret r, st0) ->
            r = true -> if ctx_IsReCheckTx ctx then bd_Contains bd tx st = (Ret true, st0) else st0 = st).
  { unfold m. intros r st0 Hr ->. destruct (ctx_IsReCheckTx ctx); [done|]. by injection Hr. }
  destruct (m st) as [[[|]|] st0]; cbn [negb] in H; [|done..]. specialize (Hm true st0 eq_refl eq_refl).
  exists st0. destruct (bd_GetAuctionBidInfo bd tx) as [[bi|]|] eqn:Hbi; [|by exists st0; eauto|done].
  destruct (ValidateTimeout ctx (wrap_i64 (Timeout bi))) eqn:Ht; [done|].
  apply ValidateTimeout_iff in Ht; [|by apply Hto|done].
  destruct (top_bid bd ctx tx st0) as [[[topBid|]|] st1] eqn:Htop; [|done..].
  destruct (ValidateBidInfo (st_store st1) topBid bi) as [[err|]|] eqn:Hv; [done| |done].
  exists st1. split; [done|]. split; [done|]. right. exists bi, topBid. split_and!; try done; try lia.
  - intros Hc. unfold top_bid in Htop. rewrite Hc in Htop. st_unfold in Htop. by simplify_eq.
  - by apply ValidateBidInfo_iff.
Qed.
End Decorator.

(** ** Witnesses *)

(** A store with the parameters and a balance of 1000 for every account. *)
Definition ex_funded : Store :=
  {| c_kv := {[ KeyParams := Params_bytes ex_params ]}; c_bal := fun _ _ => 1000; c_locked := fun _ _ => 0;
     c_proposer := Ok (ex_addr 99) |} : CStore.

Lemma ex_funded_params : GetParams ex_funded = Ok ex_params.
Proof.
  unfold GetParams. change (kv_Get ex_funded KeyParams) with (Params_bytes ex_params).
  destruct (Z.eqb_spec (len (Params_bytes ex_params)) 0) as [E|].
  - exfalso. revert E. vm_compute. done.
  - apply (Params_Unmarshal_bytes ex_params ex_params_ok).
Qed.

Lemma ValidateAuctionBid_iff_witness :
  exists res, ValidateAuctionBid ex_funded (ex_addr 1) (MkCoin "stake" (Some 7)) (MkCoin "stake" (Some 4)) = Ret res /\
    (res = None <->
     "stake"%string = Denom (ReserveFee ex_params) /\ 2 <= 7 /\
     (forall h, Amount (MkCoin "stake" (Some 4)) = Some h ->
        Denom (MinBidIncrement ex_params) = "stake"%string /\ h + 3 <= 7) /\
     7 <= balance ex_funded (ex_addr 1) "stake").
Proof.
  apply (ValidateAuctionBid_iff ex_funded ex_params (ex_addr 1) "stake" 7 2 3 (MkCoin "stake" (Some 4))).
  - apply ex_funded_params.
  - reflexivity.
  - reflexivity.
  - intros h [= <-]. split; [reflexivity|lia].
Defined.

Definition ex_keeper : Keeper :=
  {| authority := AccAddress_String (ex_addr 8); rewardsAddressProvider := Proposer_GetRewardsAddress |}.

Lemma AuctionBid_moves_the_bid_witness :
  exists ev s', AuctionBid ex_keeper ex_msg ex_funded = (Ret (Ok ev), s') /\
    ev_bidder ev = msg_Bidder ex_msg /\
    paid ex_funded s' (ex_addr 1) (reward_account ex_keeper ex_params ex_funded)
      (default [] (EscrowAccountAddress ex_params)) (Denom (msg_Bid ex_msg))
      (7 * (dec_one / 4) / dec_one) (7 - 7 * (dec_one / 4) / dec_one) /\
    forall key, kv_Get s' key = kv_Get ex_funded key.
Proof.
  apply (AuctionBid_moves_the_bid ex_keeper ex_msg ex_funded ex_params (ex_addr 1) 7 (dec_one / 4)).
  - apply address_roundtrip. discriminate.
  - apply ex_funded_params.
  - vm_compute. discriminate.
  - reflexivity.
  - lia.
  - reflexivity.
  - reflexivity.
  - vm_compute. split; discriminate.
  - vm_compute. discriminate.
Defined.

(** Account 1 has all its coins locked. *)
Definition ex_locked : Store :=
  {| c_kv := c_kv ex_funded; c_bal := c_bal ex_funded;
     c_locked := fun a _ => if decide (a = ex_addr 1) then 1000 else 0; c_proposer := c_proposer ex_funded |} : CStore.

Lemma locked_bid_fails_witness :
  ValidateAuctionBid ex_locked (ex_addr 1) (msg_Bid ex_msg) (MkCoin "" None) = Ret None /\
  exists err s', AuctionBid ex_keeper ex_msg ex_locked = (Ret (Err err), s').
Proof.
  apply (locked_bid_fails ex_keeper ex_msg ex_locked ex_params (ex_addr 1) 7 (dec_one / 4) 2 3).
  - apply address_roundtrip. discriminate.
  - apply ex_funded_params.
  - reflexivity.
  - lia.
  - reflexivity.
  - reflexivity.
  - vm_compute. split; discriminate.
  - reflexivity.
  - reflexivity.
  - reflexivity.
  - lia.
  - vm_compute. split; [reflexivity|discriminate].
  - vm_compute. discriminate.
Defined.

Lemma UpdateParams_authority_witness :
  (Authority ex_update <> GetAuthority ex_keeper ->
     exists err, UpdateParams ex_keeper ex_update ex_store = (Ret (Err err), ex_store)) /\
  (Authority ex_update = GetAuthority ex_keeper ->
     exists s', UpdateParams ex_keeper ex_update ex_store = (Ret (Ok tt), s') /\
       GetParams s' = Ok (mup_Params ex_update) /\
       forall key, key <> KeyParams -> kv_Get s' key = kv_Get ex_store key).
Proof. apply (UpdateParams_authority ex_keeper ex_update ex_store). apply ex_params_ok. Defined.

Definition ex_decorator : BuilderDecorator (sdk := concrete_sdk) (M := list CTx) :=
  {| bd_txEncoder := ex_TxEncoder; bd_GetAuctionBidInfo := GetAuctionBidInfo ex_factory;
     bd_GetTopAuctionTx := fun ctx => mret None; bd_Contains := fun tx => mret true |}.

Definition ex_next : AnteHandler (sdk := concrete_sdk) (M := list CTx) :=
  fun ctx tx simulate => mret (ctx, None).

Lemma AnteHandle_accepts_witness :
  let st := set_store ex_funded ex_tob_state in
  let st' := snd (AnteHandle ex_decorator (ex_ctx 0) ex_bid false ex_next st) in
  exists st0 st1,
    (if ctx_IsReCheckTx (ex_ctx 0) then bd_Contains ex_decorator ex_bid st = (Ret true, st0) else st0 = st) /\
    ex_next (ex_ctx 0) ex_bid false st1 = (Ret (ex_ctx 0, None), st') /\
    (bd_GetAuctionBidInfo ex_decorator ex_bid = Ok None /\ st1 = st0 \/
     exists bi topBid, bd_GetAuctionBidInfo ex_decorator ex_bid = Ok (Some bi) /\
       next_height (ex_ctx 0) <= Timeout bi < 2 ^ 63 /\
       top_bid ex_decorator (ex_ctx 0) ex_bid st0 = (Ret (Ok topBid), st1) /\
       (ctx_IsCheckTx (ex_ctx 0) || ctx_IsReCheckTx (ex_ctx 0) = false -> st1 = st0 /\ Amount topBid = None) /\
       acceptable (st_store st1) topBid bi).
Proof.
  apply (AnteHandle_accepts ex_decorator (ex_ctx 0) ex_bid false ex_next (set_store ex_funded ex_tob_state)
    (ex_ctx 0)).
  - eval_run.
  - cbn. lia.
  - intros bi H. change (GetAuctionBidInfo ex_factory ex_bid = Ok (Some bi)) in H.
    rewrite ex_bid_has_info in H. injection H as <-. unfold in_u64. cbn. lia.
Defined.

Lemma MsgAuctionBid_ValidateBasic_iff_witness :
  MsgAuctionBid_ValidateBasic ex_msg = None <->
  (exists addr, AccAddressFromBech32 (msg_Bidder ex_msg) = Ok addr) /\ Coin_Validate (msg_Bid ex_msg) = None /\
  msg_Transactions ex_msg <> [] /\ Forall (fun tx => tx <> []) (msg_Transactions ex_msg).
Proof. exact (MsgAuctionBid_ValidateBasic_iff ex_msg). Defined.
