(* ===== verification/BuilderState.v ===== *)
(** * The state of x/builder is well typed

    The module as a state machine: genesis, then the messages BaseApp delivers and the transfers of
    other modules.  The stored parameters stay well typed, so that the keeper's reads succeed and
    the check of a bid does not panic. *)
From S2P Require Import Prelude Hash Sdk Concrete BuilderTypes Wire BuilderWire BuilderWireFacts Builder BuilderFacts.

Section Machine.
Context {sdk : Sdk} {PC : ParamsCodec}.

Context {PL : ParamsCodecLaws PC}.

(** Parameters that pass validation and have an encoding of their own. *)
Definition well_typed (p : Params) : Prop := Params_Validate p = Ret None /\ storable p.

(** One delivered message, or a transfer.  A message that fails or panics leaves no trace: BaseApp
    writes the state of successful ones only. *)
Inductive module_step (k : Keeper) : Store -> Store -> Prop :=
| step_UpdateParams msg s s' : MsgUpdateParams_ValidateBasic msg = Ret None ->
    storable (mup_Params msg) -> UpdateParams k msg s = (Ret (Ok tt), s') -> module_step k s s'
| step_AuctionBid msg ev s s' : MsgAuctionBid_ValidateBasic msg = None ->
    AuctionBid k msg s = (Ret (Ok ev), s') -> module_step k s s'
| step_SendCoins from to coins s s' :
    bank_SendCoins from to coins s = (Ret None, s') -> module_step k s s'.

Context {CL : CoinLaws sdk} {DL : DecLaws sdk} {DCL : DecCoinLaws sdk} {BL : BankLaws sdk} {SL : StoreLaws sdk}.

Definition store_typed (s : Store) : Prop := exists p, GetParams s = Ok p /\ well_typed p.

(** Paying a bid leaves the module's store alone, however it ends. *)
Lemma pay_bid_frame k p bidder c s key : kv_Get (snd (pay_bid k p bidder c s)) key = kv_Get s key.
Proof.
  unfold pay_bid. st_unfold. destruct (Dec_IsZero (ProposerFee p)).
  - destruct (NewCoins [c]) as [cs|w]; [|done].
    pose proof (bank_send_frame bidder (default [] (EscrowAccountAddress p)) cs s) as HF.
    destruct (bank_SendCoins bidder _ cs s) as [[r|w] s1]; cbn; by eapply HF.
  - destruct (NewDecCoinsFromCoins [c]) as [ds|w]; [|done].
    set (to := match rewardsAddressProvider k s with Ok addr => addr | Err _ => _ end).
    set (cs := fst (DecCoins_TruncateDecimal _)).
    pose proof (bank_send_frame bidder to cs s) as HF.
    destruct (bank_SendCoins bidder to cs s) as [[[err|]|w] s1]; cbn [snd]; try by eapply HF.
    specialize (HF _ _ key eq_refl). destruct (NewDecCoinsFromCoins (coins_list cs)) as [es|w]; [|done].
    destruct (DecCoins_Sub ds es) as [rs|w]; [|done].
    pose proof (bank_send_frame bidder (default [] (EscrowAccountAddress p)) (fst (DecCoins_TruncateDecimal rs)) s1) as HF2.
    destruct (bank_SendCoins bidder _ _ s1) as [[r|w] s2]; cbn [snd]; rewrite <- HF; by eapply HF2.
Qed.

Lemma AuctionBid_frame k msg s key : kv_Get (snd (AuctionBid k msg s)) key = kv_Get s key.
Proof.
  unfold AuctionBid. destruct (AccAddressFromBech32 _) as [bidder|]; [|done]. st_unfold.
  destruct (GetParams s) as [p|]; [|done]. destruct (_ <? _); [done|].
  pose proof (pay_bid_frame k p bidder (msg_Bid msg) s key) as HF.
  destruct (pay_bid k p bidder (msg_Bid msg) s) as [[[[err|] r]|w] s']; done.
Qed.

Lemma GetParams_frame s s' : (forall key, kv_Get s' key = kv_Get s key) -> GetParams s' = GetParams s.
Proof. intros HF. unfold GetParams. by rewrite HF. Qed.

Lemma SetParams_typed p s : well_typed p -> exists s', SetParams p s = (Ret None, s') /\ store_typed s'.
Proof.
  intros Hp. destruct (SetParams_GetParams p s (proj2 Hp)) as (s' & HS & HG & _).
  exists s'. split; [done|]. by exists p.
Qed.

(** Every step keeps the store well typed. *)
Lemma module_step_typed k s s' : module_step k s s' -> store_typed s -> store_typed s'.
Proof.
  intros [msg s0 s1 HV Hst HU|msg ev s0 s1 _ HB|from to coins s0 s1 HS] (p & Hp & Hw).
  - unfold UpdateParams in HU. destruct (negb _); [done|]. st_unfold in HU.
    unfold MsgUpdateParams_ValidateBasic in HV. destruct (AccAddressFromBech32 _); [|done].
    destruct (SetParams_typed (mup_Params msg) s0 (conj HV Hst)) as (s2 & HS & Ht). rewrite HS in HU. by injection HU as <-.
  - exists p. split; [|done]. rewrite <- Hp. apply GetParams_frame. intros key.
    pose proof (AuctionBid_frame k msg s0 key) as HF. by rewrite HB in HF.
  - exists p. split; [|done]. rewrite <- Hp. apply GetParams_frame. intros key. by eapply bank_send_frame.
Qed.

(** C23: the module's state is well typed.  After a genesis that passes validation, through any
    sequence of delivered messages and transfers, as long as the parameters of the genesis and of the
    updates are [storable] (their encoding is read back, which it is not for an empty escrow address,
    see [empty_escrow_is_lost]), the stored parameters can be read and pass validation; the exported
    genesis passes validation; and the check of a bid with an amount, against no highest bid or one of
    its denomination, returns instead of panicking. *)
Theorem module_stays_well_typed (k : Keeper) (gs : GenesisState) (s0 s1 s : Store) :
  GenesisState_Validate gs = Ret None -> storable (gs_Params gs) -> InitGenesis gs s0 = (Ret tt, s1) -> rtc (module_step k) s1 s ->
  exists p, GetParams s = Ok p /\ well_typed p /\
    (forall gs', ExportGenesis s = Ret gs' -> GenesisState_Validate gs' = Ret None) /\
    forall highest bi b, Amount (Bid bi) = Some b ->
      (forall h i, Amount highest = Some h -> Amount (MinBidIncrement p) = Some i ->
         Denom highest = Denom (Bid bi) /\ Z.abs (h + i) < 2 ^ 256) ->
      exists res, ValidateBidInfo s highest bi = Ret res.
Proof.
  intros HV Hst HI HR. assert (Ht : store_typed s).
  { assert (H1 : store_typed s1).
    { unfold InitGenesis in HI. st_unfold in HI. destruct (SetParams_typed (gs_Params gs) s0 (conj HV Hst)) as (s2 & HS & Ht).
      rewrite HS in HI. by injection HI as <-. }
    clear HI. induction HR as [x|x y z Hs _ IH]; [done|]. by apply IH, (module_step_typed k x). }
  destruct Ht as (p & Hp & Hw). exists p. split; [done|]. split; [done|]. split.
  - intros gs'. unfold ExportGenesis. rewrite Hp. intros [= <-]. apply Hw.
  - intros highest bi b Hb Hh. unfold ValidateBidInfo, GetMaxBundleSize, FrontRunningProtectionEnabled. st_unfold.
    rewrite Hp. destruct (_ <? _); [by eexists|].
    destruct (Params_Validate_spec p) as (r & Hr & Hiff). rewrite (proj1 Hw) in Hr. injection Hr as <-.
    destruct (proj1 Hiff eq_refl) as (_ & Hres & Hinc & _). apply coin_validate in Hres as (r & Hr & _).
    apply coin_validate in Hinc as (i & Hi & _). destruct (Bid bi) as [d ob] eqn:EB. cbn [Amount Denom] in *. subst ob.
    destruct (auction_bid_valid s p (Bidder bi) d b r i highest Hp Hr Hi) as (res & -> & _); [intros h Hamt; by apply (Hh h i)|].
    destruct res; [by eexists|]. destruct (FrontRunningProtection p); by eexists.
Qed.
End Machine.

(** ** Witness *)

(** Genesis, a bid of account 1, then new parameters by the authority. *)
Definition ex_filled_msg : MsgAuctionBid :=
  {| msg_Bidder := msg_Bidder ex_msg; msg_Bid := msg_Bid ex_msg; msg_Transactions := [[x01; x02]; [x03]] |}.
Definition ex_genesis_store : @Store concrete_sdk := snd (InitGenesis ex_genesis ex_funded).

Definition ex_paid : @Store concrete_sdk := snd (AuctionBid ex_keeper ex_filled_msg ex_genesis_store).
Definition ex_updated : @Store concrete_sdk := snd (UpdateParams ex_keeper ex_update ex_paid).

Lemma ok_step {A} (r : outcome (result A) * @Store concrete_sdk) :
  match fst r with Ret (Ok _) => true | _ => false end = true -> exists v, r = (Ret (Ok v), snd r).
Proof. destruct r as [[[v|err]|w] s]; try discriminate. by exists v. Qed.

Lemma module_stays_well_typed_witness :
  exists p, GetParams ex_updated = Ok p /\ well_typed p /\
    (forall gs', ExportGenesis ex_updated = Ret gs' -> GenesisState_Validate gs' = Ret None) /\
    forall highest bi b, Amount (Bid bi) = Some b ->
      (forall h i, Amount highest = Some h -> Amount (MinBidIncrement p) = Some i ->
         Denom highest = Denom (Bid bi) /\ Z.abs (h + i) < 2 ^ 256) ->
      exists res, ValidateBidInfo ex_updated highest bi = Ret res.
Proof.
  apply (module_stays_well_typed ex_keeper ex_genesis ex_funded ex_genesis_store).
  - vm_compute. reflexivity.
  - apply ex_params_ok.
  - reflexivity.
  - apply rtc_l with ex_paid; [|apply rtc_once].
    + destruct (ok_step (AuctionBid ex_keeper ex_filled_msg ex_genesis_store)) as (ev & E); [vm_compute; reflexivity|].
      refine (step_AuctionBid _ _ ev _ _ _ E). vm_compute. reflexivity.
    + destruct (ok_step (UpdateParams ex_keeper ex_update ex_paid)) as ([] & E); [vm_compute; reflexivity|].
      refine (step_UpdateParams _ _ _ _ _ _ E); [vm_compute; reflexivity|apply ex_params_ok].
Defined.

(** ** Parameters that validation accepts and the encoding loses *)

Definition ex_empty_escrow : Params :=
  {| MaxBundleSize := 300; EscrowAccountAddress := Some [];
     ReserveFee := ReserveFee ex_params; MinBidIncrement := MinBidIncrement ex_params;
     FrontRunningProtection := true; ProposerFee := ProposerFee ex_params |}.

(** An empty, non-nil escrow address passes validation, but what is stored is read back without an
    escrow address, and does not. *)
Lemma empty_escrow_is_lost :
  Params_Validate ex_empty_escrow = Ret None /\
  exists s', SetParams ex_empty_escrow ex_funded = (Ret None, s') /\
    match GetParams s' with
    | Ok p => EscrowAccountAddress p = None /\ exists err, Params_Validate p = Ret (Some err)
    | Err _ => False
    end.
Proof.
  split; [reflexivity|]. eexists. split; [vm_compute; reflexivity|].
  vm_compute. split; [reflexivity|]. by eexists.
Qed.
