(* ===== verification/Grpc.v ===== *)
(** * The gRPC services of x/builder

    tx.pb.go and query.pb.go of x/builder/types, after the messages: the clients, the servers, the
    handlers and the service descriptors of Msg and Query; what the two generated packages share is
    in the section [Stubs].  A handler or call runs in a state [S] of the server.  The grpc package
    is the connection of a client, the registration of a server, and the interceptor of a handler. *)
From S2P Require Import Prelude Hash Sdk BuilderTypes Wire BuilderWire Builder.
#[local] Open Scope Z_scope.

(** ** Messages *)

(** What the codec does with a message type: [new(T)], [Marshal], [Unmarshal] into a message. *)
Class ProtoMessage (T : Type) : Type := {
  pm_new : T;
  pm_Marshal : T -> outcome (result bytes);
  pm_Unmarshal : bytes -> T -> result T
}.

(** A message as an [interface{}], and the type assertion. *)
Class Dynamic (Any T : Type) : Type := {
  box : T -> Any;
  unbox : Any -> outcome T
}.

(** ** What the two generated packages share *)

Section Stubs.
Context {S Ctx Any : Type}.

(** The argument [dec] of a handler: it reads the request into a message of the type it is given. *)
Definition Decoder : Type := forall T, ProtoMessage T -> T -> result T.

(** [grpc.UnaryServerInfo], without the server itself. *)
Record UnaryServerInfo : Type := { FullMethod : string }.
Definition UnaryHandler : Type := Ctx -> Any -> ST S (result Any).
Definition Interceptor : Type := Ctx -> Any -> UnaryServerInfo -> UnaryHandler -> ST S (result Any).
Definition MethodHandler : Type := Ctx -> Decoder -> option Interceptor -> ST S (result Any).

(** The code of a handler, for a method that is called [method] and implemented by [call]. *)
Definition unary_handler {Req Resp} {PR : ProtoMessage Req} {DR : Dynamic Any Req} {DS : Dynamic Any Resp}
    (method : string) (call : Ctx -> Req -> ST S (result Resp)) : MethodHandler :=
  fun ctx dec interceptor =>
  match dec Req PR pm_new with
  | Err err => mret (Err err)
  | Ok in_ =>
      match interceptor with
      | None => resp ← call ctx in_; mret (resp ← resp; Ok (box resp))
      | Some interceptor =>
          let info := {| FullMethod := method |} in
          let handler ctx req := req ← st_lift (unbox req); resp ← call ctx req; mret (resp ← resp; Ok (box resp)) in
          interceptor ctx (box in_) info handler
      end
  end.

(** [grpc.ServiceDesc]; the handlers take the server they are registered with. *)
Record ServiceDesc (Srv : Type) : Type := {
  ServiceName : string;
  ServiceMethods : list (string * (Srv -> MethodHandler));
  Metadata : string
}.

(** [grpc.ClientConn]: it sends a request and reads the reply into a message. *)
Record ClientConn : Type := {
  Invoke : forall Req Resp, ProtoMessage Req -> ProtoMessage Resp ->
    Ctx -> string -> Req -> Resp -> ST S (result Resp)
}.

(** The code of a method of a client. *)
Definition client_call {Req Resp} {PR : ProtoMessage Req} {PS : ProtoMessage Resp} (cc : ClientConn)
    (method : string) (ctx : Ctx) (in_ : Req) : ST S (result Resp) :=
  let out := pm_new in
  reply ← Invoke cc Req Resp PR PS ctx method in_ out;
  match reply with
  | Err err => mret (Err err)
  | Ok out => mret (Ok out)
  end.

(** [s.RegisterService] of the server. *)
Class GrpcServer : Type := {
  Server : Type;
  RegisterService : forall {Srv}, ServiceDesc Srv -> Srv -> Server -> outcome Server
}.

Definition unimplemented {Resp} (name : string) : ST S (result Resp) :=
  mret (Err (Errorf ("method " +:+ name +:+ " not implemented"))).
End Stubs.
Arguments MethodHandler : clear implicits.
Arguments ServiceDesc : clear implicits.
Arguments ServiceName {S Ctx Any Srv} _.
Arguments ServiceMethods {S Ctx Any Srv} _.
Arguments Metadata {S Ctx Any Srv} _.
Arguments ClientConn : clear implicits.
Arguments Interceptor : clear implicits.
Arguments GrpcServer : clear implicits.

(** ** The services of x/builder/types *)

Section Chain.
Context {sdk : Sdk} {W : WireLib}.

#[export] Instance MsgAuctionBid_message : ProtoMessage MsgAuctionBid :=
  {| pm_new := MsgAuctionBid_zero; pm_Marshal := MsgAuctionBid_Marshal; pm_Unmarshal := MsgAuctionBid_Unmarshal |}.
#[export] Instance MsgUpdateParams_message : ProtoMessage MsgUpdateParams :=
  {| pm_new := MsgUpdateParams_zero; pm_Marshal := MsgUpdateParams_Marshal; pm_Unmarshal := MsgUpdateParams_Unmarshal |}.

(** The messages without fields, told apart by their names. *)
Inductive MsgAuctionBidResponse : Type := MkMsgAuctionBidResponse.
Inductive MsgUpdateParamsResponse : Type := MkMsgUpdateParamsResponse.
Inductive QueryParamsRequest : Type := MkQueryParamsRequest.
Record QueryParamsResponse : Type := MkQueryParamsResponse { qr_Params : Params }.

#[export] Instance MsgAuctionBidResponse_message : ProtoMessage MsgAuctionBidResponse :=
  {| pm_new := MkMsgAuctionBidResponse; pm_Marshal _ := Empty_Marshal tt;
     pm_Unmarshal dAtA _ := _ ← MsgAuctionBidResponse_Unmarshal dAtA tt; Ok MkMsgAuctionBidResponse |}.
#[export] Instance MsgUpdateParamsResponse_message : ProtoMessage MsgUpdateParamsResponse :=
  {| pm_new := MkMsgUpdateParamsResponse; pm_Marshal _ := Empty_Marshal tt;
     pm_Unmarshal dAtA _ := _ ← MsgUpdateParamsResponse_Unmarshal dAtA tt; Ok MkMsgUpdateParamsResponse |}.
#[export] Instance QueryParamsRequest_message : ProtoMessage QueryParamsRequest :=
  {| pm_new := MkQueryParamsRequest; pm_Marshal _ := Empty_Marshal tt;
     pm_Unmarshal dAtA _ := _ ← QueryParamsRequest_Unmarshal dAtA tt; Ok MkQueryParamsRequest |}.
#[export] Instance QueryParamsResponse_message : ProtoMessage QueryParamsResponse :=
  {| pm_new := MkQueryParamsResponse Params_zero;
     pm_Marshal m := QueryParamsResponse_Marshal (qr_Params m);
     pm_Unmarshal dAtA m := p ← QueryParamsResponse_Unmarshal dAtA (qr_Params m); Ok (MkQueryParamsResponse p) |}.

Context {S Ctx Any : Type}
  {D1 : Dynamic Any MsgAuctionBid} {D2 : Dynamic Any MsgAuctionBidResponse}
  {D3 : Dynamic Any MsgUpdateParams} {D4 : Dynamic Any MsgUpdateParamsResponse}
  {D5 : Dynamic Any QueryParamsRequest} {D6 : Dynamic Any QueryParamsResponse}.

(** *** tx.pb.go *)

Record MsgClient : Type := {
  MsgClient_AuctionBid : Ctx -> MsgAuctionBid -> ST S (result MsgAuctionBidResponse);
  MsgClient_UpdateParams : Ctx -> MsgUpdateParams -> ST S (result MsgUpdateParamsResponse)
}.

Definition msgClient_AuctionBid (cc : ClientConn S Ctx) (ctx : Ctx) (in_ : MsgAuctionBid)
    : ST S (result MsgAuctionBidResponse) :=
  client_call cc "/pob.builder.v1.Msg/AuctionBid" ctx in_.
Definition msgClient_UpdateParams (cc : ClientConn S Ctx) (ctx : Ctx) (in_ : MsgUpdateParams)
    : ST S (result MsgUpdateParamsResponse) :=
  client_call cc "/pob.builder.v1.Msg/UpdateParams" ctx in_.
Definition NewMsgClient (cc : ClientConn S Ctx) : MsgClient :=
  {| MsgClient_AuctionBid := msgClient_AuctionBid cc; MsgClient_UpdateParams := msgClient_UpdateParams cc |}.

Record MsgServer : Type := {
  MsgServer_AuctionBid : Ctx -> MsgAuctionBid -> ST S (result MsgAuctionBidResponse);
  MsgServer_UpdateParams : Ctx -> MsgUpdateParams -> ST S (result MsgUpdateParamsResponse)
}.

Definition UnimplementedMsgServer : MsgServer :=
  {| MsgServer_AuctionBid ctx req := unimplemented "AuctionBid";
     MsgServer_UpdateParams ctx req := unimplemented "UpdateParams" |}.

Definition Msg_AuctionBid_Handler (srv : MsgServer) : MethodHandler S Ctx Any :=
  unary_handler "/pob.builder.v1.Msg/AuctionBid" (MsgServer_AuctionBid srv).
Definition Msg_UpdateParams_Handler (srv : MsgServer) : MethodHandler S Ctx Any :=
  unary_handler "/pob.builder.v1.Msg/UpdateParams" (MsgServer_UpdateParams srv).

Definition Msg_serviceDesc : ServiceDesc S Ctx Any MsgServer :=
  {| ServiceName := "pob.builder.v1.Msg";
     ServiceMethods := [("AuctionBid", Msg_AuctionBid_Handler); ("UpdateParams", Msg_UpdateParams_Handler)]%string;
     Metadata := "pob/builder/v1/tx.proto" |}.

Definition RegisterMsgServer {GS : GrpcServer S Ctx Any} (srv : MsgServer) (s : Server) : outcome Server :=
  RegisterService Msg_serviceDesc srv s.

(** *** query.pb.go *)

Record QueryClient : Type := {
  QueryClient_Params : Ctx -> QueryParamsRequest -> ST S (result QueryParamsResponse)
}.
Definition queryClient_Params (cc : ClientConn S Ctx) (ctx : Ctx) (in_ : QueryParamsRequest)
    : ST S (result QueryParamsResponse) :=
  client_call cc "/pob.builder.v1.Query/Params" ctx in_.
Definition NewQueryClient (cc : ClientConn S Ctx) : QueryClient :=
  {| QueryClient_Params := queryClient_Params cc |}.

Record QueryServer : Type := {
  QueryServer_Params_ : Ctx -> QueryParamsRequest -> ST S (result QueryParamsResponse)
}.
Definition UnimplementedQueryServer : QueryServer :=
  {| QueryServer_Params_ ctx req := unimplemented "Params" |}.

Definition Query_Params_Handler (srv : QueryServer) : MethodHandler S Ctx Any :=
  unary_handler "/pob.builder.v1.Query/Params" (QueryServer_Params_ srv).

Definition Query_serviceDesc : ServiceDesc S Ctx Any QueryServer :=
  {| ServiceName := "pob.builder.v1.Query";
     ServiceMethods := [("Params", Query_Params_Handler)]%string;
     Metadata := "pob/builder/v1/query.proto" |}.

Definition RegisterQueryServer {GS : GrpcServer S Ctx Any} (srv : QueryServer) (s : Server) : outcome Server :=
  RegisterService Query_serviceDesc srv s.
End Chain.
Arguments MsgClient {sdk} S Ctx.
Arguments MsgServer {sdk} S Ctx.
Arguments QueryClient {sdk} S Ctx.
Arguments QueryServer {sdk} S Ctx.

(** ** The servers of x/builder/keeper *)

Section Keeper.
Context {sdk : Sdk} {PC : ParamsCodec} {Ctx : Type}.

(** msg_server.go and grpc_query.go: the state is the store and the events emitted so far. *)
Definition NewMsgServerImpl (k : Keeper) : MsgServer (Store * list AuctionBidEvent) Ctx :=
  {| MsgServer_AuctionBid ctx msg '(s, events) :=
       match AuctionBid k msg s with
       | (Ret (Ok ev), s) => (Ret (Ok MkMsgAuctionBidResponse), (s, events ++ [ev]))
       | (Ret (Err err), s) => (Ret (Err err), (s, events))
       | (Panic w, s) => (Panic w, (s, events))
       end;
     MsgServer_UpdateParams ctx req '(s, events) :=
       match UpdateParams k req s with
       | (Ret (Ok _), s) => (Ret (Ok MkMsgUpdateParamsResponse), (s, events))
       | (Ret (Err err), s) => (Ret (Err err), (s, events))
       | (Panic w, s) => (Panic w, (s, events))
       end |}.

Definition NewQueryServer (k : Keeper) : QueryServer (Store * list AuctionBidEvent) Ctx :=
  {| QueryServer_Params_ ctx req '(s, events) :=
       (Ret (params ← QueryServer_Params s; Ok (MkQueryParamsResponse params)), (s, events)) |}.
End Keeper.
