(* ===== verification/ApiGrpc.v ===== *)
(** * The gRPC services of the generated API

    tx_grpc.pb.go and query_grpc.pb.go of api/pob/builder/v1: clients, servers, handlers and service
    descriptors over the messages of that package. *)
From S2P Require Import Prelude Hash Sdk BuilderTypes Wire BuilderWire Builder Pulsar PulsarMessages Grpc.
#[local] Open Scope Z_scope.

Definition Msg_AuctionBid_FullMethodName : string := "/pob.builder.v1.Msg/AuctionBid".
Definition Msg_UpdateParams_FullMethodName : string := "/pob.builder.v1.Msg/UpdateParams".
Definition Query_Params_FullMethodName : string := "/pob.builder.v1.Query/Params".

Section Api.
Context {PL : PulsarLib}.

(** The codec hands a message to the proto package, which calls the functions of the message. *)
Definition api_message {T} (meths : Methods T) (new : T) : ProtoMessage T :=
  {| pm_new := new;
     pm_Marshal x := options_Marshal (Methods_Marshal meths) false (Some x);
     pm_Unmarshal b x :=
       y ← options_Unmarshal (Methods_Unmarshal meths) false b (Some x); Ok (default x y) |}.
#[export] Instance ApiMsgAuctionBid_message : ProtoMessage ApiMsgAuctionBid :=
  api_message ApiMsgAuctionBid_Methods new_ApiMsgAuctionBid.
#[export] Instance ApiMsgUpdateParams_message : ProtoMessage ApiMsgUpdateParams :=
  api_message ApiMsgUpdateParams_Methods new_ApiMsgUpdateParams.
#[export] Instance ApiQueryParamsResponse_message : ProtoMessage ApiQueryParamsResponse :=
  api_message ApiQueryParamsResponse_Methods new_ApiQueryParamsResponse.
(** MsgAuctionBidResponse, MsgUpdateParamsResponse and QueryParamsRequest. *)
#[export] Instance ApiEmpty_message : ProtoMessage ApiEmpty := api_message empty_Methods new_ApiEmpty.

(** The messages without fields have one struct in the model, and an assertion of their own each. *)
Context {S Ctx Any : Type}
  {D1 : Dynamic Any ApiMsgAuctionBid} {D3 : Dynamic Any ApiMsgUpdateParams} {D6 : Dynamic Any ApiQueryParamsResponse}
  (D2 D4 D5 : Dynamic Any ApiEmpty).

(** ** tx_grpc.pb.go *)

Record ApiMsgClient : Type := {
  ApiMsgClient_AuctionBid : Ctx -> ApiMsgAuctionBid -> ST S (result ApiEmpty);
  ApiMsgClient_UpdateParams : Ctx -> ApiMsgUpdateParams -> ST S (result ApiEmpty)
}.
Definition ApimsgClient_AuctionBid (cc : ClientConn S Ctx) (ctx : Ctx) (in_ : ApiMsgAuctionBid)
    : ST S (result ApiEmpty) :=
  client_call cc Msg_AuctionBid_FullMethodName ctx in_.
Definition ApimsgClient_UpdateParams (cc : ClientConn S Ctx) (ctx : Ctx) (in_ : ApiMsgUpdateParams)
    : ST S (result ApiEmpty) :=
  client_call cc Msg_UpdateParams_FullMethodName ctx in_.
Definition ApiNewMsgClient (cc : ClientConn S Ctx) : ApiMsgClient :=
  {| ApiMsgClient_AuctionBid := ApimsgClient_AuctionBid cc; ApiMsgClient_UpdateParams := ApimsgClient_UpdateParams cc |}.

Record ApiMsgServer : Type := {
  ApiMsgServer_AuctionBid : Ctx -> ApiMsgAuctionBid -> ST S (result ApiEmpty);
  ApiMsgServer_UpdateParams : Ctx -> ApiMsgUpdateParams -> ST S (result ApiEmpty)
}.
Definition ApiUnimplementedMsgServer : ApiMsgServer :=
  {| ApiMsgServer_AuctionBid ctx req := unimplemented "AuctionBid";
     ApiMsgServer_UpdateParams ctx req := unimplemented "UpdateParams" |}.

Definition ApiMsg_AuctionBid_Handler (srv : ApiMsgServer) : MethodHandler S Ctx Any :=
  unary_handler (DS := D2) Msg_AuctionBid_FullMethodName (ApiMsgServer_AuctionBid srv).
Definition ApiMsg_UpdateParams_Handler (srv : ApiMsgServer) : MethodHandler S Ctx Any :=
  unary_handler (DS := D4) Msg_UpdateParams_FullMethodName (ApiMsgServer_UpdateParams srv).

Definition ApiMsg_ServiceDesc : ServiceDesc S Ctx Any ApiMsgServer :=
  {| ServiceName := "pob.builder.v1.Msg";
     ServiceMethods := [("AuctionBid", ApiMsg_AuctionBid_Handler); ("UpdateParams", ApiMsg_UpdateParams_Handler)]%string;
     Metadata := "pob/builder/v1/tx.proto" |}.

Definition ApiRegisterMsgServer {GS : GrpcServer S Ctx Any} (srv : ApiMsgServer) (s : Server) : outcome Server :=
  RegisterService ApiMsg_ServiceDesc srv s.

(** ** query_grpc.pb.go *)

Record ApiQueryClient : Type := {
  ApiQueryClient_Params : Ctx -> ApiEmpty -> ST S (result ApiQueryParamsResponse)
}.
Definition ApiqueryClient_Params (cc : ClientConn S Ctx) (ctx : Ctx) (in_ : ApiEmpty)
    : ST S (result ApiQueryParamsResponse) :=
  client_call cc Query_Params_FullMethodName ctx in_.
Definition ApiNewQueryClient (cc : ClientConn S Ctx) : ApiQueryClient :=
  {| ApiQueryClient_Params := ApiqueryClient_Params cc |}.

Record ApiQueryServer : Type := {
  ApiQueryServer_Params : Ctx -> ApiEmpty -> ST S (result ApiQueryParamsResponse)
}.
Definition ApiUnimplementedQueryServer : ApiQueryServer :=
  {| ApiQueryServer_Params ctx req := unimplemented "Params" |}.

Definition ApiQuery_Params_Handler (srv : ApiQueryServer) : MethodHandler S Ctx Any :=
  unary_handler (DR := D5) Query_Params_FullMethodName (ApiQueryServer_Params srv).

Definition ApiQuery_ServiceDesc : ServiceDesc S Ctx Any ApiQueryServer :=
  {| ServiceName := "pob.builder.v1.Query";
     ServiceMethods := [("Params", ApiQuery_Params_Handler)]%string;
     Metadata := "pob/builder/v1/query.proto" |}.

Definition ApiRegisterQueryServer {GS : GrpcServer S Ctx Any} (srv : ApiQueryServer) (s : Server) : outcome Server :=
  RegisterService ApiQuery_ServiceDesc srv s.
End Api.
Arguments ApiMsgClient {PL} S Ctx.
Arguments ApiMsgServer {PL} S Ctx.
Arguments ApiQueryClient {PL} S Ctx.
Arguments ApiQueryServer {PL} S Ctx.
