(* ===== verification/Gateway.v ===== *)
(** * The HTTP gateway of x/builder

    query.pb.gw.go and tx.pb.gw.go: the handlers that turn an HTTP request into a call of a gRPC
    client or server, and their registration with the router.  The runtime package of grpc-gateway
    is the class [GatewayLib]; a handler runs in the state of the server, which includes the
    response that HTTPError and ForwardResponseMessage write.  Cancelling the context of a request
    when its handler returns is left out. *)
From S2P Require Import Prelude Hash Sdk BuilderTypes Wire BuilderWire Builder Grpc.
#[local] Open Scope Z_scope.

(** [runtime.NewPattern]: the operations and the strings they point to. *)
Record Pattern : Type := MkPattern {
  pat_ops : list Z;
  pat_pool : list string;
  pat_verb : string;
  pat_assumeColonVerb : bool
}.

Section Gateway.
Context {sdk : Sdk} {W : WireLib} {S Ctx : Type}.

Class GatewayLib : Type := {
  Request : Type;
  Marshaler : Type;
  ServerMetadata : Type;
  Form : Type;
  no_metadata : ServerMetadata;
  metadata_Join : ServerMetadata -> ServerMetadata -> ServerMetadata;
  Request_Context : Request -> Ctx;
  NewContextWithServerTransportStream : Ctx -> Ctx;
  NewServerMetadataContext : Ctx -> ServerMetadata -> Ctx;
  MarshalerForRequest : Request -> Marshaler * Marshaler;
  AnnotateIncomingContext : Ctx -> Request -> result Ctx;
  AnnotateContext : Ctx -> Request -> result Ctx;
  ParseForm : Request -> result Form;
  PopulateQueryParameters : MsgAuctionBid -> Form -> result MsgAuctionBid;
  (** What the options grpc.Header and grpc.Trailer of the last call received, and what the
      stream of a local call holds. *)
  received_metadata : ST S ServerMetadata;
  stream_metadata : ST S ServerMetadata;
  HTTPError : Ctx -> Marshaler -> Request -> error -> ST S unit;
  ForwardResponseMessage : forall {Resp}, ProtoMessage Resp -> Ctx -> Marshaler -> Request -> Resp -> ST S unit;
  (** The router, and a connection with the client connection it is. *)
  ServeMux : Type;
  Handle : string -> Pattern -> (Request -> ST S unit) -> ServeMux -> ServeMux;
  Conn : Type;
  conn_cc : Conn -> ClientConn S Ctx
}.

Section Handlers.
Context {GL : GatewayLib}.

(** The code of the closures passed to [mux.Handle]: with a server, and with a client. *)
Definition server_handler {Resp} {PR : ProtoMessage Resp}
    (local_request : Ctx -> Request -> ST S (result Resp * ServerMetadata)) (req : Request) : ST S unit :=
  let ctx := NewContextWithServerTransportStream (Request_Context req) in
  let '(_, outboundMarshaler) := MarshalerForRequest req in
  match AnnotateIncomingContext ctx req with
  | Err err => HTTPError ctx outboundMarshaler req err
  | Ok rctx =>
      '(resp, md) ← local_request rctx req;
      stream ← stream_metadata;
      let ctx := NewServerMetadataContext ctx (metadata_Join md stream) in
      match resp with
      | Err err => HTTPError ctx outboundMarshaler req err
      | Ok resp => ForwardResponseMessage PR ctx outboundMarshaler req resp
      end
  end.

Definition client_handler {Resp} {PR : ProtoMessage Resp}
    (request : Ctx -> Request -> ST S (result Resp * ServerMetadata)) (req : Request) : ST S unit :=
  let ctx := Request_Context req in
  let '(_, outboundMarshaler) := MarshalerForRequest req in
  match AnnotateContext ctx req with
  | Err err => HTTPError ctx outboundMarshaler req err
  | Ok rctx =>
      '(resp, md) ← request rctx req;
      let ctx := NewServerMetadataContext ctx md in
      match resp with
      | Err err => HTTPError ctx outboundMarshaler req err
      | Ok resp => ForwardResponseMessage PR ctx outboundMarshaler req resp
      end
  end.

(** ** tx.pb.gw.go *)

Definition request_Msg_AuctionBid_0 (client : MsgClient S Ctx) (ctx : Ctx) (req : Request)
    : ST S (result MsgAuctionBidResponse * ServerMetadata) :=
  match ParseForm req with
  | Err err => mret (Err (Wrap "InvalidArgument" err), no_metadata)
  | Ok form =>
      match PopulateQueryParameters MsgAuctionBid_zero form with
      | Err err => mret (Err (Wrap "InvalidArgument" err), no_metadata)
      | Ok protoReq =>
          msg ← MsgClient_AuctionBid client ctx protoReq;
          metadata ← received_metadata;
          mret (msg, metadata)
      end
  end.

Definition local_request_Msg_AuctionBid_0 (server : MsgServer S Ctx) (ctx : Ctx) (req : Request)
    : ST S (result MsgAuctionBidResponse * ServerMetadata) :=
  match ParseForm req with
  | Err err => mret (Err (Wrap "InvalidArgument" err), no_metadata)
  | Ok form =>
      match PopulateQueryParameters MsgAuctionBid_zero form with
      | Err err => mret (Err (Wrap "InvalidArgument" err), no_metadata)
      | Ok protoReq => msg ← MsgServer_AuctionBid server ctx protoReq; mret (msg, no_metadata)
      end
  end.

Definition pattern_Msg_AuctionBid_0 : Pattern :=
  MkPattern [2; 0; 2; 1; 2; 2; 2; 3] ["pob"; "builder"; "v1"; "bid"] "" false.

(** Registration returns nil. *)
Definition RegisterMsgHandlerServer (server : MsgServer S Ctx) : ST ServeMux (option error) :=
  _ ← st_modify (Handle "POST" pattern_Msg_AuctionBid_0
                   (server_handler (local_request_Msg_AuctionBid_0 server)));
  mret None.
Definition RegisterMsgHandlerClient (client : MsgClient S Ctx) : ST ServeMux (option error) :=
  _ ← st_modify (Handle "POST" pattern_Msg_AuctionBid_0
                   (client_handler (request_Msg_AuctionBid_0 client)));
  mret None.
Definition RegisterMsgHandler (conn : Conn) : ST ServeMux (option error) :=
  RegisterMsgHandlerClient (NewMsgClient (conn_cc conn)).

(** ** query.pb.gw.go *)

Definition request_Query_Params_0 (client : QueryClient S Ctx) (ctx : Ctx) (req : Request)
    : ST S (result QueryParamsResponse * ServerMetadata) :=
  msg ← QueryClient_Params client ctx MkQueryParamsRequest;
  metadata ← received_metadata;
  mret (msg, metadata).

Definition local_request_Query_Params_0 (server : QueryServer S Ctx) (ctx : Ctx) (req : Request)
    : ST S (result QueryParamsResponse * ServerMetadata) :=
  msg ← QueryServer_Params_ server ctx MkQueryParamsRequest; mret (msg, no_metadata).

Definition pattern_Query_Params_0 : Pattern :=
  MkPattern [2; 0; 2; 1; 2; 2; 2; 3] ["pob"; "builder"; "v1"; "params"] "" false.

Definition RegisterQueryHandlerServer (server : QueryServer S Ctx) : ST ServeMux (option error) :=
  _ ← st_modify (Handle "GET" pattern_Query_Params_0
                   (server_handler (local_request_Query_Params_0 server)));
  mret None.
Definition RegisterQueryHandlerClient (client : QueryClient S Ctx) : ST ServeMux (option error) :=
  _ ← st_modify (Handle "GET" pattern_Query_Params_0
                   (client_handler (request_Query_Params_0 client)));
  mret None.
Definition RegisterQueryHandler (conn : Conn) : ST ServeMux (option error) :=
  RegisterQueryHandlerClient (NewQueryClient (conn_cc conn)).

(** ** Registration from an endpoint *)

(** The router, the connections that are closed, and those a goroutine closes when the context is
    done. *)
Record Endpoints : Type := MkEndpoints {
  ep_mux : ServeMux;
  ep_closed : list Conn;
  ep_watched : list Conn
}.

(** The code of both functions: [Dial] is grpc.Dial with the options; the deferred function closes
    the connection when the registration has failed. *)
Definition from_endpoint (register : Conn -> ST ServeMux (option error)) (Dial : string -> result Conn)
    (endpoint : string) : ST Endpoints (option error) := fun e =>
  match Dial endpoint with
  | Err err => (Ret (Some err), e)
  | Ok conn =>
      match register conn (ep_mux e) with
      | (Ret (Some err), mux) => (Ret (Some err), MkEndpoints mux (ep_closed e ++ [conn]) (ep_watched e))
      | (Ret None, mux) => (Ret None, MkEndpoints mux (ep_closed e) (ep_watched e ++ [conn]))
      | (Panic w, mux) => (Panic w, MkEndpoints mux (ep_closed e) (ep_watched e ++ [conn]))
      end
  end.
Definition RegisterMsgHandlerFromEndpoint : (string -> result Conn) -> string -> ST Endpoints (option error) :=
  from_endpoint RegisterMsgHandler.
Definition RegisterQueryHandlerFromEndpoint : (string -> result Conn) -> string -> ST Endpoints (option error) :=
  from_endpoint RegisterQueryHandler.
End Handlers.
End Gateway.
Arguments GatewayLib S Ctx : clear implicits.
