(* ===== verification/GrpcFacts.v ===== *)
(** * Clients reach the keeper

    A call of a generated client, over a connection to a server that has registered the services of
    x/builder, is the call of the keeper's method: for the clients of x/builder/types and for those of
    the generated API.  The router of the gateway is in the same section. *)
From S2P Require Import Prelude Hash Sdk SkipListFacts Concrete BuilderTypes Wire WireFacts BuilderWire BuilderWireFacts Pulsar PulsarMessages PulsarFacts PulsarWire PulsarWireFacts PulsarConcrete PulsarProps Descriptor PulsarDescriptors Builder BuilderFacts Grpc ApiGrpc Gateway.
#[local] Open Scope Z_scope.

Definition full_method (service method : string) : string := "/" +:+ service +:+ "/" +:+ method.

(** ** The grpc package *)

Section Grpc.
Context {S Ctx Any : Type}.

(** What is in an [interface{}] is marshalled by its type, and asserted back. *)
Class AnyMessages (marshal : Any -> outcome (result bytes)) (T : Type)
    {PM : ProtoMessage T} {D : Dynamic Any T} : Prop := {
  any_marshal (m : T) : marshal (box m) = pm_Marshal m;
  any_unbox (m : T) : unbox (box m) = Ret m
}.

(** A registered method is served under its full name. *)
Class GrpcServerLaws (GS : GrpcServer S Ctx Any) : Type := {
  serves : Server -> string -> option (MethodHandler S Ctx Any);
  register_serves {Srv} (d : ServiceDesc S Ctx Any Srv) (srv : Srv) s s' name h :
    RegisterService d srv s = Ret s' -> NoDup (map fst (ServiceMethods d)) -> In (name, h) (ServiceMethods d) ->
    serves s' (full_method (ServiceName d) name) = Some (h srv);
  register_keeps {Srv} (d : ServiceDesc S Ctx Any Srv) (srv : Srv) s s' method :
    RegisterService d srv s = Ret s' ->
    (forall name, In name (map fst (ServiceMethods d)) -> method <> full_method (ServiceName d) name) ->
    serves s' method = serves s method
}.

(** The decoder of a handler for the bytes of a request. *)
Definition decode (bz : bytes) : Decoder := fun T PM m => pm_Unmarshal bz m.

(** A connection to a server: a call marshals the request, runs the handler of the method on its
    bytes, and reads the reply; an error is turned into a status. *)
Definition connects (marshal : Any -> outcome (result bytes)) {GS : GrpcServer S Ctx Any} {GL : GrpcServerLaws GS}
    (icpt : option (Interceptor S Ctx Any)) (status : error -> error) (cc : ClientConn S Ctx) (s : Server) : Prop :=
  forall Req Resp (PR : ProtoMessage Req) (PS : ProtoMessage Resp) ctx method req out h bz st,
    serves s method = Some h -> pm_Marshal req = Ret (Ok bz) ->
    Invoke cc Req Resp PR PS ctx method req out st =
      match h ctx (decode bz) icpt st with
      | (Ret (Ok resp), st') =>
          match marshal resp with
          | Ret (Ok bz') => (Ret (pm_Unmarshal bz' out), st')
          | Ret (Err err) => (Ret (Err (status err)), st')
          | Panic w => (Panic w, st')
          end
      | (Ret (Err err), st') => (Ret (Err (status err)), st')
      | (Panic w, st') => (Panic w, st')
      end.

(** An interceptor that lets every request through unchanged. *)
Definition transparent (icpt : option (Interceptor S Ctx Any)) : Prop :=
  match icpt with
  | None => True
  | Some icpt => forall ctx req info h st, icpt ctx req info h st = h ctx req st
  end.

(** What a client sees of a call: the reply as its own message, the error as a status. *)
Definition remote {A B} (status : error -> error) (reply : A -> B) (r : outcome (result A) * S) : outcome (result B) * S :=
  match r with
  | (Ret (Ok a), st) => (Ret (Ok (reply a)), st)
  | (Ret (Err err), st) => (Ret (Err (status err)), st)
  | (Panic w, st) => (Panic w, st)
  end.

(** The bytes of a message are read as another one, possibly of the other package. *)
Definition read_as {A B} {PA : ProtoMessage A} {PB : ProtoMessage B} (a : A) (b : B) : Prop :=
  exists bz, pm_Marshal a = Ret (Ok bz) /\ pm_Unmarshal bz pm_new = Ok b.

Context {marshal : Any -> outcome (result bytes)} {GS : GrpcServer S Ctx Any} {GL : GrpcServerLaws GS}.
Context {icpt : option (Interceptor S Ctx Any)} {status : error -> error} {cc : ClientConn S Ctx} {s : Server}.
Context (HC : connects marshal icpt status cc s) (HT : transparent icpt).

(** A call of a client runs the method of the server, on the message the server reads. *)
Lemma call_reaches {Req Req' Resp Resp'} {P1 : ProtoMessage Req} {P2 : ProtoMessage Req'} {P3 : ProtoMessage Resp}
    {P4 : ProtoMessage Resp'} {D1 : Dynamic Any Req'} {D2 : Dynamic Any Resp'}
    {A1 : AnyMessages marshal Req'} {A2 : AnyMessages marshal Resp'}
    (method : string) (call : Ctx -> Req' -> ST S (result Resp')) (ctx : Ctx) (req : Req) (req' : Req')
    (reply : Resp' -> Resp) (st : S) :
  serves s method = Some (unary_handler method call) -> read_as req req' ->
  (forall resp st', call ctx req' st = (Ret (Ok resp), st') -> read_as resp (reply resp)) ->
  client_call cc method ctx req st = remote status reply (call ctx req' st).
Proof.
  intros Hs (bz & Hm & Hu) Hr. unfold client_call. st_unfold.
  rewrite (HC _ _ _ _ _ _ _ _ _ _ _ Hs Hm). unfold unary_handler, decode. rewrite Hu.
  assert (E : match icpt with
    | Some icpt => icpt ctx (box req') {| FullMethod := method |}
        (fun ctx req => req ← st_lift (unbox req); resp ← call ctx req; mret (resp ← resp; Ok (box resp))) st
    | None => (resp ← call ctx req'; mret (resp ← resp; Ok (box resp))) st
    end = (resp ← call ctx req'; mret (resp ← resp; Ok (box resp))) st).
  { destruct icpt as [i|]; [|done]. rewrite HT. st_unfold. by rewrite any_unbox. }
  destruct icpt as [i|]; st_unfold in E; st_unfold; rewrite ?E;
    (destruct (call ctx req' st) as [[[resp|err]|w] st'] eqn:Ec; try done;
     destruct (Hr _ _ eq_refl) as (bz' & Hm' & Hu'); rewrite any_marshal, Hm', Hu'; done).
Qed.
End Grpc.

(** ** The services of x/builder *)

Section Keeper.
Context {sdk : Sdk} {DL : DecLaws sdk} {W : WireLib} {WL : WireLaws W} {Ctx Any : Type}.
Context {D1 : Dynamic Any MsgAuctionBid} {D2 : Dynamic Any MsgAuctionBidResponse}
  {D3 : Dynamic Any MsgUpdateParams} {D4 : Dynamic Any MsgUpdateParamsResponse}
  {D5 : Dynamic Any QueryParamsRequest} {D6 : Dynamic Any QueryParamsResponse}.
Context {marshal : Any -> outcome (result bytes)}
  {A1 : AnyMessages marshal MsgAuctionBid} {A2 : AnyMessages marshal MsgAuctionBidResponse}
  {A3 : AnyMessages marshal MsgUpdateParams} {A4 : AnyMessages marshal MsgUpdateParamsResponse}
  {A5 : AnyMessages marshal QueryParamsRequest} {A6 : AnyMessages marshal QueryParamsResponse}.

(** The state of the server: the store, and the events emitted so far. *)
Abbreviation State := (Store * list AuctionBidEvent)%type.
Context {GS : GrpcServer State Ctx Any} {GL : GrpcServerLaws GS}.

Lemma read_as_bid m : bid_ok m -> read_as m m.
Proof. intros (bz & H1 & _ & H2)%bid_roundtrip. by exists bz. Qed.

Lemma Params_response_read_as p : params_ok p -> read_as (MkQueryParamsResponse p) (MkQueryParamsResponse p).
Proof.
  intros H. destruct (response_roundtrip p H) as (bz & Hm & Hu). exists bz. split; [done|]. cbn in *. by rewrite Hu.
Qed.

(** An empty message has no bytes. *)
Lemma read_as_empty {A B} {PA : ProtoMessage A} {PB : ProtoMessage B} (a : A) (b : B) :
  pm_Marshal a = Ret (Ok []) -> pm_Unmarshal [] pm_new = Ok b -> read_as a b.
Proof. by exists []. Qed.

Lemma registered k s0 s1 s2 :
  RegisterMsgServer (NewMsgServerImpl k) s0 = Ret s1 -> RegisterQueryServer (NewQueryServer k) s1 = Ret s2 ->
  serves s2 "/pob.builder.v1.Msg/AuctionBid" = Some (Msg_AuctionBid_Handler (Ctx := Ctx) (NewMsgServerImpl k)) /\
  serves s2 "/pob.builder.v1.Msg/UpdateParams" = Some (Msg_UpdateParams_Handler (Ctx := Ctx) (NewMsgServerImpl k)) /\
  serves s2 "/pob.builder.v1.Query/Params" = Some (Query_Params_Handler (Ctx := Ctx) (NewQueryServer k)).
Proof.
  intros H1 H2.
  assert (Hd : NoDup (map fst (ServiceMethods (Msg_serviceDesc (S := State) (Ctx := Ctx) (Any := Any))))).
  { apply (bool_decide_unpack _). vm_compute. exact I. }
  split_and!.
  - rewrite (register_keeps _ _ _ _ _ H2) by (intros n [<-|[]]; discriminate).
    apply (register_serves _ _ _ _ _ _ H1 Hd). by left.
  - rewrite (register_keeps _ _ _ _ _ H2) by (intros n [<-|[]]; discriminate).
    apply (register_serves _ _ _ _ _ _ H1 Hd). by right; left.
  - apply (register_serves _ _ _ _ _ _ H2 ltac:(apply NoDup_singleton)). by left.
Qed.

Lemma query_reaches (k : Keeper) (s0 s1 s2 : Server) icpt status (cc : ClientConn State Ctx) :
  RegisterMsgServer (NewMsgServerImpl k) s0 = Ret s1 -> RegisterQueryServer (NewQueryServer k) s1 = Ret s2 ->
  connects marshal icpt status cc s2 -> transparent icpt ->
  forall ctx s events p, GetParams s = Ok p -> params_ok p ->
  queryClient_Params cc ctx MkQueryParamsRequest (s, events) = (Ret (Ok (MkQueryParamsResponse p)), (s, events)).
Proof.
  intros H1 H2 HC HT ctx s events p Hs Hp. destruct (registered k s0 s1 s2 H1 H2) as (_ & _ & Hq).
  unfold queryClient_Params.
  rewrite (call_reaches HC HT _ _ ctx MkQueryParamsRequest MkQueryParamsRequest id (s, events) Hq).
  - cbn. unfold QueryServer_Params. by rewrite Hs.
  - by apply read_as_empty.
  - intros [q] st' HE. cbn in HE. unfold QueryServer_Params in HE. rewrite Hs in HE. injection HE as <- <-.
    apply Params_response_read_as. done.
Qed.

Context {PL : PulsarLib} {LW : PulsarLaws PL}.

Lemma api_bid_read_as x m : same_bid x m -> ApiMsgAuctionBid_ok x -> bid_ok m -> read_as x m.
Proof.
  intros Hx Hxo Hm. exists (MsgAuctionBid_bytes m). destruct (bid_encoding x m false None Hx Hxo Hm) as (_ & _ & Hu).
  split; [|done]. apply options_Marshal_spec. intros buf Hb.
  destruct (bid_encoding x m false buf Hx Hxo Hm) as (-> & _). by rewrite Hb.
Qed.

Lemma new_ApiEmpty_ok : ApiEmpty_ok new_ApiEmpty.
Proof. split; [done|apply unknown_nil|intros det; vm_compute; reflexivity]. Qed.

Lemma api_empty_read_as {A} {PA : ProtoMessage A} (a : A) : pm_Marshal a = Ret (Ok []) -> read_as a new_ApiEmpty.
Proof.
  intros H. apply read_as_empty; [done|]. cbn.
  rewrite (options_Unmarshal_spec _ _ _ _ new_ApiEmpty); [done|].
  apply (mc_unmarshal _ _ _ _ _ ApiEmpty_codec false false new_ApiEmpty). apply new_ApiEmpty_ok.
Qed.

Lemma api_update_read_as x u : same_update x u -> ApiMsgUpdateParams_ok x -> params_ok (mup_Params u) ->
  len (MsgUpdateParams_bytes u) < 2 ^ 62 -> read_as x u.
Proof.
  intros Hx Hxo Hp Hl. exists (MsgUpdateParams_bytes u).
  destruct (update_encoding x u false None Hx Hxo Hp Hl) as (_ & _ & Hu). split; [|done].
  apply options_Marshal_spec. intros buf Hb.
  destruct (update_encoding x u false buf Hx Hxo Hp Hl) as (-> & _). by rewrite Hb.
Qed.

Lemma api_response_read_as y p : same_params y p -> ApiQueryParamsResponse_ok (api_response y) -> params_ok p ->
  read_as (MkQueryParamsResponse p) (api_response (params_canon false y)).
Proof.
  intros Hy Ho Hp. destruct (response_encoding y p false None Hy Ho Hp) as (_ & Hm & _ & Hu).
  eexists. split; [exact Hm|]. cbn. by rewrite (options_Unmarshal_spec _ _ _ _ _ Hu).
Qed.

(** C29: a client reaches the keeper.  Over a connection to a server with the services of x/builder,
    behind any transparent interceptor, a call of a generated client, of x/builder/types or of the
    generated API, returns what the keeper's method returns on the same message and leaves the state
    it leaves, with errors as statuses: for bids and parameter updates that have an encoding, and for
    the query of stored parameters that have one.  A message of the API is the same as one of the
    chain when its coins and its fee are set and it has no unknown fields; the parameters a client of
    the API gets are the stored ones as it reads them back. *)
Theorem clients_reach_the_keeper (k : Keeper) (s0 s1 s2 : Server) icpt status (cc : ClientConn State Ctx) :
  RegisterMsgServer (NewMsgServerImpl k) s0 = Ret s1 -> RegisterQueryServer (NewQueryServer k) s1 = Ret s2 ->
  connects marshal icpt status cc s2 -> transparent icpt ->
  (forall ctx m st, bid_ok m ->
     msgClient_AuctionBid cc ctx m st = remote status id (MsgServer_AuctionBid (NewMsgServerImpl k) ctx m st)) /\
  (forall ctx m st, params_ok (mup_Params m) -> len (MsgUpdateParams_bytes m) < 2 ^ 62 ->
     msgClient_UpdateParams cc ctx m st = remote status id (MsgServer_UpdateParams (NewMsgServerImpl k) ctx m st)) /\
  (forall ctx s events p, GetParams s = Ok p -> params_ok p ->
     queryClient_Params cc ctx MkQueryParamsRequest (s, events) = (Ret (Ok (MkQueryParamsResponse p)), (s, events))) /\
  (forall ctx x m st, same_bid x m -> ApiMsgAuctionBid_ok x -> bid_ok m ->
     ApimsgClient_AuctionBid cc ctx x st =
       remote status (fun _ => new_ApiEmpty) (MsgServer_AuctionBid (NewMsgServerImpl k) ctx m st)) /\
  (forall ctx x m st, same_update x m -> ApiMsgUpdateParams_ok x -> params_ok (mup_Params m) ->
     len (MsgUpdateParams_bytes m) < 2 ^ 62 ->
     ApimsgClient_UpdateParams cc ctx x st =
       remote status (fun _ => new_ApiEmpty) (MsgServer_UpdateParams (NewMsgServerImpl k) ctx m st)) /\
  (forall ctx s events p y, GetParams s = Ok p -> params_ok p -> same_params y p ->
     ApiQueryParamsResponse_ok (api_response y) ->
     ApiqueryClient_Params cc ctx new_ApiEmpty (s, events) =
       (Ret (Ok (api_response (params_canon false y))), (s, events))).
Proof.
  intros H1 H2 HC HT. destruct (registered k s0 s1 s2 H1 H2) as (Hbid & Hup & Hq). split_and!.
  - intros ctx m st Hm. apply (call_reaches HC HT _ _ ctx m m id st Hbid); [by apply read_as_bid|].
    intros [] st' _. by apply read_as_empty.
  - intros ctx m st Hp Hl. apply (call_reaches HC HT _ _ ctx m m id st Hup).
    + destruct (update_roundtrip m Hp Hl) as (bz & ? & ?). by exists bz.
    + intros [] st' _. by apply read_as_empty.
  - by apply (query_reaches k s0 s1 s2 icpt status).
  - intros ctx x m st Hx Hxo Hm. apply (call_reaches HC HT _ _ ctx x m _ st Hbid); [by apply api_bid_read_as|].
    intros [] st' _. by apply api_empty_read_as.
  - intros ctx x m st Hx Hxo Hp Hl. apply (call_reaches HC HT _ _ ctx x m _ st Hup); [by apply api_update_read_as|].
    intros [] st' _. by apply api_empty_read_as.
  - intros ctx s events p y Hs Hp Hy Ho. unfold ApiqueryClient_Params.
    rewrite (call_reaches HC HT _ _ ctx new_ApiEmpty MkQueryParamsRequest
      (fun _ => api_response (params_canon false y)) (s, events) Hq).
    + cbn. unfold QueryServer_Params. by rewrite Hs.
    + exists []. split; [|done]. apply options_Marshal_spec. intros buf Hb.
      rewrite (mc_marshal _ _ _ _ _ ApiEmpty_codec) by apply new_ApiEmpty_ok. by rewrite Hb.
    + intros [q] st' HE. cbn in HE. unfold QueryServer_Params in HE. rewrite Hs in HE. injection HE as <- <-.
      by apply api_response_read_as.
Qed.
End Keeper.

(** ** The services and the descriptors *)

(** The HTTP method and path of the option google.api.http of a method. *)
Definition http_rule (m : MethodProto) : option (string * string) :=
  match all_delimited 72295728 (me_options m) with
  | [rule] =>
      match fields_of rule with
      | [(2, Delimited path)] => Some ("GET", bytes_string path)
      | [(4, Delimited path)] => Some ("POST", bytes_string path)
      | _ => None
      end
  | _ => None
  end%string.

(** The path of a pattern: operation 2 is a literal, its operand an index of the pool. *)
Fixpoint pattern_path (ops : list Z) (pool : list string) : option string :=
  match ops with
  | [] => Some ""%string
  | 2 :: i :: ops =>
      seg ← pool !! Z.to_nat i; rest ← pattern_path ops pool; Some ("/" +:+ seg +:+ rest)
  | _ => None
  end.

Section Services.
Context {sdk : Sdk} {W : WireLib} {PL : PulsarLib} {PV : ProtoValue ApiMessage ApiList ApiMap} {S Ctx Any : Type}.
Context {D1 : Dynamic Any MsgAuctionBid} {D2 : Dynamic Any MsgAuctionBidResponse}
  {D3 : Dynamic Any MsgUpdateParams} {D4 : Dynamic Any MsgUpdateParamsResponse}
  {D5 : Dynamic Any QueryParamsRequest} {D6 : Dynamic Any QueryParamsResponse}.
Context {E1 : Dynamic Any ApiMsgAuctionBid} {E3 : Dynamic Any ApiMsgUpdateParams} {E6 : Dynamic Any ApiQueryParamsResponse}
  (E2 E4 E5 : Dynamic Any ApiEmpty).

Definition tx_proto : FileProto := read_file file_pob_builder_v1_tx_proto_rawDesc.
Definition query_proto : FileProto := read_file file_pob_builder_v1_query_proto_rawDesc.

(** A service descriptor is that of the service of a file: its name, its methods, its file. *)
Definition service_of {Srv} (fp : FileProto) (d : ServiceDesc S Ctx Any Srv) (name : string)
    (methods : list (string * string * string)) : Prop :=
  map s_name (fp_services fp) = [name] /\ ServiceName d = qualify (fp_package fp) name /\ Metadata d = fp_name fp /\
  map fst (ServiceMethods d) = map (fun m => m.1.1) methods /\
  concat (map (fun s => map (fun m => (me_name m, me_input m, me_output m)) (s_methods s)) (fp_services fp))
    = map (fun '(n, i, o) => (n, "." +:+ i, "." +:+ o)) methods.

(** The services, the clients and the routes of the gateway are those of the descriptors.  Both
    packages register the service, its methods and its file under the names of the descriptor, with
    the messages the descriptor gives each method; clients call and handlers report the full name of
    the method; the gateway routes the HTTP method and path of the descriptor's rule, and only methods
    with a rule. *)
Theorem services_match_descriptors :
  let bid := ("AuctionBid", full_name fastReflection_MsgAuctionBid, full_name fastReflection_MsgAuctionBidResponse)%string in
  let update := ("UpdateParams", full_name fastReflection_MsgUpdateParams, full_name fastReflection_MsgUpdateParamsResponse)%string in
  let params := ("Params", full_name fastReflection_QueryParamsRequest, full_name fastReflection_QueryParamsResponse)%string in
  service_of tx_proto Msg_serviceDesc "Msg" [bid; update] /\
  service_of tx_proto (ApiMsg_ServiceDesc E2 E4) "Msg" [bid; update] /\
  service_of query_proto Query_serviceDesc "Query" [params] /\
  service_of query_proto (ApiQuery_ServiceDesc E5) "Query" [params] /\
  (let name := full_method "pob.builder.v1.Msg" "AuctionBid" in
   msgClient_AuctionBid (S := S) (Ctx := Ctx) = (fun cc => client_call cc name) /\
   ApimsgClient_AuctionBid (S := S) (Ctx := Ctx) = (fun cc => client_call cc name) /\
   Msg_AuctionBid_Handler (S := S) (Ctx := Ctx) = (fun srv => unary_handler name (MsgServer_AuctionBid srv)) /\
   ApiMsg_AuctionBid_Handler (S := S) (Ctx := Ctx) E2 = (fun srv => unary_handler (DS := E2) name (ApiMsgServer_AuctionBid srv))) /\
  (let name := full_method "pob.builder.v1.Msg" "UpdateParams" in
   msgClient_UpdateParams (S := S) (Ctx := Ctx) = (fun cc => client_call cc name) /\
   ApimsgClient_UpdateParams (S := S) (Ctx := Ctx) = (fun cc => client_call cc name) /\
   Msg_UpdateParams_Handler (S := S) (Ctx := Ctx) = (fun srv => unary_handler name (MsgServer_UpdateParams srv)) /\
   ApiMsg_UpdateParams_Handler (S := S) (Ctx := Ctx) E4 = (fun srv => unary_handler (DS := E4) name (ApiMsgServer_UpdateParams srv))) /\
  (let name := full_method "pob.builder.v1.Query" "Params" in
   queryClient_Params (S := S) (Ctx := Ctx) = (fun cc => client_call cc name) /\
   ApiqueryClient_Params (S := S) (Ctx := Ctx) = (fun cc => client_call cc name) /\
   Query_Params_Handler (S := S) (Ctx := Ctx) = (fun srv => unary_handler name (QueryServer_Params_ srv)) /\
   ApiQuery_Params_Handler (S := S) (Ctx := Ctx) E5 = (fun srv => unary_handler (DR := E5) name (ApiQueryServer_Params srv))) /\
  map http_rule (concat (map s_methods (fp_services tx_proto))) =
    [pair "POST"%string <$> pattern_path (pat_ops pattern_Msg_AuctionBid_0) (pat_pool pattern_Msg_AuctionBid_0); None] /\
  map http_rule (concat (map s_methods (fp_services query_proto))) =
    [pair "GET"%string <$> pattern_path (pat_ops pattern_Query_Params_0) (pat_pool pattern_Query_Params_0)] /\
  forall (GL : GatewayLib S Ctx) (msg : MsgServer S Ctx) (query : QueryServer S Ctx) mux,
    (RegisterMsgHandlerServer msg mux = (Ret None, Handle "POST" pattern_Msg_AuctionBid_0
       (server_handler (local_request_Msg_AuctionBid_0 msg)) mux)) /\
    (RegisterQueryHandlerServer query mux = (Ret None, Handle "GET" pattern_Query_Params_0
       (server_handler (local_request_Query_Params_0 query)) mux)).
Proof.
  intros bid update params.
  do 4 (split; [unfold service_of; split_and!; vm_compute; reflexivity|]).
  do 3 (split; [split_and!; reflexivity|]).
  do 2 (split; [vm_compute; reflexivity|]). intros GL msg query mux. split; reflexivity.
Qed.
End Services.

(** ** A server and a connection, for the witnesses *)

Section Loopback.
Context {S Ctx Any : Type}.

#[export] Instance table_server : GrpcServer S Ctx Any :=
  {| Server := list (string * MethodHandler S Ctx Any);
     RegisterService Srv d srv s :=
       Ret (map (fun m => (full_method (ServiceName d) m.1, m.2 srv)) (ServiceMethods d) ++ s) |}.

Definition served (s : list (string * MethodHandler S Ctx Any)) (method : string) : option (MethodHandler S Ctx Any) :=
  snd <$> find (fun m => String.eqb m.1 method) s.

Lemma append_inj (a b c : string) : a +:+ b = a +:+ c -> b = c.
Proof. induction a as [|x a IH]; cbn; [done|]. intros [= ?]. by apply IH. Qed.

#[local] Instance full_method_inj service : Inj (=) (=) (full_method service).
Proof. intros m m'. unfold full_method. by intros H%append_inj%append_inj%append_inj. Qed.

Lemma served_none s method : ~ In method (map fst s) -> served s method = None.
Proof.
  unfold served. induction s as [|[n h] s IH]; [done|]. cbn. intros H.
  destruct (String.eqb_spec n method) as [->|]; [destruct H; by left|]. apply IH. tauto.
Qed.

Lemma served_app s1 s2 method : served (s1 ++ s2) method =
  match served s1 method with Some h => Some h | None => served s2 method end.
Proof.
  unfold served. induction s1 as [|[n h] s1 IH]; [done|]. cbn. by destruct (String.eqb n method).
Qed.

Lemma served_in s name h : NoDup (map fst s) -> In (name, h) s -> served s name = Some h.
Proof.
  unfold served. induction s as [|[n h'] s IH]; [done|]. cbn. intros Hd [[= -> ->]|Hin].
  - by rewrite String.eqb_refl.
  - apply list.NoDup_cons in Hd as [Hn Hd]. destruct (String.eqb_spec n name) as [->|]; [|by apply IH].
    destruct Hn. apply list_elem_of_In. by apply (in_map fst) in Hin.
Qed.

#[export] Instance table_server_laws : GrpcServerLaws table_server.
Proof.
  refine {| serves := served : Server -> _ |}.
  - intros Srv d srv s s' name h [= <-] Hd Hin. cbn. rewrite served_app, (served_in _ _ (h srv)); [done| |].
    + rewrite map_map. cbn. rewrite <- (map_map fst (full_method (ServiceName d))). by apply (NoDup_fmap_2 _).
    + apply in_map_iff. by exists (name, h).
  - intros Srv d srv s s' method [= <-] Hn. cbn. rewrite served_app, served_none; [done|].
    rewrite map_map. cbn. intros ([n h] & <- & Hin)%in_map_iff. cbn in *. by apply (Hn n); [apply (in_map fst) in Hin|].
Defined.
End Loopback.

Section Connection.
Context {S Ctx Any : Type} (marshal : Any -> outcome (result bytes)) (s : list (string * MethodHandler S Ctx Any)).

Definition loopback : ClientConn S Ctx :=
  {| Invoke Req Resp PR PS ctx method req out st :=
       match served s method, pm_Marshal req with
       | Some h, Ret (Ok bz) =>
           match h ctx (decode bz) None st with
           | (Ret (Ok resp), st') =>
               match marshal resp with
               | Ret (Ok bz') => (Ret (pm_Unmarshal bz' out), st')
               | Ret (Err err) => (Ret (Err err), st')
               | Panic w => (Panic w, st')
               end
           | (Ret (Err err), st') => (Ret (Err err), st')
           | (Panic w, st') => (Panic w, st')
           end
       | _, _ => (Ret (Err (Errorf "unavailable")), st)
       end |}.

Lemma loopback_connects : connects (GL := table_server_laws) marshal None id loopback s.
Proof. intros Req Resp PR PS ctx method req out h bz st Hs Hm. change (served s method = Some h) in Hs. cbn. by rewrite Hs, Hm. Qed.
End Connection.

Section Chain.
Context {sdk : Sdk} {W : WireLib}.

(** The messages of the chain as an [interface{}]. *)
Inductive ChainMessage : Type :=
| AnyBid (m : MsgAuctionBid)
| AnyBidResponse (m : MsgAuctionBidResponse)
| AnyUpdate (m : MsgUpdateParams)
| AnyUpdateResponse (m : MsgUpdateParamsResponse)
| AnyParamsRequest (m : QueryParamsRequest)
| AnyParamsResponse (m : QueryParamsResponse).
Definition chain_marshal (m : ChainMessage) : outcome (result bytes) :=
  match m with
  AnyBid m => pm_Marshal m | AnyBidResponse m => pm_Marshal m | AnyUpdate m => pm_Marshal m | AnyUpdateResponse m => pm_Marshal m | AnyParamsRequest m => pm_Marshal m | AnyParamsResponse m => pm_Marshal m
  end.

#[export] Instance MsgAuctionBid_dynamic : Dynamic ChainMessage MsgAuctionBid :=
  {| box := AnyBid; unbox m := match m with AnyBid m => Ret m | _ => Panic "interface conversion" end |}.
#[export] Instance MsgAuctionBid_any : AnyMessages chain_marshal MsgAuctionBid.
Proof. by split. Qed.
#[export] Instance MsgAuctionBidResponse_dynamic : Dynamic ChainMessage MsgAuctionBidResponse :=
  {| box := AnyBidResponse; unbox m := match m with AnyBidResponse m => Ret m | _ => Panic "interface conversion" end |}.
#[export] Instance MsgAuctionBidResponse_any : AnyMessages chain_marshal MsgAuctionBidResponse.
Proof. by split. Qed.
#[export] Instance MsgUpdateParams_dynamic : Dynamic ChainMessage MsgUpdateParams :=
  {| box := AnyUpdate; unbox m := match m with AnyUpdate m => Ret m | _ => Panic "interface conversion" end |}.
#[export] Instance MsgUpdateParams_any : AnyMessages chain_marshal MsgUpdateParams.
Proof. by split. Qed.
#[export] Instance MsgUpdateParamsResponse_dynamic : Dynamic ChainMessage MsgUpdateParamsResponse :=
  {| box := AnyUpdateResponse; unbox m := match m with AnyUpdateResponse m => Ret m | _ => Panic "interface conversion" end |}.
#[export] Instance MsgUpdateParamsResponse_any : AnyMessages chain_marshal MsgUpdateParamsResponse.
Proof. by split. Qed.
#[export] Instance QueryParamsRequest_dynamic : Dynamic ChainMessage QueryParamsRequest :=
  {| box := AnyParamsRequest; unbox m := match m with AnyParamsRequest m => Ret m | _ => Panic "interface conversion" end |}.
#[export] Instance QueryParamsRequest_any : AnyMessages chain_marshal QueryParamsRequest.
Proof. by split. Qed.
#[export] Instance QueryParamsResponse_dynamic : Dynamic ChainMessage QueryParamsResponse :=
  {| box := AnyParamsResponse; unbox m := match m with AnyParamsResponse m => Ret m | _ => Panic "interface conversion" end |}.
#[export] Instance QueryParamsResponse_any : AnyMessages chain_marshal QueryParamsResponse.
Proof. by split. Qed.
End Chain.

(** A bid of account 1 and a change of the parameters, from the client to the store and back. *)
Definition ex_msg_server : MsgServer (@Store concrete_sdk * list AuctionBidEvent) unit := NewMsgServerImpl ex_keeper.
Definition ex_services : list (string * MethodHandler (@Store concrete_sdk * list AuctionBidEvent) unit ChainMessage) :=
  map (fun m => (full_method "pob.builder.v1.Query" m.1, m.2 (NewQueryServer ex_keeper))) (ServiceMethods Query_serviceDesc) ++
  map (fun m => (full_method "pob.builder.v1.Msg" m.1, m.2 ex_msg_server)) (ServiceMethods Msg_serviceDesc).
Definition ex_connection := loopback chain_marshal ex_services.

Lemma clients_reach_the_keeper_witness :
  msgClient_AuctionBid ex_connection tt ex_msg (ex_funded, []) =
    remote id id (MsgServer_AuctionBid ex_msg_server tt ex_msg (ex_funded, [])) /\
  msgClient_UpdateParams ex_connection tt ex_update (ex_funded, []) =
    remote id id (MsgServer_UpdateParams ex_msg_server tt ex_update (ex_funded, [])) /\
  queryClient_Params ex_connection tt MkQueryParamsRequest (ex_funded, []) =
    (Ret (Ok (MkQueryParamsResponse ex_params)), (ex_funded, [])) /\
  ApimsgClient_AuctionBid (PL := sdk_pulsar) ex_connection tt ex_sdk_bid (ex_funded, []) =
    remote id (fun _ => new_ApiEmpty) (MsgServer_AuctionBid ex_msg_server tt ex_msg (ex_funded, [])) /\
  ApimsgClient_UpdateParams (PL := sdk_pulsar) ex_connection tt ex_sdk_update (ex_funded, []) =
    remote id (fun _ => new_ApiEmpty) (MsgServer_UpdateParams ex_msg_server tt ex_update (ex_funded, [])) /\
  ApiqueryClient_Params (PL := sdk_pulsar) ex_connection tt new_ApiEmpty (ex_funded, []) =
    (Ret (Ok (api_response (PL := sdk_pulsar) (params_canon (LW := sdk_pulsar_laws) false ex_sdk_params))), (ex_funded, [])).
Proof.
  destruct (clients_reach_the_keeper (PL := sdk_pulsar) (LW := sdk_pulsar_laws) (GL := table_server_laws)
    (marshal := chain_marshal) ex_keeper [] _ ex_services None id ex_connection eq_refl eq_refl
    (loopback_connects _ _) I) as (H1 & H2 & H3 & H4 & H5 & H6).
  split; [|split; [|split; [|split; [|split]]]].
  - apply H1. split; [by apply ex_coin_ok|vm_compute; reflexivity].
  - apply H2; [apply ex_params_ok|vm_compute; reflexivity].
  - apply H3; [apply ex_funded_params|apply ex_params_ok].
  - apply H4.
    + split; try reflexivity. exists (msg_Bid ex_msg). split; reflexivity.
    + split; [|apply unknown_nil|intros det; vm_compute; reflexivity]. intros c [= <-]. by apply ex_sdk_coin_ok.
    + split; [by apply ex_coin_ok|vm_compute; reflexivity].
  - apply H5; [apply ex_same_update|apply ex_sdk_update_ok|apply ex_params_ok|vm_compute; reflexivity].
  - apply (H6 tt ex_funded [] ex_params ex_sdk_params); [apply ex_funded_params|apply ex_params_ok|apply ex_same_params|apply ex_sdk_response_ok].
Defined.
