(* ===== verification/Codec.v ===== *)
(** * x/builder/types/codec.go: the codecs the messages are registered with

    The amino codecs of the package and what is registered with them, the interface registry, and the
    sign bytes of the messages, which go through [ModuleCdc].  The codec packages are the class
    [CodecLib]; a Go type is given by the full name of its message. *)
From S2P Require Import Prelude Hash Sdk BuilderTypes Wire BuilderWire Builder Pulsar PulsarMessages Descriptor PulsarDescriptors Grpc.
#[local] Open Scope Z_scope.

Class CodecLib `{sdk : Sdk} : Type := {
  LegacyAmino : Type;
  NewLegacyAmino : LegacyAmino;
  (** They panic for a type or name that is registered already, or a name that is too long. *)
  RegisterAminoMsg : string -> string -> LegacyAmino -> outcome LegacyAmino;
  RegisterConcrete : string -> string -> LegacyAmino -> outcome LegacyAmino;
  RegisterCrypto : LegacyAmino -> outcome LegacyAmino;
  sdk_RegisterLegacyAminoCodec : LegacyAmino -> outcome LegacyAmino;
  MustMarshalJSON_bid : LegacyAmino -> MsgAuctionBid -> outcome bytes;
  MustMarshalJSON_update : LegacyAmino -> MsgUpdateParams -> outcome bytes;
  MustSortJSON : bytes -> outcome bytes;
  InterfaceRegistry : Type;
  RegisterImplementations : string -> list string -> InterfaceRegistry -> outcome InterfaceRegistry;
  RegisterMsgServiceDesc : string -> InterfaceRegistry -> outcome InterfaceRegistry
}.

Section Codec.
Context {sdk : Sdk} {CD : CodecLib}.

Definition bid_type : string := "pob.builder.v1.MsgAuctionBid".
Definition update_type : string := "pob.builder.v1.MsgUpdateParams".
Definition params_type : string := "pob.builder.v1.Params".

(** The two variables of the package. *)
Definition amino0 : LegacyAmino := NewLegacyAmino.
Definition ModuleCdc : LegacyAmino := NewLegacyAmino.

Definition RegisterLegacyAminoCodec (cdc : LegacyAmino) : outcome LegacyAmino :=
  cdc ← RegisterAminoMsg bid_type "pob/x/builder/MsgAuctionBid" cdc;
  cdc ← RegisterAminoMsg update_type "pob/x/builder/MsgUpdateParams" cdc;
  RegisterConcrete params_type "pob/builder/Params" cdc.

(** The value of [amino] after the init function; [ModuleCdc] is not touched. *)
Definition codec_init : outcome LegacyAmino :=
  amino ← RegisterLegacyAminoCodec amino0;
  amino ← RegisterCrypto amino;
  sdk_RegisterLegacyAminoCodec amino.

Definition RegisterInterfaces (registry : InterfaceRegistry) : outcome InterfaceRegistry :=
  registry ← RegisterImplementations "cosmos.base.v1beta1.Msg" [bid_type; update_type] registry;
  RegisterMsgServiceDesc "pob.builder.v1.Msg" registry.

(** msgs.go *)
Definition MsgAuctionBid_GetSignBytes (m : MsgAuctionBid) : outcome bytes :=
  bz ← MustMarshalJSON_bid ModuleCdc m; MustSortJSON bz.
Definition MsgUpdateParams_GetSignBytes (m : MsgUpdateParams) : outcome bytes :=
  bz ← MustMarshalJSON_update ModuleCdc m; MustSortJSON bz.

(** ** The registered names *)

(** [registered] is what a codec knows of a type; registration adds a name, and leaves the others. *)
Class CodecLaws : Type := {
  registered : LegacyAmino -> string -> option string;
  new_registered t : registered NewLegacyAmino t = None;
  RegisterAminoMsg_registers t n cdc cdc' : RegisterAminoMsg t n cdc = Ret cdc' ->
    forall t', registered cdc' t' = if decide (t = t') then Some n else registered cdc t';
  RegisterConcrete_registers t n cdc cdc' : RegisterConcrete t n cdc = Ret cdc' ->
    forall t', registered cdc' t' = if decide (t = t') then Some n else registered cdc t';
  RegisterCrypto_keeps cdc cdc' t n : RegisterCrypto cdc = Ret cdc' -> registered cdc t = Some n ->
    registered cdc' t = Some n;
  sdk_Register_keeps cdc cdc' t n : sdk_RegisterLegacyAminoCodec cdc = Ret cdc' -> registered cdc t = Some n ->
    registered cdc' t = Some n
}.

(** The options of a message in a descriptor: the amino name, and the field that holds the signer. *)
Definition message_option (raw : bytes) (name : string) (n : Z) : option string :=
  m ← snd <$> find (fun m => String.eqb m.1 name) (all_messages (read_file raw));
  bytes_string <$> head (all_delimited n (m_options m)).
Definition amino_name (raw : bytes) (name : string) : option string := message_option raw name 11110001.
Definition signer_field (raw : bytes) (name : string) : option string := message_option raw name 11110000.

(** The names registered for the two messages are those of their descriptors, the name registered
    for the parameters is not; and the codec of the sign bytes knows none of them. *)
Theorem amino_names {CL : CodecLaws} (amino : LegacyAmino) :
  codec_init = Ret amino ->
  registered amino bid_type = amino_name file_pob_builder_v1_tx_proto_rawDesc bid_type /\
  registered amino update_type = amino_name file_pob_builder_v1_tx_proto_rawDesc update_type /\
  (exists n n', registered amino params_type = Some n /\
     amino_name file_pob_builder_v1_genesis_proto_rawDesc params_type = Some n' /\ n <> n') /\
  (forall t, registered ModuleCdc t = None) /\
  signer_field file_pob_builder_v1_tx_proto_rawDesc bid_type = Some "bidder"%string /\
  signer_field file_pob_builder_v1_tx_proto_rawDesc update_type = Some "authority"%string.
Proof.
  unfold codec_init, RegisterLegacyAminoCodec. st_unfold.
  destruct (RegisterAminoMsg _ _ amino0) as [c1|] eqn:E1; [|done].
  destruct (RegisterAminoMsg _ _ c1) as [c2|] eqn:E2; [|done].
  destruct (RegisterConcrete _ _ c2) as [c3|] eqn:E3; [|done].
  destruct (RegisterCrypto c3) as [c4|] eqn:E4; [|done]. intros E5.
  assert (K : forall t n, registered c3 t = Some n -> registered amino t = Some n).
  { intros t n H. eapply sdk_Register_keeps, RegisterCrypto_keeps; done. }
  assert (H3 : registered c3 params_type = Some "pob/builder/Params"%string).
  { rewrite (RegisterConcrete_registers _ _ _ _ E3). by rewrite decide_True. }
  assert (H2 : registered c3 update_type = Some "pob/x/builder/MsgUpdateParams"%string).
  { rewrite (RegisterConcrete_registers _ _ _ _ E3), decide_False by done.
    rewrite (RegisterAminoMsg_registers _ _ _ _ E2). by rewrite decide_True. }
  assert (H1 : registered c3 bid_type = Some "pob/x/builder/MsgAuctionBid"%string).
  { rewrite (RegisterConcrete_registers _ _ _ _ E3), decide_False by done.
    rewrite (RegisterAminoMsg_registers _ _ _ _ E2), decide_False by done.
    rewrite (RegisterAminoMsg_registers _ _ _ _ E1). by rewrite decide_True. }
  rewrite (K _ _ H1), (K _ _ H2). split; [by vm_compute|]. split; [by vm_compute|]. split.
  - exists "pob/builder/Params"%string, "cosmos-sdk/x/builder/Params"%string. split; [by apply K|].
    split; [by vm_compute|done].
  - split; [intros t; apply new_registered|]. split; by vm_compute.
Qed.
End Codec.
