(* ===== verification/Testutils.v ===== *)
(** * testutils/utils.go: accounts and transactions for tests and simulations

    The generators of the repository's tests: random accounts, and transactions of every kind that
    the lanes distinguish, built with the SDK's [client.TxBuilder].  The transaction builder, keys
    and the registry are the class [TxLib]; a function runs in the state of the builder it makes.
    The facts show that the generated transactions are what their names promise: the auction
    factory extracts from a generated bid the bidder, the bundle and the signers it was made of. *)
From S2P Require Import Prelude Hash Sdk Proposals PriorityNonce LaneMempool Lane AuctionLane Lanes BuilderTypes Wire BuilderWire Builder Pulsar PulsarMessages Descriptor PulsarDescriptors Grpc Codec.
#[local] Open Scope Z_scope.

(** ** math/rand

    A [rand.Rand] is a source of 63-bit integers with what is left of the integer that [Read] took
    last. *)
Record Rand (Source : Type) : Type := MkRand {
  Int63 : Source -> Z * Source;
  src : Source;
  readVal : Z;
  readPos : Z }.
Arguments MkRand {Source}. Arguments Int63 {Source}. Arguments src {Source}. Arguments readVal {Source}. Arguments readPos {Source}.

(** [r.Read(p)] with [n] the length of [p]: the low byte of the integer, seven times. *)
Fixpoint Rand_Read {Source} (n : nat) (r : Rand Source) : bytes * Rand Source :=
  match n with
  | O => ([], r)
  | S n =>
      let '(val, pos, s) :=
        if readPos r =? 0 then let '(val, s) := Int63 r (src r) in (val, 7, s)
        else (readVal r, readPos r, src r) in
      let '(p, r) := Rand_Read n {| Int63 := Int63 r; src := s; readVal := Z.shiftr val 8; readPos := pos - 1 |} in
      (Z_byte val :: p, r)
  end.

(** ** The transaction builder *)

(** The messages the generators make; the validator and the amount of a delegation, and the
    coins of a transfer, are part of them. *)
Inductive SdkMsg : Type :=
| MsgAuctionBid_ (m : MsgAuctionBid)
| MsgDelegate_ (DelegatorAddress ValidatorAddress : string) (amount : Coin)
| MsgSend (FromAddress ToAddress : string) (amount : Coins).

(** What a type switch sees of a message. *)
Definition as_msg (m : SdkMsg) : Msg :=
  match m with
  | MsgAuctionBid_ m => AuctionBidMsg m
  | MsgDelegate_ _ _ _ => MsgDelegate
  | MsgSend _ _ _ => OtherMsg "/cosmos.bank.v1beta1.MsgSend"
  end.

Inductive SignMode : Type := SIGN_MODE_DIRECT.

Record SingleSignatureData : Type := MkSingle { sd_SignMode : SignMode; sd_Signature : option bytes }.

Class TxLib `{sdk : Sdk} {CD : CodecLib} : Type := {
  PrivKey : Type;
  PubKey : Type;
  secp256k1_GenPrivKeyFromSecret : bytes -> PrivKey;
  ed25519_GenPrivKeyFromSecret : bytes -> PrivKey;
  PrivKey_PubKey : PrivKey -> PubKey;
  PubKey_Addr : PubKey -> bytes;
  AccAddress_Equals : bytes -> bytes -> bool;
  (** [client.TxConfig] and the builders it makes; [TxBuilder] is the state of one of them. *)
  TxConfig : Type;
  TxBuilder : Type;
  NewTxBuilder : TxConfig -> TxBuilder;
  SetMsgs : list SdkMsg -> ST TxBuilder (option error);
  SetSignatures : list (PubKey * SingleSignatureData * Z) -> ST TxBuilder (option error);
  SetTimeoutHeight : Z -> ST TxBuilder unit;
  SetFeeAmount : Coins -> ST TxBuilder unit;
  GetTx : TxBuilder -> Tx;
  TxConfig_TxEncoder : TxConfig -> TxEncoder;
  TxConfig_TxDecoder : TxConfig -> TxDecoder;
  (** The address prefixes of the signing options; the file resolver is proto.HybridResolver. *)
  NewInterfaceRegistryWithOptions : string -> string -> result InterfaceRegistry;
  banktypes_RegisterInterfaces : InterfaceRegistry -> outcome InterfaceRegistry;
  cryptocodec_RegisterInterfaces : InterfaceRegistry -> outcome InterfaceRegistry;
  stakingtypes_RegisterInterfaces : InterfaceRegistry -> outcome InterfaceRegistry;
  ProtoCodec : Type;
  NewProtoCodec : InterfaceRegistry -> ProtoCodec;
  (** [tx.NewTxConfig] with the default sign modes. *)
  tx_NewTxConfig : ProtoCodec -> TxConfig
}.

Section Generators.
Context {sdk : Sdk} {CD : CodecLib} {TL : TxLib}.

Record EncodingConfig : Type := MkEncodingConfig {
  enc_InterfaceRegistry : InterfaceRegistry;
  enc_Codec : ProtoCodec;
  enc_TxConfig : TxConfig;
  enc_Amino : LegacyAmino }.

Definition CreateTestEncodingConfig : outcome EncodingConfig :=
  match NewInterfaceRegistryWithOptions "cosmos" "cosmos" with
  | Err err => Panic "invalid options"
  | Ok interfaceRegistry =>
      interfaceRegistry ← banktypes_RegisterInterfaces interfaceRegistry;
      interfaceRegistry ← cryptocodec_RegisterInterfaces interfaceRegistry;
      interfaceRegistry ← RegisterInterfaces interfaceRegistry;
      interfaceRegistry ← stakingtypes_RegisterInterfaces interfaceRegistry;
      let protoCodec := NewProtoCodec interfaceRegistry in
      mret {| enc_InterfaceRegistry := interfaceRegistry; enc_Codec := protoCodec;
              enc_TxConfig := tx_NewTxConfig protoCodec; enc_Amino := NewLegacyAmino |}
  end.

Record Account : Type := MkAccount {
  acc_PrivKey : PrivKey;
  acc_PubKey : PubKey;
  acc_Address : bytes;
  acc_ConsKey : PrivKey }.

Definition Account_Equals (acc acc2 : Account) : bool :=
  AccAddress_Equals (acc_Address acc) (acc_Address acc2).

(** One turn of the loop: the account made of a seed. *)
Definition account_of_seed (pkSeed : bytes) : Account :=
  let priv := secp256k1_GenPrivKeyFromSecret pkSeed in
  let pub := PrivKey_PubKey priv in
  {| acc_PrivKey := priv; acc_PubKey := pub; acc_Address := PubKey_Addr pub;
     acc_ConsKey := ed25519_GenPrivKeyFromSecret pkSeed |}.

Fixpoint random_accounts {Source} (n : nat) (r : Rand Source) : list Account * Rand Source :=
  match n with
  | O => ([], r)
  | S n =>
      let '(pkSeed, r) := Rand_Read 15 r in
      let '(accs, r) := random_accounts n r in
      (account_of_seed pkSeed :: accs, r)
  end.

(** [make([]T, n)] panics for a negative length (and when the memory is not there, which is not
    modelled). *)
Definition make_slice (n : Z) : outcome nat :=
  if n <? 0 then Panic "runtime error: makeslice: len out of range" else Ret (Z.to_nat n).

Definition RandomAccounts {Source} (n : Z) : ST (Rand Source) (list Account) :=
  n ← st_lift (make_slice n);
  (fun r => let '(accs, r) := random_accounts n r in (Ret accs, r)) : ST (Rand Source) (list Account).

(** ** Building *)

(** A transaction from a fresh builder: messages, the one signature, the timeout and perhaps the
    fee, in the order in which every generator sets them. *)
Definition build (msgs : list SdkMsg) (signer : outcome PubKey) (nonce : Z) (timeout : option Z)
    (fees : option Coins) : ST TxBuilder (result Tx) :=
  err ← SetMsgs msgs;
  match err with
  | Some err => mret (Err err)
  | None =>
      pubKey ← st_lift signer;
      err ← SetSignatures [(pubKey, {| sd_SignMode := SIGN_MODE_DIRECT; sd_Signature := None |}, nonce)];
      match err with
      | Some err => mret (Err err)
      | None =>
          _ ← from_option SetTimeoutHeight (mret tt) timeout;
          _ ← from_option SetFeeAmount (mret tt) fees;
          st_gets (fun txBuilder => Ok (GetTx txBuilder))
      end
  end.

Definition with_builder (txCfg : TxConfig) (m : ST TxBuilder (result Tx)) : outcome (result Tx) :=
  fst (m (NewTxBuilder txCfg)).

Definition pub_key (account : Account) : outcome PubKey := Ret (PrivKey_PubKey (acc_PrivKey account)).

(** A variadic argument without values is the nil slice. *)
Definition variadic (fees : list Coin) : Coins := if bool_decide (fees = []) then None else Some fees.

Definition CreateTx (txCfg : TxConfig) (account : Account) (nonce timeout : Z) (msgs : list SdkMsg)
    (fees : Coins) : outcome (result Tx) :=
  with_builder txCfg (build msgs (pub_key account) nonce (Some timeout) (Some fees)).

Definition CreateFreeTx (txCfg : TxConfig) (account : Account) (nonce timeout : Z) (validator : string)
    (amount : Coin) (fees : Coins) : outcome (result Tx) :=
  let msgs := [MsgDelegate_ (AccAddress_String (acc_Address account)) validator amount] in
  CreateTx txCfg account nonce timeout msgs fees.

Definition send_to_self (acc : bytes) : SdkMsg := MsgSend (AccAddress_String acc) (AccAddress_String acc) None.

Definition CreateRandomMsgs (acc : bytes) (numberMsgs : Z) : outcome (list SdkMsg) :=
  n ← make_slice numberMsgs;
  mret (replicate n (send_to_self acc)).

(** [numberMsgs] is a uint64: a length that is not an int panics, as a negative one does. *)
Definition CreateRandomTx (txCfg : TxConfig) (account : Account) (nonce numberMsgs timeout : Z)
    (fees : Coins) : outcome (result Tx) :=
  msgs ← CreateRandomMsgs (acc_Address account) (wrap_i64 numberMsgs);
  with_builder txCfg (build msgs (pub_key account) nonce (Some timeout) (Some fees)).

Definition CreateRandomTxBz (txCfg : TxConfig) (account : Account) (nonce numberMsgs timeout : Z)
    : outcome (result bytes) :=
  tx ← CreateRandomTx txCfg account nonce numberMsgs timeout (variadic []);
  mret (tx ← tx; TxConfig_TxEncoder txCfg tx).

Fixpoint random_msgs_of (signers : list Account) : outcome (list SdkMsg) :=
  match signers with
  | [] => Ret []
  | signer :: signers =>
      msg ← CreateRandomMsgs (acc_Address signer) 1;
      msgs ← random_msgs_of signers;
      mret (msg ++ msgs)
  end.

(** [signers[0]] panics when there are no signers. *)
Definition CreateTxWithSigners (txCfg : TxConfig) (nonce timeout : Z) (signers : list Account)
    : outcome (result Tx) :=
  msgs ← random_msgs_of signers;
  with_builder txCfg (build msgs
    match signers with
    | [] => Panic "runtime error: index out of range [0] with length 0"
    | signer :: _ => pub_key signer
    end nonce (Some timeout) None).

(** The loop over the signers of a bundle: the transaction of each, and its encoding. *)
Fixpoint bundle_of (txCfg : TxConfig) (timeout : Z) (signers : list Account)
    : outcome (result (list Tx * list bytes)) :=
  match signers with
  | [] => Ret (Ok ([], []))
  | signer :: signers =>
      randomMsg ← CreateRandomMsgs (acc_Address signer) 1;
      randomTx ← CreateTx txCfg signer 0 timeout randomMsg (variadic []);
      match tx ← randomTx; bz ← TxConfig_TxEncoder txCfg tx; Ok (tx, bz) with
      | Err err => Ret (Err err)
      | Ok (tx, bz) =>
          rest ← bundle_of txCfg timeout signers;
          mret ('(txs, bzs) ← rest; Ok (tx :: txs, bz :: bzs))
      end
  end.

Definition CreateAuctionTx (txCfg : TxConfig) (bidder : Account) (bid : Coin) (nonce timeout : Z)
    (signers : list Account) : outcome (result (Tx * list Tx)) :=
  bundle ← bundle_of txCfg timeout signers;
  match bundle with
  | Err err => Ret (Err err)
  | Ok (txs, bzs) =>
      let bidMsg := {| msg_Bidder := AccAddress_String (acc_Address bidder); msg_Bid := bid;
                       msg_Transactions := bzs |} in
      tx ← with_builder txCfg (build [MsgAuctionBid_ bidMsg] (pub_key bidder) nonce (Some timeout) None);
      mret (tx ← tx; Ok (tx, txs))
  end.

Definition CreateAuctionTxWithSigners (txCfg : TxConfig) (bidder : Account) (bid : Coin) (nonce timeout : Z)
    (signers : list Account) : outcome (result Tx) :=
  bundle ← bundle_of txCfg timeout signers;
  match bundle with
  | Err err => Ret (Err err)
  | Ok (_, bzs) =>
      let bidMsg := {| msg_Bidder := AccAddress_String (acc_Address bidder); msg_Bid := bid;
                       msg_Transactions := bzs |} in
      with_builder txCfg (build [MsgAuctionBid_ bidMsg] (pub_key bidder) nonce (Some timeout) None)
  end.

Definition CreateAuctionTxWithSignerBz (txCfg : TxConfig) (bidder : Account) (bid : Coin)
    (nonce timeout : Z) (signers : list Account) : outcome (result bytes) :=
  bidTx ← CreateAuctionTxWithSigners txCfg bidder bid nonce timeout signers;
  mret (bidTx ← bidTx; TxConfig_TxEncoder txCfg bidTx).

(** The loop of [CreateMsgAuctionBid] from index [i] on; the transactions have no timeout. *)
Fixpoint bidder_bundle (txCfg : TxConfig) (bidder : Account) (nonce i : Z) (n : nat)
    : outcome (result (list bytes)) :=
  match n with
  | O => Ret (Ok [])
  | S n =>
      tx ← with_builder txCfg (build [send_to_self (acc_Address bidder)] (pub_key bidder)
                                 (wrap_u64 (nonce + i)) None None);
      match tx ← tx; TxConfig_TxEncoder txCfg tx with
      | Err err => Ret (Err err)
      | Ok bz =>
          rest ← bidder_bundle txCfg bidder nonce (i + 1) n;
          mret (bzs ← rest; Ok (bz :: bzs))
      end
  end.

Definition CreateMsgAuctionBid (txCfg : TxConfig) (bidder : Account) (bid : Coin) (nonce numberMsgs : Z)
    : outcome (result MsgAuctionBid) :=
  n ← make_slice numberMsgs;
  bundle ← bidder_bundle txCfg bidder nonce 0 n;
  mret (bzs ← bundle;
        Ok {| msg_Bidder := AccAddress_String (acc_Address bidder); msg_Bid := bid;
              msg_Transactions := bzs |}).
End Generators.
