(* ===== verification/TestutilsFacts.v ===== *)
(** * The generators of testutils/utils.go make what their names promise

    Laws of the transaction builder, what each generator returns, and an instance of the laws. *)
From S2P Require Import Prelude Hash Sdk Proposals PriorityNonce LaneMempool Lane AuctionLane AuctionFacts Lanes BuilderTypes Wire BuilderWire Builder Pulsar PulsarMessages Descriptor PulsarDescriptors Grpc Codec Testutils Concrete.
#[local] Open Scope Z_scope.

(** ** What a builder holds, and what its transaction reports *)

Record Draft : Type := MkDraft {
  d_msgs : list SdkMsg;
  d_sigs : list (bytes * Z);
  d_timeout : Z;
  d_fee : Coins }.

(** The account that has to sign a message. *)
Definition signer_of (m : SdkMsg) : string :=
  match m with
  | MsgAuctionBid_ m => msg_Bidder m
  | MsgDelegate_ delegator _ _ => delegator
  | MsgSend from _ _ => from
  end.

(** Two transactions that no interface of the SDK tells apart. *)
Record same_tx `{sdk : Sdk} (a b : Tx) : Prop := {
  same_msgs : GetMsgs a = GetMsgs b;
  same_sigs : GetSignaturesV2 a = GetSignaturesV2 b;
  same_signers : GetSigners a = GetSigners b;
  same_timeout : GetTimeoutHeight a = GetTimeoutHeight b;
  same_fee : GetFee a = GetFee b }.

Class TxLaws `{TL : TxLib} : Type := {
  draft : TxBuilder -> Draft;
  draft_new cfg : draft (NewTxBuilder cfg) = MkDraft [] [] 0 None;
  draft_msgs ms b : exists b', SetMsgs ms b = (Ret None, b') /\
    draft b' = MkDraft ms (d_sigs (draft b)) (d_timeout (draft b)) (d_fee (draft b));
  draft_sigs sigs b : exists b', SetSignatures sigs b = (Ret None, b') /\
    draft b' = MkDraft (d_msgs (draft b)) (map (fun s => (PubKey_Addr s.1.1, s.2)) sigs)
                       (d_timeout (draft b)) (d_fee (draft b));
  draft_timeout t b : exists b', SetTimeoutHeight t b = (Ret tt, b') /\
    draft b' = MkDraft (d_msgs (draft b)) (d_sigs (draft b)) t (d_fee (draft b));
  draft_fee f b : exists b', SetFeeAmount f b = (Ret tt, b') /\
    draft b' = MkDraft (d_msgs (draft b)) (d_sigs (draft b)) (d_timeout (draft b)) f;
  tx_msgs b : GetMsgs (GetTx b) = map as_msg (d_msgs (draft b));
  tx_sigs b : GetSignaturesV2 (GetTx b) = Some (Ok (map (fun s => MkSig s.1 s.2) (d_sigs (draft b))));
  tx_timeout b : GetTimeoutHeight (GetTx b) = Some (d_timeout (draft b));
  tx_fee b : GetFee (GetTx b) = Some (d_fee (draft b));
  (** The signers are those of the messages, without repetitions. *)
  tx_signers b addrs :
    Forall2 (fun m a => AccAddressFromBech32 (signer_of m) = Ok a) (d_msgs (draft b)) addrs ->
    exists s, GetSigners (GetTx b) = Some (Ok s) /\ forall a, a ∈ s <-> a ∈ addrs;
  (** A transaction of transfers between accounts survives encoding. *)
  tx_encoding cfg b :
    d_msgs (draft b) <> [] ->
    Forall (fun m => exists a, a <> [] /\ m = send_to_self a) (d_msgs (draft b)) ->
    Forall (fun s => in_u64 s.2) (d_sigs (draft b)) -> in_u64 (d_timeout (draft b)) ->
    exists bz tx', TxConfig_TxEncoder cfg (GetTx b) = Ok bz /\ TxConfig_TxDecoder cfg bz = Ok tx' /\
      same_tx tx' (GetTx b)
}.

Section Facts.
Context {sdk : Sdk} {AL : AddressLaws sdk} {CD : CodecLib} {TL : TxLib} {LW : TxLaws}.
Implicit Types (cfg : TxConfig) (acc bidder : Account).

Definition acc_addr acc : bytes := PubKey_Addr (PrivKey_PubKey (acc_PrivKey acc)).

(** The transaction of a builder with the given draft. *)
Definition built (d : Draft) (tx : Tx) : Prop := exists b, draft b = d /\ tx = GetTx b.

Lemma build_built cfg acc msgs nonce timeout fees :
  exists tx, with_builder cfg (build msgs (pub_key acc) nonce timeout fees) = Ret (Ok tx) /\
    built (MkDraft msgs [(acc_addr acc, nonce)] (default 0 timeout) (default None fees)) tx.
Proof.
  unfold with_builder, build, pub_key. st_unfold.
  destruct (draft_msgs msgs (NewTxBuilder cfg)) as (b1 & -> & H1). rewrite draft_new in H1. cbn in H1.
  destruct (draft_sigs [(PrivKey_PubKey (acc_PrivKey acc),
    {| sd_SignMode := SIGN_MODE_DIRECT; sd_Signature := None |}, nonce)] b1) as (b2 & -> & H2).
  rewrite H1 in H2. cbn in H2.
  assert (exists b3, from_option SetTimeoutHeight (fun s => (Ret tt, s)) timeout b2 = (Ret tt, b3) /\
    draft b3 = MkDraft msgs [(acc_addr acc, nonce)] (default 0 timeout) None) as (b3 & -> & H3).
  { destruct timeout as [t|]; cbn; [|by exists b2].
    destruct (draft_timeout t b2) as (b3 & -> & H3). rewrite H2 in H3. by exists b3. }
  assert (exists b4, from_option SetFeeAmount (fun s => (Ret tt, s)) fees b3 = (Ret tt, b4) /\
    draft b4 = MkDraft msgs [(acc_addr acc, nonce)] (default 0 timeout) (default None fees)) as (b4 & -> & H4).
  { destruct fees as [f|]; cbn; [|by exists b3].
    destruct (draft_fee f b3) as (b4 & -> & H4). rewrite H3 in H4. by exists b4. }
  exists (GetTx b4). split; [done|]. by exists b4.
Qed.

Lemma built_signer d tx m a : built d tx -> d_msgs d = [m] -> AccAddressFromBech32 (signer_of m) = Ok a ->
  exists s, GetSigners tx = Some (Ok s) /\ forall a', a' ∈ s <-> a' = a.
Proof.
  intros (b & <- & ->) Hm Ha. destruct (tx_signers b [a]) as (s & Hs & H).
  { rewrite Hm. by constructor. }
  exists s. split; [done|]. intros a'. rewrite H. set_solver.
Qed.

(** ** Transactions of one transfer *)

Lemma signers_set (s : list bytes) (a : bytes) :
  (forall a', a' ∈ s <-> a' = a) ->
  (list_to_set (map AccAddress_String s) : gset string) = {[AccAddress_String a]}.
Proof.
  intros H. apply set_eq. intros x. rewrite elem_of_list_to_set, list_elem_of_fmap, elem_of_singleton.
  split; [by intros (y & -> & ->%H)|]. intros ->. exists a. by rewrite H.
Qed.

Lemma transfer_decodes cfg acc addr nonce timeout fees :
  addr <> [] -> in_u64 nonce -> in_u64 (default 0 timeout) ->
  exists tx bz tx', with_builder cfg (build [send_to_self addr] (pub_key acc) nonce timeout fees) = Ret (Ok tx) /\
    TxConfig_TxEncoder cfg tx = Ok bz /\ TxConfig_TxDecoder cfg bz = Ok tx' /\ same_tx tx' tx /\
    built (MkDraft [send_to_self addr] [(acc_addr acc, nonce)] (default 0 timeout) (default None fees)) tx.
Proof.
  intros Ha Hn Ht. destruct (build_built cfg acc [send_to_self addr] nonce timeout fees) as (tx & Hb & Hd).
  pose proof Hd as (b & Hbd & ->).
  destruct (tx_encoding cfg b) as (bz & tx' & He & Hdec & Hsame); rewrite ?Hbd; cbn; try done.
  - constructor; [by exists addr|done].
  - by constructor.
  - exists (GetTx b), bz, tx'. done.
Qed.

Lemma CreateRandomMsgs_ok addr n : 0 <= n ->
  CreateRandomMsgs addr n = Ret (replicate (Z.to_nat n) (send_to_self addr)).
Proof. intros Hn. unfold CreateRandomMsgs, make_slice. by destruct (Z.ltb_spec n 0); [lia|]. Qed.

(** The transaction a generator makes for one signer of a bundle. *)
Record bundled_for cfg (timeout : Z) (signer : Account) (tx : Tx) (bz : bytes) : Prop := {
  bf_encoded : TxConfig_TxEncoder cfg tx = Ok bz;
  bf_decodes : exists tx', TxConfig_TxDecoder cfg bz = Ok tx' /\ same_tx tx' tx;
  bf_built : built (MkDraft [send_to_self (acc_Address signer)] [(acc_addr signer, 0)] timeout None) tx }.

Lemma bundle_of_spec cfg timeout signers :
  in_u64 timeout -> Forall (fun s => acc_Address s <> []) signers ->
  exists txs bzs, bundle_of cfg timeout signers = Ret (Ok (txs, bzs)) /\
    Forall3 (bundled_for cfg timeout) signers txs bzs /\
    getBundleSigners (TxConfig_TxDecoder cfg) bzs =
      Ok (map (fun s => {[AccAddress_String (acc_Address s)]}) signers).
Proof.
  intros Ht. induction 1 as [|s signers Hs _ (txs & bzs & IHb & IHf & IHs)].
  { exists [], []. by repeat constructor. }
  destruct (transfer_decodes cfg s (acc_Address s) 0 (Some timeout) (Some (variadic []))) as
    (tx & bz & tx' & Hb & He & Hd & Hsame & Hbuilt); [done|unfold in_u64; lia|done|].
  exists (tx :: txs), (bz :: bzs). split; [|split].
  - cbn [bundle_of]. rewrite CreateRandomMsgs_ok by lia. change (Z.to_nat 1) with 1%nat.
    unfold CreateTx. cbn [replicate]. st_unfold. by rewrite Hb, He, IHb.
  - constructor; [|done]. split; [done|by exists tx'|done].
  - destruct (built_signer _ _ _ (acc_Address s) Hbuilt eq_refl) as (sg & Hsg & Hel).
    { by apply address_roundtrip. }
    cbn [getBundleSigners map]. rewrite Hd. st_unfold.
    rewrite (same_signers _ _ Hsame), Hsg. st_unfold. rewrite IHs. by rewrite (signers_set _ (acc_Address s)).
Qed.

(** ** Bids *)

(** What the auction factory extracts from a generated bid. *)
Definition generated_info bidder (bid : Coin) (timeout : Z) (signers : list Account) (bzs : list bytes) : BidInfo :=
  {| Bid := bid; Bidder := acc_Address bidder; Transactions := bzs; Timeout := timeout;
     Signers := map (fun s => {[AccAddress_String (acc_Address s)]}) signers |}.

(** A generated bid is a bid: the auction factory extracts from it the bidder, the coin, the timeout
    and, for every signer of the bundle, a transaction of that signer; and it is signed by the
    bidder. Both generators make the same transaction. *)
Theorem CreateAuctionTx_is_a_bid cfg bidder bid nonce timeout signers :
  in_u64 timeout -> Forall (fun s => acc_Address s <> []) (bidder :: signers) ->
  exists tx txs bzs,
    CreateAuctionTx cfg bidder bid nonce timeout signers = Ret (Ok (tx, txs)) /\
    CreateAuctionTxWithSigners cfg bidder bid nonce timeout signers = Ret (Ok tx) /\
    CreateAuctionTxWithSignerBz cfg bidder bid nonce timeout signers = Ret (TxConfig_TxEncoder cfg tx) /\
    Forall3 (bundled_for cfg timeout) signers txs bzs /\
    GetAuctionBidInfo (NewDefaultAuctionFactory (TxConfig_TxDecoder cfg)) tx =
      Ok (Some (generated_info bidder bid timeout signers bzs)) /\
    GetSignaturesV2 tx = Some (Ok [MkSig (acc_addr bidder) nonce]).
Proof.
  intros Ht [Hb Hs]%Forall_cons_1. destruct (bundle_of_spec cfg timeout signers Ht Hs) as (txs & bzs & E & Hf & Hsg).
  set (m := {| msg_Bidder := AccAddress_String (acc_Address bidder); msg_Bid := bid; msg_Transactions := bzs |}).
  destruct (build_built cfg bidder [MsgAuctionBid_ m] nonce (Some timeout) None) as (tx & Etx & b & Hd & ->).
  assert (E2 : CreateAuctionTxWithSigners cfg bidder bid nonce timeout signers = Ret (Ok (GetTx b))).
  { unfold CreateAuctionTxWithSigners. rewrite E. st_unfold. exact Etx. }
  exists (GetTx b), txs, bzs. split; [|split; [done|split; [|split; [done|split]]]].
  - unfold CreateAuctionTx. rewrite E. st_unfold. fold m. by rewrite Etx.
  - unfold CreateAuctionTxWithSignerBz. by rewrite E2.
  - cbn [GetAuctionBidInfo NewDefaultAuctionFactory]. unfold DefaultGetAuctionBidInfo.
    rewrite (proj2 (proj1 (GetMsgAuctionBidFromTx_spec (GetTx b)) m)) by (rewrite tx_msgs, Hd; done).
    st_unfold. rewrite tx_timeout, Hd. subst m. cbn [msg_Bidder msg_Transactions msg_Bid d_timeout default].
    rewrite address_roundtrip by done. by rewrite Hsg.
  - rewrite tx_sigs, Hd. done.
Qed.

(** The message of [CreateMsgAuctionBid] bundles transfers of the bidder with consecutive sequence
    numbers, from the given nonce on. *)
Theorem CreateMsgAuctionBid_bundle cfg bidder bid nonce n :
  acc_Address bidder <> [] ->
  exists m, CreateMsgAuctionBid cfg bidder bid nonce (Z.of_nat n) = Ret (Ok m) /\
    msg_Bid m = bid /\ AccAddressFromBech32 (msg_Bidder m) = Ok (acc_Address bidder) /\
    length (msg_Transactions m) = n /\
    forall i bz, msg_Transactions m !! i = Some bz ->
      exists tx, TxConfig_TxDecoder cfg bz = Ok tx /\
        GetSignaturesV2 tx = Some (Ok [MkSig (acc_addr bidder) (wrap_u64 (nonce + Z.of_nat i))]).
Proof.
  intros Ha. unfold CreateMsgAuctionBid, make_slice.
  rewrite (proj2 (Z.ltb_ge (Z.of_nat n) 0)), Nat2Z.id by lia. st_unfold.
  assert (H : forall k, exists bzs, bidder_bundle cfg bidder nonce k n = Ret (Ok bzs) /\ length bzs = n /\
    forall i bz, bzs !! i = Some bz -> exists tx, TxConfig_TxDecoder cfg bz = Ok tx /\
      GetSignaturesV2 tx = Some (Ok [MkSig (acc_addr bidder) (wrap_u64 (nonce + (k + Z.of_nat i)))])).
  { induction n as [|n IH]; intros k; [by exists []|]. destruct (IH (k + 1)) as (bzs & E & Hl & Hi).
    destruct (transfer_decodes cfg bidder (acc_Address bidder) (wrap_u64 (nonce + k)) None None) as
      (tx & bz & tx' & Hb & He & Hd & Hsame & b & Hbd & ->); [done| |cbn; unfold in_u64; lia|].
    { unfold in_u64, wrap_u64. pose proof (Z.mod_pos_bound (nonce + k) (2 ^ 64)). lia. }
    exists (bz :: bzs). cbn [bidder_bundle]. rewrite Hb. st_unfold. rewrite He, E. split; [done|].
    split; [cbn; lia|]. intros [|i] bz'; cbn.
    - intros [= <-]. exists tx'. rewrite (same_sigs _ _ Hsame), tx_sigs, Hbd. cbn. rewrite Z.add_0_r. done.
    - intros Hbz. destruct (Hi _ _ Hbz) as (t & Ht1 & Ht2). exists t. split; [done|]. rewrite Ht2.
      do 5 f_equal. lia. }
  destruct (H 0) as (bzs & -> & Hl & Hi). eexists; split; [done|]. cbn.
  split; [done|]. split; [by apply address_roundtrip|]. split; [done|]. intros i bz Hbz.
  destruct (Hi i bz Hbz) as (tx & Hd & Hs). exists tx. done.
Qed.

(** ** The lanes of the generated transactions *)

Lemma existsb_transfers n addr (f : Msg -> bool) : f (as_msg (send_to_self addr)) = false ->
  existsb f (map as_msg (replicate n (send_to_self addr))) = false.
Proof. intros Hf. induction n as [|n IH]; [done|]. cbn [replicate map existsb]. by rewrite Hf. Qed.

Lemma no_bids n addr : omap is_auction_bid (map as_msg (replicate n (send_to_self addr))) = [].
Proof. induction n as [|n IH]; [done|]. exact IH. Qed.

(** A free transaction is one of the free lane and not a bid; a transaction of random messages is
    neither.  The number of messages may be anything that is an int. *)
Theorem generated_transactions_match cfg acc nonce timeout validator amount fees n ctx :
  (exists tx, CreateFreeTx cfg acc nonce timeout validator amount fees = Ret (Ok tx) /\
     FreeMatchHandler ctx tx = true /\ GetMsgAuctionBidFromTx tx = Ok None /\ GetFee tx = Some fees) /\
  (if wrap_i64 n <? 0 then exists w, CreateRandomTx cfg acc nonce n timeout fees = Panic w
   else exists tx, CreateRandomTx cfg acc nonce n timeout fees = Ret (Ok tx) /\
     len (GetMsgs tx) = wrap_i64 n /\
     FreeMatchHandler ctx tx = false /\ GetMsgAuctionBidFromTx tx = Ok None /\ GetFee tx = Some fees).
Proof.
  split.
  - unfold CreateFreeTx, CreateTx.
    destruct (build_built cfg acc [MsgDelegate_ (AccAddress_String (acc_Address acc)) validator amount]
      nonce (Some timeout) (Some fees)) as (tx & -> & b & Hd & ->).
    exists (GetTx b). unfold FreeMatchHandler, GetMsgAuctionBidFromTx. by rewrite tx_msgs, tx_fee, Hd.
  - destruct (Z.ltb_spec (wrap_i64 n) 0) as [Hn|Hn].
    + unfold CreateRandomTx, CreateRandomMsgs, make_slice.
      rewrite (proj2 (Z.ltb_lt _ _)) by done. eexists. done.
    + unfold CreateRandomTx. rewrite CreateRandomMsgs_ok by done. st_unfold.
      destruct (build_built cfg acc (replicate (Z.to_nat (wrap_i64 n)) (send_to_self (acc_Address acc)))
        nonce (Some timeout) (Some fees)) as (tx & -> & b & Hd & ->).
      exists (GetTx b). unfold FreeMatchHandler, GetMsgAuctionBidFromTx.
      rewrite tx_msgs, tx_fee, Hd. cbn [d_msgs d_fee default]. rewrite no_bids. split; [done|].
      split; [|split; [by apply existsb_transfers|done]].
      unfold len. rewrite length_map, length_replicate. lia.
Qed.

(** Without signers [CreateTxWithSigners] panics, whatever the registry; with signers the
    transaction has one transfer for each, and the first of them signs it. *)
Theorem CreateTxWithSigners_spec cfg nonce timeout signers :
  match signers with
  | [] => exists w, CreateTxWithSigners cfg nonce timeout signers = Panic w
  | first :: _ => exists tx, CreateTxWithSigners cfg nonce timeout signers = Ret (Ok tx) /\
      GetMsgs tx = map (fun s => as_msg (send_to_self (acc_Address s))) signers /\
      GetSignaturesV2 tx = Some (Ok [MkSig (acc_addr first) nonce]) /\
      GetTimeoutHeight tx = Some timeout
  end.
Proof.
  assert (H : forall l, random_msgs_of l = Ret (map (fun s => send_to_self (acc_Address s)) l)).
  { induction l as [|s l IH]; [done|]. cbn [random_msgs_of map].
    rewrite CreateRandomMsgs_ok by lia. change (Z.to_nat 1) with 1%nat. st_unfold. by rewrite IH. }
  destruct signers as [|s signers]; unfold CreateTxWithSigners; rewrite H; st_unfold.
  - unfold with_builder, build. st_unfold. cbn [map].
    destruct (draft_msgs [] (NewTxBuilder cfg)) as (b & -> & _). eexists. done.
  - destruct (build_built cfg s (map (fun s => send_to_self (acc_Address s)) (s :: signers)) nonce
      (Some timeout) None) as (tx & -> & b & Hd & ->).
    exists (GetTx b). rewrite tx_msgs, tx_sigs, tx_timeout, Hd. cbn [d_msgs]. by rewrite map_map.
Qed.

(** [RandomAccounts] makes as many accounts as it is asked for, each with the address of its key;
    it panics for a negative number. *)
Theorem RandomAccounts_spec {Source} (n : Z) (r : Rand Source) :
  if n <? 0 then exists w, fst (RandomAccounts n r) = Panic w
  else exists accs, fst (RandomAccounts n r) = Ret accs /\ len accs = n /\
    Forall (fun acc => acc_Address acc = acc_addr acc /\ acc_PubKey acc = PrivKey_PubKey (acc_PrivKey acc)) accs.
Proof.
  unfold RandomAccounts, make_slice. destruct (Z.ltb_spec n 0) as [Hn|Hn]; st_unfold; [by eexists|].
  assert (H : forall k (r : Rand Source), length (random_accounts k r).1 = k /\
    Forall (fun acc => acc_Address acc = acc_addr acc /\ acc_PubKey acc = PrivKey_PubKey (acc_PrivKey acc))
      (random_accounts k r).1).
  { clear. induction k as [|k IH]; intros r; [by repeat constructor|]. cbn [random_accounts].
    destruct (Rand_Read 15 r) as [seed r']. specialize (IH r').
    destruct (random_accounts k r') as [accs r'']. cbn in *. destruct IH as [Hl Hf].
    split; [lia|]. by constructor. }
  specialize (H (Z.to_nat n) r). destruct (random_accounts _ r) as [accs r']. cbn in *.
  exists accs. split; [done|]. split; [unfold len; lia|apply H].
Qed.
End Facts.

(** ** An instance of the laws *)

(** A number as bytes, one for each bit. *)
Fixpoint pos_bytes (p : positive) : bytes :=
  match p with xH => [] | xO p => x00 :: pos_bytes p | xI p => x01 :: pos_bytes p end.
Fixpoint bytes_pos (b : bytes) : positive :=
  match b with [] => xH | x00 :: b => xO (bytes_pos b) | _ :: b => xI (bytes_pos b) end.
Lemma bytes_pos_bytes p : bytes_pos (pos_bytes p) = p.
Proof. induction p as [p IH|p IH|]; cbn; by rewrite ?IH. Qed.

#[global] Instance sdk_msg_eq_dec : EqDecision SdkMsg.
Proof. solve_decision. Defined.
#[global] Instance draft_eq_dec : EqDecision Draft.
Proof. solve_decision. Defined.
#[global] Instance coin_countable : Countable Coin :=
  inj_countable' (fun c => (Denom c, Amount c)) (fun p => MkCoin p.1 p.2) (fun c => match c with MkCoin _ _ => eq_refl end).
#[global] Instance auction_bid_countable : Countable MsgAuctionBid :=
  inj_countable' (fun m => (msg_Bidder m, msg_Bid m, msg_Transactions m))
    (fun p => MkMsgAuctionBid p.1.1 p.1.2 p.2) (fun m => match m with MkMsgAuctionBid _ _ _ => eq_refl end).
#[global] Instance sdk_msg_countable : Countable SdkMsg.
Proof.
  refine (inj_countable'
    (fun m => match m with
              | MsgAuctionBid_ m => inl m
              | MsgDelegate_ a b c => inr (inl (a, b, c))
              | MsgSend a b c => inr (inr (a, b, c))
              end)
    (fun s => match s with
              | inl m => MsgAuctionBid_ m
              | inr (inl (a, b, c)) => MsgDelegate_ a b c
              | inr (inr (a, b, c)) => MsgSend a b c
              end) _).
  by intros [].
Defined.
#[global] Instance draft_countable : Countable Draft :=
  inj_countable' (fun d => (d_msgs d, d_sigs d, d_timeout d, d_fee d))
    (fun p => MkDraft p.1.1.1 p.1.1.2 p.1.2 p.2) (fun d => match d with MkDraft _ _ _ _ => eq_refl end).

#[local] Instance concrete_codec : CodecLib (sdk := concrete_sdk) := {
  LegacyAmino := list (string * string);
  NewLegacyAmino := [];
  RegisterAminoMsg t n c := Ret ((t, n) :: c);
  RegisterConcrete t n c := Ret ((t, n) :: c);
  RegisterCrypto c := Ret c;
  sdk_RegisterLegacyAminoCodec c := Ret c;
  MustMarshalJSON_bid _ _ := Ret [];
  MustMarshalJSON_update _ _ := Ret [];
  MustSortJSON b := Ret b;
  InterfaceRegistry := list string;
  RegisterImplementations i ts r := Ret (ts ++ r);
  RegisterMsgServiceDesc s r := Ret (s :: r)
}.

Definition c_signer_list (ms : list SdkMsg) : result (list bytes) :=
  foldr (fun m acc => acc ← acc; a ← AccAddressFromBech32 (signer_of m); Ok (a :: acc)) (Ok []) ms.

Definition c_draft_tx (d : Draft) : Tx :=
  {| c_msgs := map as_msg (d_msgs d);
     c_sigs := Some (Ok (map (fun s => MkSig s.1 s.2) (d_sigs d)));
     c_signers := Some (c_signer_list (d_msgs d));
     c_timeout := Some (d_timeout d); c_fee := Some (d_fee d);
     c_bytes := pos_bytes (encode d) |} : CTx.

#[local] Instance concrete_tx_lib : TxLib (sdk := concrete_sdk) := {
  PrivKey := bytes;
  PubKey := bytes;
  secp256k1_GenPrivKeyFromSecret b := b;
  ed25519_GenPrivKeyFromSecret b := b;
  PrivKey_PubKey k := k;
  PubKey_Addr k := k;
  AccAddress_Equals a b := bool_decide (a = b);
  TxConfig := unit;
  TxBuilder := Draft;
  NewTxBuilder _ := MkDraft [] [] 0 None;
  SetMsgs ms d := (Ret None, MkDraft ms (d_sigs d) (d_timeout d) (d_fee d));
  SetSignatures sigs d := (Ret None, MkDraft (d_msgs d) (map (fun s => (s.1.1, s.2)) sigs) (d_timeout d) (d_fee d));
  SetTimeoutHeight t d := (Ret tt, MkDraft (d_msgs d) (d_sigs d) t (d_fee d));
  SetFeeAmount f d := (Ret tt, MkDraft (d_msgs d) (d_sigs d) (d_timeout d) f);
  GetTx := c_draft_tx;
  TxConfig_TxEncoder _ tx := Ok (c_bytes tx);
  TxConfig_TxDecoder _ bz :=
    match decode (bytes_pos bz) with Some d => Ok (c_draft_tx d) | None => Err (Errorf "tx parse error") end;
  NewInterfaceRegistryWithOptions _ _ := Ok [];
  banktypes_RegisterInterfaces r := Ret r;
  cryptocodec_RegisterInterfaces r := Ret r;
  stakingtypes_RegisterInterfaces r := Ret r;
  ProtoCodec := list string;
  NewProtoCodec r := r;
  tx_NewTxConfig _ := tt
}.

Lemma c_signer_list_ok ms addrs :
  Forall2 (fun m a => AccAddressFromBech32 (signer_of m) = Ok a) ms addrs -> c_signer_list ms = Ok addrs.
Proof.
  induction 1 as [|m a ms addrs Hm _ IH]; [done|]. cbn [c_signer_list foldr].
  fold (c_signer_list ms). rewrite IH. st_unfold. by rewrite Hm.
Qed.

#[local] Instance concrete_tx_laws : TxLaws (TL := concrete_tx_lib).
Proof.
  refine {| draft := fun d : TxBuilder (TxLib := concrete_tx_lib) => d |}; try (intros; cbn; eauto; fail).
  - intros b addrs H. exists addrs. split; [|done]. cbn. by rewrite (c_signer_list_ok _ addrs).
  - intros cfg b _ _ _ _. exists (pos_bytes (encode (b : Draft))), (c_draft_tx b). split; [done|].
    cbn. rewrite bytes_pos_bytes, decode_encode. done.
Qed.
