(* ===== verification/Rewards.v ===== *)
(** * x/builder/rewards over the interfaces of types/expected_keepers.go

    The keepers the module expects are records of operations on a state; the providers of the rewards
    address are structs that hold them.  Over keepers of the chain state the providers are the
    functions the model of the keeper is given. *)
From S2P Require Import Prelude Hash Sdk Builder.

(** ** types/expected_keepers.go *)

Section Interfaces.
Context (Validator S : Type).

Record AccountKeeper : Type := MkAccountKeeper {
  keeper_GetModuleAddress (moduleName : string) : ST S (option bytes) }.
Record BankKeeper : Type := MkBankKeeper {
  keeper_SendCoins (ctx : Context) (fromAddr toAddr : option bytes) (amt : Coins) : ST S (option error);
  keeper_GetBalance (ctx : Context) (addr : option bytes) (denom : string) : ST S Coin }.
Record DistributionKeeper : Type := MkDistributionKeeper {
  keeper_GetPreviousProposerConsAddr (ctx : Context) : ST S (option bytes * option error) }.
Record StakingKeeper : Type := MkStakingKeeper {
  keeper_GetValidatorByConsAddr (ctx : Context) (consAddr : option bytes) : ST S (Validator * option error) }.

(** The nil address that comes with an error is [None]. *)
Record RewardsAddressProvider : Type := MkRewardsAddressProvider {
  provider_GetRewardsAddress (ctx : Context) : ST S (option bytes * option error) }.
End Interfaces.
Arguments keeper_GetModuleAddress {S} _ _.
Arguments keeper_SendCoins {S} _ _ _ _ _.
Arguments keeper_GetBalance {S} _ _ _ _.
Arguments keeper_GetPreviousProposerConsAddr {S} _ _.
Arguments keeper_GetValidatorByConsAddr {Validator S} _ _ _.
Arguments provider_GetRewardsAddress {S} _ _.
Arguments MkAccountKeeper {S} _.
Arguments MkBankKeeper {S} _ _.
Arguments MkDistributionKeeper {S} _.
Arguments MkStakingKeeper {Validator S} _.
Arguments MkRewardsAddressProvider {S} _.

Section Providers.
Context {Validator S : Type}.

(** ** rewards/fixed_provider.go *)

Record FixedAddressRewardsAddressProvider : Type := MkFixed { rewardsAddress : option bytes }.
Definition NewFixedAddressRewardsAddressProvider (rewardsAddress : option bytes) : FixedAddressRewardsAddressProvider :=
  MkFixed rewardsAddress.

(** A nil address is empty, and so is one without bytes. *)
Definition fixed_provider (p : FixedAddressRewardsAddressProvider) : RewardsAddressProvider S :=
  MkRewardsAddressProvider (fun _ =>
    if len (default [] (rewardsAddress p)) =? 0 then mret (None, Some (Errorf "rewards address is empty"))
    else mret (rewardsAddress p, None)).

(** ** rewards/proposer_provider.go *)

Record ProposerRewardsAddressProvider : Type := MkProposer {
  distrKeeper : DistributionKeeper S;
  stakingKeeper : StakingKeeper Validator S }.
Definition NewProposerRewardsAddressProvider (d : DistributionKeeper S) (s : StakingKeeper Validator S)
    : ProposerRewardsAddressProvider := MkProposer d s.

(** [GetOperator] of the staking module gives the address of the operator of a validator. *)
Definition proposer_provider (GetOperator : Validator -> bytes) (p : ProposerRewardsAddressProvider)
    : RewardsAddressProvider S :=
  MkRewardsAddressProvider (fun ctx =>
    '(prevPropConsAddr, err) ← keeper_GetPreviousProposerConsAddr (distrKeeper p) ctx;
    match err with
    | Some err => mret (None, Some err)
    | None =>
        '(prevProposer, err) ← keeper_GetValidatorByConsAddr (stakingKeeper p) ctx prevPropConsAddr;
        match err with
        | Some err => mret (None, Some err)
        | None => mret (Some (GetOperator prevProposer), None)
        end
    end).
End Providers.

(** ** The providers of the model *)

Section Refinement.
Context {sdk : Sdk} {Validator : Type} (GetOperator : Validator -> bytes).

(** The Go results of a function with an error. *)
Definition go_address (r : result bytes) : option bytes * option error :=
  match r with Ok a => (Some a, None) | Err err => (None, Some err) end.

(** A provider stands for a function of the chain state: it answers what the function gives, and
    writes nothing. *)
Definition provides (p : RewardsAddressProvider Store) (f : Store -> result bytes) : Prop :=
  forall ctx s, provider_GetRewardsAddress p ctx s = (Ret (go_address (f s)), s).

(** Keepers of the distribution and the staking module that read a chain state. *)
Record reads_chain (d : DistributionKeeper Store) (k : StakingKeeper Validator Store) : Prop := {
  rc_distr ctx s : keeper_GetPreviousProposerConsAddr d ctx s = (Ret (go_address (GetPreviousProposerConsAddr s)), s);
  rc_staking ctx s a : exists v err, keeper_GetValidatorByConsAddr k ctx (Some a) s = (Ret (v, err), s) /\
    GetValidatorByConsAddr s a = match err with None => Ok (GetOperator v) | Some err => Err err end }.

Lemma fixed_provides a :
  provides (fixed_provider (NewFixedAddressRewardsAddressProvider a)) (FixedAddress_GetRewardsAddress (default [] a)).
Proof.
  intros ctx s. cbn. unfold FixedAddress_GetRewardsAddress. destruct a as [a|]; cbn [default]; [|done].
  unfold id. by destruct (len a =? 0).
Qed.

Lemma proposer_provides d k : reads_chain d k ->
  provides (proposer_provider GetOperator (NewProposerRewardsAddressProvider d k)) Proposer_GetRewardsAddress.
Proof.
  intros R ctx s. cbn. unfold Proposer_GetRewardsAddress. st_unfold. rewrite (rc_distr d k R).
  destruct (GetPreviousProposerConsAddr s) as [a|err]; [|done]. cbn [go_address mbind].
  destruct (rc_staking d k R ctx s a) as (v & err & -> & ->). by destruct err.
Qed.
End Refinement.
