(* ===== verification/Mocks.v ===== *)
(** * testutils/mocks.go: the mocks of the keepers

    Each mock hands its calls to the controller of gomock and asserts the type of what comes back;
    the recorder of a mock records the calls that are expected.  gomock is a parameter. *)
From S2P Require Import Prelude Hash Sdk Rewards.

Section Mocks.
Context {sdk : Sdk}.

(** ** Go values *)

(** The dynamic value of an interface, of the types the mocks deal with or of another one. *)
Inductive any (Validator : Type) : Type :=
| AnyNil
| AnyContext (ctx : Context)
| AnyString (s : string)
| AnyAccAddress (a : option bytes)
| AnyConsAddress (a : option bytes)
| AnyCoin (c : Coin)
| AnyCoins (c : Coins)
| AnyValidator (v : Validator)
| AnyError (err : error)
| AnyOther (type : string).
Arguments AnyNil {Validator}.
Arguments AnyContext {Validator} _.
Arguments AnyString {Validator} _.
Arguments AnyAccAddress {Validator} _.
Arguments AnyConsAddress {Validator} _.
Arguments AnyCoin {Validator} _.
Arguments AnyCoins {Validator} _.
Arguments AnyValidator {Validator} _.
Arguments AnyError {Validator} _.
Arguments AnyOther {Validator} _.

(** The type of a bound method: its parameters and its results. *)
Record MethodType : Type := MkMethodType { mt_in : list string; mt_out : list string }.

(** A pointer to a mock: the name of its type and its address. *)
Record Receiver : Type := MkReceiver { recv_type : string; recv_ptr : nat }.

(** gomock: the controllers and what they keep, and the calls they record.  A call that is not
    expected fails the test, which ends the goroutine. *)
Class GoMock : Type := {
  Validator : Type;
  Controller : Type;
  ControllerState : Type;
  GoCall : Type;
  T_Helper : Controller -> ST ControllerState unit;
  ctrl_Call : Controller -> Receiver -> string -> list (any Validator) -> ST ControllerState (list (any Validator));
  ctrl_RecordCallWithMethodType : Controller -> Receiver -> string -> MethodType -> list (any Validator) ->
    ST ControllerState GoCall }.
Context {GM : GoMock}.
Abbreviation Any := (any Validator).

(** [ret[0]] *)
Definition first_result (ret : list Any) : outcome Any :=
  match ret with v :: _ => Ret v | [] => Panic "index out of range" end.

(** A type assertion with one result panics when the type is another one. *)
Definition assert_type {A} (as_type : Any -> option A) (v : Any) : outcome A :=
  match as_type v with Some a => Ret a | None => Panic "interface conversion" end.
Definition as_AccAddress (v : Any) : option (option bytes) := match v with AnyAccAddress a => Some a | _ => None end.
Definition as_ConsAddress (v : Any) : option (option bytes) := match v with AnyConsAddress a => Some a | _ => None end.
Definition as_Coin (v : Any) : option Coin := match v with AnyCoin c => Some c | _ => None end.
Definition as_Validator (v : Any) : option Validator := match v with AnyValidator w => Some w | _ => None end.

(** ** The account keeper *)

(** A mock is given by its address and its controller; it and its recorder point to each other. *)
Record MockAccountKeeper : Type := MkMockAccountKeeper { mak_ptr : nat; mak_ctrl : Controller }.
Record MockAccountKeeperMockRecorder : Type := MkMockAccountKeeperMockRecorder { mak_mock : MockAccountKeeper }.

Definition NewMockAccountKeeper (ptr : nat) (ctrl : Controller) : MockAccountKeeper := MkMockAccountKeeper ptr ctrl.
Definition MockAccountKeeper_EXPECT (m : MockAccountKeeper) : MockAccountKeeperMockRecorder := MkMockAccountKeeperMockRecorder m.
Definition mak_recv (m : MockAccountKeeper) : Receiver := MkReceiver "MockAccountKeeper" (mak_ptr m).

(** A result of another type is the nil address. *)
Definition MockAccountKeeper_GetModuleAddress (m : MockAccountKeeper) (name : string) : ST ControllerState (option bytes) :=
  _ ← T_Helper (mak_ctrl m);
  ret ← ctrl_Call (mak_ctrl m) (mak_recv m) "GetModuleAddress" [AnyString name];
  v ← st_lift (first_result ret);
  mret (default None (as_AccAddress v)).

Definition MockAccountKeeperMockRecorder_GetModuleAddress (mr : MockAccountKeeperMockRecorder) (name : Any)
    : ST ControllerState GoCall :=
  _ ← T_Helper (mak_ctrl (mak_mock mr));
  ctrl_RecordCallWithMethodType (mak_ctrl (mak_mock mr)) (mak_recv (mak_mock mr)) "GetModuleAddress"
    (MkMethodType ["string"] ["sdk.AccAddress"]) [name].

(** ** The bank keeper *)

Record MockBankKeeper : Type := MkMockBankKeeper { mbk_ptr : nat; mbk_ctrl : Controller }.
Record MockBankKeeperMockRecorder : Type := MkMockBankKeeperMockRecorder { mbk_mock : MockBankKeeper }.

Definition NewMockBankKeeper (ptr : nat) (ctrl : Controller) : MockBankKeeper := MkMockBankKeeper ptr ctrl.
Definition MockBankKeeper_EXPECT (m : MockBankKeeper) : MockBankKeeperMockRecorder := MkMockBankKeeperMockRecorder m.
Definition mbk_recv (m : MockBankKeeper) : Receiver := MkReceiver "MockBankKeeper" (mbk_ptr m).

Definition MockBankKeeper_GetBalance (m : MockBankKeeper) (ctx : Context) (addr : option bytes) (denom : string)
    : ST ControllerState Coin :=
  _ ← T_Helper (mbk_ctrl m);
  ret ← ctrl_Call (mbk_ctrl m) (mbk_recv m) "GetBalance" [AnyContext ctx; AnyAccAddress addr; AnyString denom];
  v ← st_lift (first_result ret);
  st_lift (assert_type as_Coin v).

Definition MockBankKeeperMockRecorder_GetBalance (mr : MockBankKeeperMockRecorder) (ctx addr denom : Any)
    : ST ControllerState GoCall :=
  _ ← T_Helper (mbk_ctrl (mbk_mock mr));
  ctrl_RecordCallWithMethodType (mbk_ctrl (mbk_mock mr)) (mbk_recv (mbk_mock mr)) "GetBalance"
    (MkMethodType ["context.Context"; "sdk.AccAddress"; "string"] ["sdk.Coin"]) [ctx; addr; denom].

(** The results are not read: the transfer always succeeds. *)
Definition MockBankKeeper_SendCoins (m : MockBankKeeper) (ctx : Context) (fromAddr toAddr : option bytes) (amt : Coins)
    : ST ControllerState (option error) :=
  _ ← T_Helper (mbk_ctrl m);
  _ ← ctrl_Call (mbk_ctrl m) (mbk_recv m) "SendCoins"
        [AnyContext ctx; AnyAccAddress fromAddr; AnyAccAddress toAddr; AnyCoins amt];
  mret None.

Definition MockBankKeeperMockRecorder_SendCoins (mr : MockBankKeeperMockRecorder) (ctx fromAddr toAddr amt : Any)
    : ST ControllerState GoCall :=
  _ ← T_Helper (mbk_ctrl (mbk_mock mr));
  ctrl_RecordCallWithMethodType (mbk_ctrl (mbk_mock mr)) (mbk_recv (mbk_mock mr)) "SendCoins"
    (MkMethodType ["context.Context"; "sdk.AccAddress"; "sdk.AccAddress"; "sdk.Coins"] ["error"]) [ctx; fromAddr; toAddr; amt].

(** ** The distribution keeper *)

Record MockDistributionKeeper : Type := MkMockDistributionKeeper { mdk_ptr : nat; mdk_ctrl : Controller }.
Record MockDistributionKeeperRecorder : Type := MkMockDistributionKeeperRecorder { mdk_mock : MockDistributionKeeper }.

Definition NewMockDistributionKeeper (ptr : nat) (ctrl : Controller) : MockDistributionKeeper := MkMockDistributionKeeper ptr ctrl.
Definition MockDistributionKeeper_EXPECT (m : MockDistributionKeeper) : MockDistributionKeeperRecorder :=
  MkMockDistributionKeeperRecorder m.
Definition mdk_recv (m : MockDistributionKeeper) : Receiver := MkReceiver "MockDistributionKeeper" (mdk_ptr m).

(** The second result is not read: there is never an error. *)
Definition MockDistributionKeeper_GetPreviousProposerConsAddr (m : MockDistributionKeeper) (ctx : Context)
    : ST ControllerState (option bytes * option error) :=
  _ ← T_Helper (mdk_ctrl m);
  ret ← ctrl_Call (mdk_ctrl m) (mdk_recv m) "GetPreviousProposerConsAddr" [AnyContext ctx];
  v ← st_lift (first_result ret);
  addr ← st_lift (assert_type as_ConsAddress v);
  mret (addr, None).

Definition MockDistributionKeeperRecorder_GetPreviousProposerConsAddr (mr : MockDistributionKeeperRecorder) (ctx : Any)
    : ST ControllerState GoCall :=
  _ ← T_Helper (mdk_ctrl (mdk_mock mr));
  ctrl_RecordCallWithMethodType (mdk_ctrl (mdk_mock mr)) (mdk_recv (mdk_mock mr)) "GetPreviousProposerConsAddr"
    (MkMethodType ["context.Context"] ["sdk.ConsAddress"; "error"]) [ctx].

(** ** The staking keeper *)

Record MockStakingKeeper : Type := MkMockStakingKeeper { msk_ptr : nat; msk_ctrl : Controller }.
Record MockStakingKeeperRecorder : Type := MkMockStakingKeeperRecorder { msk_mock : MockStakingKeeper }.

Definition NewMockStakingKeeper (ptr : nat) (ctrl : Controller) : MockStakingKeeper := MkMockStakingKeeper ptr ctrl.
Definition MockStakingKeeper_EXPECT (m : MockStakingKeeper) : MockStakingKeeperRecorder := MkMockStakingKeeperRecorder m.
Definition msk_recv (m : MockStakingKeeper) : Receiver := MkReceiver "MockStakingKeeper" (msk_ptr m).

Definition MockStakingKeeper_GetValidatorByConsAddr (m : MockStakingKeeper) (ctx : Context) (consAddr : option bytes)
    : ST ControllerState (Validator * option error) :=
  _ ← T_Helper (msk_ctrl m);
  ret ← ctrl_Call (msk_ctrl m) (msk_recv m) "GetValidatorByConsAddr" [AnyContext ctx; AnyConsAddress consAddr];
  v ← st_lift (first_result ret);
  validator ← st_lift (assert_type as_Validator v);
  mret (validator, None).

Definition MockStakingKeeperRecorder_GetValidatorByConsAddr (mr : MockStakingKeeperRecorder) (ctx consAddr : Any)
    : ST ControllerState GoCall :=
  _ ← T_Helper (msk_ctrl (msk_mock mr));
  ctrl_RecordCallWithMethodType (msk_ctrl (msk_mock mr)) (msk_recv (msk_mock mr)) "GetValidatorByConsAddr"
    (MkMethodType ["context.Context"; "sdk.ConsAddress"] ["stakingtypes.Validator"; "error"]) [ctx; consAddr].

(** ** The interfaces they implement *)

Definition mock_accounts (m : MockAccountKeeper) : AccountKeeper ControllerState :=
  MkAccountKeeper (MockAccountKeeper_GetModuleAddress m).
Definition mock_bank (m : MockBankKeeper) : BankKeeper ControllerState :=
  MkBankKeeper (MockBankKeeper_SendCoins m) (MockBankKeeper_GetBalance m).
Definition mock_distribution (m : MockDistributionKeeper) : DistributionKeeper ControllerState :=
  MkDistributionKeeper (MockDistributionKeeper_GetPreviousProposerConsAddr m).
Definition mock_staking (m : MockStakingKeeper) : StakingKeeper Validator ControllerState :=
  MkStakingKeeper (MockStakingKeeper_GetValidatorByConsAddr m).

(** ** What a test can make them answer *)

(** A controller that answers every call with the same results. *)
Definition answers_with (c : Controller) (ret : list Any) : Prop :=
  (forall s, T_Helper c s = (Ret tt, s)) /\
  forall r method args s, exists s', ctrl_Call c r method args s = (Ret ret, s').

(** The answer of a test to the bank mock is the balance; to the distribution and the staking mock it is
    an address or a validator, and an error given with it is dropped. *)
Lemma mocks_answer (c : Controller) (p : nat) ctx addr addr2 denom amt coin v (err : Any) s :
  (answers_with c [AnyCoin coin] ->
     exists s', MockBankKeeper_GetBalance (NewMockBankKeeper p c) ctx addr denom s = (Ret coin, s')) /\
  (answers_with c [err] ->
     exists s', MockBankKeeper_SendCoins (NewMockBankKeeper p c) ctx addr addr2 amt s = (Ret None, s')) /\
  (answers_with c [AnyConsAddress addr; err] ->
     exists s', MockDistributionKeeper_GetPreviousProposerConsAddr (NewMockDistributionKeeper p c) ctx s
       = (Ret (addr, None), s')) /\
  (answers_with c [AnyValidator v; err] ->
     exists s', MockStakingKeeper_GetValidatorByConsAddr (NewMockStakingKeeper p c) ctx addr s = (Ret (v, None), s')).
Proof.
  assert (step : forall A ret r method args (k : list Any -> ST ControllerState A) a, answers_with c ret ->
    (forall s, k ret s = (Ret a, s)) ->
    exists s', (_ ← T_Helper c; x ← ctrl_Call c r method args; k x) s = (Ret a, s')).
  { intros A ret r method args k a [H1 H2] Hk. destruct (H2 r method args s) as [s' Hs]. exists s'.
    st_unfold. by rewrite H1, Hs, Hk. }
  split_and!; intros H; eapply step; try exact H; done.
Qed.

(** Whatever the controller does, a transfer of the mock does not fail, and the rewards provider over the
    mocks does not return an error: the branches of the message server for a failing transfer and for
    an unknown proposer cannot be reached in the tests. *)
Lemma mocks_hide_errors GetOperator (mb : MockBankKeeper) (md : MockDistributionKeeper) (ms : MockStakingKeeper) ctx a b amt s :
  (forall err, fst (keeper_SendCoins (mock_bank mb) ctx a b amt s) <> Ret (Some err)) /\
  (forall addr err, fst (provider_GetRewardsAddress (proposer_provider GetOperator
     (NewProposerRewardsAddressProvider (mock_distribution md) (mock_staking ms))) ctx s) <> Ret (addr, Some err)).
Proof.
  split; intros; cbn.
  - unfold MockBankKeeper_SendCoins. st_unfold. repeat (break_match; cbn [fst]; try done).
  - unfold MockDistributionKeeper_GetPreviousProposerConsAddr, MockStakingKeeper_GetValidatorByConsAddr. st_unfold.
    repeat (break_match; cbn [fst]; simplify_eq; try done).
Qed.

(** Without a validator to answer with, the mock panics. *)
Lemma mocks_panic_without_value (c : Controller) (p : nat) ctx addr ret s :
  answers_with c ret -> (forall v, ret <> AnyValidator v :: tail ret) ->
  exists w s', MockStakingKeeper_GetValidatorByConsAddr (NewMockStakingKeeper p c) ctx addr s = (Panic w, s').
Proof.
  intros [H1 H2] Hv. destruct (H2 (msk_recv (NewMockStakingKeeper p c)) "GetValidatorByConsAddr"%string
    [AnyContext ctx; AnyConsAddress addr] s) as [s' Hs].
  unfold MockStakingKeeper_GetValidatorByConsAddr. st_unfold. cbn [NewMockStakingKeeper msk_ctrl] in *. rewrite H1, Hs.
  destruct ret as [|x ret]; [by eexists _, _|]. cbn [first_result]. unfold assert_type.
  destruct x; try by eexists _, _. by destruct (Hv v).
Qed.
End Mocks.
