(* ===== verification/Module.v ===== *)
(** * x/builder/module.go: the module's genesis, its services and its construction

    The genesis state as JSON, which the codec of the SDK reads and writes; the services, routes and
    codecs the module registers; the dependencies [ProvideModule] is given;
    [GetGenesisStateFromAppState] of types/genesis.go. *)
From S2P Require Import Prelude Hash Sdk Concrete BuilderTypes Wire BuilderWire BuilderWireFacts Builder BuilderFacts Grpc Gateway Codec.

(** ** The SDK *)

(** [codec.JSONCodec] on genesis states. *)
Class GenesisCodec `{sdk : Sdk} : Type := {
  MarshalJSON : GenesisState -> result bytes;
  UnmarshalJSON : bytes -> result GenesisState }.

(** A valid genesis state that is written is read back.  Of an invalid one nothing is said: unset
    amounts, for instance, are written like zero and read back as zero. *)
Class GenesisCodecLaws `{sdk : Sdk} (GC : GenesisCodec) : Prop := {
  json_roundtrip gs bz : GenesisState_Validate gs = Ret None ->
    MarshalJSON gs = Ok bz -> UnmarshalJSON bz = Ok gs }.

Section Module.
Context {sdk : Sdk} {PC : ParamsCodec} {GC : GenesisCodec}.

Definition must {A} (r : result A) : outcome A :=
  match r with Ok a => Ret a | Err _ => Panic "json" end.

(** ** The genesis of the module *)

Definition ModuleName : string := "builder".
Definition StoreKey : string := ModuleName.
Definition RouterKey : string := ModuleName.
Definition QuerierRoute : string := ModuleName.

Definition Module_DefaultGenesis (moduleAddress : bytes) : outcome bytes :=
  gs ← DefaultGenesisState moduleAddress; must (MarshalJSON gs).

Definition Module_ValidateGenesis (bz : bytes) : outcome (option error) :=
  match UnmarshalJSON bz with
  | Err err => mret (Some (Wrap "failed to unmarshal genesis state" err))
  | Ok genState => GenesisState_Validate genState
  end.

(** It returns no validator updates. *)
Definition Module_InitGenesis (gs : bytes) : ST Store (list unit) :=
  genState ← st_lift (must (UnmarshalJSON gs));
  _ ← InitGenesis genState;
  mret [].

Definition Module_ExportGenesis (store : Store) : outcome bytes :=
  genState ← ExportGenesis store; must (MarshalJSON genState).

(** The genesis state of the module in that of the application; without one, [zero]. *)
Definition GetGenesisStateFromAppState (zero : GenesisState) (appState : gmap string (option bytes))
    : outcome GenesisState :=
  match appState !! ModuleName with
  | Some (Some bz) => must (UnmarshalJSON bz)
  | _ => mret zero
  end.

(** ** The module *)

Definition ConsensusVersion : Z := 1.

(** The codec is kept, and not used: the methods are given one. *)
Record AppModuleBasic (Cdc : Type) : Type := MkAppModuleBasic { basic_cdc : Cdc }.
Record AppModule (Cdc : Type) : Type := MkAppModule { am_basic : AppModuleBasic Cdc; am_keeper : Keeper }.

Definition NewAppModule {Cdc} (cdc : Cdc) (keeper : Keeper) : AppModule Cdc :=
  MkAppModule Cdc (MkAppModuleBasic Cdc cdc) keeper.

(** The methods of the module basics that do not depend on it. *)
Definition AppModuleBasic_Name : string := ModuleName.
Definition AppModuleBasic_RegisterLegacyAminoCodec {CD : CodecLib} (cdc : LegacyAmino) : outcome LegacyAmino :=
  RegisterLegacyAminoCodec cdc.
Definition AppModuleBasic_RegisterInterfaces {CD : CodecLib} (registry : InterfaceRegistry) : outcome InterfaceRegistry :=
  RegisterInterfaces registry.

(** The methods the module has for the sake of the interfaces it implements; they do nothing. *)
Definition AppModule_IsAppModule {Cdc} (am : AppModule Cdc) : unit := tt.
Definition AppModule_IsOnePerModuleType {Cdc} (am : AppModule Cdc) : unit := tt.
Definition AppModule_ConsensusVersion : Z := ConsensusVersion.
Definition AppModuleBasic_RegisterRESTRoutes {ClientCtx Router} (ctx : ClientCtx) (r : Router) : Router := r.
Definition AppModule_RegisterInvariants {Registry} (ir : Registry) : Registry := ir.

(** What depinject gives the module and gets from it.  Of the keepers, the account keeper is asked for
    the address of the module account; what the others do is done on the store. *)
Record Inputs (Cdc : Type) : Type := MkInputs {
  in_Config_Authority : string;
  in_Cdc : Cdc;
  in_AccountKeeper : string -> option bytes }.
Record Outputs (Cdc : Type) : Type := MkOutputs {
  out_BuilderKeeper : Keeper;
  out_Module : AppModule Cdc }.

(** [authtypes.NewModuleAddress] and [authtypes.NewModuleAddressOrBech32Address] are those of
    the auth module. *)
Definition ProvideModule {Cdc} (NewModuleAddress NewModuleAddressOrBech32Address : string -> bytes)
    (inputs : Inputs Cdc) : outcome (Outputs Cdc) :=
  let authority := if negb (bool_decide (in_Config_Authority Cdc inputs = "")) then
                     NewModuleAddressOrBech32Address (in_Config_Authority Cdc inputs)
                   else NewModuleAddress "gov" in
  builderKeeper ← NewKeeper (in_AccountKeeper Cdc inputs ModuleName) (AccAddress_String authority);
  let m := NewAppModule (in_Cdc Cdc inputs) builderKeeper in
  Ret {| out_BuilderKeeper := builderKeeper; out_Module := m |}.

(** [init]: the module is registered with depinject under its configuration, with [ProvideModule]. *)
Definition module_init {Registry Provider} (appmodule_Register : string -> Provider -> Registry -> Registry)
    (provide : Provider) (modules : Registry) : Registry :=
  appmodule_Register "pob.builder.module.v1.Module" provide modules.

(** The keeper the module is given pays the previous proposer, and obeys governance unless the
    configuration names another authority; it needs the module account. *)
Lemma ProvideModule_spec {AL : AddressLaws sdk} {Cdc} gov named (inputs : Inputs Cdc) a :
  a = (if decide (in_Config_Authority Cdc inputs = "") then gov "gov"%string else named (in_Config_Authority Cdc inputs)) ->
  a <> [] ->
  match in_AccountKeeper Cdc inputs ModuleName with
  | Some _ => exists out, ProvideModule gov named inputs = Ret out /\
      GetAuthority (out_BuilderKeeper Cdc out) = AccAddress_String a /\
      am_keeper Cdc (out_Module Cdc out) = out_BuilderKeeper Cdc out /\
      rewardsAddressProvider (out_BuilderKeeper Cdc out) = Proposer_GetRewardsAddress
  | None => exists w, ProvideModule gov named inputs = Panic w
  end.
Proof.
  intros Ha Hne. unfold ProvideModule, NewKeeper, NewKeeperWithRewardsAddressProvider. st_unfold.
  replace (if negb (bool_decide (in_Config_Authority Cdc inputs = "")) then named (in_Config_Authority Cdc inputs) else gov "gov")
    with a by (subst a; repeat case_decide; by case_bool_decide).
  rewrite address_roundtrip by done. destruct (in_AccountKeeper Cdc inputs ModuleName); [|by eexists].
  by eexists.
Qed.

(** ** The properties *)

Context {CL : CoinLaws sdk} {DL : DecLaws sdk} {SL : StoreLaws sdk} {PCL : ParamsCodecLaws PC}
  {GCL : GenesisCodecLaws GC}.

Lemma DefaultGenesisState_valid (moduleAddress : bytes) :
  Coin_Validate (MkCoin "stake" (Some 1)) = None ->
  exists gs, DefaultGenesisState moduleAddress = Ret gs /\ GenesisState_Validate gs = Ret None.
Proof.
  intros Hc. unfold DefaultGenesisState, DefaultParams. st_unfold. rewrite coin_new by (done || lia).
  eexists. split; [done|]. unfold GenesisState_Validate. cbn [gs_Params].
  destruct (Params_Validate_spec (NewParams 2 (Some moduleAddress) (MkCoin "stake" (Some 1)) (MkCoin "stake" (Some 1))
    true LegacyZeroDec)) as (r & -> & Hr). f_equal. apply Hr. cbn. split_and!; try done.
  exists 0. split; [apply dec_zero|unfold dec_one; lia].
Qed.

(** C40: a chain restarts from its own genesis.  Let [bz] be the JSON the codec writes for a valid
    genesis state whose parameters the keeper can store (their escrow address is not empty).
    Whatever the store held, after importing [bz] the module exports [bz] again, and importing the
    export into any other store gives the same parameters; the default genesis is valid. *)
Theorem module_genesis_roundtrip (gs : GenesisState) (bz : bytes) (s : Store) (moduleAddress : bytes) :
  GenesisState_Validate gs = Ret None -> storable (gs_Params gs) -> MarshalJSON gs = Ok bz ->
  Coin_Validate (MkCoin "stake" (Some 1)) = None ->
  (exists s', Module_InitGenesis bz s = (Ret [], s') /\ Module_ExportGenesis s' = Ret bz /\
     GetParams s' = Ok (gs_Params gs) /\
     forall s2, exists s2', Module_InitGenesis bz s2 = (Ret [], s2') /\ GetParams s2' = GetParams s') /\
  forall json, Module_DefaultGenesis moduleAddress = Ret json -> Module_ValidateGenesis json = Ret None.
Proof.
  intros Hv Hst Hm Hc.
  assert (HI : forall s, exists s', Module_InitGenesis bz s = (Ret [], s') /\
    ExportGenesis s' = Ret gs /\ GetParams s' = Ok (gs_Params gs)).
  { intros s0. destruct (InitGenesis_ExportGenesis gs s0 Hst) as (s' & HS & HE & HQ). exists s'.
    unfold Module_InitGenesis. rewrite (json_roundtrip _ _ Hv Hm). st_unfold. cbn [must]. by rewrite HS. }
  split.
  - destruct (HI s) as (s' & HS & HE & HP). exists s'. split; [done|]. unfold Module_ExportGenesis. rewrite HE.
    st_unfold. rewrite Hm. do 2 (split; [done|]). intros s2. destruct (HI s2) as (s2' & HS2 & _ & HP2).
    exists s2'. by rewrite HP, HP2.
  - intros json. unfold Module_DefaultGenesis.
    destruct (DefaultGenesisState_valid moduleAddress Hc) as (gs0 & -> & Hv0). st_unfold.
    destruct (MarshalJSON gs0) as [b|] eqn:Eb; cbn [must]; [|done]. intros [= <-].
    unfold Module_ValidateGenesis. by rewrite (json_roundtrip _ _ Hv0 Eb).
Qed.
End Module.

Section Services.
Context {sdk : Sdk} {W : WireLib} {Ctx Any Cdc : Type}.
Context {D1 : Dynamic Any MsgAuctionBid} {D2 : Dynamic Any MsgAuctionBidResponse}
  {D3 : Dynamic Any MsgUpdateParams} {D4 : Dynamic Any MsgUpdateParamsResponse}
  {D5 : Dynamic Any QueryParamsRequest} {D6 : Dynamic Any QueryParamsResponse}.
Abbreviation State := (Store * list AuctionBidEvent)%type.
Context {GS : GrpcServer State Ctx Any} {GL : GatewayLib State Ctx}.

(** The configurator has a server for messages and one for queries. *)
Definition RegisterServices (am : AppModule Cdc) (cfc : Server * Server) : outcome (Server * Server) :=
  msg ← RegisterMsgServer (NewMsgServerImpl (am_keeper Cdc am)) cfc.1;
  query ← RegisterQueryServer (NewQueryServer (am_keeper Cdc am)) cfc.2;
  Ret (msg, query).

(** The connection is the client context. *)
Definition RegisterGRPCGatewayRoutes (clientCtx : Conn) : ST ServeMux unit :=
  err ← RegisterQueryHandlerClient (NewQueryClient (conn_cc clientCtx));
  match err with
  | Some err => st_panic "register"
  | None => mret tt
  end.

(** The gateway of the module answers one route, the query of the parameters, and asks the
    connection for it; bids are not accepted over HTTP. *)
Lemma gateway_routes conn mux :
  RegisterGRPCGatewayRoutes conn mux =
    (Ret tt, Handle "GET" pattern_Query_Params_0 (client_handler (request_Query_Params_0 (NewQueryClient (conn_cc conn)))) mux).
Proof. reflexivity. Qed.
End Services.

(** ** Witness *)

#[local] Instance ex_dec_eq : EqDecision (@Dec concrete_sdk).
Proof. change (EqDecision (option Z)). apply _. Defined.
#[local] Instance ex_params_eq : EqDecision (@Params concrete_sdk).
Proof. solve_decision. Defined.

(** A JSON codec that knows the default genesis state and another one. *)
Definition ex_default_params : @Params concrete_sdk :=
  NewParams 2 (Some (ex_addr 7)) (MkCoin "stake" (Some 1)) (MkCoin "stake" (Some 1)) true
    (LegacyZeroDec : @Dec concrete_sdk).
Definition ex_json : GenesisCodec (sdk := concrete_sdk) := {|
  MarshalJSON gs :=
    if bool_decide (gs_Params gs = ex_default_params) then Ok [x00]
    else if bool_decide (gs_Params gs = ex_params) then Ok [x01]
    else Err (Errorf "unknown genesis state");
  UnmarshalJSON bz :=
    if bool_decide (bz = [x00]) then Ok {| gs_Params := ex_default_params |}
    else if bool_decide (bz = [x01]) then Ok {| gs_Params := ex_params |}
    else Err (Errorf "unexpected end of JSON input") |}.
#[local] Instance ex_json_laws : GenesisCodecLaws ex_json.
Proof.
  split. intros [p] bz _. cbn. repeat case_bool_decide; try done; intros [= <-]; by subst.
Defined.

Lemma module_genesis_roundtrip_witness :
  (exists s', Module_InitGenesis (GC := ex_json) [x01] ex_store = (Ret [], s') /\
     Module_ExportGenesis (GC := ex_json) s' = Ret [x01] /\
     GetParams s' = Ok ex_params /\
     forall s2, exists s2', Module_InitGenesis (GC := ex_json) [x01] s2 = (Ret [], s2') /\ GetParams s2' = GetParams s') /\
  Module_DefaultGenesis (GC := ex_json) (ex_addr 7) = Ret [x00] /\
  Module_ValidateGenesis (GC := ex_json) [x00] = Ret None.
Proof.
  destruct (module_genesis_roundtrip (GC := ex_json) {| gs_Params := ex_params |} [x01] ex_store (ex_addr 7))
    as [H1 H2].
  - reflexivity.
  - apply ex_params_ok.
  - reflexivity.
  - reflexivity.
  - split; [exact H1|]. split; [reflexivity|]. apply H2. reflexivity.
Defined.
