(* ===== verification/Cli.v ===== *)
(** * x/builder/client/cli: the commands of the module

    query.go and tx.go, and the commands in module.go.  Cobra and the client package are the class
    [CliLib]; a command runs in a state that holds its flags, what it printed and broadcast, and,
    for queries, the server it asks.  The facts: a bid entered as hexadecimal text is broadcast
    with exactly the transactions it was made of, and the query prints what the keeper stores. *)
From S2P Require Import Prelude Hash Sdk SkipListFacts Concrete BuilderTypes Wire WireFacts BuilderWire BuilderWireFacts Builder Grpc GrpcFacts Codec Module.
#[local] Open Scope Z_scope.

(** [cobra.Command]: the fields and methods the code sets.  The commands below it are those given
    to AddCommand. *)
Inductive Command (S Args FlagSet : Type) : Type := MkCommand {
  Use : string;
  Short : string;
  Long : string;
  cmd_Args : option Args;
  Example_ : string;
  DisableFlagParsing : bool;
  SuggestionsMinimumDistance : Z;
  cmd_Flags : FlagSet;
  RunE : list string -> ST S (option error);
  Commands : list (Command S Args FlagSet) }.
Arguments MkCommand {S Args FlagSet}. Arguments Use {S Args FlagSet}. Arguments Short {S Args FlagSet}.
Arguments Long {S Args FlagSet}. Arguments cmd_Args {S Args FlagSet}. Arguments Example_ {S Args FlagSet}.
Arguments DisableFlagParsing {S Args FlagSet}. Arguments SuggestionsMinimumDistance {S Args FlagSet}.
Arguments cmd_Flags {S Args FlagSet}. Arguments RunE {S Args FlagSet}. Arguments Commands {S Args FlagSet}.

Class CliLib `{sdk : Sdk} (S Ctx : Type) : Type := {
  PositionalArgs : Type;
  NoArgs : PositionalArgs;
  ExactArgs : Z -> PositionalArgs;
  FlagSet : Type;
  no_flags : FlagSet;
  AddTxFlagsToCmd : FlagSet -> FlagSet;
  AddQueryFlagsToCmd : FlagSet -> FlagSet;
  client_ValidateCmd : list string -> ST S (option error);
  (** [cmd.Flags()] of the command that runs. *)
  Flags_Set : string -> string -> ST S (option error);
  Flags_GetUint64 : string -> ST S (Z * option error);
  ClientContext : Type;
  GetClientTxContext : ST S (result ClientContext);
  GetClientQueryContext : ST S (result ClientContext);
  GetFromAddress : ClientContext -> bytes;
  (** The client context is a connection, too. *)
  context_conn : ClientContext -> ClientConn S Ctx;
  context_Background : Ctx;
  PrintProto : ClientContext -> Params -> ST S (option error);
  ParseCoinNormalized : string -> result Coin;
  GenerateOrBroadcastTxCLI : ClientContext -> MsgAuctionBid -> ST S (option error)
}.

Section Cli.
Context {sdk : Sdk} {W : WireLib} {S Ctx : Type} {CL : CliLib S Ctx}.
Abbreviation Cmd := (Command S (PositionalArgs (S := S) (Ctx := Ctx)) (FlagSet (S := S) (Ctx := Ctx))).

(** ** tx.go *)

(** [args[i]]. *)
Definition arg (args : list string) (i : nat) : outcome string :=
  match args !! i with Some a => Ret a | None => Panic "runtime error: index out of range" end.

(** The loop over the tokens: the first one that is not hexadecimal is an error. *)
Fixpoint decode_tokens (tokens : list string) : result (list bytes) :=
  match tokens with
  | [] => Ok []
  | token :: tokens =>
      match hex_DecodeString token with
      | Err err => Err (Wrap "failed to HEX decode bundled transaction" err)
      | Ok rawTx => bundledTxs ← decode_tokens tokens; Ok (rawTx :: bundledTxs)
      end
  end.

Definition FlagFrom : string := "from".
Definition FlagTimeoutHeight : string := "timeout-height".

(** The [RunE] of the command. *)
Definition AuctionBid_RunE (args : list string) : ST S (option error) :=
  from ← st_lift (arg args 0);
  err ← Flags_Set FlagFrom from;
  match err with
  | Some err => mret (Some err)
  | None =>
      clientCtx ← GetClientTxContext;
      match clientCtx with
      | Err err => mret (Some err)
      | Ok clientCtx =>
          coin ← st_lift (arg args 1);
          match ParseCoinNormalized coin with
          | Err err => mret (Some err)
          | Ok bid =>
              '(timeoutHeight, _) ← Flags_GetUint64 FlagTimeoutHeight;
              if timeoutHeight =? 0 then mret (Some (Errorf "timeout height must be greater than 0"))
              else
                txs ← st_lift (arg args 2);
                match decode_tokens (strings_Split txs ",") with
                | Err err => mret (Some err)
                | Ok bundledTxs =>
                    GenerateOrBroadcastTxCLI clientCtx (NewMsgAuctionBid (GetFromAddress clientCtx) bid bundledTxs)
                end
          end
      end
  end.

Definition NewAuctionBidTx : Cmd :=
  {| Use := "auction-bid [bidder] [bid] [bundled_tx1,bundled_tx2,...,bundled_txN]";
     Short := "Create an auction bid transaction with signed bundled transactions";
     Long := "Create an auction bid transaction with a list of signed bundled transactions,
where each transaction is a hex-encoded string of a signed transaction.
";
     cmd_Args := Some (ExactArgs 3);
     Example_ := "auction-bid cosmos1... 10000uatom 0xFF...,0xCC...,0xAA...";
     DisableFlagParsing := false; SuggestionsMinimumDistance := 0;
     cmd_Flags := AddTxFlagsToCmd no_flags;
     RunE := AuctionBid_RunE;
     Commands := [] |}.

Definition NewTxCmd : Cmd :=
  {| Use := ModuleName; Short := "Builder transaction subcommands"; Long := "";
     cmd_Args := None; Example_ := ""; DisableFlagParsing := true; SuggestionsMinimumDistance := 2;
     cmd_Flags := no_flags; RunE := client_ValidateCmd;
     Commands := [NewAuctionBidTx] |}.

(** ** query.go *)

Definition QueryParams_RunE (args : list string) : ST S (option error) :=
  clientCtx ← GetClientQueryContext;
  match clientCtx with
  | Err err => mret (Some err)
  | Ok clientCtx =>
      let queryClient := NewQueryClient (context_conn clientCtx) in
      response ← QueryClient_Params queryClient context_Background MkQueryParamsRequest;
      match response with
      | Err err => mret (Some err)
      | Ok response => PrintProto clientCtx (qr_Params response)
      end
  end.

Definition CmdQueryParams : Cmd :=
  {| Use := "params"; Short := "Query the current parameters of the builder module"; Long := "";
     cmd_Args := Some NoArgs; Example_ := ""; DisableFlagParsing := false; SuggestionsMinimumDistance := 0;
     cmd_Flags := AddQueryFlagsToCmd no_flags;
     RunE := QueryParams_RunE; Commands := [] |}.

Definition GetQueryCmd : Cmd :=
  {| Use := ModuleName; Short := "Querying commands for the " +:+ ModuleName +:+ " module"; Long := "";
     cmd_Args := None; Example_ := ""; DisableFlagParsing := true; SuggestionsMinimumDistance := 2;
     cmd_Flags := no_flags; RunE := client_ValidateCmd;
     Commands := [CmdQueryParams] |}.

(** module.go *)
Definition AppModuleBasic_GetTxCmd : Cmd := NewTxCmd.
Definition AppModuleBasic_GetQueryCmd : Cmd := GetQueryCmd.

(** ** A bid is broadcast as it was entered *)

(** A string without the separator. *)
Fixpoint lacks (sep : ascii) (s : string) : Prop :=
  match s with EmptyString => True | String a s => a <> sep /\ lacks sep s end.

Lemma split_lacks sep s : lacks sep s -> strings_Split s sep = [s].
Proof.
  induction s as [|a s IH]; [done|]. cbn. intros [Ha Hs]. rewrite bool_decide_eq_false_2 by done.
  by rewrite IH.
Qed.

Lemma split_app sep s t : lacks sep s -> strings_Split (s +:+ String sep t) sep = s :: strings_Split t sep.
Proof.
  induction s as [|a s IH].
  - change ("" +:+ String sep t) with (String sep t). cbn. by rewrite bool_decide_eq_true_2.
  - change (String a s +:+ ?x) with (String a (s +:+ x)). cbn. intros [Ha Hs].
    rewrite bool_decide_eq_false_2 by done. by rewrite IH.
Qed.

(** [strings.Split] takes apart what [strings.Join] put together. *)
Lemma split_join sep l : l <> [] -> Forall (lacks sep) l ->
  strings_Split (strings_Join l (String sep EmptyString)) sep = l.
Proof.
  unfold strings_Join. intros Hne. induction 1 as [|s l Hs Hl IH]; [done|].
  destruct l as [|t l]; cbn [String.concat]; [by apply split_lacks|].
  change (String sep "" +:+ ?x) with (String sep x). rewrite split_app by done. f_equal. by apply IH.
Qed.

Lemma hex_lacks_comma bz : lacks "," (hex_EncodeToString bz).
Proof.
  induction bz as [|b bz IH]; [done|]. cbn.
  assert (H : forall z, 0 <= z < 16 -> hex_digit z <> ","%char).
  { intros z Hz E. pose proof (hex_value_digit z Hz) as Hv. rewrite E in Hv. discriminate Hv. }
  pose proof (byte_Z_range b) as Hb.
  split; [apply H; split; [apply Z.div_pos|apply Z.div_lt_upper_bound]; lia|].
  split; [apply H, Z.mod_pos_bound; lia|done].
Qed.

Lemma decode_encoded bzs : decode_tokens (map hex_EncodeToString bzs) = Ok bzs.
Proof. induction bzs as [|bz bzs IH]; [done|]. cbn. by rewrite hex_decode_encode, IH. Qed.

Lemma decode_tokens_first_error pre token post err :
  hex_DecodeString token = Err err ->
  decode_tokens (map hex_EncodeToString pre ++ token :: post) =
    Err (Wrap "failed to HEX decode bundled transaction" err).
Proof.
  intros H. induction pre as [|bz pre IH]; cbn; [by rewrite H|]. by rewrite hex_decode_encode, IH.
Qed.

(** How the first lines of the command end: with a context, a coin, a timeout, in state [st']. *)
Definition prepared (from coin : string) (st : S) (clientCtx : ClientContext) (bid : Coin) (timeout : Z) (st' : S) : Prop :=
  exists st1 st2 e, Flags_Set FlagFrom from st = (Ret None, st1) /\
    GetClientTxContext st1 = (Ret (Ok clientCtx), st2) /\ ParseCoinNormalized coin = Ok bid /\
    Flags_GetUint64 FlagTimeoutHeight st2 = (Ret (timeout, e), st').

Lemma RunE_prepared from coin txs st clientCtx bid timeout st' :
  prepared from coin st clientCtx bid timeout st' ->
  AuctionBid_RunE [from; coin; txs] st =
    (if timeout =? 0 then (Ret (Some (Errorf "timeout height must be greater than 0")), st')
     else match decode_tokens (strings_Split txs ",") with
          | Err err => (Ret (Some err), st')
          | Ok bundledTxs => GenerateOrBroadcastTxCLI clientCtx
              (NewMsgAuctionBid (GetFromAddress clientCtx) bid bundledTxs) st'
          end).
Proof.
  intros (st1 & st2 & e & H1 & H2 & H3 & H4). unfold AuctionBid_RunE, arg. st_unfold. cbn [lookup list_lookup].
  rewrite H1, H2, H3, H4. destruct (timeout =? 0); [done|]. by destruct (decode_tokens _).
Qed.

(** The command broadcasts the bid of the sender with exactly the transactions whose hexadecimal
    texts are given, in order; without a timeout, or with a text that is not hexadecimal, it
    broadcasts nothing.  The texts of the command's own example are such: they start with 0x. *)
Theorem auction_bid_command from coin bzs st clientCtx bid timeout st' :
  prepared from coin st clientCtx bid timeout st' ->
  (timeout <> 0 -> bzs <> [] ->
     AuctionBid_RunE [from; coin; strings_Join (map hex_EncodeToString bzs) ","] st =
     GenerateOrBroadcastTxCLI clientCtx (NewMsgAuctionBid (GetFromAddress clientCtx) bid bzs) st') /\
  (timeout = 0 -> forall txs, exists err, AuctionBid_RunE [from; coin; txs] st = (Ret (Some err), st')) /\
  (forall pre token post err, lacks "," token -> Forall (lacks ",") post -> hex_DecodeString token = Err err ->
     timeout <> 0 ->
     AuctionBid_RunE [from; coin; strings_Join (map hex_EncodeToString pre ++ token :: post) ","] st
       = (Ret (Some (Wrap "failed to HEX decode bundled transaction" err)), st')) /\
  (forall s, exists err, hex_DecodeString ("0x" +:+ s) = Err err).
Proof.
  intros H. split_and!.
  - intros Ht Hne. rewrite (RunE_prepared _ _ _ _ _ _ _ _ H). rewrite (proj2 (Z.eqb_neq _ _) Ht).
    rewrite split_join, decode_encoded; [done|by destruct bzs|].
    apply Forall_map, Forall_true, hex_lacks_comma.
  - intros -> txs. rewrite (RunE_prepared _ _ _ _ _ _ _ _ H). by eexists.
  - intros pre token post err Htok Hpost Herr Ht. rewrite (RunE_prepared _ _ _ _ _ _ _ _ H).
    rewrite (proj2 (Z.eqb_neq _ _) Ht). rewrite split_join; [|by destruct pre|].
    + by rewrite (decode_tokens_first_error _ _ _ err).
    + apply Forall_app. split; [apply Forall_map, Forall_true, hex_lacks_comma|by constructor].
  - intros s. eexists. reflexivity.
Qed.

(** An empty list of transactions is read as one empty transaction, which the chain rejects. *)
Theorem auction_bid_command_empty_bundle from coin st clientCtx bid timeout st' :
  prepared from coin st clientCtx bid timeout st' -> timeout <> 0 ->
  let msg := NewMsgAuctionBid (GetFromAddress clientCtx) bid [[]] in
  AuctionBid_RunE [from; coin; ""%string] st = GenerateOrBroadcastTxCLI clientCtx msg st' /\
  exists err, MsgAuctionBid_ValidateBasic msg = Some err.
Proof.
  intros H Ht msg. rewrite (RunE_prepared _ _ _ _ _ _ _ _ H), (proj2 (Z.eqb_neq _ _) Ht). split; [done|].
  unfold MsgAuctionBid_ValidateBasic. destruct (AccAddressFromBech32 _); [|by eexists].
  destruct (Coin_IsNil _); [by eexists|]. destruct (Coin_Validate _); [by eexists|]. by eexists.
Qed.
End Cli.

(** ** The query prints what the keeper stores *)

Section Query.
Context {sdk : Sdk} {DL : DecLaws sdk} {W : WireLib} {WL : WireLaws W} {Ctx Any : Type}.
Context {D1 : Dynamic Any MsgAuctionBid} {D2 : Dynamic Any MsgAuctionBidResponse}
  {D3 : Dynamic Any MsgUpdateParams} {D4 : Dynamic Any MsgUpdateParamsResponse}
  {D5 : Dynamic Any QueryParamsRequest} {D6 : Dynamic Any QueryParamsResponse}.
Context {marshal : Any -> outcome (result bytes)}
  {A5 : AnyMessages marshal QueryParamsRequest} {A6 : AnyMessages marshal QueryParamsResponse}.
Abbreviation State := (Store * list AuctionBidEvent)%type.
Context {GS : GrpcServer State Ctx Any} {GL : GrpcServerLaws GS} {CL : CliLib State Ctx}.

(** Over a connection to a node with the services of x/builder, the command prints the stored
    parameters. *)
Theorem params_command_prints_the_parameters (k : Keeper) (s0 s1 s2 : Server) icpt status clientCtx s events p :
  RegisterMsgServer (NewMsgServerImpl k) s0 = Ret s1 -> RegisterQueryServer (NewQueryServer k) s1 = Ret s2 ->
  connects marshal icpt status (context_conn clientCtx) s2 -> transparent icpt ->
  GetClientQueryContext (s, events) = (Ret (Ok clientCtx), (s, events)) ->
  GetParams s = Ok p -> params_ok p ->
  QueryParams_RunE [] (s, events) = PrintProto clientCtx p (s, events).
Proof.
  intros H1 H2 HC HT Hq Hp Hok. unfold QueryParams_RunE. st_unfold. rewrite Hq. cbn [QueryClient_Params NewQueryClient].
  rewrite (query_reaches k s0 s1 s2 icpt status _ H1 H2 HC HT context_Background s events p Hp Hok). done.
Qed.
End Query.

(** ** An example: a process that remembers the sender and what it broadcast *)

Abbreviation ex_process := (string * list MsgAuctionBid)%type.
#[local] Instance ex_cli : CliLib (sdk := concrete_sdk) ex_process unit := {
  PositionalArgs := Z; NoArgs := 0; ExactArgs n := n;
  FlagSet := unit; no_flags := tt; AddTxFlagsToCmd f := f; AddQueryFlagsToCmd f := f;
  client_ValidateCmd _ := mret None;
  Flags_Set _ v '(_, out) := (Ret None, (v, out));
  Flags_GetUint64 _ := mret (50, None);
  ClientContext := string;
  GetClientTxContext st := (Ret (Ok st.1), st);
  GetClientQueryContext st := (Ret (Ok st.1), st);
  GetFromAddress s := string_bytes s;
  context_conn _ := {| Invoke _ _ _ _ _ _ _ _ := mret (Err (Errorf "unavailable")) |};
  context_Background := tt;
  PrintProto _ _ := mret None;
  ParseCoinNormalized s := let '(a, d) := parse_digits 0 s in Ok (MkCoin d (Some a));
  GenerateOrBroadcastTxCLI _ m '(from, out) := (Ret None, (from, out ++ [m]))
}.

Example auction_bid_command_example :
  AuctionBid_RunE ["alice"; "100stake"; "0aff,00"]%string ("", []) =
    (Ret None, ("alice"%string, [{| msg_Bidder := AccAddress_String (string_bytes "alice");
                                    msg_Bid := MkCoin "stake" (Some 100);
                                    msg_Transactions := [[x0a; xff]; [x00]] |}])).
Proof.
  change "0aff,00"%string with (strings_Join (map hex_EncodeToString [[x0a; xff]; [x00]]) ",").
  rewrite (proj1 (auction_bid_command "alice" "100stake" [[x0a; xff]; [x00]] ("", []) ("alice"%string : ClientContext (CliLib := ex_cli))
    (MkCoin "stake" (Some 100)) 50 ("alice", []) ltac:(eexists _, _, _; split_and!; reflexivity))); done.
Qed.
