(* ===== verification/Effects.v ===== *)
(** * What code does to the mempool of a lane

    [Adds l P m]: whatever [m] does, it lets only transactions with [P] into the mempool of lane
    [l].  The property composes along the code, so that the hint database [adds] proves it of a
    handler by following its definition. *)
From S2P Require Import Prelude Hash Sdk Proposals LaneMempool Stored Lane AuctionLane Lanes Abci Mempool AbciFacts.

Lemma Ret_inj {A} (a b : A) : Ret a = Ret b -> a = b.
Proof. by intros [= ->]. Qed.

Section Effects.
Context {sdk : Sdk} {M : Type} {LM : LaneMempool M} {LL : LaneMempoolLaws M}.
Abbreviation State := (Lane.State (M := M)).
Abbreviation LaneC := (LaneConstructor (M := M)).
Abbreviation Lanes := (gmap LaneId LaneC).
Context (l : LaneId) (P : Tx -> Prop) (HP : forall tx, P tx -> lm_good tx).

(** The mempool of the lane is as it was, but for what was taken out of it or has [P]. *)
Definition grows (st st' : State) : Prop :=
  match st_mempools st !! l, st_mempools st' !! l with
  | Some mp, Some mp' => lm_ok mp -> lm_ok mp' /\ forall t, lm_holds mp' t -> lm_holds mp t \/ P t
  | None, None => True
  | _, _ => False
  end.

Definition Adds {A} (m : ST State A) : Prop := forall st, grows st (snd (m st)).

#[export] Instance grows_preorder : PreOrder grows.
Proof.
  unfold grows. split.
  - intros st. destruct (st_mempools st !! l); [|done]. intros Hok. split; [done|]. by left.
  - intros st1 st2 st3. destruct (st_mempools st1 !! l), (st_mempools st2 !! l), (st_mempools st3 !! l);
      try done. intros H12 H23 Hok. destruct (H12 Hok) as [Hok2 H1]. destruct (H23 Hok2) as [Hok3 H2].
    split; [done|]. intros t Ht. destruct (H2 t Ht) as [Ht2|]; [|by right]. by apply H1.
Qed.

Lemma adds_ret {A} (a : A) : Adds (mret a).
Proof. intros st. reflexivity. Qed.

Lemma adds_lift {A} (o : outcome A) : Adds (st_lift o).
Proof. intros st. reflexivity. Qed.

Lemma adds_write s st : grows st (set_store s st).
Proof. unfold grows. cbn. destruct (st_mempools st !! l); [|done]. intros Hok. split; [done|]. by left. Qed.

Lemma adds_get : Adds st_get.
Proof. intros st. reflexivity. Qed.

Lemma adds_bind {A B} (m : ST State A) (f : A -> ST State B) :
  Adds m -> (forall a, Adds (f a)) -> Adds (m ≫= f).
Proof.
  intros Hm Hf st. unfold mbind, ST_bind. specialize (Hm st). destruct (m st) as [[a|w] st1]; [|done].
  etransitivity; [exact Hm|apply Hf].
Qed.

(** A continuation may rely on the result being one the code returns. *)
Lemma adds_bind_returns {A B} (m : ST State A) (f : A -> ST State B) :
  Adds m -> (forall a, (exists st st', m st = (Ret a, st')) -> Adds (f a)) -> Adds (m ≫= f).
Proof.
  intros Hm Hf st. unfold mbind, ST_bind. specialize (Hm st). destruct (m st) as [[a|w] st1] eqn:E; [|done].
  etransitivity; [exact Hm|]. apply Hf. eauto.
Qed.

Lemma adds_bind_lift {A B} (o : outcome A) (f : A -> ST State B) :
  (forall a, o = Ret a -> Adds (f a)) -> Adds (st_lift o ≫= f).
Proof. intros Hf st. st_unfold. destruct o as [a|w]; [by apply Hf|reflexivity]. Qed.

Lemma adds_recover {A} (m : ST State A) h : Adds m -> (forall w, Adds (h w)) -> Adds (recover m h).
Proof.
  intros Hm Hh st. unfold recover. specialize (Hm st). destruct (m st) as [[a|w] st1]; [done|].
  etransitivity; [exact Hm|apply Hh].
Qed.

Lemma adds_with_cache {A} (write : A -> bool) (m : ST State A) : Adds m -> Adds (with_cache write m).
Proof.
  intros Hm st. unfold with_cache. specialize (Hm st). destruct (m st) as [[a|w] st1]; [|done].
  by destruct (write a).
Qed.

Lemma adds_on_committed {A} s (m : ST State A) : Adds m -> Adds (on_committed s m).
Proof. intros Hm st. unfold on_committed. specialize (Hm (set_store s st)). by destruct (m _). Qed.

Lemma adds_on_mempool {A} l' (m : ST M A) :
  (l' = l -> forall mp, lm_ok mp -> lm_ok (snd (m mp)) /\
     forall t, lm_holds (snd (m mp)) t -> lm_holds mp t \/ P t) ->
  Adds (on_mempool l' m).
Proof.
  intros Hm st. unfold on_mempool, grows. destruct (st_mempools st !! l') as [mp|] eqn:E.
  2: { cbn. destruct (st_mempools st !! l) eqn:El; [|done]. intros Hok. split; [done|]. by left. }
  specialize (fun H => Hm H mp). destruct (m mp) as [r mp1]. cbn. destruct (decide (l' = l)) as [->|Hne].
  - rewrite E, lookup_insert_eq. by apply Hm.
  - rewrite lookup_insert_ne by done. destruct (st_mempools st !! l); [|done]. intros Hok. split; [done|]. by left.
Qed.

Lemma adds_select l' : Adds (on_mempool l' lm_Select).
Proof.
  apply adds_on_mempool. intros _ mp Hok. destruct (lm_select_law mp Hok) as (H1 & H2 & _).
  split; [done|]. intros t Ht. left. by apply H2.
Qed.

Lemma adds_remove l' tx : Adds (on_mempool l' (lm_Remove tx)).
Proof.
  apply adds_on_mempool. intros _ mp Hok. destruct (lm_remove_law tx mp Hok) as (H1 & H2).
  split; [done|]. intros t Ht. left. by apply H2.
Qed.

Lemma adds_insert l' ctx tx : (l' = l -> P tx) -> Adds (on_mempool l' (lm_Insert ctx tx)).
Proof.
  intros Htx. apply adds_on_mempool. intros El mp Hok.
  destruct (lm_insert_law ctx tx mp (HP tx (Htx El)) Hok) as (H1 & H2).
  split; [done|]. intros t Ht. destruct (H2 t Ht) as [?| ->]; [by left|right; by apply Htx].
Qed.

Lemma adds_read {A} l' (f : M -> A) : Adds (read_mempool l' f).
Proof. apply adds_on_mempool. intros _ mp Hok. cbn. split; [done|]. by left. Qed.

Lemma adds_compare l' ctx a b : Adds (on_mempool l' (fun mp => (lm_Compare mp ctx a b, mp))).
Proof. apply adds_on_mempool. intros _ mp Hok. cbn. split; [done|]. by left. Qed.
End Effects.

Create HintDb adds.
#[export] Hint Resolve adds_ret adds_lift adds_get adds_select adds_remove adds_read adds_compare adds_with_cache
  adds_on_committed : adds.

(** Follow the code: binds, recoveries, and the cases of its matches. *)
Ltac adds :=
  repeat first
    [ solve [eauto with adds]
    | apply adds_bind_lift; let E := fresh "E" in intros ? E; unfold call, nil_deref in E; try discriminate E; try (apply Ret_inj in E; subst)
    | apply adds_bind; [|intros ?]
    | apply adds_recover; [|intros ?]
    | apply adds_with_cache
    | match goal with |- Adds _ _ (match ?x with _ => _ end) => destruct x end ].

(** ** The handlers of a lane *)

Section Handlers.
Context {sdk : Sdk} {M : Type} {LM : LaneMempool M} {LL : LaneMempoolLaws M}.
Abbreviation State := (Lane.State (M := M)).
Abbreviation LaneC := (LaneConstructor (M := M)).
Abbreviation Lanes := (gmap LaneId LaneC).
Context (l : LaneId) (P : Tx -> Prop).
Abbreviation adds_to := (Adds l P).

(** An ante handler that lets only such transactions in. *)
Definition ante_adds (h : AnteHandler (M := M)) : Prop := forall ctx tx simulate, adds_to (h ctx tx simulate).

Lemma adds_prepare_loop lv p n it : ante_adds (lv_AnteVerifyTx lv) ->
  forall ctx size txs rm, adds_to (prepare_loop lv p n ctx size txs rm it).
Proof. intros Ha. unfold ante_adds in Ha. induction it as [|tx it IH]; intros ctx size txs rm; cbn [prepare_loop]; adds. Qed.

Lemma adds_DefaultPrepareLaneHandler lv ctx p n : ante_adds (lv_AnteVerifyTx lv) ->
  adds_to (DefaultPrepareLaneHandler lv ctx p n).
Proof. intros Ha. unfold DefaultPrepareLaneHandler. adds. by apply adds_prepare_loop. Qed.

Lemma adds_DefaultProcessLaneHandler lv txs : ante_adds (lv_AnteVerifyTx lv) ->
  forall ctx, adds_to (DefaultProcessLaneHandler lv ctx txs).
Proof. intros Ha. unfold ante_adds in Ha. induction txs as [|tx txs IH]; intros ctx; cbn [DefaultProcessLaneHandler]; adds. Qed.

Lemma adds_check_order_loop lv ctx txs : forall prev seen, adds_to (check_order_loop lv ctx prev seen txs).
Proof.
  induction txs as [|tx txs IH]; intros prev seen; cbn [check_order_loop]; unfold higher_priority; adds.
Qed.

Lemma adds_VerifyTx f lv ctx bid bi : ante_adds (lv_AnteVerifyTx lv) -> adds_to (VerifyTx f lv ctx bid bi).
Proof.
  intros Ha. assert (Hb : forall bundle ctx, adds_to (verify_bundle f lv ctx bundle)).
  { unfold ante_adds in Ha. induction bundle as [|raw bundle IH]; intros ctx0; cbn [verify_bundle]; adds. }
  unfold ante_adds in Ha. unfold VerifyTx. adds.
Qed.

Lemma adds_TOB_PrepareLaneHandler f lv ctx p n : ante_adds (lv_AnteVerifyTx lv) ->
  adds_to (TOB_PrepareLaneHandler f lv ctx p n).
Proof.
  intros Ha. pose proof (fun ctx bid bi => adds_VerifyTx f lv ctx bid bi Ha) as HV.
  assert (Ht : forall ctx bid, adds_to (try_bid f lv p n ctx bid)) by (intros; unfold try_bid; adds).
  assert (Hs : forall it rm, adds_to (select_bid f lv p n ctx rm it))
    by (induction it as [|bid it IH]; intros rm; cbn [select_bid]; adds).
  unfold TOB_PrepareLaneHandler. adds.
Qed.

Lemma adds_TOB_ProcessLaneHandler f lv ctx txs : ante_adds (lv_AnteVerifyTx lv) ->
  adds_to (TOB_ProcessLaneHandler f lv ctx txs).
Proof.
  intros Ha. pose proof (fun ctx bid bi => adds_VerifyTx f lv ctx bid bi Ha) as HV.
  unfold TOB_ProcessLaneHandler. adds.
Qed.

(** ** The proposal handlers *)

(** The handlers of a lane let only such transactions in. *)
Record lane_adds (lanes : Lanes) (x : LaneId * LaneC) : Prop := {
  la_prepare h : prepareLaneHandler x.2 = Some h -> forall ctx p n, adds_to (h (view_of lanes x.1 x.2) ctx p n);
  la_order h : checkOrderHandler x.2 = Some h -> forall ctx txs, adds_to (h (view_of lanes x.1 x.2) ctx txs);
  la_process h : processLaneHandler x.2 = Some h -> forall ctx txs, adds_to (h (view_of lanes x.1 x.2) ctx txs) }.

Lemma default_lane_adds lanes x : ante_adds (AnteVerifyTx x.2) ->
  prepareLaneHandler x.2 = Some DefaultPrepareLaneHandler ->
  checkOrderHandler x.2 = Some DefaultCheckOrderHandler ->
  processLaneHandler x.2 = Some DefaultProcessLaneHandler -> lane_adds lanes x.
Proof.
  intros Ha Hp Ho Hq. split; intros h Hh; simplify_eq; intros.
  - by apply adds_DefaultPrepareLaneHandler.
  - apply adds_check_order_loop.
  - by apply adds_DefaultProcessLaneHandler.
Qed.

Lemma auction_lane_adds lanes x f : ante_adds (AnteVerifyTx x.2) ->
  prepareLaneHandler x.2 = Some (TOB_PrepareLaneHandler f) ->
  checkOrderHandler x.2 = Some (TOB_CheckOrderHandler f) ->
  processLaneHandler x.2 = Some (TOB_ProcessLaneHandler f) -> lane_adds lanes x.
Proof.
  intros Ha Hp Ho Hq. split; intros h Hh; simplify_eq; intros.
  - by apply adds_TOB_PrepareLaneHandler.
  - apply adds_lift.
  - by apply adds_TOB_ProcessLaneHandler.
Qed.

Lemma adds_RemoveTxsFromLane l' txs : adds_to (RemoveTxsFromLane (fun tx => on_mempool l' (lm_Remove tx)) txs).
Proof. induction txs as [|tx txs IH]; cbn [RemoveTxsFromLane]; adds. Qed.

Lemma prepare_step_grows lanes ctx s x : lane_adds lanes x ->
  grows l P (fst s) (fst (prepare_step lanes ctx s x)).
Proof.
  intros [Hp _ _]. enough (H : grows l P (fst s) (fst (snd (prepare_turn lanes ctx x s)))).
  { unfold prepare_step. by destruct (prepare_turn lanes ctx x s) as [[[err|]|w] s']. }
  unfold prepare_turn, prepare_own. st_unfold. destruct (GetMaxTxBytesForLane _ _ _) as [n|w]; [|reflexivity].
  destruct (prepareLaneHandler x.2) as [h|]; [|reflexivity]. cbn [call]. unfold on_state at 1.
  specialize (Hp h eq_refl ctx (snd s) n (fst s)).
  destruct (h _ ctx (snd s) n (fst s)) as [[[[new rm]|err]|w] st1]; [|exact Hp..]. cbn [fst snd] in *.
  unfold on_state, on_proposal. cbn [fst snd]. pose proof (adds_RemoveTxsFromLane x.1 rm st1) as HR.
  destruct (RemoveTxsFromLane _ rm st1) as [[r|w] st2]; cbn [fst snd] in *; [|by etransitivity].
  destruct (UpdateProposal _ new (snd s)) as [r' p']. cbn [fst snd]. by etransitivity.
Qed.

Lemma adds_PrepareProposalHandler lanes dec xs ctx MaxTxBytes : xs <> [] -> Forall (lane_adds lanes) xs ->
  adds_to (PrepareProposalHandler
    (NewProposalHandler dec (map (fun x => ALane (lane_of lanes x.1 x.2)) xs)) ctx MaxTxBytes).
Proof.
  intros Hne Hx st. rewrite PrepareProposal_fold by done. cbn [snd].
  enough (H : forall s, grows l P (fst s) (fst (fold_left (prepare_step lanes ctx) xs s))) by apply (H (st, NewProposal MaxTxBytes)).
  clear Hne. induction Hx as [|x xs Hx _ IH]; intros s; cbn [fold_left]; [reflexivity|].
  etransitivity; [by apply prepare_step_grows|apply IH].
Qed.

Lemma adds_chain_process lanes xs : Forall (lane_adds lanes) xs ->
  exists h, chain_process (lane_chain lanes xs) = Some h /\ forall ctx txs, adds_to (h ctx txs).
Proof.
  induction 1 as [|x xs [_ Ho Hq] _ (h & Hh & IH)].
  - eexists; split; [reflexivity|]. intros ctx txs. cbn. destruct (len txs =? 0); adds.
  - cbn [lane_chain map app chain_process]. fold (lane_chain lanes xs). rewrite Hh.
    eexists; split; [reflexivity|]. intros ctx txs. cbv beta. destruct (len txs =? 0); [adds|].
    cbn [ops lane_of lane_CheckOrder lane_ProcessLane]. unfold CheckOrder, ProcessLane.
    destruct (checkOrderHandler x.2) as [o|] eqn:Eo; [pose proof (Ho o eq_refl)|];
      (destruct (processLaneHandler x.2) as [q|] eqn:Eq; [pose proof (Hq q eq_refl)|]); cbn [call]; adds.
Qed.

Lemma adds_ProcessProposalHandler lanes dec xs ctx txs : xs <> [] -> Forall (lane_adds lanes) xs ->
  adds_to (ProcessProposalHandler
    (NewProposalHandler dec (map (fun x => ALane (lane_of lanes x.1 x.2)) xs)) ctx txs).
Proof.
  intros Hne Hx. unfold ProcessProposalHandler, ChainProcessLanes.
  cbn [NewProposalHandler Abci.txDecoder processLanesHandler]. unfold ChainProcessLanes.
  rewrite <- (map_map (fun x => lane_of lanes x.1 x.2) ALane), terminate_lanes, map_map by by destruct xs.
  fold (lane_chain lanes xs). destruct (adds_chain_process lanes xs Hx) as (h & -> & Hh). cbn [call]. adds.
Qed.

(** ** The mempool of all lanes *)

Lemma adds_with_lane {A} (lanes : Lanes) l' (f : LaneC -> ST State A) : (forall lane, adds_to (f lane)) ->
  adds_to (with_lane lanes l' f).
Proof. intros Hf. unfold with_lane. destruct (lanes !! l'); [apply Hf|adds]. Qed.

Lemma adds_BBMempool_Insert (lanes : Lanes) m ctx tx : (forall tx, P tx -> lm_good tx) ->
  (Match (match_fuel lanes) lanes l ctx tx = Ret true -> P tx) -> adds_to (BBMempool_Insert lanes m ctx tx).
Proof.
  intros Hgood HP. unfold BBMempool_Insert. apply adds_recover; [|adds].
  assert (forall reg errors, adds_to (insert_loop lanes ctx tx errors reg)); [|done].
  induction reg as [|l' reg IH]; intros errors; cbn [insert_loop]; [adds|].
  apply adds_bind_lift. intros [|] Em; cbn [negb]; [|apply IH].
  apply adds_bind; [apply adds_insert; [done|intros ->; by apply HP]|intros [err|]; [|apply IH]].
  apply adds_bind; [apply adds_with_lane; adds|intros name; apply IH].
Qed.

Lemma adds_BBMempool_Remove (lanes : Lanes) m tx : adds_to (BBMempool_Remove lanes m tx).
Proof.
  unfold BBMempool_Remove. apply adds_recover; [|adds].
  assert (forall reg errors, adds_to (remove_loop lanes tx errors reg)); [|done].
  induction reg as [|l' reg IH]; intros errors; cbn [remove_loop]; adds. apply adds_with_lane. adds.
Qed.
End Handlers.
