(* ===== verification/Consensus.v ===== *)
(** * A proposal prepared by one validator is accepted by the others

    What the default handlers and those of the auction lane select when they prepare a proposal, their
    order checks and their processing let pass on any validator that starts from the same chain state, if
    the mempools of the default lanes iterate by decreasing priority, the bundles in the mempools of the
    auction lanes hold no bids, and what rejected transactions wrote made no difference to the selection.
    Without the conditions a prepared proposal can be rejected. *)
From S2P Require Import Prelude Hash Sdk Concrete PriorityNonce PriorityNonceFacts PriorityNonceProps Proposals LaneMempool Lane LaneFacts AuctionLane AuctionFacts Lanes Abci Mempool MempoolFacts AbciFacts BuilderTypes Wire BuilderWire BuilderWireFacts Builder BuilderFacts.
From Stdlib Require Import Sorting.Sorted.

Section Consensus.
Context {sdk : Sdk} {M : Type} {LM : LaneMempool M}.
Abbreviation State := (Lane.State (M := M)).
Abbreviation LaneC := (LaneConstructor (M := M)).
Abbreviation Lanes := (gmap LaneId LaneC).

(** ** The ante handler as a function of the chain state *)

(** The contexts of one block, and the effect of a transaction on the chain state, if it is
    valid there. *)
Context (block_ctx : Context -> Prop) (step : Store -> Tx -> option Store).

(** A transaction is rejected by an error or a panic. *)
Definition rejected (r : outcome (Context * option error)) : Prop :=
  (exists ctx err, block_ctx ctx /\ r = Ret (ctx, Some err)) \/ exists w, r = Panic w.

(** The verdict of the ante handler in the contexts of the block depends on the chain state and
    the transaction only; a transaction it rejects may leave anything behind. *)
Definition deterministic (h : AnteHandler (M := M)) : Prop := forall ctx tx st, block_ctx ctx ->
  match step (st_store st) tx with
  | Some s => exists ctx', block_ctx ctx' /\ h ctx tx false st = (Ret (ctx', None), set_store s st)
  | None => exists r s, rejected r /\ h ctx tx false st = (r, set_store s st)
  end.

(** A transaction it rejects leaves nothing behind. *)
Definition restores (h : AnteHandler (M := M)) : Prop := forall ctx tx st, block_ctx ctx ->
  step (st_store st) tx = None -> exists r, rejected r /\ h ctx tx false st = (r, st).

(** The same ante handler on a cached context, written back when it accepts. *)
Definition discard_rejected (h : AnteHandler (M := M)) : AnteHandler (M := M) := fun ctx tx simulate st =>
  match h ctx tx simulate st with
  | (Ret (ctx', None), st') => (Ret (ctx', None), st')
  | (r, st') => (r, set_store (st_store st) st')
  end.

Lemma discard_deterministic h : deterministic h -> deterministic (discard_rejected h) /\ restores (discard_rejected h).
Proof.
  intros Hd. assert (Hr : forall ctx tx st, block_ctx ctx -> step (st_store st) tx = None ->
    exists r, rejected r /\ discard_rejected h ctx tx false st = (r, st)).
  { intros ctx tx st Hc Es. specialize (Hd ctx tx st Hc). rewrite Es in Hd. destruct Hd as (r & s & Hr & E).
    exists r. split; [done|]. unfold discard_rejected. rewrite E.
    destruct Hr as [(ctx' & err & _ & ->)|[w ->]]; cbn; by destruct st. }
  split; [|exact Hr]. intros ctx tx st Hc. specialize (Hd ctx tx st Hc). destruct (step (st_store st) tx) as [s|] eqn:Es.
  - destruct Hd as (ctx' & Hc' & E). exists ctx'. split; [done|]. unfold discard_rejected. by rewrite E.
  - destruct (Hr ctx tx st Hc Es) as (r & H1 & E). exists r, (st_store st). by rewrite set_store_same.
Qed.

Fixpoint steps (s : Store) (txs : list Tx) : option Store :=
  match txs with
  | [] => Some s
  | tx :: txs => match step s tx with Some s' => steps s' txs | None => None end
  end.

Lemma steps_app s l k :
  steps s (l ++ k) = match steps s l with Some s' => steps s' k | None => None end.
Proof. revert s. induction l as [|tx l IH]; intros s; cbn; [done|]. by destruct (step s tx). Qed.

(** ** What a turn touches *)

Lemma on_mempool_frame {A} l (m : ST M A) (st : State) :
  st_store (snd (on_mempool l m st)) = st_store st /\
  forall l', l' <> l -> st_mempools (snd (on_mempool l m st)) !! l' = st_mempools st !! l'.
Proof.
  unfold on_mempool. destruct (st_mempools st !! l) as [mp|]; [|done].
  destruct (m mp) as [r mp']. cbn. split; [done|]. intros l' Hne. by rewrite lookup_insert_ne.
Qed.

Lemma remove_frame l txs (st : State) :
  let st' := snd (RemoveTxsFromLane (fun tx => on_mempool l (lm_Remove tx)) txs st) in
  st_store st' = st_store st /\ forall l', l' <> l -> st_mempools st' !! l' = st_mempools st !! l'.
Proof.
  revert st. induction txs as [|tx txs IH]; intros st; cbn; [done|]. st_unfold.
  destruct (on_mempool_frame l (lm_Remove tx) st) as [Hs Hl].
  destruct (on_mempool l (lm_Remove tx) st) as [[[err|]|w] st1]; try done.
  destruct (IH st1) as [Hs1 Hl1]. cbn in *. split; [congruence|]. intros l' Hne. by rewrite Hl1, Hl.
Qed.

Lemma UpdateProposal_txs lane l p : match UpdateProposal lane l p with
  | (Ret None, p') => txs p' = txs p ++ l /\ voteExtensions p' = voteExtensions p
  | (_, p') => p' = p
  end.
Proof.
  unfold UpdateProposal. case_bool_decide as E.
  { apply nil_length_inv in E as ->. by rewrite app_nil_r. }
  destruct (GetMaxTxBytesForLane _ _ _); [|done].
  by destruct (_ <? _); [|destruct (_ <? _)].
Qed.

(** ** The turn of a lane *)

Section Turns.
Context (lanes : Lanes) (dec : TxDecoder).

Definition decodes : list Tx -> list bytes -> Prop := Forall2 (fun tx bz => dec bz = Ok tx).

(** The outcome of a turn: the other lanes keep their mempools, a failed turn leaves the
    proposal, and a successful one appends a part of the lane that is valid where it starts. *)
Record builds (l : LaneId) (part : list Tx -> Prop) (st : State) (p : Proposal)
    (run : outcome (option error) * (State * Proposal)) : Prop := {
  b_others l' : l' <> l -> st_mempools (fst (snd run)) !! l' = st_mempools st !! l';
  b_failed : fst run <> Ret None -> snd (snd run) = p;
  b_built : fst run = Ret None -> exists seg new, part seg /\ decodes seg new /\
    steps (st_store st) seg = Some (st_store (fst (snd run))) /\
    txs (snd (snd run)) = txs p ++ new /\ voteExtensions (snd (snd run)) = voteExtensions p }.

Lemma turn_builds l lane h part ctx (st : State) p :
  prepareLaneHandler lane = Some h ->
  (forall n, let r := h (view_of lanes l lane) ctx p n st in
     (forall l', l' <> l -> st_mempools (snd r) !! l' = st_mempools st !! l') /\
     forall new rm, fst r = Ret (Ok (new, rm)) -> exists seg, part seg /\ decodes seg new /\
       steps (st_store st) seg = Some (st_store (snd r))) ->
  builds l part st p (prepare_turn lanes ctx (l, lane) (st, p)).
Proof.
  intros Hh HT. unfold prepare_turn, prepare_own. cbn [fst snd]. rewrite Hh. st_unfold. cbn [fst snd call].
  destruct (GetMaxTxBytesForLane _ _ _) as [n|w]; [|by split].
  unfold on_state at 1. cbn [fst snd]. specialize (HT n). cbn in HT.
  destruct (h (view_of lanes l lane) ctx p n st) as [[[[new rm]|err]|w] st1]; destruct HT as [Hl HT];
    [|by split..]. cbn [fst snd] in *. destruct (HT new rm eq_refl) as (seg & Hseg & Hdec & Hst).
  unfold on_state, on_proposal. cbn [fst snd]. pose proof (remove_frame l rm st1) as HR. cbn in HR.
  destruct (RemoveTxsFromLane _ rm st1) as [[r|w] st2]; cbn [fst snd] in *; destruct HR as [Hs2 Hl2];
    (assert (Hl' : forall l', l' <> l -> st_mempools st2 !! l' = st_mempools st !! l')
       by (intros l' Hne; by rewrite Hl2, Hl)); [|by split].
  pose proof (UpdateProposal_txs (lane_proposal lane) new p) as HU.
  destruct (UpdateProposal (lane_proposal lane) new p) as [[[err|]|w] p']; cbn [fst snd]; [by split| |by split].
  destruct HU as [Ht Hv]. split; [done|done|]. intros _. exists seg, new. cbn. by rewrite Hs2.
Qed.

(** ** The default handlers *)

Section DefaultLane.
Context (l : LaneId) (lane : LaneC) (m : Tx -> bool) (cmp : Tx -> Tx -> Z) (enc : TxEncoder).
Hypothesis Hmatch : forall ctx tx, Match (match_fuel lanes) lanes l ctx tx = Ret (m tx).
Hypothesis Henc : cfg_TxEncoder (cfg lane) = Some enc.
Hypothesis Hdec : forall tx bz, enc tx = Ok bz -> dec bz = Ok tx.
Hypothesis Hante : deterministic (AnteVerifyTx lane).
Abbreviation view := (view_of lanes l lane).

(** The transactions of the lane, none with a higher priority than one before it. *)
Definition default_part (seg : list Tx) : Prop :=
  Forall (fun tx => m tx = true) seg /\ StronglySorted (in_order cmp) seg.
Definition by_priority (mp : M) : Prop := forall it mp',
  lm_Select mp = (Ret it, mp') -> StronglySorted (in_order cmp) it.
Definition compares (mp : M) : Prop := forall ctx a b, block_ctx ctx ->
  lm_Compare mp ctx a b = Ret (cmp a b).

Lemma sorted_sublist (R : Tx -> Tx -> Prop) k it :
  sublist k it -> StronglySorted R it -> StronglySorted R k.
Proof.
  induction 1 as [|x k it Hs IH|x k it Hs IH]; intros HS; [done| |]; apply StronglySorted_inv in HS as [HS Hx];
    [|by apply IH].
  constructor; [by apply IH|]. rewrite list.Forall_forall in Hx |- *. intros y Hy. apply Hx.
  by apply (sublist_subseteq k it).
Qed.

Lemma prepare_loop_steps p n it : restores (AnteVerifyTx lane) ->
  forall ctx size txs rm (st : State), block_ctx ctx ->
  let r := prepare_loop view p n ctx size txs rm it st in
  st_mempools (snd r) = st_mempools st /\
  forall txs' rm', fst r = Ret (txs', rm') -> exists sel new, sublist sel it /\
    Forall (fun tx => m tx = true) sel /\ decodes sel new /\ txs' = txs ++ new /\
    steps (st_store st) sel = Some (st_store (snd r)).
Proof.
  intros Hres. induction it as [|tx it IH]; intros ctx size txs rm st Hc.
  { cbn. split; [done|]. intros txs' rm' [= <- <-]. exists [], []. rewrite app_nil_r.
    split; [constructor|]. repeat (split; [done || constructor|]). done. }
  assert (Hskip : forall ctx0 rm0, block_ctx ctx0 ->
    let r := prepare_loop view p n ctx0 size txs rm0 it st in
    st_mempools (snd r) = st_mempools st /\
    forall txs' rm', fst r = Ret (txs', rm') -> exists sel new, sublist sel (tx :: it) /\
      Forall (fun tx => m tx = true) sel /\ decodes sel new /\ txs' = txs ++ new /\
      steps (st_store st) sel = Some (st_store (snd r))).
  { intros ctx0 rm0 Hc0. destruct (IH ctx0 size txs rm0 st Hc0) as [H1 H2]. split; [done|].
    intros txs' rm' HP. destruct (H2 _ _ HP) as (sel & new & Hsub & Hrest). exists sel, new.
    split; [by apply sublist_cons|done]. }
  cbn [prepare_loop]. unfold lane_tx_hash. cbn [lv_TxEncoder view_of]. rewrite Henc. st_unfold.
  unfold GetTxHashStr. destruct (enc tx) as [bz|e] eqn:He; [|by apply Hskip].
  cbn [lv_Match view_of]. rewrite Hmatch by done. destruct (m tx) eqn:Em; cbn [negb]; [|by apply Hskip].
  destruct (Proposals.Contains p bz); [by apply Hskip|].
  destruct (n <? wrap_i64 (size + len bz)).
  { cbn. split; [done|]. intros txs' rm' [= <- <-]. exists [], []. rewrite app_nil_r.
    split; [apply sublist_nil_l|]. repeat (split; [done || constructor|]). done. }
  cbn [lv_AnteVerifyTx view_of]. pose proof (Hante ctx tx st Hc) as HA.
  destruct (step (st_store st) tx) as [s|] eqn:Es.
  2: { destruct (Hres ctx tx st Hc Es) as (r & [(ctx' & err & Hc' & ->)|[w ->]] & ->); [by apply Hskip|done]. }
  destruct HA as (ctx' & Hc' & ->).
  destruct (IH ctx' (wrap_i64 (size + len bz)) (txs ++ [bz]) rm (set_store s st) Hc') as [H1 H2].
  split; [done|]. intros txs' rm' HP.
  destruct (H2 _ _ HP) as (sel & new & Hsub & Hf & Hd & -> & Hst). exists (tx :: sel), (bz :: new).
  split; [by constructor|]. split; [by constructor|]. split; [constructor; [by apply Hdec|done]|].
  rewrite <- app_assoc. split; [done|]. cbn [steps]. by rewrite Es.
Qed.

Lemma process_steps seg rest : match rest with [] => True | tx :: _ => m tx = false end ->
  forall ctx (st : State) s, block_ctx ctx -> Forall (fun tx => m tx = true) seg ->
  steps (st_store st) seg = Some s ->
  DefaultProcessLaneHandler view ctx (seg ++ rest) st = (Ret (Ok rest), set_store s st).
Proof.
  intros Hr. induction seg as [|tx seg IH]; intros ctx st s Hc Hf; cbn [steps].
  - intros [= <-]. rewrite set_store_same. destruct rest as [|tx rest]; [done|].
    cbn [app DefaultProcessLaneHandler lv_Match view_of]. st_unfold. by rewrite Hmatch, Hr.
  - inversion Hf as [|? ? Hm Hf']; subst. pose proof (Hante ctx tx st Hc) as HA.
    destruct (step (st_store st) tx) as [s1|]; [|done]. destruct HA as (ctx' & Hc' & HA).
    intros HS. cbn [app DefaultProcessLaneHandler lv_Match lv_AnteVerifyTx view_of]. st_unfold.
    rewrite Hmatch, Hm, HA by done. by rewrite (IH ctx' (set_store s1 st) s).
Qed.

Lemma default_prepares ctx (st : State) p mp : handles DefaultHandlers lane -> restores (AnteVerifyTx lane) ->
  block_ctx ctx -> st_mempools st !! l = Some mp -> by_priority mp ->
  builds l default_part st p (prepare_turn lanes ctx (l, lane) (st, p)).
Proof.
  intros (Hp & _) Hres Hc Hmp Hready. apply (turn_builds _ _ _ _ _ _ _ Hp). intros n.
  unfold DefaultPrepareLaneHandler. st_unfold. cbn [lv_id view_of fst].
  destruct (on_mempool_frame l lm_Select st) as [Hs Hl]. revert Hs Hl. unfold on_mempool. rewrite Hmp.
  destruct (lm_Select mp) as [[it|w] mp'] eqn:ES; cbn [fst snd]; intros Hs Hl; [|by split].
  match goal with |- context [prepare_loop view p n ctx 0 [] [] it ?s] => set (st1 := s) in * end.
  pose proof (prepare_loop_steps p n it Hres ctx 0 [] [] st1 Hc) as [H1 H2].
  destruct (prepare_loop view p n ctx 0 [] [] it st1) as [[[new rm]|w] st2]; cbn [fst snd] in *;
    (split; [intros l' Hne; by rewrite H1, Hl|]); [|done].
  intros new' rm' [= <- <-]. destruct (H2 _ _ eq_refl) as (sel & new1 & Hsub & Hf & Hd & -> & Hst).
  exists sel. rewrite <- Hs. split; [|done]. split; [done|].
  apply (sorted_sublist _ _ it); [done|]. by apply (Hready it mp').
Qed.

Lemma default_accepts ctx (st : State) mp seg rest s next : handles DefaultHandlers lane -> block_ctx ctx ->
  st_mempools st !! l = Some mp -> compares mp ->
  default_part seg -> Forall (fun tx => m tx = false) rest -> steps (st_store st) seg = Some s ->
  CheckOrder lanes l lane ctx (seg ++ rest) st = (Ret None, st) /\
  ProcessLane lanes l lane ctx (seg ++ rest) (Some next) st = next ctx rest (set_store s st).
Proof.
  intros (_ & Ho & Hq) Hc Hmp Hcmp [Hf Hsort] Hrest HS.
  unfold CheckOrder, ProcessLane. rewrite Ho, Hq. cbn [call]. st_unfold. split.
  - destruct (check_order_unseen view ctx st mp m cmp Hmp (fun tx => Hmatch ctx tx)
      (fun a b => Hcmp ctx a b Hc) None (seg ++ rest)) as (r & Hr & Hi).
    unfold DefaultCheckOrderHandler. rewrite Hr. f_equal. f_equal. apply Hi.
    exists seg, rest. repeat (split; [done|]). intros _. by apply StronglySorted_Sorted.
  - rewrite (process_steps seg rest) with (s := s); [done| |done..].
    destruct rest; [done|]. by inversion Hrest.
Qed.
End DefaultLane.

(** ** The auction lane *)

Section AuctionLane.
Context (l : LaneId) (lane : LaneC) (f : Factory) (m : Tx -> bool) (enc : TxEncoder).
Hypothesis Hmatch : forall ctx tx, Match (match_fuel lanes) lanes l ctx tx = Ret (m tx).
Hypothesis Hfactory : auction_factory (AuctionHandlers f) m enc.
Hypothesis Henc : cfg_TxEncoder (cfg lane) = Some enc.
Hypothesis Hdec : forall tx bz, enc tx = Ok bz -> dec bz = Ok tx.
Hypothesis Hante : deterministic (AnteVerifyTx lane).
Abbreviation view := (view_of lanes l lane).

Definition plain_bundles (mp : M) : Prop := forall it mp' bid bi raw tx,
  lm_Select mp = (Ret it, mp') -> In bid it -> GetAuctionBidInfo f bid = Ok (Some bi) ->
  In raw (Transactions bi) -> unwraps f raw tx -> m tx = false.

Lemma verify_bundle_steps bundle : forall ctx (st : State), block_ctx ctx ->
  let r := verify_bundle f view ctx bundle st in
  st_mempools (snd r) = st_mempools st /\
  (fst r = Ret None -> exists txs, Forall2 (unwraps f) bundle txs /\
     steps (st_store st) txs = Some (st_store (snd r))) /\
  (forall txs s, Forall2 (unwraps f) bundle txs -> steps (st_store st) txs = Some s ->
     r = (Ret None, set_store s st)).
Proof.
  induction bundle as [|raw bundle IH]; intros ctx st Hc; cbn [verify_bundle].
  { cbn. split; [done|]. split; [intros _; by exists []|].
    intros txs s HF. inversion HF; subst. cbn. intros [= <-]. by rewrite set_store_same. }
  destruct (WrapBundleTransaction f raw) as [tx|e] eqn:Ew.
  2: { cbn. split; [done|]. split; [done|]. intros txs s HF. inversion HF; subst. unfold unwraps in *. congruence. }
  cbn [lv_AnteVerifyTx view_of]. st_unfold.
  pose proof (Hante ctx tx st Hc) as HA. destruct (step (st_store st) tx) as [s1|] eqn:Es.
  - destruct HA as (ctx' & Hc' & ->). destruct (IH ctx' (set_store s1 st) Hc') as (H1 & H2 & H3). split; [done|]. split.
    + intros HR. destruct (H2 HR) as (txs & HF & HS). exists (tx :: txs). split; [by constructor|].
      cbn [steps]. by rewrite Es.
    + intros txs s HF. inversion HF as [|? tx' ? txs' Hu HF']; subst.
      assert (tx' = tx) as -> by (unfold unwraps in *; congruence). cbn [steps]. rewrite Es. intros HS.
      by apply (H3 txs').
  - assert (Hno : forall txs s, Forall2 (unwraps f) (raw :: bundle) txs -> steps (st_store st) txs <> Some s).
    { intros txs s HF. inversion HF as [|? tx' ? txs' Hu HF']; subst.
      assert (tx' = tx) as -> by (unfold unwraps in *; congruence). cbn [steps]. by rewrite Es. }
    by destruct HA as (r & s1 & [(ctx' & err & Hc' & ->)|[w ->]] & ->); cbn; (split; [done|]; split; [done|]); intros txs s HF HS;
      destruct (Hno txs s HF).
Qed.

Lemma VerifyTx_steps bid bi ctx (st : State) : block_ctx ctx ->
  let r := VerifyTx f view ctx bid (Some bi) st in
  st_mempools (snd r) = st_mempools st /\
  (fst r = Ret None -> exists txs, Forall2 (unwraps f) (Transactions bi) txs /\
     steps (st_store st) (bid :: txs) = Some (st_store (snd r))) /\
  (forall txs s, Forall2 (unwraps f) (Transactions bi) txs -> steps (st_store st) (bid :: txs) = Some s ->
     r = (Ret None, set_store s st)).
Proof.
  intros Hc. unfold VerifyTx. st_unfold. cbn [lv_AnteVerifyTx view_of].
  pose proof (Hante ctx bid st Hc) as HA. cbn [steps]. destruct (step (st_store st) bid) as [s1|] eqn:Es.
  2: by destruct HA as (r & s1 & [(ctx' & err & Hc' & ->)|[w ->]] & ->).
  destruct HA as (ctx' & Hc' & ->).
  destruct (verify_bundle_steps (Transactions bi) ctx' (set_store s1 st) Hc') as (H1 & H2 & H3).
  split; [done|]. split; [|done]. intros HR. destruct (H2 HR) as (txs & HF & HS). by exists txs.
Qed.

Lemma try_bid_frame p n ctx bid (st : State) : block_ctx ctx ->
  st_mempools (snd (try_bid f view p n ctx bid st)) = st_mempools st.
Proof.
  intros Hc. unfold try_bid, lane_tx_hash. cbn [lv_TxEncoder view_of]. rewrite Henc. st_unfold.
  destruct (GetTxHashStr enc bid) as [[bz h]|]; [|done]. destruct (Proposals.Contains p bz); [done|].
  destruct (len bz <=? n); [|done]. destruct (GetAuctionBidInfo f bid) as [[bi|]|]; [| |done].
  - destruct (VerifyTx_steps bid bi ctx st Hc) as [H1 _].
    by destruct (VerifyTx f view ctx bid (Some bi) st) as [[[err|]|w] st1].
  - done.
Qed.

Lemma select_bid_frame p n ctx it : block_ctx ctx -> forall rm (st : State),
  st_mempools (snd (select_bid f view p n ctx rm it st)) = st_mempools st.
Proof.
  intros Hc. induction it as [|bid it IH]; intros rm st; cbn [select_bid]; [done|]. st_unfold.
  unfold with_cache. pose proof (try_bid_frame p n ctx bid st Hc) as HF.
  destruct (try_bid f view p n ctx bid st) as [[[sel| |]|w] st1]; cbn [is_selected snd] in *; try done;
    by rewrite IH.
Qed.

(** The encodings of a selected bid are those of the verified transactions. *)
Lemma selects_decodes p n bid bi new bundle : selects f view p n bid bi new ->
  Forall2 (unwraps f) (Transactions bi) bundle -> decodes (bid :: bundle) new.
Proof.
  intros [_ (enc' & bz & bzs & He & -> & Hbz & _ & HF) _] HU. cbn [lv_TxEncoder view_of] in He.
  assert (enc' = enc) as -> by congruence. constructor; [by apply Hdec|].
  revert bzs HF. induction HU as [|raw tx raws txs Hu HU IH]; intros bzs HF; inversion HF as [|? bz1 ? bzs' Hw HF']; subst;
    constructor; [|by apply IH].
  destruct Hw as (tx' & Hw & Htx'). assert (tx' = tx) as -> by (unfold unwraps in *; congruence). by apply Hdec.
Qed.

Lemma auction_prepares ctx (st : State) p mp : handles (AuctionHandlers f) lane ->
  block_ctx ctx -> st_mempools st !! l = Some mp -> plain_bundles mp ->
  builds l (part_of (AuctionHandlers f) m) st p (prepare_turn lanes ctx (l, lane) (st, p)).
Proof.
  intros (Hp & _) Hc Hmp Hready. apply (turn_builds _ _ _ _ _ _ _ Hp). intros n.
  unfold TOB_PrepareLaneHandler. st_unfold. cbn [lv_id view_of fst].
  destruct (on_mempool_frame l lm_Select st) as [Hs Hl]. revert Hs Hl. unfold on_mempool. rewrite Hmp.
  destruct (lm_Select mp) as [[it|w] mp'] eqn:ES; cbn [fst snd]; intros Hs Hl; [|by split].
  match goal with |- context [select_bid f view p n ctx [] it ?s] => set (st1 := s) in * end.
  pose proof (select_bid_frame p n ctx it Hc [] st1) as H1.
  destruct (select_bid f view p n ctx [] it st1) as [[[new rm]|w] st2] eqn:EB; cbn [fst snd] in *;
    (split; [intros l' Hne; by rewrite H1, Hl|]); [|done].
  intros new' rm' [= <- <-].
  apply select_bid_spec in EB as [_ [[-> Hst]|(pre & bid & post & bi & st3 & -> & Hst & Hsel & HV)]].
  { exists []. split; [by left|]. split; [constructor|]. cbn. by rewrite Hst, Hs. }
  destruct (VerifyTx_steps bid bi ctx st3 Hc) as (_ & H2 & _). rewrite HV in H2.
  destruct (H2 eq_refl) as (bundle & HU & HS). exists (bid :: bundle).
  pose proof (selects_decodes _ _ _ _ _ _ Hsel HU) as HD. destruct Hsel as [Hbi _ _].
  split; [|split; [done|by rewrite <- Hs, <- Hst]]. right. exists bid, bi, bundle. repeat (split; [done|]).
  apply List.Forall_forall. intros tx Htx.
  apply list_elem_of_In, list_elem_of_lookup in Htx as [i Hi].
  destruct (Forall2_lookup_r _ _ _ _ _ HU Hi) as (raw & Hraw & Hu).
  apply (Hready _ mp' bid bi raw tx ES); [apply in_app_iff; right; by left|done| |done].
  apply list_elem_of_In. by eapply list_elem_of_lookup_2.
Qed.

Lemma auction_accepts ctx (st : State) seg rest s next : handles (AuctionHandlers f) lane -> block_ctx ctx ->
  part_of (AuctionHandlers f) m seg -> Forall (fun tx => m tx = false) rest -> steps (st_store st) seg = Some s ->
  CheckOrder lanes l lane ctx (seg ++ rest) st = (Ret None, st) /\
  ProcessLane lanes l lane ctx (seg ++ rest) (Some next) st = next ctx rest (set_store s st).
Proof.
  intros (_ & Ho & Hq) Hc Hseg Hrest HS. destruct Hfactory as [Hbids Hwrap].
  unfold CheckOrder, ProcessLane. rewrite Ho, Hq. cbn [call]. st_unfold.
  assert (Ht : tob_ordered f m enc (seg ++ rest)).
  { destruct Hseg as [->|(bid & bi & bundle & -> & Hbi & HU & Hno)]; [by left|right].
    exists bid, bi, bundle, rest. split; [done|]. split; [apply Hbids; eauto|]. split; [done|]. split; [|done].
    clear HS. induction HU as [|raw tx raws txs Hu HU IH]; [constructor|]. inversion Hno; subst.
    constructor; [split; [done|by apply Hwrap]|by apply IH]. }
  split.
  - destruct (tob_check_order_spec f view ctx m enc (fun tx => Hmatch ctx tx) Henc (fun tx => proj1 (Hbids tx))
      (seg ++ rest)) as (r & Hr & Hi). unfold TOB_CheckOrderHandler, st_lift. rewrite Hr. f_equal. f_equal. by apply Hi.
  - unfold TOB_ProcessLaneHandler.
    destruct Hseg as [->|(bid & bi & bundle & -> & Hbi & HU & Hno)]; cbn [app lv_Match view_of]; st_unfold.
    + cbn in HS. injection HS as <-. rewrite set_store_same.
      destruct rest as [|tx rest]; [done|]. rewrite Hmatch by done. inversion Hrest as [|? ? Htx]; subst.
      by rewrite Htx.
    + rewrite Hmatch by done. rewrite (proj2 (Hbids bid)) by eauto. cbn [negb]. rewrite Hbi.
      destruct (VerifyTx_steps bid bi ctx st Hc) as (_ & _ & H3). rewrite (H3 bundle s HU HS).
      unfold slice_from. rewrite (Forall2_length HU). cbn [length drop].
      replace (S (length bundle) <=? S (length (bundle ++ rest)))%nat with true
        by (symmetry; apply Nat.leb_le; rewrite length_app; lia).
      by rewrite drop_app_length.
Qed.
End AuctionLane.
End Turns.

(** ** Chains of lanes *)

Section Chain.
Abbreviation standard_lane := (AbciFacts.standard_lane (M := M)).
Abbreviation sl_id s := (fst (sl_lane s)).
Context (enc : TxEncoder) (dec : TxDecoder).
Hypothesis Hdec : forall tx bz, enc tx = Ok bz -> dec bz = Ok tx.

(** [cmp] is the order of the priorities of a lane.  The default lanes take their transactions by
    priority; the mempool of the proposer has to iterate so, or to hold bundles without bids for an
    auction lane, and the mempool of a validator to compare by the same order. *)
Context (cmp : LaneId -> Tx -> Tx -> Z).

Definition ordered_part (s : standard_lane) (seg : list Tx) : Prop :=
  match sl_handlers s with
  | DefaultHandlers => default_part (sl_matches s) (cmp (sl_id s)) seg
  | AuctionHandlers f => part_of (AuctionHandlers f) (sl_matches s) seg
  end.
Definition ready (s : standard_lane) (mp : M) : Prop :=
  match sl_handlers s with
  | DefaultHandlers => by_priority (cmp (sl_id s)) mp
  | AuctionHandlers f => plain_bundles f (sl_matches s) mp
  end.
Definition checks (s : standard_lane) (mp : M) : Prop :=
  match sl_handlers s with DefaultHandlers => compares (cmp (sl_id s)) mp | AuctionHandlers _ => True end.

(** The lanes have mempools with a condition. *)
Definition mempools_ok (cond : standard_lane -> M -> Prop) (ls : list standard_lane) (st : State) : Prop :=
  Forall (fun s => exists mp, st_mempools st !! sl_id s = Some mp /\ cond s mp) ls.

(** The part of a lane does not match an earlier lane. *)
Definition keeps_apart (ls : list standard_lane) : Prop :=
  StronglySorted (fun a b => forall seg, part_of (sl_handlers b) (sl_matches b) seg ->
    Forall (fun tx => sl_matches a tx = false) seg) ls.

Lemma ordered_part_of s seg : ordered_part s seg -> part_of (sl_handlers s) (sl_matches s) seg.
Proof. unfold ordered_part. destruct (sl_handlers s); [by intros []|done]. Qed.

Lemma ordered_part_nil s : ordered_part s [].
Proof. unfold ordered_part. destruct (sl_handlers s); [split; constructor|by left]. Qed.

Definition ante_deterministic (s : standard_lane) : Prop := deterministic (AnteVerifyTx (snd (sl_lane s))).
Definition ante_restores (s : standard_lane) : Prop := restores (AnteVerifyTx (snd (sl_lane s))).

(** *** Preparing *)

Lemma prepare_step_builds lanes ctx s (st : State) p : standard lanes enc s -> ante_deterministic s -> ante_restores s ->
  block_ctx ctx -> (exists mp, st_mempools st !! sl_id s = Some mp /\ ready s mp) ->
  let s' := prepare_step lanes ctx (st, p) (sl_lane s) in
  (forall l', l' <> sl_id s -> st_mempools (fst s') !! l' = st_mempools st !! l') /\
  exists seg new, ordered_part s seg /\ decodes dec seg new /\
    steps (st_store st) seg = Some (st_store (fst s')) /\
    txs (snd s') = txs p ++ new /\ voteExtensions (snd s') = voteExtensions p.
Proof.
  intros [Hm He Hh Hf] Hd Hr Hc (mp & Hmp & Hready).
  assert (HB : builds dec (sl_id s) (ordered_part s) st p (prepare_turn lanes ctx (sl_lane s) (st, p))).
  { unfold ready, ordered_part in *. destruct s as [[l lane] m [|f]]; cbn [sl_lane sl_matches sl_handlers fst snd] in *.
    - by eapply default_prepares.
    - by eapply auction_prepares. }
  destruct HB as [Ho Hfail Hb]. pose proof (ordered_part_nil s) as Hnil. unfold prepare_step.
  destruct (prepare_turn lanes ctx (sl_lane s) (st, p)) as [r [st' p']]; cbn [fst snd] in *.
  assert (Hskip : r <> Ret None -> exists seg new, ordered_part s seg /\ decodes dec seg new /\
    steps (st_store st) seg = Some (st_store st) /\ txs p' = txs p ++ new /\ voteExtensions p' = voteExtensions p).
  { intros Hne. rewrite (Hfail Hne). exists [], []. rewrite app_nil_r. split; [done|]. split; [constructor|done]. }
  destruct r as [[err|]|w]; (split; [exact Ho|]); [by apply Hskip|by apply Hb|by apply Hskip].
Qed.

Lemma prepare_fold_builds lanes ctx ls : block_ctx ctx -> Forall (standard lanes enc) ls ->
  Forall ante_deterministic ls -> Forall ante_restores ls -> forall (st : State) p,
  NoDup (map (fun s => sl_id s) ls) -> mempools_ok ready ls st ->
  let s := fold_left (prepare_step lanes ctx) (map sl_lane ls) (st, p) in
  exists segs new, Forall2 ordered_part ls segs /\ decodes dec (concat segs) new /\
    steps (st_store st) (concat segs) = Some (st_store (fst s)) /\
    txs (snd s) = txs p ++ new /\ voteExtensions (snd s) = voteExtensions p.
Proof.
  intros Hc. induction ls as [|a ls IH]; intros Hls Hd Hr st p Hnd Hok.
  { exists [], []. rewrite app_nil_r. split; [constructor|]. split; [constructor|done]. }
  cbn [map fold_left] in *. apply list.NoDup_cons in Hnd as [Hni Hnd]. inversion Hok as [|? ? Ha Hok']; subst.
  apply Forall_cons_1 in Hls as [Hl Hls]. apply Forall_cons_1 in Hd as [Hd1 Hd]. apply Forall_cons_1 in Hr as [Hr1 Hr].
  destruct (prepare_step_builds lanes ctx a st p Hl Hd1 Hr1 Hc Ha) as (Ho & seg & new & Hseg & Hde & Hst & Ht & Hv).
  destruct (prepare_step lanes ctx (st, p) (sl_lane a)) as [st1 p1]; cbn [fst snd] in *.
  destruct (IH Hls Hd Hr st1 p1 Hnd) as (segs & news & Hsegs & Hds & Hst' & Ht' & Hv').
  { apply List.Forall_forall. intros b Hb. unfold mempools_ok in Hok'. rewrite List.Forall_forall in Hok'.
    destruct (Hok' b Hb) as (mp & Hmp & Hready). exists mp. split; [|done]. rewrite Ho; [done|].
    intros E. apply Hni. rewrite <- E. by apply list_elem_of_In, (in_map (fun s => sl_id s)). }
  exists (seg :: segs), (new ++ news). split; [by constructor|]. cbn [concat].
  split; [by apply Forall2_app|]. split; [by rewrite steps_app, Hst|].
  rewrite Ht', Ht, app_assoc. split; [done|]. by rewrite Hv'.
Qed.

Lemma standard_chain_lanes lanes (ls : list standard_lane) :
  standard_chain lanes ls = map (fun x => ALane (lane_of lanes x.1 x.2)) (map sl_lane ls).
Proof. unfold standard_chain. by rewrite map_map. Qed.

Lemma honest_prepare lanes ls ctx MaxTxBytes (st : State) : ls <> [] -> Forall (standard lanes enc) ls ->
  Forall ante_deterministic ls -> Forall ante_restores ls -> NoDup (map (fun s => sl_id s) ls) ->
  block_ctx ctx -> mempools_ok ready ls st ->
  exists segs block st', PrepareProposalHandler (NewProposalHandler dec (standard_chain lanes ls)) ctx MaxTxBytes st
    = (Ret (block, None), st') /\
    Forall2 ordered_part ls segs /\ decodes dec (concat segs) block /\
    steps (st_store st) (concat segs) = Some (st_store st').
Proof.
  intros Hne Hls Hd Hr Hnd Hc Hok.
  destruct (prepare_fold_builds lanes ctx ls Hc Hls Hd Hr st (NewProposal MaxTxBytes) Hnd Hok)
    as (segs & new & Hsegs & Hde & Hst & Ht & Hv).
  eexists segs, _, _. rewrite standard_chain_lanes. split; [apply PrepareProposal_fold; by destruct ls|].
  unfold GetProposal. by rewrite Hv, Ht.
Qed.

(** *** Processing *)

Lemma standard_accepts lanes s ctx (st : State) seg rest s1 next : standard lanes enc s -> ante_deterministic s ->
  block_ctx ctx -> (exists mp, st_mempools st !! sl_id s = Some mp /\ checks s mp) ->
  ordered_part s seg -> Forall (fun tx => sl_matches s tx = false) rest -> steps (st_store st) seg = Some s1 ->
  CheckOrder lanes (sl_id s) (snd (sl_lane s)) ctx (seg ++ rest) st = (Ret None, st) /\
  ProcessLane lanes (sl_id s) (snd (sl_lane s)) ctx (seg ++ rest) (Some next) st = next ctx rest (set_store s1 st).
Proof.
  intros [Hm He Hh Hf] Hd Hc (mp & Hmp & Hch) Hseg Hrest HS. unfold checks, ordered_part in *.
  destruct s as [[l lane] m [|f]]; cbn [sl_lane sl_matches sl_handlers fst snd] in *.
  - by eapply default_accepts.
  - by eapply auction_accepts.
Qed.

Lemma chain_process_accepts lanes ls : Forall (standard lanes enc) ls -> Forall ante_deterministic ls ->
  exists h, chain_process (standard_chain lanes ls ++ [ATerminator]) = Some h /\
  forall ctx segs (st : State) s, block_ctx ctx -> keeps_apart ls -> Forall2 ordered_part ls segs ->
    mempools_ok checks ls st -> steps (st_store st) (concat segs) = Some s ->
    h ctx (concat segs) st = (Ret (ctx, None), set_store s st).
Proof.
  induction ls as [|a ls IH]; intros Hls Hd.
  - eexists; split; [reflexivity|]. intros ctx segs st s _ _ HF _ HS. inversion HF; subst. cbn in HS |- *.
    injection HS as <-. st_unfold. by rewrite set_store_same.
  - apply Forall_cons_1 in Hls as [Hl Hls]. apply Forall_cons_1 in Hd as [Hd1 Hd]. destruct (IH Hls Hd) as (h & Hh & IH').
    cbn [standard_chain map app chain_process]. fold (standard_chain lanes ls). rewrite Hh. eexists; split; [reflexivity|].
    intros ctx segs st s Hc Hka HF Hok HS. inversion HF as [|? seg ? segs' Hseg HF']; subst.
    cbn [concat] in *. destruct (len (seg ++ concat segs') =? 0) eqn:E.
    { assert (En : seg ++ concat segs' = []) by (apply nil_length_inv; unfold len in E; lia). rewrite En in HS.
      injection HS as <-. st_unfold. by rewrite set_store_same. }
    apply StronglySorted_inv in Hka as [Hka Ha]. inversion Hok as [|? ? Hmp Hok']; subst.
    rewrite steps_app in HS. destruct (steps (st_store st) seg) as [s1|] eqn:E1; [|done].
    assert (Hrest : Forall (fun tx => sl_matches a tx = false) (concat segs')).
    { clear - Ha HF'. induction HF' as [|b seg' ls segs' Hb HF' IH]; cbn; [constructor|].
      apply list.Forall_cons in Ha as [Hb' Ha]. apply Forall_app_2; [by apply Hb', ordered_part_of|by apply IH]. }
    destruct (standard_accepts lanes a ctx st seg (concat segs') s1 h Hl Hd1 Hc Hmp Hseg Hrest E1) as [HO HP].
    cbn [ops lane_of lane_CheckOrder lane_ProcessLane]. st_unfold. rewrite HO, HP.
    by rewrite (IH' ctx segs' (set_store s1 st) s).
Qed.

Lemma decodes_GetDecodedTxs seg new : decodes dec seg new -> GetDecodedTxs dec new = Ok seg.
Proof. induction 1 as [|tx bz seg new Hd _ IH]; cbn; [done|]. by rewrite Hd, IH. Qed.

Lemma honest_process lanes ls ctx segs block (st : State) s : ls <> [] -> Forall (standard lanes enc) ls ->
  Forall ante_deterministic ls -> keeps_apart ls -> block_ctx ctx -> mempools_ok checks ls st ->
  Forall2 ordered_part ls segs -> decodes dec (concat segs) block -> steps (st_store st) (concat segs) = Some s ->
  ProcessProposalHandler (NewProposalHandler dec (standard_chain lanes ls)) ctx block st
  = (Ret (ACCEPT, None), set_store s st).
Proof.
  intros Hne Hls Hd Hka Hc Hch Hsegs Hde Hs. unfold ProcessProposalHandler.
  cbn [NewProposalHandler Abci.txDecoder processLanesHandler].
  rewrite (decodes_GetDecodedTxs _ _ Hde). unfold ChainProcessLanes, standard_chain.
  rewrite <- (map_map (fun s => lane_of lanes (sl_id s) (snd (sl_lane s))) ALane), terminate_lanes, map_map
    by by destruct ls.
  fold (standard_chain lanes ls).
  destruct (chain_process_accepts lanes ls Hls Hd) as (g & -> & Hg). unfold recover. cbn [call]. st_unfold.
  destruct (len block =? 0) eqn:E; [|by rewrite (Hg ctx segs st _ Hc Hka Hsegs Hch Hs)].
  assert (En : block = []) by (apply nil_length_inv; unfold len in E; lia). subst block.
  inversion Hde as [En|]. rewrite <- En in Hs. injection Hs as <-. by rewrite set_store_same.
Qed.

(** *** The same lanes, discarding what rejected transactions wrote *)

Definition discarding_lane (lane : LaneC) : LaneC := SetAnteHandler (discard_rejected <$> cfg_AnteHandler (cfg lane)) lane.
Definition discarding_lanes (lanes : Lanes) : Lanes := discarding_lane <$> lanes.
Definition discarding (s : standard_lane) : standard_lane :=
  MkStandard (sl_id s, discarding_lane (snd (sl_lane s))) (sl_matches s) (sl_handlers s).

Lemma Match_discarding lanes ctx tx fuel : forall l, Match fuel (discarding_lanes lanes) l ctx tx = Match fuel lanes l ctx tx.
Proof.
  induction fuel as [|fuel IH]; intros l; cbn [Match]; [done|]. unfold discarding_lanes at 1. rewrite lookup_fmap.
  destruct (lanes !! l) as [lane|]; cbn; [|done]. destruct (matchHandler lane) as [h|]; [|done].
  destruct (h ctx tx); [|done]. f_equal. generalize (IgnoreList (cfg lane)). intros ls.
  induction ls as [|l' ls IHl]; cbn [CheckIgnoreList]; [done|]. by rewrite IH, IHl.
Qed.

Lemma standard_discarding lanes s : standard lanes enc s -> standard (discarding_lanes lanes) enc (discarding s).
Proof.
  intros [Hm He Hh Hf]. split; [|done|by destruct s as [[l lane] m [|f]]|done]. intros ctx tx.
  rewrite Match_discarding. cbn. rewrite <- (Hm ctx tx). unfold match_fuel, discarding_lanes. by rewrite map_size_fmap.
Qed.

Lemma discarding_ante s : ante_deterministic s -> ante_deterministic (discarding s) /\ ante_restores (discarding s).
Proof.
  intros Hd. assert (E : forall ctx tx simulate st, AnteVerifyTx (snd (sl_lane (discarding s))) ctx tx simulate st
    = discard_rejected (AnteVerifyTx (snd (sl_lane s))) ctx tx simulate st).
  { intros ctx tx simulate st. unfold AnteVerifyTx, discard_rejected. cbn. by destruct (cfg_AnteHandler _). }
  destruct (discard_deterministic _ Hd) as [H1 H2]. split; intros ctx tx st Hc; rewrite E; [by apply H1|by apply H2].
Qed.

(** What rejected transactions wrote made no difference to the block of a run. *)
Definition residue_is_harmless lanes ls ctx MaxTxBytes (st : State) : Prop :=
  fst (PrepareProposalHandler (NewProposalHandler dec (standard_chain (discarding_lanes lanes) (map discarding ls)))
         ctx MaxTxBytes st)
  = fst (PrepareProposalHandler (NewProposalHandler dec (standard_chain lanes ls)) ctx MaxTxBytes st).

Lemma honest_proposal lanes ls ctx MaxTxBytes (st : State) : ls <> [] -> Forall (standard lanes enc) ls ->
  Forall ante_deterministic ls -> NoDup (map (fun s => sl_id s) ls) -> keeps_apart ls ->
  block_ctx ctx -> mempools_ok ready ls st -> residue_is_harmless lanes ls ctx MaxTxBytes st ->
  let h := NewProposalHandler dec (standard_chain lanes ls) in
  exists block txs s, fst (PrepareProposalHandler h ctx MaxTxBytes st) = Ret (block, None) /\
    GetDecodedTxs dec block = Ok txs /\ steps (st_store st) txs = Some s /\
    forall ctx2 st2, block_ctx ctx2 -> st_store st2 = st_store st -> mempools_ok checks ls st2 ->
      ProcessProposalHandler h ctx2 block st2 = (Ret (ACCEPT, None), set_store s st2).
Proof.
  intros Hne Hls Hd Hnd Hka Hc Hr Hres h.
  assert (Hd' : Forall ante_deterministic (map discarding ls) /\ Forall ante_restores (map discarding ls)).
  { rewrite !Forall_map. split; (eapply List.Forall_impl; [|exact Hd]); intros s Hs; by apply discarding_ante. }
  destruct Hd' as [Hd1 Hd2].
  destruct (honest_prepare (discarding_lanes lanes) (map discarding ls) ctx MaxTxBytes st)
    as (segs & block & st' & HP & Hsegs & Hde & Hst); [by destruct ls| |done|done| |done| |].
  { rewrite Forall_map. eapply List.Forall_impl; [|exact Hls]. apply standard_discarding. }
  { by rewrite map_map. }
  { unfold mempools_ok. by rewrite Forall_map. }
  assert (Hsegs' : Forall2 ordered_part ls segs) by exact (proj1 (Forall2_fmap_l _ _ _ _) Hsegs).
  unfold residue_is_harmless in Hres. rewrite HP in Hres. cbn [fst] in Hres.
  exists block, (concat segs), (st_store st'). split; [done|]. split; [by apply decodes_GetDecodedTxs|]. split; [done|].
  intros ctx2 st2 Hc2 Est Hch. rewrite <- Est in Hst. by eapply honest_process.
Qed.

(** C2: an honest proposal is accepted.  In a chain of auction lanes and lanes with the default handlers,
    whose ante handlers give one verdict on a transaction in all contexts of the block, whatever the lanes
    of the proposer select, skip or fail to select, every validator with the same lanes that starts from
    the same chain state, with any transactions in its own mempools, accepts the block, and ends in the
    chain state that the transactions of the block lead to, one after the other.  The default lanes of the
    proposer iterate by priority, the bundles in its auction lanes hold no bids, the parts of the lanes do
    not match earlier lanes, and what rejected transactions wrote made no difference to its selection. *)
Theorem honest_proposal_accepted lanes ls ctx MaxTxBytes (st : State) : ls <> [] -> Forall (standard lanes enc) ls ->
  Forall ante_deterministic ls -> NoDup (map (fun s => sl_id s) ls) -> keeps_apart ls ->
  block_ctx ctx -> mempools_ok ready ls st -> residue_is_harmless lanes ls ctx MaxTxBytes st ->
  let h := NewProposalHandler dec (standard_chain lanes ls) in
  exists block txs s, fst (PrepareProposalHandler h ctx MaxTxBytes st) = Ret (block, None) /\
    GetDecodedTxs dec block = Ok txs /\ steps (st_store st) txs = Some s /\
    forall ctx2 st2, block_ctx ctx2 -> st_store st2 = st_store st -> mempools_ok checks ls st2 ->
      ProcessProposalHandler h ctx2 block st2 = (Ret (ACCEPT, None), set_store s st2).
Proof. exact (honest_proposal lanes ls ctx MaxTxBytes st). Qed.
End Chain.

(** ** Prepared and rejected *)

Section Rejected.
Context (lanes : Lanes) (dec : TxDecoder) (l : LaneId) (lane : LaneC) (m : Tx -> bool) (enc : TxEncoder).
Abbreviation view := (view_of lanes l lane).
Abbreviation handler := (NewProposalHandler dec [ALane (lane_of lanes l lane)]).

(** The block of a single default lane whose selection is [new]. *)
Lemma single_lane_block ctx MaxTxBytes n (st : State) mp it mp' new rm st1 r st2 :
  prepareLaneHandler lane = Some DefaultPrepareLaneHandler ->
  st_mempools st !! l = Some mp -> lm_Select mp = (Ret it, mp') ->
  GetMaxTxBytesForLane MaxTxBytes 0 (GetMaxBlockSpace lane) = Ret n ->
  prepare_loop view (NewProposal MaxTxBytes) n ctx 0 [] [] it
    {| st_store := st_store st; st_mempools := <[l := mp']> (st_mempools st) |} = (Ret (new, rm), st1) ->
  RemoveTxsFromLane (fun tx => on_mempool l (lm_Remove tx)) rm st1 = (Ret r, st2) ->
  total_len new <= n -> total_len new <= MaxTxBytes -> MaxTxBytes <= max_int64 ->
  PrepareProposalHandler handler ctx MaxTxBytes st = (Ret (new, None), st2).
Proof.
  intros Hp Hmp Hsel Hn Hloop Hrm H1 H2 H3.
  assert (Hstep : exists p, prepare_step lanes ctx (st, NewProposal MaxTxBytes) (l, lane) = (st2, p) /\
    GetProposal p = new).
  2: { destruct Hstep as (p & Hstep & <-).
    etransitivity; [by apply (PrepareProposal_fold lanes dec [(l, lane)])|]. cbn [fold_left]. by rewrite Hstep. }
  unfold prepare_step, prepare_turn, prepare_own, on_state, on_proposal.
  cbn [fst snd]. rewrite Hp. st_unfold. cbn [fst snd call].
  change (GetMaxTxBytes (NewProposal MaxTxBytes)) with MaxTxBytes.
  change (GetTotalTxBytes (NewProposal MaxTxBytes)) with 0. rewrite Hn. cbn [fst snd].
  unfold DefaultPrepareLaneHandler. st_unfold. cbn [lv_id view_of]. unfold on_mempool at 1.
  cbn [fst]. rewrite Hmp, Hsel. cbn [fst snd]. rewrite Hloop. cbn [fst snd]. rewrite Hrm. cbn [fst snd].
  pose proof (total_len_nonneg new).
  unfold UpdateProposal. case_bool_decide as E; [apply nil_length_inv in E; subst; by eexists|].
  change (GetMaxTxBytes (NewProposal MaxTxBytes)) with MaxTxBytes.
  change (GetTotalTxBytes (NewProposal MaxTxBytes)) with 0.
  change (lp_GetMaxBlockSpace (lane_proposal lane)) with (GetMaxBlockSpace lane). rewrite Hn.
  cbn [NewProposal maxTxBytes totalTxBytes]. rewrite partial_size_total by lia.
  rewrite wrap_i64_id by (unfold in_i64, max_int64 in *; lia).
  destruct (Z.ltb_spec n (total_len new)); [lia|].
  destruct (Z.ltb_spec MaxTxBytes (0 + total_len new)); [lia|]. by eexists.
Qed.

(** The chain of one lane rejects what the order check or the processing of the lane rejects. *)
Lemma single_lane_rejects ctx block txs (st st' : State) :
  block <> [] -> GetDecodedTxs dec block = Ok txs ->
  (exists err, CheckOrder lanes l lane ctx txs st = (Ret (Some err), st')) \/
  (exists err st1, CheckOrder lanes l lane ctx txs st = (Ret None, st1) /\
     forall next, ProcessLane lanes l lane ctx txs next st1 = (Ret (ctx, Some err), st')) ->
  exists err, ProcessProposalHandler handler ctx block st = (Ret (REJECT, Some err), st').
Proof.
  intros Hne Hd HR. unfold ProcessProposalHandler, ChainProcessLanes.
  cbn [NewProposalHandler Abci.txDecoder processLanesHandler]. rewrite Hd.
  unfold ChainProcessLanes, terminate. cbn [list.last is_terminator app chain_process ops].
  assert (Hl : forall A (k : list A), k <> [] -> (len k =? 0) = false)
    by (intros A [|x k] Hk; [done|apply Z.eqb_neq; unfold len; cbn [length]; lia]).
  rewrite Hl by done. unfold recover. cbn [call]. st_unfold.
  rewrite Hl by (intros ->; destruct block as [|bz block]; [done|]; cbn in Hd; destruct (dec bz); [|done];
    revert Hd; st_unfold; by destruct (GetDecodedTxs dec block)).
  cbn [lane_CheckOrder lane_ProcessLane lane_of].
  destruct HR as [[err ->]|(err & st1 & -> & HP)]; [by exists err|]. rewrite HP. by exists err.
Qed.

Hypothesis Hmatch : forall ctx tx, block_ctx ctx -> Match (match_fuel lanes) lanes l ctx tx = Ret (m tx).
Hypothesis Henc : cfg_TxEncoder (cfg lane) = Some enc.
Hypothesis Hdec : forall tx bz, enc tx = Ok bz -> dec bz = Ok tx.
Hypothesis Hprepare : prepareLaneHandler lane = Some DefaultPrepareLaneHandler.
Hypothesis Horder : checkOrderHandler lane = Some DefaultCheckOrderHandler.
Hypothesis Hprocess : processLaneHandler lane = Some DefaultProcessLaneHandler.

(** C14: a block prepared by the default handlers can be rejected by the default handlers.  The
    mempool yields a transaction before another one of higher priority, which it does when both
    are of one sender and the nonces order them so; the lane selects them in this order, and the
    order check of every validator, the proposer included, rejects the block. *)
Theorem priority_inversion_rejected cmp ctx MaxTxBytes n (st : State) mp mp' a b bza bzb s :
  deterministic (AnteVerifyTx lane) -> block_ctx ctx ->
  st_mempools st !! l = Some mp -> lm_Select mp = (Ret [a; b], mp') ->
  m a = true -> m b = true -> enc a = Ok bza -> enc b = Ok bzb ->
  steps (st_store st) [a; b] = Some s -> cmp a b = -1 ->
  GetMaxTxBytesForLane MaxTxBytes 0 (GetMaxBlockSpace lane) = Ret n ->
  len bza + len bzb <= n -> len bza + len bzb <= MaxTxBytes <= max_int64 ->
  exists st', PrepareProposalHandler handler ctx MaxTxBytes st = (Ret ([bza; bzb], None), st') /\
    forall ctx2 st2 mp2, block_ctx ctx2 -> st_mempools st2 !! l = Some mp2 -> compares cmp mp2 ->
      exists err, ProcessProposalHandler handler ctx2 [bza; bzb] st2 = (Ret (REJECT, Some err), st2).
Proof.
  intros Hante Hc Hmp Hsel Ha Hb Hea Heb HS Hcmp Hn Hsz Hmax.
  pose proof (len_nonneg bza). pose proof (len_nonneg bzb).
  cbn [steps] in HS. destruct (step (st_store st) a) as [s1|] eqn:E1; [|done].
  destruct (step s1 b) as [s2|] eqn:E2; [|done].
  eexists. split.
  - eapply (single_lane_block _ _ n _ _ _ _ _ [] _ _ _ Hprepare Hmp Hsel Hn); [| | |cbn; lia..].
    + cbn [prepare_loop]. unfold lane_tx_hash, GetTxHashStr. cbn [lv_TxEncoder lv_Match lv_AnteVerifyTx view_of].
      rewrite Henc, Hea. st_unfold. rewrite Hmatch, Ha by done. cbn [negb].
      change (Proposals.Contains (NewProposal MaxTxBytes)) with (fun _ : bytes => false). cbv beta.
      rewrite wrap_i64_id by (unfold in_i64, max_int64 in *; lia). destruct (Z.ltb_spec n (0 + len bza)); [lia|].
      match goal with |- context [AnteVerifyTx lane ctx a false ?st1] => pose proof (Hante ctx a st1 Hc) as Ha1 end.
      cbn [st_store] in Ha1. rewrite E1 in Ha1. destruct Ha1 as (ctx1 & Hc1 & ->).
      rewrite Heb, Hmatch, Hb by done. cbn [negb].
      rewrite wrap_i64_id by (unfold in_i64, max_int64 in *; lia). destruct (Z.ltb_spec n (0 + len bza + len bzb)); [lia|].
      match goal with |- context [AnteVerifyTx lane ctx1 b false ?st1] => pose proof (Hante ctx1 b st1 Hc1) as Hb1 end.
      cbn [st_store set_store] in Hb1. rewrite E2 in Hb1. by destruct Hb1 as (ctx2 & Hc2 & ->).
    + reflexivity.
    + cbn. lia.
  - intros ctx2 st2 mp2 Hc2 Hmp2 Hcmp2. apply (single_lane_rejects ctx2 _ [a; b]); [done| |left].
    { cbn. by rewrite (Hdec a bza Hea), (Hdec b bzb Heb). }
    unfold CheckOrder. rewrite Horder. cbn [call]. st_unfold. unfold DefaultCheckOrderHandler.
    destruct (check_order_unseen view ctx2 st2 mp2 m cmp Hmp2 (fun tx => Hmatch ctx2 tx Hc2)
      (fun a b => Hcmp2 ctx2 a b Hc2) None [a; b]) as (r & Hr & Hi). rewrite Hr.
    destruct r as [err|]; [by exists err|]. exfalso.
    destruct (proj1 Hi eq_refl) as (ms & others & E & Hms & Ho & Hs).
    destruct ms as [|x [|y ms]]; cbn in E; simplify_eq/=.
    + inversion Ho; congruence.
    + inversion Ho; congruence.
    + specialize (Hs ltac:(done)). apply Sorted_inv in Hs as [_ Hs]. apply HdRel_inv in Hs. by unfold in_order in Hs.
Qed.

(** C38: the default selection verifies the transactions on the context it was given, without a
    cache.  What a transaction that fails wrote before it failed stays, and can make the next one
    valid: the block then holds a transaction that no validator accepts. *)
Theorem failed_writes_rejected ctx MaxTxBytes n (st : State) mp mp' a b bza bzb err ctx1 s1 ctx2 s2 r st3 :
  block_ctx ctx -> block_ctx ctx1 ->
  st_mempools st !! l = Some mp -> lm_Select mp = (Ret [a; b], mp') ->
  m a = true -> m b = true -> enc a = Ok bza -> enc b = Ok bzb ->
  let st0 := {| st_store := st_store st; st_mempools := <[l := mp']> (st_mempools st) |} in
  AnteVerifyTx lane ctx a false st0 = (Ret (ctx1, Some err), set_store s1 st0) ->
  AnteVerifyTx lane ctx1 b false (set_store s1 st0) = (Ret (ctx2, None), set_store s2 st0) ->
  on_mempool l (lm_Remove a) (set_store s2 st0) = (Ret r, st3) ->
  GetMaxTxBytesForLane MaxTxBytes 0 (GetMaxBlockSpace lane) = Ret n ->
  Z.max (len bza) (len bzb) <= n -> len bzb <= MaxTxBytes <= max_int64 -> len bza <= max_int64 ->
  exists st', PrepareProposalHandler handler ctx MaxTxBytes st = (Ret ([bzb], None), st') /\
    forall ctx3 st4 ctx4 err4 st5, block_ctx ctx3 ->
      AnteVerifyTx lane ctx3 b false st4 = (Ret (ctx4, Some err4), st5) ->
      exists err, ProcessProposalHandler handler ctx3 [bzb] st4 = (Ret (REJECT, Some err), st5).
Proof.
  intros Hc Hc1 Hmp Hsel Ha Hb Hea Heb st0 HA HB HR Hn Hsz Hmax Hla.
  pose proof (len_nonneg bza). pose proof (len_nonneg bzb).
  eexists. split.
  - eapply (single_lane_block _ _ n _ _ _ _ _ [a] _ (match r with Some e => Some e | None => None end) st3 Hprepare Hmp Hsel Hn);
      [| | |cbn; lia..].
    + cbn [prepare_loop]. unfold lane_tx_hash, GetTxHashStr. cbn [lv_TxEncoder lv_Match lv_AnteVerifyTx view_of].
      rewrite Henc, Hea. st_unfold. rewrite Hmatch, Ha by done. cbn [negb].
      change (Proposals.Contains (NewProposal MaxTxBytes)) with (fun _ : bytes => false). cbv beta.
      rewrite wrap_i64_id by (unfold in_i64, max_int64 in *; lia). destruct (Z.ltb_spec n (0 + len bza)); [lia|].
      fold st0. rewrite HA, Heb, Hmatch, Hb by done. cbn [negb].
      rewrite wrap_i64_id by (unfold in_i64, max_int64 in *; lia). destruct (Z.ltb_spec n (0 + len bzb)); [lia|].
      rewrite HB. reflexivity.
    + cbn [RemoveTxsFromLane]. st_unfold. rewrite HR. by destruct r.
    + cbn. lia.
  - intros ctx3 st4 ctx4 err4 st5 Hc3 H4. apply (single_lane_rejects ctx3 _ [b]); [done| |right].
    { cbn. by rewrite (Hdec b bzb Heb). }
    exists (Wrap "failed to verify tx" err4), st4. unfold CheckOrder, ProcessLane. rewrite Horder, Hprocess.
    cbn [call]. st_unfold. unfold DefaultCheckOrderHandler. cbn [check_order_loop DefaultProcessLaneHandler].
    cbn [lv_Match lv_AnteVerifyTx view_of]. st_unfold. rewrite Hmatch, Hb by done. cbn [higher_priority]. st_unfold.
    split; [done|]. intros next. by rewrite H4.
Qed.
End Rejected.
End Consensus.

(** ** Mempools and ante handlers that meet the conditions *)

Section Conditions.
Context {sdk : Sdk}.

Lemma StronglySorted_weaken {A} (P : A -> Prop) (R S : A -> A -> Prop) l :
  (forall a b, P a -> P b -> R a b -> S a b) -> Forall P l -> StronglySorted R l -> StronglySorted S l.
Proof.
  intros HRS. induction 1 as [|x l Hx Hl IH]; intros HS; [constructor|].
  apply StronglySorted_inv in HS as [HS HR]. constructor; [by apply IH|].
  rewrite list.Forall_forall in Hl, HR |- *. eauto.
Qed.

(** The mempool of a lane iterates by decreasing priority when no sender has two transactions in
    it and the stored priorities are those of the block. *)
Lemma constructor_by_priority {L : SkipListLib} {SL : SkipListLaws L} {C : Type} `{Countable C} (zero : C)
    {Pr : C -> Prop} `{!forall c, Decision (Pr c)} (block_ctx : Context -> Prop) cmp (cm : ConstructorMempool (C := C)) ctx :
  block_ctx ctx -> wf (Pr := Pr) (index cm) -> priorities_agree (index cm) -> one_tx_each (LaneMempool.view cm) ->
  cfg_TxPriority (PriorityNonce.cfg (index cm)) = txPriority cm ->
  (forall k p tx, LaneMempool.view cm !! k = Some (p, tx) -> GetTxPriority (txPriority cm) ctx tx = Ret p) ->
  compares (LM := constructor_lane_mempool zero) block_ctx cmp cm ->
  by_priority (LM := constructor_lane_mempool zero) cmp cm.
Proof.
  intros Hc W A O1 Htp Hpr Hcmp it cm'. cbn [lm_Select constructor_lane_mempool]. unfold Select, on_index.
  destruct (SelectAll_by_priority zero (index cm) W A O1) as (D & HD & Hperm & HS).
  destruct (SelectAll zero (index cm)) as [l i]. cbn in HD |- *. intros [= <- _]. subst l.
  apply StronglySorted_map.
  apply (StronglySorted_weaken (fun x => GetTxPriority (txPriority cm) ctx x.2 = Ret x.1)
    (fun a b => 0 <= PriorityNonce.Compare (txPriority cm) a.1 b.1)).
  - intros a b Ha Hb HR. unfold in_order. pose proof (Hcmp ctx a.2 b.2 Hc) as E. cbn in E. unfold Compare in E. revert E.
    rewrite Ha, Hb. st_unfold. intros [= <-]. lia.
  - rewrite Hperm. apply List.Forall_forall. intros x Hx. apply in_map_iff in Hx as ([k [p tx]] & <- & Hin).
    apply list_elem_of_In, elem_of_map_to_list in Hin. cbn. by apply (Hpr k).
  - by rewrite <- Htp.
Qed.

End Conditions.

(** ** Witnesses *)

Lemma ex_deterministic {M} (lane : LaneConstructor (sdk := concrete_sdk) (M := M)) :
  cfg_AnteHandler (cfg lane) = Some ex_ante -> deterministic (fun _ => True) ex_step (AnteVerifyTx lane).
Proof.
  intros H ctx tx st _. unfold AnteVerifyTx. rewrite H. unfold ex_ante.
  destruct (ex_step (st_store st) tx) as [s|]; [by exists ctx|]. exists (Ret (ctx, Some (Errorf "seen"))), (st_store st).
  rewrite set_store_same. split; [|done]. left. by exists ctx, (Errorf "seen").
Qed.

(** The two lanes of [hon_chain], the transactions all of the same priority. *)
Definition hon_cmp (l : LaneId) (a b : CTx) : Z := 0.

Lemma hon_apart : keeps_apart hon_chain.
Proof.
  constructor; [repeat constructor|]. constructor; [|constructor]. intros seg Hm.
  eapply List.Forall_impl; [|exact Hm]. cbn. intros tx. by destruct (ex_is_bid tx).
Qed.

Lemma hon_plain bi raw tx : GetAuctionBidInfo ex_factory ex_bid = Ok (Some bi) -> In raw (Transactions bi) ->
  unwraps ex_factory raw tx -> ex_is_bid tx = false.
Proof.
  rewrite ex_bid_has_info. intros [= <-] Hin Hu. unfold unwraps in Hu.
  assert (E : WrapBundleTransaction ex_factory [x05] = Ok (ex_tx 2 0 [5]) /\
    WrapBundleTransaction ex_factory [x06] = Ok (ex_tx 1 1 [6])) by (split; vm_compute; reflexivity).
  destruct E as [E5 E6]. destruct Hin as [<-|[<-|[]]]; rewrite ?E5, ?E6 in Hu; injection Hu as <-;
    vm_compute; reflexivity.
Qed.

(** The proposer holds a bid, and two other transactions, one of which the bundle already takes. *)
Definition hon_proposer := hon_state [ex_bid] [ex_tx 2 0 [5]; ex_tx 3 0 [7]].

Lemma hon_mempools (cond : standard_lane (sdk := concrete_sdk) (M := list CTx) -> list CTx -> Prop) bids txs :
  Forall (fun s => forall l, l = fst (sl_lane s) -> cond s (if (l =? 0)%nat then bids else txs)) hon_chain ->
  mempools_ok cond hon_chain (hon_state bids txs).
Proof.
  intros H. inversion H as [|? ? H0 H']; subst. inversion H' as [|? ? H1 _]; subst.
  constructor; [|constructor; [|constructor]]; eexists; (split; [|by apply (H0 0%nat)||by apply (H1 1%nat)]).
  - apply lookup_insert_eq.
  - cbn [st_mempools hon_state]. rewrite lookup_insert_ne by discriminate. apply lookup_singleton_eq.
Qed.

Lemma honest_proposal_accepted_witness :
  exists block txs s, fst (PrepareProposalHandler hon_handler (ex_ctx 0) 10 hon_proposer) = Ret (block, None) /\
    GetDecodedTxs (table_dec ex_table) block = Ok txs /\ steps ex_step ex_store txs = Some s /\
    forall ctx2 st2, True -> st_store st2 = ex_store ->
      mempools_ok (checks (fun _ => True) hon_cmp) hon_chain st2 ->
      ProcessProposalHandler hon_handler ctx2 block st2 = (Ret (ACCEPT, None), set_store s st2).
Proof.
  apply (honest_proposal_accepted (fun _ => True) ex_step (table_enc ex_table) (table_dec ex_table)
    (fun tx bz => table_dec_enc ex_table tx bz ex_table_NoDup) hon_cmp hon_lanes hon_chain (ex_ctx 0) 10 hon_proposer).
  - discriminate.
  - apply hon_standard.
  - repeat constructor; by apply ex_deterministic.
  - apply (bool_decide_unpack _). reflexivity.
  - apply hon_apart.
  - exact I.
  - apply hon_mempools. constructor; [|constructor; [|constructor]]; intros l ->.
    + intros it mp' bid bi raw tx [= <- <-] [<-|[]]. apply hon_plain.
    + intros it mp' [= <- <-]. repeat constructor; discriminate.
  - vm_compute. reflexivity.
Defined.

(** A mempool of [ConstructorMempool] with two transactions of one account: the first pays less
    than the second. *)
Definition inv_tx (nonce fee : Z) : CTx :=
  {| c_msgs := []; c_sigs := Some (Ok [MkSig (ex_addr 1) nonce]); c_signers := Some (Ok [ex_addr 1]);
     c_timeout := Some 0; c_fee := Some (Some [MkCoin "stake" (Some fee)]); c_bytes := [Z_byte nonce] |}.
Definition inv_a : CTx := inv_tx 0 1.
Definition inv_b : CTx := inv_tx 1 10.
Abbreviation inv_Mem := (ConstructorMempool (sdk := concrete_sdk) (C := string)).
#[local] Instance inv_LaneMempool : LaneMempool inv_Mem := constructor_lane_mempool "".
Definition inv_new : inv_Mem := NewConstructorMempool DefaultTxPriority (table_enc [inv_a; inv_b]) 0.
Definition inv_mempool : inv_Mem :=
  snd (lm_Insert (ex_ctx 0) inv_b (snd (lm_Insert (ex_ctx 0) inv_a inv_new))).
Definition inv_lane : LaneConstructor (sdk := concrete_sdk) (M := inv_Mem) :=
  honest_lane "default" [] [inv_a; inv_b] DefaultMatchHandler
    DefaultPrepareLaneHandler DefaultCheckOrderHandler DefaultProcessLaneHandler.
Definition inv_lanes : gmap LaneId (LaneConstructor (sdk := concrete_sdk) (M := inv_Mem)) := {[ 0%nat := inv_lane ]}.
Definition inv_state (mp : inv_Mem) : Lane.State (sdk := concrete_sdk) (M := inv_Mem) :=
  {| st_store := ex_store; st_mempools := {[ 0%nat := mp ]} |}.
Definition inv_cmp (a b : CTx) : Z :=
  compare_coins (match c_fee a with Some fee => Coins_String fee | None => "" end)
    (match c_fee b with Some fee => Coins_String fee | None => "" end).

Lemma inv_compares : compares (fun _ => True) inv_cmp inv_new.
Proof.
  intros ctx a b _. unfold inv_cmp. cbn. unfold Compare. cbn.
  by destruct (c_fee a), (c_fee b).
Qed.

Lemma inv_match ctx tx : Match (match_fuel inv_lanes) inv_lanes 0%nat ctx tx = Ret true.
Proof. reflexivity. Qed.

Lemma inv_NoDup : NoDup (map c_bytes [inv_a; inv_b]).
Proof. apply (bool_decide_unpack _). vm_compute. reflexivity. Qed.

Lemma priority_inversion_rejected_witness :
  let h := NewProposalHandler (table_dec [inv_a; inv_b]) [ALane (lane_of inv_lanes 0%nat inv_lane)] in
  exists st', PrepareProposalHandler h (ex_ctx 0) 10 (inv_state inv_mempool) = (Ret ([[x00]; [x01]], None), st') /\
    exists err, ProcessProposalHandler h (ex_ctx 0) [[x00]; [x01]] (inv_state inv_new)
                = (Ret (REJECT, Some err), inv_state inv_new).
Proof.
  destruct (priority_inversion_rejected (fun _ => True) ex_step inv_lanes (table_dec [inv_a; inv_b]) 0%nat inv_lane
    (fun _ => true) (table_enc [inv_a; inv_b]) (fun ctx tx _ => inv_match ctx tx) eq_refl
    (fun tx bz => table_dec_enc [inv_a; inv_b] tx bz inv_NoDup) eq_refl eq_refl inv_cmp (ex_ctx 0) 10 10
    (inv_state inv_mempool) inv_mempool (snd (lm_Select inv_mempool)) inv_a inv_b [x00] [x01]
    (kv_Set [x01] [x01] (kv_Set [x00] [x01] ex_store))) as (st' & HP & HR).
  - by apply ex_deterministic.
  - exact I.
  - apply lookup_singleton_eq.
  - eval_run.
  - reflexivity.
  - reflexivity.
  - vm_compute. reflexivity.
  - vm_compute. reflexivity.
  - reflexivity.
  - vm_compute. reflexivity.
  - reflexivity.
  - vm_compute. discriminate.
  - split; vm_compute; discriminate.
  - exists st'. split; [exact HP|].
    apply (HR (ex_ctx 0) (inv_state inv_new) inv_new I); [apply lookup_singleton_eq|apply inv_compares].
Defined.

(** An ante handler that writes before it fails: the first transaction sets a flag and fails, the
    second is valid once the flag is set. *)
Definition bad_ante {M} : AnteHandler (sdk := concrete_sdk) (M := M) := fun ctx tx simulate st =>
  if bool_decide (c_bytes tx = [x01]) then
    (Ret (ctx, Some (Errorf "failed")), set_store (kv_Set [x00] [x01] (st_store st)) st)
  else if bool_decide (kv_Get (st_store st) [x00] = []) then (Ret (ctx, Some (Errorf "no flag")), st)
  else (Ret (ctx, None), st).
Definition bad_txs : list CTx := [ex_tx 1 0 [1]; ex_tx 2 0 [3]].
Definition bad_lane : LaneConstructor (sdk := concrete_sdk) (M := list CTx) :=
  SetAnteHandler (Some bad_ante)
    (honest_lane "default" [] bad_txs DefaultMatchHandler
       DefaultPrepareLaneHandler DefaultCheckOrderHandler DefaultProcessLaneHandler).
Definition bad_lanes : gmap LaneId (LaneConstructor (sdk := concrete_sdk) (M := list CTx)) := {[ 0%nat := bad_lane ]}.
Definition bad_state (txs : list CTx) : Lane.State (sdk := concrete_sdk) (M := list CTx) :=
  {| st_store := ex_store; st_mempools := {[ 0%nat := txs ]} |}.

Lemma bad_NoDup : NoDup (map c_bytes bad_txs).
Proof. apply (bool_decide_unpack _). vm_compute. reflexivity. Qed.

Lemma failed_writes_rejected_witness :
  let h := NewProposalHandler (table_dec bad_txs) [ALane (lane_of bad_lanes 0%nat bad_lane)] in
  exists st', PrepareProposalHandler h (ex_ctx 0) 10 (bad_state bad_txs) = (Ret ([[x03]], None), st') /\
    exists err, ProcessProposalHandler h (ex_ctx 0) [[x03]] (bad_state []) = (Ret (REJECT, Some err), bad_state []).
Proof.
  destruct (failed_writes_rejected (fun _ => True) bad_lanes (table_dec bad_txs) 0%nat bad_lane
    (fun _ => true) (table_enc bad_txs) (fun ctx tx _ => eq_refl) eq_refl
    (fun tx bz => table_dec_enc bad_txs tx bz bad_NoDup) eq_refl eq_refl eq_refl (ex_ctx 0) 10 10
    (bad_state bad_txs) bad_txs bad_txs (ex_tx 1 0 [1]) (ex_tx 2 0 [3]) [x01] [x03]
    (Errorf "failed") (ex_ctx 0) (kv_Set [x00] [x01] ex_store) (ex_ctx 0) (kv_Set [x00] [x01] ex_store) None
    (snd (on_mempool 0%nat (lm_Remove (ex_tx 1 0 [1])) (set_store (kv_Set [x00] [x01] ex_store) (bad_state bad_txs)))))
    as (st' & HP & HR).
  - exact I.
  - exact I.
  - apply lookup_singleton_eq.
  - reflexivity.
  - reflexivity.
  - reflexivity.
  - vm_compute. reflexivity.
  - vm_compute. reflexivity.
  - reflexivity.
  - reflexivity.
  - reflexivity.
  - reflexivity.
  - vm_compute. discriminate.
  - split; vm_compute; discriminate.
  - vm_compute. discriminate.
  - exists st'. split; [exact HP|]. apply (HR (ex_ctx 0) (bad_state []) (ex_ctx 0) (Errorf "no flag") (bad_state []) I).
    reflexivity.
Defined.
