(* ===== verification/App.v ===== *)
(** * tests/app: the application built from the lanes

    [NewPOBAnteHandler] of ante.go and the part of [New] of app.go that makes the lanes, the
    mempool and the handlers; the modules the application wires, its stores and its API servers
    are the SDK's.  The second part is the application in use: what CometBFT asks of a node, one
    request at a time, as a step relation on the chain state and the mempools. *)
From S2P Require Import Prelude Hash Sdk PriorityNonce LaneMempool Lane Mempool AuctionLane Lanes Abci BuilderTypes Builder.

Section App.
Context {sdk : Sdk} {L : SkipListLib} {PC : ParamsCodec}.
Abbreviation Mem := (ConstructorMempool (C := string)).
#[local] Instance app_lane_mempool : LaneMempool Mem := constructor_lane_mempool "".
Abbreviation State := (Lane.State (M := Mem)).
Abbreviation LaneC := (LaneConstructor (M := Mem)).
Abbreviation Lanes := (gmap LaneId LaneC).

(** ** ante.go *)

(** [ante.HandlerOptions]: the keepers of the SDK, nil or set. *)
Record HandlerOptions : Type := MkHandlerOptions {
  AccountKeeper : option unit;
  BankKeeper : option unit;
  SignModeHandler : option unit }.

(** The decorators of the SDK's auth module for given options, in the order of ante.go, and
    [sdk.ChainAnteDecorators]. *)
Record AnteLib : Type := MkAnteLib {
  SetUpContextDecorator : AnteDecorator (M := Mem);
  ExtensionOptionsDecorator : HandlerOptions -> AnteDecorator (M := Mem);
  ValidateBasicDecorator : AnteDecorator (M := Mem);
  TxTimeoutHeightDecorator : AnteDecorator (M := Mem);
  ValidateMemoDecorator : HandlerOptions -> AnteDecorator (M := Mem);
  ConsumeGasForTxSizeDecorator : HandlerOptions -> AnteDecorator (M := Mem);
  DeductFeeDecorator : HandlerOptions -> AnteDecorator (M := Mem);
  SetPubKeyDecorator : HandlerOptions -> AnteDecorator (M := Mem);
  ValidateSigCountDecorator : HandlerOptions -> AnteDecorator (M := Mem);
  SigGasConsumeDecorator : HandlerOptions -> AnteDecorator (M := Mem);
  SigVerificationDecorator : HandlerOptions -> AnteDecorator (M := Mem);
  IncrementSequenceDecorator : HandlerOptions -> AnteDecorator (M := Mem);
  ChainAnteDecorators : list (AnteDecorator (M := Mem)) -> AnteHandler (M := Mem) }.

(** The keeper of the builder module is not read by the decorator; of the free lane it is
    asked whether it matches. *)
Record POBHandlerOptions : Type := MkPOBHandlerOptions {
  BaseOptions : HandlerOptions;
  opt_Mempool : BBMempool;
  opt_TOBLane : LaneId * Factory;
  opt_TxEncoder : TxEncoder;
  opt_FreeLane : Context -> Tx -> outcome bool }.

Definition app_decorators (lib : AnteLib) (options : POBHandlerOptions) : list (AnteDecorator (M := Mem)) :=
  let base := BaseOptions options in
  [ SetUpContextDecorator lib;
    ExtensionOptionsDecorator lib base;
    ValidateBasicDecorator lib;
    TxTimeoutHeightDecorator lib;
    ValidateMemoDecorator lib base;
    ConsumeGasForTxSizeDecorator lib base;
    IgnoreDecorator_AnteHandle (NewIgnoreDecorator (DeductFeeDecorator lib base) [opt_FreeLane options]);
    SetPubKeyDecorator lib base;
    ValidateSigCountDecorator lib base;
    SigGasConsumeDecorator lib base;
    SigVerificationDecorator lib base;
    IncrementSequenceDecorator lib base;
    AnteHandle (NewBuilderDecorator (opt_TxEncoder options)
      (GetAuctionBidInfo (snd (opt_TOBLane options)))
      (fun _ => GetTopAuctionTx (fst (opt_TOBLane options)))
      (BBMempool_Contains (opt_Mempool options))) ].

Definition NewPOBAnteHandler (lib : AnteLib) (options : POBHandlerOptions) : outcome (AnteHandler (M := Mem)) :=
  if is_nil (AccountKeeper (BaseOptions options)) then Panic "account keeper is required for ante builder"
  else if is_nil (BankKeeper (BaseOptions options)) then Panic "bank keeper is required for ante builder"
  else if is_nil (SignModeHandler (BaseOptions options)) then
    Panic "sign mode handler is required for ante builder"
  else Ret (ChainAnteDecorators lib (app_decorators lib options)).

(** ** app.go *)

(** What the SDK gives the application: the encoder and decoder of [app.txConfig], the keepers
    and the decorators. *)
Record TestAppDeps : Type := MkDeps {
  deps_TxEncoder : TxEncoder;
  deps_TxDecoder : TxDecoder;
  deps_Options : HandlerOptions;
  deps_Ante : AnteLib }.

(** The lanes, what [New] sets on BaseApp (the mempool, the ante handler, the proposal handlers)
    and the CheckTx handler, for a given state of BaseApp. *)
Record TestApp : Type := MkTestApp {
  app_lanes : Lanes;
  app_mempool : BBMempool;
  app_anteHandler : AnteHandler (M := Mem);
  app_proposalHandler : ProposalHandler (M := Mem);
  app_checkTxHandler : BaseApp (M := Mem) -> CheckTxHandler (M := Mem) }.

(** The lanes, in the order of their priority. *)
Definition tob_id : LaneId := 0%nat.
Definition free_id : LaneId := 1%nat.
Definition default_id : LaneId := 2%nat.

Definition app_config (deps : TestAppDeps) : LaneConfig (M := Mem) :=
  {| Logger := Some tt; cfg_TxEncoder := Some (deps_TxEncoder deps);
     cfg_TxDecoder := Some (deps_TxDecoder deps); cfg_AnteHandler := None;
     MaxBlockSpace := LegacyZeroDec; IgnoreList := []; MaxTxs := 0 |}.

Definition app_factory (deps : TestAppDeps) : Factory := NewDefaultAuctionFactory (deps_TxDecoder deps).

(** The custom code of [New]: the application and the mempools of its lanes.  The ante handler
    asks the free lane whether it matches; [lane.SetAnteHandler], which comes after it is made,
    changes nothing that [Match] reads. *)
Definition New (deps : TestAppDeps) : outcome (TestApp * gmap LaneId Mem) :=
  '(tobLane, tobMempool) ← NewTOBLane (app_config deps) (app_factory deps);
  '(freeLane, freeMempool) ← NewFreeLane (app_config deps) DefaultTxPriority (Some FreeMatchHandler);
  '(defaultLane, defaultMempool) ← NewDefaultLane (app_config deps);
  let registry := [tob_id; free_id; default_id] in
  '(mempool, lanes) ← NewMempool true registry
      (<[tob_id := tobLane]> (<[free_id := freeLane]> {[default_id := defaultLane]}));
  anteHandler ← NewPOBAnteHandler (deps_Ante deps)
    {| BaseOptions := deps_Options deps; opt_Mempool := mempool;
       opt_TOBLane := (tob_id, app_factory deps); opt_TxEncoder := deps_TxEncoder deps;
       opt_FreeLane := Match (match_fuel lanes) lanes free_id |};
  let lanes := SetAnteHandler (Some anteHandler) <$> lanes in
  mret ({| app_lanes := lanes;
           app_mempool := mempool;
           app_anteHandler := anteHandler;
           app_proposalHandler := NewProposalHandler (deps_TxDecoder deps)
             (omap (fun l => lane ← lanes !! l; Some (ALane (lane_of lanes l lane))) registry);
           app_checkTxHandler := fun baseApp =>
             NewCheckTxHandler baseApp (deps_TxDecoder deps) tob_id (app_factory deps) anteHandler |},
        <[tob_id := tobMempool]> (<[free_id := freeMempool]> {[default_id := defaultMempool]})).

(** ** The application in use *)

(** [admits] is a condition on the transactions that clients send to the node. *)
Context (app : TestApp) (admits : Tx -> Prop).

Definition TestApp_CheckTx (base : BaseApp (M := Mem)) (req : RequestCheckTx) :=
  CheckTx (app_checkTxHandler app base) req.

(** What BaseApp does with the application when it checks, delivers or rechecks a transaction:
    it runs the ante handler, inserts the transaction into the mempool or removes it, and writes
    to the chain state. *)
Inductive base_app_run (tx : Tx) : State -> State -> Prop :=
| run_done st : base_app_run tx st st
| run_ante ctx simulate st st' : base_app_run tx (snd (app_anteHandler app ctx tx simulate st)) st' ->
    base_app_run tx st st'
| run_insert ctx st st' : base_app_run tx (snd (BBMempool_Insert (app_lanes app) (app_mempool app) ctx tx st)) st' ->
    base_app_run tx st st'
| run_remove st st' : base_app_run tx (snd (BBMempool_Remove (app_lanes app) (app_mempool app) tx st)) st' ->
    base_app_run tx st st'
| run_write s st st' : base_app_run tx (set_store s st) st' -> base_app_run tx st st'.

(** One request to the node: a transaction or a proposal, or a part of finalizing a block, which
    runs the ante handler on a transaction, removes it from the mempool and commits.  CheckTx of
    BaseApp checks the transaction of the request. *)
Inductive step : State -> State -> Prop :=
| step_CheckTx base req st :
    (forall tx, Abci.txDecoder (app_proposalHandler app) (req_Tx req) = Ok tx -> admits tx) ->
    (forall tx st, Abci.txDecoder (app_proposalHandler app) (req_Tx req) = Ok tx ->
       base_app_run tx st (snd (BaseApp_CheckTx base req st))) ->
    step st (snd (TestApp_CheckTx base req st))
| step_PrepareProposal ctx MaxTxBytes st :
    step st (snd (PrepareProposalHandler (app_proposalHandler app) ctx MaxTxBytes st))
| step_ProcessProposal ctx txs st :
    step st (snd (ProcessProposalHandler (app_proposalHandler app) ctx txs st))
| step_AnteHandler ctx tx simulate st : step st (snd (app_anteHandler app ctx tx simulate st))
| step_Remove tx st : step st (snd (BBMempool_Remove (app_lanes app) (app_mempool app) tx st))
| step_Commit s st : step st (set_store s st).

(** The states of a node that started with the mempools of [New]. *)
Inductive reachable (mempools : gmap LaneId Mem) : State -> Prop :=
| reachable_new s : reachable mempools {| st_store := s; st_mempools := mempools |}
| reachable_step st st' : reachable mempools st -> step st st' -> reachable mempools st'.
End App.
