(* ===== verification/AnteChain.v ===== *)
(** * The verdict of the application's ante handler

    In the proposals of one height the chain of ante.go gives every validator the same verdict on a
    transaction: the composition of the verdicts of the decorators of the auth module, the fee decorator
    being skipped for free transactions, and of the auction's rules for bids.  A decorator judges by the
    chain state, the transaction and the gas meter; the first one sets the meter, so that the verdict of
    the chain is a function of the state and the transaction. *)
From S2P Require Import Prelude Hash Sdk PriorityNonce LaneMempool Lane LaneFacts Mempool AuctionLane Lanes Abci AbciFacts BuilderTypes Builder BuilderFacts Consensus App.
#[local] Open Scope Z_scope.

(** The contexts in which the proposals of a height are prepared and processed: not those of CheckTx, and
    without the bytes of a transaction, which BaseApp sets only when it checks or delivers one. *)
Definition in_block (height : Z) (ctx : Context) : Prop :=
  ctx_BlockHeight ctx = height /\ ctx_IsCheckTx ctx = false /\ ctx_IsReCheckTx ctx = false /\ ctx_TxBytes ctx = [].

(** The gas meter of a context. *)
Definition meter (ctx : Context) : Z * Z := (ctx_GasLimit ctx, ctx_GasConsumed ctx).

(** On the states of a condition, in the contexts of a block, the ante handler returns, or panics with
    one of some messages only. *)
Definition quiet_but `{sdk : Sdk} {M : Type} (bad : string -> Prop) (block_ctx : Context -> Prop) (ok : Store -> Prop)
    (h : AnteHandler (M := M)) : Prop :=
  forall ctx tx st, block_ctx ctx -> ok (st_store st) ->
  match fst (h ctx tx false st) with Ret _ => True | Panic w => bad w end.
Abbreviation quiet := (quiet_but (fun _ => False)).

Module Auth.
(** The decorators of the auth module, in the order of ante.go. *)
Inductive decorator : Type :=
| SetUpContext | ExtensionOptions | ValidateBasic | TxTimeoutHeight | ValidateMemo | ConsumeGasForTxSize
| DeductFee | SetPubKey | ValidateSigCount | SigGasConsume | SigVerification | IncrementSequence.
End Auth.

Section AnteChain.
Context {sdk : Sdk} {L : SkipListLib} {PC : ParamsCodec}.
#[local] Existing Instance app_lane_mempool.
Abbreviation Mem := (ConstructorMempool (C := string)).
Abbreviation State := (Lane.State (M := Mem)).

Definition auth (lib : AnteLib) (o : HandlerOptions) (a : Auth.decorator) : AnteDecorator (M := Mem) :=
  match a with
  | Auth.SetUpContext => SetUpContextDecorator lib
  | Auth.ExtensionOptions => ExtensionOptionsDecorator lib o
  | Auth.ValidateBasic => ValidateBasicDecorator lib
  | Auth.TxTimeoutHeight => TxTimeoutHeightDecorator lib
  | Auth.ValidateMemo => ValidateMemoDecorator lib o
  | Auth.ConsumeGasForTxSize => ConsumeGasForTxSizeDecorator lib o
  | Auth.DeductFee => DeductFeeDecorator lib o
  | Auth.SetPubKey => SetPubKeyDecorator lib o
  | Auth.ValidateSigCount => ValidateSigCountDecorator lib o
  | Auth.SigGasConsume => SigGasConsumeDecorator lib o
  | Auth.SigVerification => SigVerificationDecorator lib o
  | Auth.IncrementSequence => IncrementSequenceDecorator lib o
  end.

Context (height : Z).

(** What a decorator does with the gas meter and the chain state, if it accepts the transaction, and what
    a handler leaves of the chain state, if it does. *)
Definition effect : Type := Z * Z -> Store -> Tx -> option ((Z * Z) * Store).
Definition verdict : Type := Z * Z -> Store -> Tx -> option Store.

(** ** One decorator *)

(** The answer of the handlers inside; a panic of theirs may be made an error. *)
Definition answers (inner r : outcome (Context * option error) * State) : Prop :=
  r = inner \/ exists w st ctx err, inner = (Panic w, st) /\ in_block height ctx /\ r = (Ret (ctx, Some err), st).

(** In the contexts of the block the decorator accepts a transaction by a function [f] of the gas meter and
    the chain state, and calls the next handler on the meter and the state [f] gives; or it rejects it. *)
Definition decides (d : AnteDecorator (M := Mem)) (f : effect) : Prop :=
  forall ctx tx (st : State) next, in_block height ctx ->
  match f (meter ctx) (st_store st) tx with
  | Some (g, s) => exists ctx', in_block height ctx' /\ meter ctx' = g /\
      answers (next ctx' tx false (set_store s st)) (d ctx tx false next st)
  | None => exists r s, rejected (in_block height) r /\ d ctx tx false next st = (r, set_store s st)
  end.

(** The ante handler judges by a function of the meter, the chain state and the transaction. *)
Definition judges (h : AnteHandler (M := Mem)) (v : verdict) : Prop :=
  forall ctx tx (st : State), in_block height ctx ->
  match v (meter ctx) (st_store st) tx with
  | Some s => exists ctx', in_block height ctx' /\ h ctx tx false st = (Ret (ctx', None), set_store s st)
  | None => exists r s, rejected (in_block height) r /\ h ctx tx false st = (r, set_store s st)
  end.

Definition and_then (f : effect) (v : verdict) : verdict := fun g s tx => '(g', s') ← f g s tx; v g' s' tx.

(** A decorator in front of handlers with a verdict. *)
Lemma decides_judges d f v next : decides d f -> judges next v ->
  judges (fun ctx tx simulate => d ctx tx simulate next) (and_then f v).
Proof.
  intros Hd Hn ctx tx st Hc. specialize (Hd ctx tx st next Hc). unfold and_then.
  destruct (f (meter ctx) (st_store st) tx) as [[g s]|]; cbn [mbind option_bind]; [|exact Hd].
  destruct Hd as (ctx1 & Hc1 & <- & Ha). specialize (Hn ctx1 tx (set_store s st) Hc1). cbn [st_store set_store] in Hn.
  destruct (v (meter ctx1) s tx) as [s2|].
  - destruct Hn as (ctx2 & Hc2 & En). exists ctx2. split; [done|]. destruct Ha as [->|(w & st' & c & err & E & _)]; [|congruence].
    by rewrite En.
  - destruct Hn as (r & s2 & Hr & En). rewrite En in Ha. destruct Ha as [->|(w & st' & c & err & [= -> <-] & Hc' & ->)].
    + by exists r, s2.
    + exists (Ret (c, Some err)), s2. split; [|done]. left. by exists c, err.
Qed.

(** Skipping a decorator for the transactions of a lane. *)
Lemma ignore_decides d f lane (m : Tx -> bool) : decides d f ->
  (forall ctx tx, lane ctx tx = Ret (m tx)) ->
  decides (IgnoreDecorator_AnteHandle (NewIgnoreDecorator d [lane])) (fun g s tx => if m tx then Some (g, s) else f g s tx).
Proof.
  intros Hd Hm ctx tx st next Hc. unfold IgnoreDecorator_AnteHandle. cbn [lanes decorator ignored_by]. st_unfold.
  rewrite Hm. destruct (m tx); [|by apply Hd]. exists ctx. split; [done|]. split; [done|]. left. by rewrite set_store_same.
Qed.

(** The decorator of the builder module, the last one: a bid has not timed out and obeys the rules of the
    auction with no bid to beat.  Outside of CheckTx it never asks a mempool. *)
Definition builder_verdict (bd : BuilderDecorator (M := Mem)) : verdict := fun _ s tx =>
  match bd_GetAuctionBidInfo bd tx with
  | Err _ => None
  | Ok None => Some s
  | Ok (Some bidInfo) =>
      if wrap_i64 (Timeout bidInfo) <? height then None
      else
        match ValidateBidInfo s {| Denom := ""; Amount := None |} bidInfo with
        | Ret None => Some s
        | _ => None
        end
  end.

Lemma builder_judges (bd : BuilderDecorator (M := Mem)) :
  judges (fun ctx tx simulate => AnteHandle bd ctx tx simulate (fun ctx _ _ => mret (ctx, None))) (builder_verdict bd).
Proof.
  intros ctx tx st Hc. pose proof Hc as (Hh & H1 & H2 & _).
  unfold AnteHandle, builder_verdict, top_bid, ValidateTimeout. rewrite H1, H2, Hh. cbn [orb]. st_unfold. cbn [negb].
  assert (Hrej : forall r : outcome (Context * option error),
    (exists err, r = Ret (ctx, Some err)) \/ (exists w, r = Panic w) ->
    exists r' s, rejected (in_block height) r' /\ (r, st) = (r', set_store s st)).
  { intros r Hr. exists r, (st_store st). rewrite set_store_same. split; [|done].
    destruct Hr as [[err ->]|[w ->]]; [left; by exists ctx, err|right; by exists w]. }
  destruct (bd_GetAuctionBidInfo bd tx) as [[bi|]|err]; [|by exists ctx; rewrite set_store_same|apply Hrej; eauto].
  destruct (wrap_i64 (Timeout bi) <? height); [apply Hrej; eauto|].
  destruct (ValidateBidInfo (st_store st) _ bi) as [[err|]|w]; [apply Hrej; eauto| |apply Hrej; eauto].
  exists ctx. by rewrite set_store_same.
Qed.

(** ** The chain *)

(** The decorators of the auth module: [v] are their effects.  SetUpContext gives the transaction a gas
    meter of its own. *)
Record AuthVerdicts (lib : AnteLib) (o : HandlerOptions) (v : Auth.decorator -> effect) : Prop := {
  av_decides a : decides (auth lib o a) (v a);
  av_setup g g' s tx : v Auth.SetUpContext g s tx = v Auth.SetUpContext g' s tx }.

Definition app_effects (v : Auth.decorator -> effect) (free : Tx -> bool) : list effect :=
  [ v Auth.SetUpContext; v Auth.ExtensionOptions; v Auth.ValidateBasic; v Auth.TxTimeoutHeight; v Auth.ValidateMemo; v Auth.ConsumeGasForTxSize;
    (fun g s tx => if free tx then Some (g, s) else v Auth.DeductFee g s tx);
    v Auth.SetPubKey; v Auth.ValidateSigCount; v Auth.SigGasConsume; v Auth.SigVerification; v Auth.IncrementSequence ].

Definition builder_of (options : POBHandlerOptions) : BuilderDecorator (M := Mem) :=
  NewBuilderDecorator (opt_TxEncoder options) (GetAuctionBidInfo (snd (opt_TOBLane options)))
    (fun _ => GetTopAuctionTx (fst (opt_TOBLane options))) (BBMempool_Contains (opt_Mempool options)).

Definition app_verdict (v : Auth.decorator -> effect) (free : Tx -> bool) (options : POBHandlerOptions) : verdict :=
  foldr and_then (builder_verdict (builder_of options)) (app_effects v free).

(** The effect of a transaction on the chain state, if the application accepts it. *)
Definition app_step (v : Auth.decorator -> effect) (free : Tx -> bool) (options : POBHandlerOptions)
    (s : Store) (tx : Tx) : option Store := app_verdict v free options (0, 0) s tx.

Section Chain.
Context (lib : AnteLib) (options : POBHandlerOptions) (v : Auth.decorator -> effect) (free : Tx -> bool).
Hypothesis Hfree : forall ctx tx, opt_FreeLane options ctx tx = Ret (free tx).

Lemma app_chain_judges : AuthVerdicts lib (BaseOptions options) v ->
  judges (foldr (fun d next ctx tx simulate => d ctx tx simulate next) (fun ctx _ _ => mret (ctx, None))
    (app_decorators lib options)) (app_verdict v free options).
Proof.
  intros V. unfold app_verdict, app_decorators, app_effects. cbn [foldr].
  assert (Hone : forall a step next, judges next step ->
    judges (fun ctx tx simulate => auth lib (BaseOptions options) a ctx tx simulate next) (and_then (v a) step)).
  { intros a step next Hn. apply decides_judges; [apply V|done]. }
  apply (Hone Auth.SetUpContext), (Hone Auth.ExtensionOptions), (Hone Auth.ValidateBasic), (Hone Auth.TxTimeoutHeight),
    (Hone Auth.ValidateMemo), (Hone Auth.ConsumeGasForTxSize).
  apply decides_judges; [apply ignore_decides; [apply (av_decides _ _ _ V Auth.DeductFee)|done]|].
  apply (Hone Auth.SetPubKey), (Hone Auth.ValidateSigCount), (Hone Auth.SigGasConsume), (Hone Auth.SigVerification),
    (Hone Auth.IncrementSequence), builder_judges.
Qed.

Lemma app_chain_deterministic : AuthVerdicts lib (BaseOptions options) v ->
  deterministic (in_block height) (app_step v free options)
    (foldr (fun d next ctx tx simulate => d ctx tx simulate next) (fun ctx _ _ => mret (ctx, None))
       (app_decorators lib options)).
Proof.
  intros V ctx tx st Hc. pose proof (app_chain_judges V ctx tx st Hc) as HJ.
  assert (E : app_verdict v free options (meter ctx) (st_store st) tx = app_step v free options (st_store st) tx).
  { unfold app_step, app_verdict, app_effects. cbn [foldr]. unfold and_then at 1 13. by rewrite (av_setup _ _ _ V (meter ctx) (0, 0)). }
  by rewrite E in HJ.
Qed.

(** ** Panics *)

Context {DL : DecLaws sdk} {CL : CoinLaws sdk} {DCL : DecCoinLaws sdk} {BL : BankLaws sdk}.

(** The parameters of the builder are set, with a reserve fee. *)
Definition params_set (s : Store) : Prop := exists p r, GetParams s = Ok p /\ Amount (ReserveFee p) = Some r.

(** The decorators do not panic by themselves but for lack of gas, and SetUpContext turns such a panic into
    an error; they leave the parameters of the builder alone. *)
Record AuthCalm (out_of_gas : string -> Prop) : Prop := {
  ac_setup next : quiet_but out_of_gas (in_block height) params_set next ->
    quiet (in_block height) params_set (fun ctx tx simulate => SetUpContextDecorator lib ctx tx simulate next);
  ac_calm a next : a <> Auth.SetUpContext -> quiet_but out_of_gas (in_block height) params_set next ->
    quiet_but out_of_gas (in_block height) params_set
      (fun ctx tx simulate => auth lib (BaseOptions options) a ctx tx simulate next);
  ac_params a g s tx g' s' : v a g s tx = Some (g', s') -> GetParams s' = GetParams s }.

Lemma ValidateBidInfo_returns s bi : params_set s ->
  exists r, ValidateBidInfo s {| Denom := ""; Amount := None |} bi = Ret r.
Proof.
  intros (p & r & Hp & Hr).
  unfold ValidateBidInfo, GetMaxBundleSize, FrontRunningProtectionEnabled, ValidateAuctionBid, GetReserveFee.
  rewrite Hp. st_unfold. destruct (MaxBundleSize p <? _); [by eexists|]. rewrite !coin_isnil. cbn [Amount].
  rewrite (bool_decide_eq_true_2 (None = None)) by done. cbn [negb].
  destruct (Bid bi) as [den [b|]]; [|by eexists]. cbn [Amount Denom]. rewrite bool_decide_eq_false_2 by done.
  destruct (ReserveFee p) as [rden ra] eqn:Er. cbn in Hr. subst ra. cbn [Denom].
  case_bool_decide as E; cbn [negb]; [subst rden|by eexists]. rewrite bank_balance, !coin_gte.
  destruct (r <=? b); cbn [negb]; [|by eexists]. destruct (b <=? _); cbn [negb]; [|by eexists].
  destruct (FrontRunningProtection p); by eexists.
Qed.

Lemma builder_quiet bad : quiet_but bad (in_block height) params_set
  (fun ctx tx simulate => AnteHandle (builder_of options) ctx tx simulate (fun ctx _ _ => mret (ctx, None))).
Proof.
  intros ctx tx st (_ & H1 & H2 & _) Hok. unfold AnteHandle, top_bid. rewrite H1, H2. cbn [orb]. st_unfold. cbn [negb].
  destruct (bd_GetAuctionBidInfo _ tx) as [[bi|]|]; [|done..].
  destruct (ValidateTimeout ctx _); [done|].
  by destruct (ValidateBidInfo_returns (st_store st) bi Hok) as [[err|] ->].
Qed.

Lemma app_chain_quiet oog : AuthCalm oog -> quiet (in_block height) params_set
  (foldr (fun d next ctx tx simulate => d ctx tx simulate next) (fun ctx _ _ => mret (ctx, None))
     (app_decorators lib options)).
Proof.
  intros K. unfold app_decorators. cbn [foldr]. apply (ac_setup _ K).
  assert (Hone : forall a next, a <> Auth.SetUpContext -> quiet_but oog (in_block height) params_set next ->
    quiet_but oog (in_block height) params_set (fun ctx tx simulate => auth lib (BaseOptions options) a ctx tx simulate next))
    by apply (ac_calm _ K).
  apply (Hone Auth.ExtensionOptions); [done|]. apply (Hone Auth.ValidateBasic); [done|].
  apply (Hone Auth.TxTimeoutHeight); [done|]. apply (Hone Auth.ValidateMemo); [done|].
  apply (Hone Auth.ConsumeGasForTxSize); [done|].
  match goal with |- quiet_but _ _ _ (fun ctx tx simulate => IgnoreDecorator_AnteHandle _ ctx tx simulate ?n) =>
    assert (Hn : quiet_but oog (in_block height) params_set n) end.
  { apply (Hone Auth.SetPubKey); [done|]. apply (Hone Auth.ValidateSigCount); [done|]. apply (Hone Auth.SigGasConsume); [done|].
    apply (Hone Auth.SigVerification); [done|]. apply (Hone Auth.IncrementSequence); [done|]. apply builder_quiet. }
  intros ctx tx st Hc Hok. unfold IgnoreDecorator_AnteHandle. cbn [lanes decorator ignored_by]. st_unfold.
  rewrite Hfree. destruct (free tx); [by apply Hn|]. by apply (Hone Auth.DeductFee _ ltac:(done) Hn).
Qed.

Lemma app_step_params_set oog s tx s' : AuthCalm oog -> app_step v free options s tx = Some s' ->
  params_set s -> params_set s'.
Proof.
  intros K. unfold app_step, app_verdict. assert (Hf : Forall (fun f : effect => forall g s g' s', f g s tx = Some (g', s') -> GetParams s' = GetParams s)
    (app_effects v free)).
  { unfold app_effects. repeat constructor; intros g0 s0 g0' s0'; try apply (ac_params _ K).
    destruct (free tx); [by intros [= _ ->]|apply (ac_params _ K)]. }
  intros H. enough (E : GetParams s' = GetParams s) by (unfold params_set; by rewrite E).
  revert H. generalize (0, 0). revert s. induction Hf as [|f fs Hf _ IH]; cbn [foldr]; intros s g.
  - unfold builder_verdict. destruct (bd_GetAuctionBidInfo _ tx) as [[bi|]|]; [|by intros [= ->]|done].
    destruct (wrap_i64 _ <? height); [done|]. destruct (ValidateBidInfo s _ bi) as [[err|]|]; [done| |done]. by intros [= ->].
  - unfold and_then. destruct (f g s tx) as [[g1 s1]|] eqn:E; cbn; [|done]. intros H. by rewrite (IH s1 g1 H), (Hf g s g1 s1 E).
Qed.
End Chain.

(** ** Acceptance *)

(** A decorator that accepts a transaction does so because the next handler does, called on a context of
    the same height and mode; it writes nothing after it, and before it nothing of the parameters of the
    builder. *)
Definition hands_on (d : AnteDecorator (M := Mem)) : Prop := forall ctx tx next (st : State) ctx' st',
  d ctx tx false next st = (Ret (ctx', None), st') ->
  exists ctx1 st1, ctx_BlockHeight ctx1 = ctx_BlockHeight ctx /\ ctx_IsCheckTx ctx1 = ctx_IsCheckTx ctx /\
    ctx_IsReCheckTx ctx1 = ctx_IsReCheckTx ctx /\ GetParams (st_store st1) = GetParams (st_store st) /\
    next ctx1 tx false st1 = (Ret (ctx', None), st').

Lemma hands_on_fold ds last : Forall hands_on ds -> forall ctx tx (st : State) ctx' st',
  foldr (fun d next ctx tx simulate => d ctx tx simulate next) last ds ctx tx false st = (Ret (ctx', None), st') ->
  exists ctx1 st1, ctx_BlockHeight ctx1 = ctx_BlockHeight ctx /\ ctx_IsCheckTx ctx1 = ctx_IsCheckTx ctx /\
    ctx_IsReCheckTx ctx1 = ctx_IsReCheckTx ctx /\ GetParams (st_store st1) = GetParams (st_store st) /\
    last ctx1 tx false st1 = (Ret (ctx', None), st').
Proof.
  induction 1 as [|d ds Hd _ IH]; cbn [foldr]; intros ctx tx st ctx' st' H; [by exists ctx, st|].
  destruct (Hd _ _ _ _ _ _ H) as (ctx1 & st1 & E1 & E2 & E3 & E4 & H1).
  destruct (IH _ _ _ _ _ H1) as (ctx2 & st2 & F1 & F2 & F3 & F4 & H2).
  exists ctx2, st2. split_and!; congruence.
Qed.

Lemma ignore_hands_on d lane : hands_on d -> hands_on (IgnoreDecorator_AnteHandle (NewIgnoreDecorator d [lane])).
Proof.
  intros Hd ctx tx next st ctx' st'. unfold IgnoreDecorator_AnteHandle. cbn [lanes decorator ignored_by]. st_unfold.
  destruct (lane ctx tx) as [[]|w]; [by exists ctx, st|apply Hd|done].
Qed.

(** What the chain accepts outside of CheckTx, a bid above all, obeys the rules of the auction on the state
    it leaves. *)
Lemma accepted_bid_acceptable lib options ctx tx (st : State) ctx' st' bi :
  (forall a, hands_on (auth lib (BaseOptions options) a)) ->
  ctx_IsCheckTx ctx = false -> ctx_IsReCheckTx ctx = false ->
  foldr (fun d next ctx tx simulate => d ctx tx simulate next) (fun ctx _ _ => mret (ctx, None))
    (app_decorators lib options) ctx tx false st = (Ret (ctx', None), st') ->
  GetAuctionBidInfo (snd (opt_TOBLane options)) tx = Ok (Some bi) ->
  GetParams (st_store st') = GetParams (st_store st) /\
  ValidateBidInfo (st_store st') {| Denom := ""; Amount := None |} bi = Ret None.
Proof.
  intros Ha Hc1 Hc2 H Hbi. unfold app_decorators in H.
  change (foldr (fun d next ctx tx simulate => d ctx tx simulate next) (fun ctx _ _ => mret (ctx, None)) ?ds)
    with (foldr (fun d next ctx tx simulate => d ctx tx simulate next)
      (fun ctx tx simulate => AnteHandle (builder_of options) ctx tx simulate (fun ctx _ _ => mret (ctx, None)))
      (take 12 ds)) in H.
  apply hands_on_fold in H as (ctx1 & st1 & E1 & E2 & E3 & E4 & H).
  - unfold AnteHandle, top_bid in H. rewrite E2, E3, Hc1, Hc2 in H. cbn [orb] in H. revert H. st_unfold. cbn [negb].
    cbn [builder_of bd_GetAuctionBidInfo]. rewrite Hbi. destruct (ValidateTimeout ctx1 _); [done|].
    destruct (ValidateBidInfo (st_store st1) _ bi) as [[err|]|w] eqn:EV; [done| |done]. intros [= _ <-]. split; [done|exact EV].
  - cbn [take]. repeat (apply List.Forall_cons; [first [apply (Ha Auth.SetUpContext) | apply (Ha Auth.ExtensionOptions)
      | apply (Ha Auth.ValidateBasic) | apply (Ha Auth.TxTimeoutHeight) | apply (Ha Auth.ValidateMemo)
      | apply (Ha Auth.ConsumeGasForTxSize) | apply ignore_hands_on, (Ha Auth.DeductFee) | apply (Ha Auth.SetPubKey)
      | apply (Ha Auth.ValidateSigCount) | apply (Ha Auth.SigGasConsume) | apply (Ha Auth.SigVerification)
      | apply (Ha Auth.IncrementSequence)]|]). constructor.
Qed.
End AnteChain.
