(* ===== verification/AppFacts.v ===== *)
(** * What the application keeps in its lanes

    Whatever requests reach a node, the mempools of its lanes hold the transactions of those
    lanes only, and the bids in the auction lane have bundles without bids; this makes the
    proposals the node prepares acceptable to the other nodes. *)
From S2P Require Import Prelude Hash Sdk Concrete SkipListFacts PriorityNonce PriorityNonceFacts PriorityNonceProps Proposals LaneMempool Stored LaneOrder Lane Mempool MempoolFacts AuctionLane AuctionFacts Lanes Abci AbciFacts BuilderTypes Wire BuilderWire Builder BuilderFacts Effects Consensus App AnteChain.

Section Facts.
Context {sdk : Sdk} {L : SkipListLib} {SL : SkipListLaws L} {PC : ParamsCodec}.
#[local] Existing Instance app_lane_mempool.
Abbreviation Mem := (ConstructorMempool (C := string)).
Abbreviation State := (Lane.State (M := Mem)).
Abbreviation Lanes := (gmap LaneId (LaneConstructor (M := Mem))).

(** ** The laws of the SDK's ante handlers *)

(** A decorator of the SDK does to the mempools what the next handler does; [ChainAnteDecorators]
    runs the decorators one inside the other. *)
Definition passes_on (d : AnteDecorator (M := Mem)) : Prop := forall (R : State -> State -> Prop), PreOrder R ->
  (forall st st', st_mempools st = st_mempools st' -> R st st') ->
  forall next, (forall ctx tx simulate st, R st (snd (next ctx tx simulate st))) ->
  forall ctx tx simulate st, R st (snd (d ctx tx simulate next st)).

Record AnteLaws (lib : AnteLib) : Prop := {
  al_setup : passes_on (SetUpContextDecorator lib);
  al_extension o : passes_on (ExtensionOptionsDecorator lib o);
  al_validate : passes_on (ValidateBasicDecorator lib);
  al_timeout : passes_on (TxTimeoutHeightDecorator lib);
  al_memo o : passes_on (ValidateMemoDecorator lib o);
  al_size o : passes_on (ConsumeGasForTxSizeDecorator lib o);
  al_fee o : passes_on (DeductFeeDecorator lib o);
  al_pubkey o : passes_on (SetPubKeyDecorator lib o);
  al_sigcount o : passes_on (ValidateSigCountDecorator lib o);
  al_siggas o : passes_on (SigGasConsumeDecorator lib o);
  al_sigs o : passes_on (SigVerificationDecorator lib o);
  al_sequence o : passes_on (IncrementSequenceDecorator lib o);
  al_chain ds ctx tx simulate st : ds <> [] -> ChainAnteDecorators lib ds ctx tx simulate st
    = foldr (fun d next ctx tx simulate => d ctx tx simulate next) (fun ctx _ _ => mret (ctx, None)) ds
        ctx tx simulate st }.

(** ** The lane of a transaction *)

Context (deps : TestAppDeps).

Definition is_bid (tx : Tx) : bool :=
  match GetAuctionBidInfo (app_factory deps) tx with Ok (Some _) => true | _ => false end.
(** The match handlers of the application do not read the context. *)
Definition no_context : Context :=
  {| ctx_BlockHeight := 0; ctx_IsCheckTx := false; ctx_IsReCheckTx := false; ctx_Priority := 0;
     ctx_TxBytes := []; ctx_GasLimit := 0; ctx_GasConsumed := 0 |}.
Definition is_free (tx : Tx) : bool := FreeMatchHandler no_context tx.
Definition lane_for (tx : Tx) : LaneId :=
  if is_bid tx then tob_id else if is_free tx then free_id else default_id.

(** No transaction of the bundle of the bid is a bid. *)
Definition plain_bundle (tx : Tx) : Prop := forall bi raw bundled,
  GetAuctionBidInfo (app_factory deps) tx = Ok (Some bi) -> In raw (Transactions bi) ->
  WrapBundleTransaction (app_factory deps) raw = Ok bundled -> is_bid bundled = false.

(** The transaction has no bid, alone or among other messages. *)
Definition no_bid (tx : Tx) : Prop := GetAuctionBidInfo (app_factory deps) tx = Ok None.

Definition belongs (l : LaneId) (tx : Tx) : Prop :=
  lane_for tx = l /\ (l = tob_id -> plain_bundle tx) /\ (l <> tob_id -> no_bid tx).

Lemma no_bid_is_bid tx : no_bid tx -> is_bid tx = false.
Proof. unfold no_bid, is_bid. by intros ->. Qed.

(** ** The application [New] makes *)

Definition app_lane (name : string) (ignore : list LaneId) (ante : option (AnteHandler (M := Mem)))
    (h : Lane.MatchHandler) (p : PrepareLaneHandler) (o : CheckOrderHandler) (q : ProcessLaneHandler)
    : LaneConstructor (M := Mem) :=
  SetAnteHandler ante (SetIgnoreList ignore
    {| cfg := app_config deps; laneName := name; hasMempool := true; matchHandler := Some h;
       prepareLaneHandler := Some p; checkOrderHandler := Some o; processLaneHandler := Some q |}).

Definition tob_lane ante := let f := app_factory deps in
  app_lane "top-of-block" [] ante (AuctionLane.MatchHandler f) (TOB_PrepareLaneHandler f)
    (TOB_CheckOrderHandler f) (TOB_ProcessLaneHandler f).
Definition default_lane name ignore h ante :=
  app_lane name ignore ante h DefaultPrepareLaneHandler DefaultCheckOrderHandler DefaultProcessLaneHandler.
Definition free_lane := default_lane "free" [tob_id] FreeMatchHandler.
Definition rest_lane := default_lane "default" [tob_id; free_id] DefaultMatchHandler.

Definition lanes_with (ante : option (AnteHandler (M := Mem))) : Lanes :=
  <[tob_id := tob_lane ante]> (<[free_id := free_lane ante]> {[default_id := rest_lane ante]}).

Definition the_registry : BBMempool := {| registry := [tob_id; free_id; default_id] |}.
Definition the_options : POBHandlerOptions :=
  {| BaseOptions := deps_Options deps; opt_Mempool := the_registry;
     opt_TOBLane := (tob_id, app_factory deps); opt_TxEncoder := deps_TxEncoder deps;
     opt_FreeLane := Match (match_fuel (lanes_with None)) (lanes_with None) free_id |}.
Definition the_ante : AnteHandler (M := Mem) :=
  ChainAnteDecorators (deps_Ante deps) (app_decorators (deps_Ante deps) the_options).
Definition the_lanes : Lanes := lanes_with (Some the_ante).
Definition the_chain : list (LaneId * LaneConstructor (M := Mem)) :=
  [(tob_id, tob_lane (Some the_ante)); (free_id, free_lane (Some the_ante)); (default_id, rest_lane (Some the_ante))].
Definition the_proposals : ProposalHandler (M := Mem) :=
  NewProposalHandler (deps_TxDecoder deps) (map (fun x => ALane (lane_of the_lanes x.1 x.2)) the_chain).
Definition the_app : TestApp :=
  {| app_lanes := the_lanes; app_mempool := the_registry; app_anteHandler := the_ante;
     app_proposalHandler := the_proposals;
     app_checkTxHandler := fun baseApp =>
       {| baseApp := baseApp; AuctionLane.txDecoder := deps_TxDecoder deps; tobLane := tob_id;
          tobFactory := app_factory deps; anteHandler := the_ante |} |}.

Definition the_priority (l : LaneId) : TxPriority (C := string) :=
  match l with O => AuctionTxPriority (app_factory deps) | _ => DefaultTxPriority end.
Definition new_mempool (l : LaneId) : Mem :=
  NewConstructorMempool (the_priority l) (deps_TxEncoder deps) 0.
Definition the_mempools : gmap LaneId Mem :=
  <[tob_id := new_mempool tob_id]> (<[free_id := new_mempool free_id]> {[default_id := new_mempool default_id]}).

(** What [New] returns is this application. *)
Lemma New_inv r : New deps = Ret r -> r = (the_app, the_mempools).
Proof.
  unfold New, NewTOBLane, NewFreeLane, NewDefaultLane, new_lane, NewLaneConstructor, ValidateBasic.
  cbn [cfg laneName hasMempool matchHandler negb is_nil]. st_unfold.
  destruct (LaneConfig_ValidateBasic (app_config deps)); [done|].
  cbn [is_nil prepareLaneHandler processLaneHandler checkOrderHandler set_handlers or_default SetPrepareLaneHandler SetProcessLaneHandler SetCheckOrderHandler
    cfg_TxEncoder app_config call].
  change (bool_decide ("top-of-block" = "")) with false. change (bool_decide ("free" = "")) with false.
  change (bool_decide ("default" = "")) with false. cbv iota beta. cbn [set_handlers checkOrderHandler].
  unfold NewMempool. st_unfold. match goal with |- context [BBMempool_ValidateBasic ?a ?b] => destruct (BBMempool_ValidateBasic a b) as [[err|]|w] end; [done| |done].
  unfold NewPOBAnteHandler. cbn [BaseOptions].
  destruct (is_nil (AccountKeeper _)); [done|]. destruct (is_nil (BankKeeper _)); [done|].
  destruct (is_nil (SignModeHandler _)); [done|]. intros [= <-]. reflexivity.
Qed.

(** [New] returns whenever the keepers are set. *)
Lemma New_returns {DL : DecLaws sdk} : AccountKeeper (deps_Options deps) = Some tt ->
  BankKeeper (deps_Options deps) = Some tt -> SignModeHandler (deps_Options deps) = Some tt ->
  New deps = Ret (the_app, the_mempools).
Proof.
  intros H1 H2 H3. destruct (New deps) as [r|w] eqn:E; [by rewrite (New_inv r E)|]. exfalso. revert E.
  assert (Hv : LaneConfig_ValidateBasic (app_config deps) = None).
  { unfold LaneConfig_ValidateBasic. cbn. rewrite dec_isnil, dec_zero, (dec_isneg _ 0) by apply dec_zero.
    by rewrite (dec_gt _ _ 0 dec_one) by first [apply dec_zero|apply dec_one_val]. }
  assert (Hs : forall lanes, (forall l, In l [tob_id; free_id; default_id] ->
      exists lane, lanes !! l = Some lane /\ GetMaxBlockSpace lane = LegacyZeroDec) ->
      BBMempool_ValidateBasic (M := Mem) lanes the_registry = Ret None).
  { intros lanes Hl. destruct (Hl tob_id) as (a & Ha & Za); [by left|].
    destruct (Hl free_id) as (b & Hb & Zb); [by right; left|].
    destruct (Hl default_id) as (c & Hc & Zc); [by right; right; left|].
    unfold BBMempool_ValidateBasic. cbn [the_registry registry sum_block_space]. st_unfold.
    rewrite Ha, Hb, Hc, Za, Zb, Zc, (dec_iszero _ 0) by apply dec_zero. cbn [Z.eqb].
    assert (D1 : dec_val (Dec_Add LegacyZeroDec LegacyZeroDec) = Some (0 + 0)) by (apply dec_add; [apply dec_zero..|lia]).
    assert (D2 : dec_val (Dec_Add (Dec_Add LegacyZeroDec LegacyZeroDec) LegacyZeroDec) = Some (0 + 0 + 0))
      by (apply dec_add; [done|apply dec_zero|lia]).
    assert (D3 : dec_val (Dec_Add (Dec_Add (Dec_Add LegacyZeroDec LegacyZeroDec) LegacyZeroDec) LegacyZeroDec)
      = Some (0 + 0 + 0 + 0)) by (apply dec_add; [done|apply dec_zero|lia]).
    rewrite (dec_gt _ _ _ dec_one D3) by apply dec_one_val. cbn [negb]. by rewrite andb_false_r. }
  unfold New, NewTOBLane, NewFreeLane, NewDefaultLane, new_lane, NewLaneConstructor, ValidateBasic.
  cbn [cfg laneName hasMempool matchHandler negb is_nil]. st_unfold. rewrite Hv.
  cbn [is_nil prepareLaneHandler processLaneHandler checkOrderHandler set_handlers or_default SetPrepareLaneHandler SetProcessLaneHandler SetCheckOrderHandler
    cfg_TxEncoder app_config call].
  change (bool_decide ("top-of-block" = "")) with false. change (bool_decide ("free" = "")) with false.
  change (bool_decide ("default" = "")) with false. cbv iota beta. cbn [set_handlers checkOrderHandler].
  unfold NewMempool. st_unfold. fold the_registry. rewrite Hs.
  - unfold NewPOBAnteHandler. cbn [BaseOptions]. by rewrite H1, H2, H3.
  - intros l [<-|[<-|[<-|[]]]]; eexists; split; reflexivity.
Qed.

(** The lanes match the transactions that belong to them. *)
Lemma lanes_match ante l ctx tx : l = tob_id \/ l = free_id \/ l = default_id ->
  Match (match_fuel (lanes_with ante)) (lanes_with ante) l ctx tx = Ret (bool_decide (lane_for tx = l)).
Proof.
  change (match_fuel (lanes_with ante)) with 4%nat. unfold lane_for.
  assert (Hl : lanes_with ante !! tob_id = Some (tob_lane ante) /\
    lanes_with ante !! free_id = Some (free_lane ante) /\
    lanes_with ante !! default_id = Some (rest_lane ante)) by (split; [|split]; reflexivity).
  destruct Hl as (H0 & H1 & H2).
  assert (M0 : forall n, Match (S n) (lanes_with ante) tob_id ctx tx = Ret (is_bid tx)).
  { intros n. cbn [Match]. rewrite H0. cbn. change (DefaultFactoryMatch (deps_TxDecoder deps) ctx tx) with (is_bid tx). by destruct (is_bid tx). }
  assert (M1 : forall n, Match (S (S n)) (lanes_with ante) free_id ctx tx = Ret (negb (is_bid tx) && is_free tx)).
  { intros n. remember (S n) as k eqn:Ek. cbn [Match]. rewrite H1. cbn. change (FreeMatchHandler ctx tx) with (is_free tx). subst k. rewrite M0. st_unfold.
    by destruct (is_bid tx), (is_free tx). }
  intros [->|[->| ->]].
  - rewrite M0. by destruct (is_bid tx), (is_free tx).
  - rewrite M1. by destruct (is_bid tx), (is_free tx).
  - remember 3%nat as k eqn:Ek. cbn [Match]. rewrite H2. cbn. subst k. rewrite M0, M1. st_unfold.
    by destruct (is_bid tx), (is_free tx).
Qed.

(** ** What each part does to the mempool of a lane *)

Section Lane.
Context (l : LaneId) (Hl : l = tob_id \/ l = free_id \/ l = default_id) (Hante : AnteLaws (deps_Ante deps)).
Context (admits : Tx -> Prop) {LL : LaneMempoolLaws Mem}.
Hypothesis Hgood : forall tx, belongs l tx -> admits tx -> lm_good tx.

Lemma passes_on_adds P d next : passes_on d -> ante_adds l P next ->
  ante_adds l P (fun ctx tx simulate => d ctx tx simulate next).
Proof.
  intros Hd Hn ctx tx simulate st. apply (Hd (grows l P)); [apply _| |exact Hn].
  intros st1 st2 E. unfold grows. rewrite E. destruct (st_mempools st2 !! l); [|done].
  intros Hok. split; [done|]. by left.
Qed.

Lemma adds_top_bid P bd ctx tx : (forall ctx, Adds l P (bd_GetTopAuctionTx bd ctx)) -> Adds l P (top_bid bd ctx tx).
Proof. intros Ht. unfold top_bid. adds. Qed.

Lemma builder_decorator_adds P bd next : (forall ctx, Adds l P (bd_GetTopAuctionTx bd ctx)) ->
  (forall tx, Adds l P (bd_Contains bd tx)) -> ante_adds l P next ->
  ante_adds l P (fun ctx tx simulate => AnteHandle bd ctx tx simulate next).
Proof.
  intros Ht Hc Hn ctx tx simulate. unfold ante_adds in Hn. pose proof (adds_top_bid P bd ctx tx Ht) as Hb.
  unfold AnteHandle. adds.
Qed.

Lemma adds_contains P m tx : Adds l P (BBMempool_Contains m tx).
Proof.
  unfold BBMempool_Contains. apply adds_recover; [|adds].
  induction (registry m) as [|k reg IH]; cbn [contains_loop]; adds.
Qed.

Lemma the_ante_adds P : ante_adds l P the_ante.
Proof.
  intros ctx tx simulate st. unfold the_ante. rewrite (al_chain _ Hante) by done. revert ctx tx simulate st.
  change (ante_adds l P (foldr (fun d next ctx tx simulate => d ctx tx simulate next)
    (fun ctx _ _ => mret (ctx, None)) (app_decorators (deps_Ante deps) the_options))).
  unfold app_decorators. cbn [foldr].
  repeat (apply passes_on_adds; [by apply Hante|]).
  intros ctx tx simulate. unfold IgnoreDecorator_AnteHandle.
  assert (Hr : ante_adds l P (foldr (fun d next ctx tx simulate => d ctx tx simulate next)
    (fun ctx _ _ => mret (ctx, None)) (drop 7 (app_decorators (deps_Ante deps) the_options)))).
  { unfold app_decorators. cbn [foldr drop]. repeat (apply passes_on_adds; [by apply Hante|]).
    apply builder_decorator_adds; [|intros; apply adds_contains|intros ???; adds].
    intros ctx0. cbn. unfold GetTopAuctionTx. adds. }
  adds; [apply Hr|]. apply passes_on_adds; [apply Hante|exact Hr].
Qed.

Abbreviation P := (fun tx => belongs l tx /\ admits tx).

Lemma P_good tx : P tx -> lm_good tx.
Proof. intros [Hb Ha]. by apply Hgood. Qed.

Lemma insert_belongs ctx tx : admits tx -> no_bid tx -> Match (match_fuel the_lanes) the_lanes l ctx tx = Ret true -> P tx.
Proof.
  intros Ha Hb. unfold the_lanes. rewrite lanes_match by done. intros [= Hm%bool_decide_eq_true]. split; [|done].
  split; [done|]. split; [|done].
  intros ->. unfold lane_for in Hm. rewrite (no_bid_is_bid tx Hb) in Hm. by destruct (is_free tx).
Qed.

Lemma base_app_run_grows tx st st' : admits tx -> no_bid tx -> base_app_run the_app tx st st' -> grows l P st st'.
Proof.
  intros Ha Hb. induction 1; [done|etransitivity; [|eassumption]..].
  - apply the_ante_adds.
  - apply adds_BBMempool_Insert; [apply P_good|]. intros Hm. by eapply insert_belongs.
  - apply adds_BBMempool_Remove.
  - apply (adds_write l P).
Qed.

Abbreviation handler base := (app_checkTxHandler the_app base).

Lemma adds_validate_bundle base bundle : forall ctx, Adds l P (validate_bundle (handler base) ctx bundle).
Proof.
  pose proof (the_ante_adds P) as Ha. unfold ante_adds in Ha.
  induction bundle as [|raw bundle IH]; intros ctx; cbn [validate_bundle]; [adds|].
  destruct (WrapBundleTransaction _ raw) as [tx|]; [|adds].
  assert (Hv : Adds l P ('(ctx, err) ← anteHandler (handler base) ctx tx false;
    match err with
    | Some err => mret (Some (Wrap "invalid bid tx; failed to execute bundled transaction" err))
    | None => validate_bundle (handler base) ctx bundle
    end)) by (apply adds_bind; [apply Ha|intros [c err]; destruct err; adds]).
  destruct (GetAuctionBidInfo _ tx) as [[bi|]|]; [adds|exact Hv..].
Qed.

(** A bid that CheckTx inserts into the auction lane has passed the check of its bundle. *)
Lemma adds_check_bid_tx base req tx bi : admits tx -> GetAuctionBidInfo (app_factory deps) tx = Ok (Some bi) ->
  Adds l P (check_bid_tx (handler base) req tx bi).
Proof.
  intros Hadm Hbi. pose proof (the_ante_adds P) as Ha. unfold ante_adds in Ha.
  unfold check_bid_tx. apply adds_bind; [adds|intros ctx]. apply adds_on_committed.
  apply adds_bind_returns.
  { unfold ValidateBidTx. apply adds_bind; [apply Ha|intros [c err]; destruct err; [adds|]].
    apply adds_bind; [apply adds_validate_bundle|intros; adds]. }
  intros [gas [err|]] (st & st' & HV); [adds|].
  apply adds_bind; [|intros; adds]. apply adds_insert; [apply P_good|]. intros <-. split; [|done].
  assert (Hb : is_bid tx = true) by (unfold is_bid; by rewrite Hbi).
  split; [unfold lane_for; by rewrite Hb|]. split; [|done]. intros _ bi' raw bundled Hbi' Hin Hu.
  assert (bi' = bi) as -> by congruence.
  unfold ValidateBidTx in HV. revert HV. st_unfold.
  destruct (anteHandler (handler base) ctx tx false st) as [[[c [err|]]|w] st1]; try done.
  destruct (validate_bundle (handler base) c (Transactions bi) st1) as [[r|w] st2] eqn:EV; try done.
  intros [= _ -> _]. apply validate_bundle_no_bids in EV. rewrite List.Forall_forall in EV.
  destruct (EV raw Hin) as (b & Hw & Hno). unfold is_bid.
  change (tobFactory (handler base)) with (app_factory deps) in Hw, Hno.
  assert (b = bundled) as -> by congruence.
  destruct (GetAuctionBidInfo (app_factory deps) bundled) as [[bi'|]|]; [by destruct (Hno bi')|done..].
Qed.

Lemma step_grows st st' : step the_app admits st st' -> grows l P st st'.
Proof.
  assert (Hls : Forall (lane_adds l P the_lanes) the_chain).
  { pose proof (the_ante_adds P) as Ha. constructor; [|constructor; [|constructor; [|constructor]]].
    - by eapply auction_lane_adds.
    - by apply default_lane_adds.
    - by apply default_lane_adds. }
  intros [base req st0 Hadm Hbase|ctx MaxTxBytes st0|ctx txs st0|ctx tx simulate st0|tx st0|s st0].
  - unfold TestApp_CheckTx, CheckTx. apply adds_recover; [|intros; adds]. change (AuctionLane.txDecoder (handler base)) with (deps_TxDecoder deps).
    destruct (deps_TxDecoder deps (req_Tx req)) as [tx|err] eqn:Ed; [|adds].
    change (tobFactory (handler base)) with (app_factory deps).
    destruct (GetAuctionBidInfo (app_factory deps) tx) as [[bi|]|err] eqn:Ei; [apply adds_check_bid_tx; [by apply Hadm|done]| |adds].
    intros st1. by eapply base_app_run_grows; [apply Hadm| |apply Hbase].
  - by apply adds_PrepareProposalHandler.
  - by apply adds_ProcessProposalHandler.
  - apply the_ante_adds.
  - apply adds_BBMempool_Remove.
  - apply adds_write.
Qed.

(** An invariant of the mempool of the lane that holds of an empty one. *)
Lemma reachable_laws st : lm_ok (new_mempool l) -> (forall tx, ~ lm_holds (new_mempool l) tx) ->
  reachable the_app admits the_mempools st ->
  exists mp, st_mempools st !! l = Some mp /\ lm_ok mp /\ forall tx, lm_holds mp tx -> P tx.
Proof.
  intros H0 Hnone. induction 1 as [s|st st' _ (mp & Hmp & Hp & Hb) Hs].
  - exists (new_mempool l). split; [by destruct Hl as [->|[->| ->]]|]. split; [done|].
    intros tx Ht. by apply Hnone in Ht.
  - pose proof (step_grows st st' Hs) as Hg. unfold grows in Hg. rewrite Hmp in Hg.
    destruct (st_mempools st' !! l) as [mp'|] eqn:E; [|done]. destruct (Hg Hp) as [Hp' Hh].
    exists mp'. split; [done|]. split; [exact Hp'|]. intros tx Ht. destruct (Hh tx Ht); auto.
Qed.
End Lane.

(** ** The invariant *)

Definition app_lane_id (l : LaneId) : Prop := l = tob_id \/ l = free_id \/ l = default_id.

Definition keeps (admits : Tx -> Prop) (l : LaneId) (st : State) : Prop :=
  exists mp, st_mempools st !! l = Some mp /\
  txPriority mp = the_priority l /\ forall tx, holds mp tx -> belongs l tx /\ admits tx.

Lemma reachable_keeps admits l st : app_lane_id l -> AnteLaws (deps_Ante deps) ->
  reachable the_app admits the_mempools st -> keeps admits l st.
Proof.
  intros Hl Ha Hr.
  apply (reachable_laws l Hl Ha admits (LL := constructor_lane_mempool_laws "" (the_priority l)));
    [done|done|apply NewConstructorMempool_stored|done].
Qed.

(** *** Comparable priorities *)

(** The priority the mempool of a lane gives a transaction of that lane. *)
Definition fee_string (tx : Tx) : string := match GetFee tx with None => "" | Some fee => Coins_String fee end.
Definition bid_string (tx : Tx) : string :=
  match GetAuctionBidInfo (app_factory deps) tx with Ok (Some bi) => Coin_String (Bid bi) | _ => "" end.
Definition lane_priority (l : LaneId) (tx : Tx) : string :=
  match l with O => bid_string tx | _ => fee_string tx end.

(** The bids, and the fees in each of the other lanes, are in one denomination; and a transaction
    that replaces another one, with its sender and nonce, keeps its fee or bid. *)
Record comparable_txs (denom : LaneId -> string) (admits : Tx -> Prop) : Prop := {
  ct_coins tx : admits tx -> coin_priority (denom (lane_for tx)) (lane_priority (lane_for tx) tx);
  ct_key t t' : admits t -> admits t' -> lane_for t = lane_for t' -> key_of t = key_of t' ->
    lane_priority (lane_for t) t = lane_priority (lane_for t) t' }.

Lemma lane_comparable {CSL : CoinsLaws sdk} denom admits l : comparable_txs denom admits -> app_lane_id l ->
  comparable "" (coin_priority (denom l)) (the_priority l) (lane_priority l) (fun tx => belongs l tx /\ admits tx).
Proof.
  intros [Hc Hk] Hl. split.
  - apply coin_priority_order; by destruct Hl as [->|[->| ->]].
  - by left.
  - intros ctx tx [[Hb _] _]. destruct Hl as [->|[->| ->]].
    + cbn [the_priority tob_id lane_priority AuctionTxPriority GetTxPriority].
      unfold bid_string. unfold lane_for, is_bid in Hb.
      destruct (GetAuctionBidInfo (app_factory deps) tx) as [[bi|]|]; [done|by destruct (is_free tx)..].
    + cbn. unfold fee_string. by destruct (GetFee tx).
    + cbn. unfold fee_string. by destruct (GetFee tx).
  - intros tx [[<- _] Ha]. by apply Hc.
  - intros t t' [[<- _] Ha] [[E _] Ha']. by apply Hk.
Qed.

Lemma reachable_ordered {CSL : CoinsLaws sdk} denom admits l st : comparable_txs denom admits ->
  app_lane_id l -> AnteLaws (deps_Ante deps) -> reachable the_app admits the_mempools st ->
  exists mp, st_mempools st !! l = Some mp /\
    ordered (coin_priority (denom l)) (the_priority l) (lane_priority l)
      (fun tx => belongs l tx /\ admits tx) mp.
Proof.
  intros Hc Hl Ha Hr. pose proof (lane_comparable denom admits l Hc Hl) as CP.
  destruct (reachable_laws l Hl Ha admits (LL := ordered_lane_mempool_laws "" _ _ _ _ CP) (fun tx H1 H2 => conj H1 H2) st)
    as (mp & Hmp & Ho & _); [by apply (ordered_New "")|apply NewConstructorMempool_stored|done|].
  by exists mp.
Qed.

(** ** Proposals *)

(** The order of the free and the default lane: by the fees of the transactions. *)
Definition fee_order (a b : Tx) : Z := compare_coins (fee_string a) (fee_string b).

Section Proposals.
Context (block_ctx : Context -> Prop) (step : Store -> Tx -> option Store).
Hypothesis Hcodec : forall tx bz, deps_TxEncoder deps tx = Ok bz <-> deps_TxDecoder deps bz = Ok tx.
Hypothesis Hdet : deterministic block_ctx step the_ante.
Abbreviation dec := (deps_TxDecoder deps).

Definition free_matches (tx : Tx) : bool := negb (is_bid tx) && is_free tx.
Definition rest_matches (tx : Tx) : bool := negb (is_bid tx) && negb (is_free tx).

(** The lanes of the application as a chain of an auction lane and two lanes with the default handlers. *)
Definition the_standard : list (standard_lane (M := Mem)) :=
  [ MkStandard (tob_id, tob_lane (Some the_ante)) is_bid (AuctionHandlers (app_factory deps));
    MkStandard (free_id, free_lane (Some the_ante)) free_matches DefaultHandlers;
    MkStandard (default_id, rest_lane (Some the_ante)) rest_matches DefaultHandlers ].
Definition the_cmp (l : LaneId) : Tx -> Tx -> Z := fee_order.

Lemma the_standard_lanes : Forall (standard the_lanes (deps_TxEncoder deps)) the_standard.
Proof.
  assert (Hm : forall l ctx tx, l = tob_id \/ l = free_id \/ l = default_id ->
    Match (match_fuel the_lanes) the_lanes l ctx tx = Ret (bool_decide (lane_for tx = l))).
  { intros l ctx tx Hl. unfold the_lanes. by rewrite lanes_match. }
  constructor; [|constructor; [|constructor; [|constructor]]]; split; try done; cbn [sl_lane sl_matches sl_handlers fst].
  - intros ctx tx. rewrite Hm by auto. unfold lane_for. by destruct (is_bid tx), (is_free tx).
  - split; [|intros raw tx; symmetry; apply Hcodec]. intros tx. unfold is_bid.
    destruct (GetAuctionBidInfo _ tx) as [[bi|]|]; split; try done; eauto; by intros [? ?].
  - intros ctx tx. rewrite Hm by auto. unfold lane_for, free_matches. by destruct (is_bid tx), (is_free tx).
  - intros ctx tx. rewrite Hm by auto. unfold lane_for, rest_matches. by destruct (is_bid tx), (is_free tx).
Qed.

Lemma the_standard_apart : keeps_apart the_standard.
Proof.
  repeat constructor; intros seg Hm; (eapply List.Forall_impl; [|exact Hm]); cbn; intros tx;
    unfold free_matches, rest_matches; by destruct (is_bid tx), (is_free tx).
Qed.

Lemma the_standard_deterministic : Forall (ante_deterministic block_ctx step) the_standard.
Proof. repeat constructor; exact Hdet. Qed.

Lemma the_compares (mp : Mem) : txPriority mp = DefaultTxPriority -> compares block_ctx fee_order mp.
Proof.
  intros Hp ctx a b _. cbn. unfold LaneMempool.Compare. rewrite Hp. unfold fee_order, fee_string. cbn.
  by destruct (GetFee a), (GetFee b).
Qed.

(** No sender has two transactions in the mempool. *)
Definition one_tx_per_sender (mp : Mem) : Prop := one_tx_each (LaneMempool.view mp).

Lemma reachable_by_priority {CSL : CoinsLaws sdk} denom admits l st : comparable_txs denom admits ->
  l = free_id \/ l = default_id -> AnteLaws (deps_Ante deps) -> reachable the_app admits the_mempools st ->
  (forall mp, st_mempools st !! l = Some mp -> one_tx_per_sender mp) ->
  exists mp, st_mempools st !! l = Some mp /\ by_priority fee_order mp.
Proof.
  intros Hc Hl Ha Hr H1. assert (Hl' : app_lane_id l) by by right.
  destruct (reachable_ordered denom admits l st Hc Hl' Ha Hr) as (mp & Hmp & Ho).
  exists mp. split; [done|]. intros it mp' HS.
  destruct (ordered_iterates "" _ _ _ _ mp Ho (H1 mp Hmp)) as (it' & mp2 & HS' & _ & Hs).
  cbn in HS. rewrite HS' in HS. injection HS as <- <-.
  eapply (StronglySorted_weaken (fun _ => True)); [|by apply list.Forall_true|exact Hs].
  intros a b _ _. unfold LaneFacts.in_order, fee_order. destruct Hl as [->| ->]; cbn; lia.
Qed.

Lemma reachable_ready {CSL : CoinsLaws sdk} denom admits st : comparable_txs denom admits ->
  AnteLaws (deps_Ante deps) -> reachable the_app admits the_mempools st ->
  (forall l mp, l = free_id \/ l = default_id -> st_mempools st !! l = Some mp -> one_tx_per_sender mp) ->
  mempools_ok (ready the_cmp) the_standard st.
Proof.
  intros Hc Ha Hr Hp.
  destruct (reachable_keeps admits tob_id st (or_introl eq_refl) Ha Hr) as (mp0 & H0 & Hp0 & Hb0).
  destruct (reachable_by_priority denom admits free_id st Hc ltac:(auto) Ha Hr) as (mp1 & H1 & B1); [eauto|].
  destruct (reachable_by_priority denom admits default_id st Hc ltac:(auto) Ha Hr) as (mp2 & H2 & B2); [eauto|].
  constructor; [|constructor; [|constructor; [|constructor]]].
  - exists mp0. split; [exact H0|]. intros it mp' bid bi raw tx HS Hin Hbi Hraw Hu.
    destruct (lane_Select_stored "" _ mp0 Hp0) as (_ & _ & Hit).
    assert (Hh : holds mp0 bid).
    { specialize (Hit it). rewrite List.Forall_forall in Hit. apply Hit; [|done]. cbn in HS. by rewrite HS. }
    destruct (Hb0 bid Hh) as [(_ & Hpl & _) _]. by eapply (Hpl eq_refl).
  - by exists mp1.
  - by exists mp2.
Qed.

Lemma reachable_checks admits st : AnteLaws (deps_Ante deps) -> reachable the_app admits the_mempools st ->
  mempools_ok (checks block_ctx the_cmp) the_standard st.
Proof.
  intros Ha Hr.
  destruct (reachable_keeps admits tob_id st (or_introl eq_refl) Ha Hr) as (mp0 & H0 & _).
  destruct (reachable_keeps admits free_id st ltac:(unfold app_lane_id; auto) Ha Hr) as (mp1 & H1 & Hp1 & _).
  destruct (reachable_keeps admits default_id st ltac:(unfold app_lane_id; auto) Ha Hr) as (mp2 & H2 & Hp2 & _).
  constructor; [by exists mp0|constructor; [|constructor; [|constructor]]].
  - exists mp1. split; [exact H1|]. by apply the_compares.
  - exists mp2. split; [exact H2|]. by apply the_compares.
Qed.
End Proposals.
End Facts.

(** ** The properties *)

Section Properties.
Context {sdk : Sdk} {L : SkipListLib} {SL : SkipListLaws L} {PC : ParamsCodec}.
#[local] Existing Instance app_lane_mempool.
Abbreviation Mem := (ConstructorMempool (C := string)).

(** C5: whatever requests reach a node, in whatever order, each of its lanes holds the transactions
    of that lane only: the auction lane bids, the free lane staking transactions that are no bids,
    the default lane the others; no bid in the auction lane has a bid in its bundle, and no transaction
    of the other lanes a bid among its messages. *)
Theorem lanes_keep_their_transactions deps app admits mempools (st : Lane.State (M := Mem)) l :
  New deps = Ret (app, mempools) -> AnteLaws (deps_Ante deps) -> reachable app admits mempools st ->
  In l (registry (app_mempool app)) ->
  exists mp, st_mempools st !! l = Some mp /\ forall tx, holds mp tx -> belongs deps l tx /\ admits tx.
Proof.
  intros HN Ha Hr Hl. apply New_inv in HN. simplify_eq.
  destruct (reachable_keeps deps admits l st) as (mp & Hmp & _ & Hb); [|done|done|by exists mp].
  unfold app_lane_id. destruct Hl as [<-|[<-|[<-|[]]]]; auto.
Qed.

(** The effect of a transaction on the chain state in a block of the given height: that of the auth
    decorators, without the fee for free transactions, and the rules of the auction for bids. *)
Definition app_effect deps height v : Store -> Tx -> option Store :=
  app_step height v (fun tx => bool_decide (lane_for deps tx = free_id)) (the_options deps).

Lemma the_ante_deterministic deps height v : AnteLaws (deps_Ante deps) ->
  AuthVerdicts height (deps_Ante deps) (deps_Options deps) v ->
  deterministic (in_block height) (app_effect deps height v) (the_ante deps).
Proof.
  intros Ha V ctx tx st Hc. unfold the_ante. rewrite (al_chain _ Ha) by done. revert ctx tx st Hc.
  refine (app_chain_deterministic height (deps_Ante deps) (the_options deps) v
    (fun tx => bool_decide (lane_for deps tx = free_id)) _ V).
  intros ctx tx. cbn [the_options opt_FreeLane]. apply lanes_match. auto.
Qed.

(** C15: the ante handler of the application gives every validator the same verdict in the proposals of
    one height, whatever the mempools hold and whatever gas the context has left, if each decorator of
    the auth module judges by the chain state, the transaction and the gas meter, and the first one sets
    the meter: it accepts a transaction exactly when they do, one after the other, without the fee for
    free transactions, and a bid has not timed out and obeys the rules of the auction with no bid to
    beat. *)
Theorem app_ante_deterministic deps app mempools height v :
  New deps = Ret (app, mempools) -> AnteLaws (deps_Ante deps) ->
  AuthVerdicts height (deps_Ante deps) (deps_Options deps) v ->
  deterministic (in_block height) (app_effect deps height v) (app_anteHandler app).
Proof. intros HN Ha V. apply New_inv in HN. simplify_eq. by apply the_ante_deterministic. Qed.

Context {DL : DecLaws sdk} {CL : CoinLaws sdk} {DCL : DecCoinLaws sdk} {BL : BankLaws sdk}.

Lemma the_ante_quiet deps height v out_of_gas : AnteLaws (deps_Ante deps) ->
  AuthCalm height (deps_Ante deps) (the_options deps) v out_of_gas ->
  quiet (in_block height) params_set (the_ante deps).
Proof.
  intros Ha K ctx tx st Hc Hp. unfold the_ante. rewrite (al_chain _ Ha) by done. revert ctx tx st Hc Hp.
  refine (app_chain_quiet height (deps_Ante deps) (the_options deps) v
    (fun tx => bool_decide (lane_for deps tx = free_id)) _ out_of_gas K).
  intros ctx tx. cbn [the_options opt_FreeLane]. apply lanes_match. auto.
Qed.

(** The proposals of the application with its lanes discarding what a rejected transaction wrote. *)
Definition discarding_proposals (app : TestApp) : ProposalHandler (M := Mem) :=
  let lanes := discarding_lanes (app_lanes app) in
  NewProposalHandler (Abci.txDecoder (app_proposalHandler app))
    (omap (fun l => lane ← lanes !! l; Some (ALane (lane_of lanes l lane))) (registry (app_mempool app))).

End Properties.

(** ** Witnesses *)

(** Decorators of an auth module: the first sets the gas meter and recovers from the lack of gas, one charges
    gas for the bytes of the transaction, one moves its fee from the first signer to the fee collector,
    one rejects a bad signature, and the last takes every transaction once; the others pass them on. *)
Abbreviation ex_Mem := (ConstructorMempool (sdk := concrete_sdk) (C := string)).
#[local] Instance ex_app_LaneMempool : LaneMempool ex_Mem := app_lane_mempool.
Abbreviation ex_Decorator := (AnteDecorator (sdk := concrete_sdk) (M := ex_Mem)).

Definition with_meter (g : Z * Z) (ctx : Context) : Context :=
  {| ctx_BlockHeight := ctx_BlockHeight ctx; ctx_IsCheckTx := ctx_IsCheckTx ctx;
     ctx_IsReCheckTx := ctx_IsReCheckTx ctx; ctx_Priority := ctx_Priority ctx; ctx_TxBytes := ctx_TxBytes ctx;
     ctx_GasLimit := g.1; ctx_GasConsumed := g.2 |}.

Definition ex_setup : ex_Decorator := fun ctx tx simulate next st =>
  let ctx := with_meter (1000, 0) ctx in
  match next ctx tx simulate st with
  | (Panic w, st') => if bool_decide (w = "out of gas") then (Ret (ctx, Some (Errorf w)), st') else (Panic w, st')
  | r => r
  end.
Definition ex_size : ex_Decorator := fun ctx tx simulate next st =>
  let gas := ctx_GasConsumed ctx + 10 * len (ctx_TxBytes ctx) in
  if ctx_GasLimit ctx <? gas then (Panic "out of gas", st)
  else next (with_meter (ctx_GasLimit ctx, gas) ctx) tx simulate st.

Definition ex_collector : bytes := ex_addr 77.
Definition ex_deduct (s : @Store concrete_sdk) (tx : CTx) : option (@Store concrete_sdk) :=
  match c_signers tx, c_fee tx with
  | Some (Ok (payer :: _)), Some fee =>
      match bank_SendCoins payer ex_collector fee s with (Ret None, s') => Some s' | _ => None end
  | _, _ => None
  end.
Definition ex_verify (s : @Store concrete_sdk) (tx : CTx) : option (@Store concrete_sdk) :=
  if bool_decide (c_bytes tx = [x09]) then None else Some s.
Definition ex_take (s : @Store concrete_sdk) (tx : CTx) : option (@Store concrete_sdk) :=
  if bool_decide (kv_Get s (xff :: c_bytes tx) = []) then Some (kv_Set (xff :: c_bytes tx) [x01] s) else None.
(** A decorator that rejects a transaction or writes to the chain state. *)
Definition ex_judge (f : @Store concrete_sdk -> CTx -> option (@Store concrete_sdk)) : ex_Decorator :=
  fun ctx tx simulate next st =>
  match f (st_store st) tx with
  | Some s => next ctx tx simulate (set_store s st)
  | None => (Ret (ctx, Some (Errorf "unauthorized")), st)
  end.
Definition ex_pass : ex_Decorator := fun ctx tx simulate next => next ctx tx simulate.
Definition ex_lib : AnteLib (sdk := concrete_sdk) :=
  MkAnteLib ex_setup (fun _ => ex_pass) ex_pass ex_pass (fun _ => ex_pass) (fun _ => ex_size)
    (fun _ => ex_judge ex_deduct) (fun _ => ex_pass) (fun _ => ex_pass) (fun _ => ex_pass) (fun _ => ex_judge ex_verify)
    (fun _ => ex_judge ex_take) (foldr (fun d next ctx tx simulate => d ctx tx simulate next) (fun ctx _ _ => mret (ctx, None))).

Lemma ex_passes_on d : d = ex_setup \/ d = ex_size \/ (exists f, d = ex_judge f) \/ d = ex_pass -> passes_on d.
Proof.
  intros Hd R HR Hm next Hn ctx tx simulate st. destruct Hd as [->|[->|[[f ->]| ->]]].
  - unfold ex_setup. specialize (Hn (with_meter (1000, 0) ctx) tx simulate st).
    destruct (next _ tx simulate st) as [[[c [err|]]|w] st']; [done..|]. by case_bool_decide.
  - unfold ex_size. destruct (_ <? _); [by apply Hm|apply Hn].
  - unfold ex_judge. destruct (f _ tx); [|by apply Hm]. etransitivity; [|apply Hn]. by apply Hm.
  - apply Hn.
Qed.
Lemma ex_ante_laws : AnteLaws ex_lib.
Proof. split; intros; first [apply ex_passes_on; cbn; eauto | reflexivity]. Qed.

(** Their effects. *)
Definition ex_verdicts (a : Auth.decorator) (g : Z * Z) (s : @Store concrete_sdk) (tx : CTx)
    : option ((Z * Z) * @Store concrete_sdk) :=
  match a with
  | Auth.SetUpContext => Some ((1000, 0), s)
  | Auth.ConsumeGasForTxSize => if g.1 <? g.2 then None else Some (g, s)
  | Auth.DeductFee => s ← ex_deduct s tx; Some (g, s)
  | Auth.SigVerification => s ← ex_verify s tx; Some (g, s)
  | Auth.IncrementSequence => s ← ex_take s tx; Some (g, s)
  | _ => Some (g, s)
  end.

Lemma with_meter_block height g ctx : in_block height ctx -> in_block height (with_meter g ctx).
Proof. done. Qed.

Lemma ex_auth_verdicts height o : AuthVerdicts height ex_lib o ex_verdicts.
Proof.
  split; [|done].
  assert (Hpass : decides height ex_pass (fun g s _ => Some (g, s))).
  { intros ctx tx st next Hc. exists ctx. split; [done|]. split; [done|]. left. by rewrite set_store_same. }
  assert (Hjudge : forall f, decides height (ex_judge f) (fun g s tx => s ← f s tx; Some (g, s))).
  { intros f ctx tx st next Hc. unfold ex_judge. destruct (f (st_store st) tx) as [s|]; cbn.
    - exists ctx. split; [done|]. split; [done|]. by left.
    - eexists _, (st_store st). rewrite set_store_same. split; [|done]. left. by eexists _, _. }
  intros []; try exact Hpass; try apply Hjudge; intros ctx tx st next Hc; cbn [ex_verdicts auth ex_lib SetUpContextDecorator ConsumeGasForTxSizeDecorator].
  - exists (with_meter (1000, 0) ctx). split; [done|]. split; [done|]. rewrite set_store_same. unfold ex_setup, answers.
    destruct (next _ tx false st) as [[[c [err|]]|w] st']; [by left..|]. case_bool_decide; [right|by left].
    by eexists _, _, (with_meter (1000, 0) ctx), _.
  - destruct Hc as (H1 & H2 & H3 & H4). unfold ex_size. rewrite H4. change (10 * len []) with 0. rewrite Z.add_0_r.
    cbn [meter fst snd]. destruct (_ <? _).
    + exists (Panic "out of gas"), (st_store st). rewrite set_store_same. split; [|done]. right. by eexists.
    + exists (with_meter (meter ctx) ctx). split; [done|]. split; [done|]. left. by rewrite set_store_same.
Qed.

(** The transactions: a bid of account 1 for two transactions, a higher bid of account 2 that is
    no longer good at height 11, and transactions of accounts 3, 4 and 5 with fees, the last one badly
    signed. *)
Definition ex_late_bid : CTx :=
  {| c_msgs := [AuctionBidMsg {| msg_Bidder := "02"; msg_Bid := MkCoin "stake" (Some 9);
                                 msg_Transactions := [[x05]] |}];
     c_sigs := Some (Ok [MkSig (ex_addr 2) 1]); c_signers := Some (Ok [ex_addr 2]);
     c_timeout := Some 10; c_fee := Some (Some []); c_bytes := [x65] |}.
Definition ex_paying_tx (a fee : Z) (bz : Byte.byte) : CTx :=
  {| c_msgs := []; c_sigs := Some (Ok [MkSig (ex_addr a) 0]); c_signers := Some (Ok [ex_addr a]);
     c_timeout := Some 0; c_fee := Some (Some [MkCoin "stake" (Some fee)]); c_bytes := [bz] |}.
Definition app_table : list CTx :=
  [ex_bid; ex_late_bid; ex_tx 2 0 [5]; ex_tx 1 1 [6]; ex_paying_tx 3 5 x07; ex_paying_tx 4 7 x08; ex_paying_tx 5 9 x09].
Lemma app_table_NoDup : NoDup (map c_bytes app_table).
Proof. apply (bool_decide_unpack _). reflexivity. Qed.

Definition ex_deps : TestAppDeps :=
  {| deps_TxEncoder := table_enc app_table; deps_TxDecoder := table_dec app_table;
     deps_Options := {| AccountKeeper := Some tt; BankKeeper := Some tt; SignModeHandler := Some tt |};
     deps_Ante := ex_lib |}.

Lemma ex_codec tx bz : deps_TxEncoder ex_deps tx = Ok bz <-> deps_TxDecoder ex_deps bz = Ok tx.
Proof. split; [apply table_dec_enc, app_table_NoDup|apply table_enc_dec]. Qed.

Lemma ex_New : New ex_deps = Ret (the_app ex_deps, the_mempools ex_deps).
Proof.
  assert (H : match New ex_deps with Ret _ => true | Panic _ => false end = true) by (vm_compute; reflexivity).
  destruct (New ex_deps) as [r|w] eqn:E; [by rewrite (New_inv ex_deps r E)|done].
Qed.

(** A node that checks a bid and then another transaction, which BaseApp inserts. *)
Definition ex_base : BaseApp (sdk := concrete_sdk) (M := ex_Mem) :=
  {| CommittedStore := ex_funded; LastBlockHeight := 9;
     BaseApp_CheckTx := fun req st =>
       match table_dec app_table (req_Tx req) with
       | Ok tx =>
           let '(r, st') := BBMempool_Insert (the_lanes ex_deps) the_registry (ex_ctx 0) tx st in
           (Ret (None, None), st')
       | Err err => (Ret (None, Some err), st)
       end |}.
Definition ex_check (bz : bytes) (st : Lane.State (M := ex_Mem)) : Lane.State (M := ex_Mem) :=
  snd (TestApp_CheckTx (the_app ex_deps) ex_base {| req_Tx := bz; req_Type := CheckTxType_New |} st).
Definition ex_node0 : Lane.State (M := ex_Mem) := {| st_store := ex_funded; st_mempools := the_mempools ex_deps |}.
Definition ex_node : Lane.State (M := ex_Mem) :=
  ex_check [x09] (ex_check [x08] (ex_check [x07] (ex_check [x65] (ex_check [x64] ex_node0)))).

(** Clients send transactions of the table. *)
Definition ex_admits (tx : @Tx concrete_sdk) : Prop := tx ∈ app_table.
Definition ex_denom (l : LaneId) : string := "stake".

Lemma ex_comparable : comparable_txs ex_deps ex_denom ex_admits.
Proof.
  assert (H : Forall (fun tx =>
    coin_priority (ex_denom (lane_for ex_deps tx)) (lane_priority ex_deps (lane_for ex_deps tx) tx)) app_table).
  { apply (bool_decide_unpack _). vm_compute. exact I. }
  assert (H2 : Forall (fun t => Forall (fun t' => lane_for ex_deps t = lane_for ex_deps t' -> key_of t = key_of t' ->
    lane_priority ex_deps (lane_for ex_deps t) t = lane_priority ex_deps (lane_for ex_deps t) t') app_table) app_table).
  { apply (bool_decide_unpack _). vm_compute. exact I. }
  rewrite list.Forall_forall in H. rewrite list.Forall_forall in H2. split; [done|].
  intros t t' Ht Ht'. specialize (H2 t Ht). rewrite list.Forall_forall in H2. by apply H2.
Qed.

Lemma ex_check_step bz st : step (the_app ex_deps) ex_admits st (ex_check bz st).
Proof.
  apply step_CheckTx.
  { intros tx Hd. apply (table_enc_dec app_table) in Hd. unfold table_enc in Hd.
    unfold ex_admits. revert Hd. by case_bool_decide. }
  intros tx st0 Hd. cbn in Hd |- *. rewrite Hd.
  apply (run_insert _ _ (ex_ctx 0)). cbn.
  destruct (BBMempool_Insert _ _ _ _ _) as [r st']. apply run_done.
Qed.

Lemma ex_reachable : reachable (the_app ex_deps) ex_admits (the_mempools ex_deps) ex_node.
Proof.
  do 5 (eapply reachable_step; [|apply ex_check_step]). apply reachable_new.
Qed.

(** What a lane of the node iterates over. *)
Definition ex_selects (l : LaneId) : list bytes :=
  match st_mempools ex_node !! l with
  | Some mp => match fst (lm_Select mp) with Ret it => map c_bytes it | Panic _ => [] end
  | None => []
  end.
Lemma ex_node_selects : ex_selects tob_id = [[x65]; [x64]] /\ ex_selects free_id = [] /\
  ex_selects default_id = [[x09]; [x08]; [x07]].
Proof. split; [|split]; vm_compute; reflexivity. Qed.

(** The context of the block at height 11. *)
Definition ex_block_ctx : Context :=
  {| ctx_BlockHeight := 11; ctx_IsCheckTx := false; ctx_IsReCheckTx := false;
     ctx_Priority := 0; ctx_TxBytes := []; ctx_GasLimit := 0; ctx_GasConsumed := 0 |}.

Lemma lanes_keep_their_transactions_witness :
  ex_selects tob_id = [[x65]; [x64]] /\ ex_selects default_id = [[x09]; [x08]; [x07]] /\
  (exists mp, st_mempools ex_node !! tob_id = Some mp /\
     forall tx, holds mp tx -> belongs ex_deps tob_id tx /\ ex_admits tx) /\
  (exists mp, st_mempools ex_node !! default_id = Some mp /\
     forall tx, holds mp tx -> belongs ex_deps default_id tx /\ ex_admits tx).
Proof.
  split; [apply ex_node_selects|]. split; [apply ex_node_selects|]. split.
  - apply (lanes_keep_their_transactions ex_deps (the_app ex_deps) ex_admits (the_mempools ex_deps) ex_node tob_id).
    + apply ex_New.
    + apply ex_ante_laws.
    + apply ex_reachable.
    + by left.
  - apply (lanes_keep_their_transactions ex_deps (the_app ex_deps) ex_admits (the_mempools ex_deps) ex_node default_id).
    + apply ex_New.
    + apply ex_ante_laws.
    + apply ex_reachable.
    + right. right. by left.
Defined.

Lemma one_tx_per_sender_check (mp : ex_Mem) :
  bool_decide (NoDup (map (fun x => x.1.2) (map_to_list (LaneMempool.view mp)))) = true -> one_tx_per_sender mp.
Proof. intros H%bool_decide_eq_true. by apply one_tx_each_NoDup. Qed.

Lemma ex_node_one_each l mp : app_lane_id l -> st_mempools ex_node !! l = Some mp -> one_tx_per_sender mp.
Proof.
  intros Hl Hmp. apply one_tx_per_sender_check.
  enough (H : match st_mempools ex_node !! l with
    | Some mp => bool_decide (NoDup (map (fun x => x.1.2) (map_to_list (LaneMempool.view mp))))
    | None => true end = true) by by rewrite Hmp in H.
  clear Hmp. destruct Hl as [->|[->| ->]]; vm_compute; reflexivity.
Qed.

(** The block of the node: the good bid and its bundle, and the good transactions by their fees.  The badly
    signed transaction is tried before them and leaves its fee behind, which changes nothing. *)
Lemma ex_node_block :
  let h := app_proposalHandler (the_app ex_deps) in
  fst (PrepareProposalHandler h ex_block_ctx 100 ex_node) = Ret ([[x64]; [x05]; [x06]; [x08]; [x07]], None) /\
  balance (st_store (snd (PrepareProposalHandler h ex_block_ctx 100 ex_node))) ex_collector "stake" = 1000 + 9 + 7 + 5 /\
  fst (PrepareProposalHandler (discarding_proposals (the_app ex_deps)) ex_block_ctx 100 ex_node)
  = fst (PrepareProposalHandler h ex_block_ctx 100 ex_node).
Proof. split; [|split]; vm_compute; reflexivity. Qed.


Lemma app_ante_deterministic_witness :
  deterministic (in_block 11) (app_effect ex_deps 11 ex_verdicts) (app_anteHandler (the_app ex_deps)).
Proof.
  apply (app_ante_deterministic ex_deps (the_app ex_deps) (the_mempools ex_deps) 11 ex_verdicts).
  - apply ex_New.
  - apply ex_ante_laws.
  - apply ex_auth_verdicts.
Defined.
