(* ===== verification/BestBid.v ===== *)
(** * The highest good bid wins the top of the block

    Liveness of the auction: when a bid in the auction lane is valid on the chain state with its
    bundle and fits the block, and no higher bid is, the block the node prepares starts with that
    bid and its bundle, whatever other bids, bad ones included, the lane holds. *)
From S2P Require Import Prelude Hash Sdk Concrete PriorityNonce PriorityNonceProps Proposals LaneMempool Stored LaneOrder Lane AuctionLane AuctionFacts Lanes Abci AbciFacts Mempool BuilderTypes Wire BuilderWire BuilderWireFacts Builder BuilderFacts Effects Consensus App AnteChain AppFacts.
From Stdlib Require Import Sorting.Sorted.

Section Lane.
Context {sdk : Sdk} {DL : DecLaws sdk} {M : Type} {LM : LaneMempool M}.
Abbreviation State := (Lane.State (M := M)).
Abbreviation LaneC := (LaneConstructor (M := M)).
Context (block_ctx : Context -> Prop) (step : Store -> Tx -> option Store).
Context (lanes : gmap LaneId LaneC) (l : LaneId) (lane : LaneC) (f : Factory).
Context (enc : TxEncoder).
Hypothesis Henc : cfg_TxEncoder (cfg lane) = Some enc.
Hypothesis Hwrap : forall raw tx, WrapBundleTransaction f raw = Ok tx -> enc tx = Ok raw.
Hypothesis Hante : deterministic block_ctx step (AnteVerifyTx lane).

(** On states of a condition that transactions keep, the ante handler returns. *)
Context (ok : Store -> Prop).
Hypothesis Hkeep : forall s tx s', step s tx = Some s' -> ok s -> ok s'.
Hypothesis Hquiet : quiet block_ctx ok (AnteVerifyTx lane).
Abbreviation view := (view_of lanes l lane).

(** A bid that is valid with its bundle on a chain state. *)
Definition viable (s : Store) (bid : Tx) (bi : BidInfo) (bundle : list Tx) : Prop :=
  GetAuctionBidInfo f bid = Ok (Some bi) /\ Forall2 (unwraps f) (Transactions bi) bundle /\
  is_Some (steps step s (bid :: bundle)).

Lemma verify_bundle_quiet bundle : forall ctx (st : State), block_ctx ctx -> ok (st_store st) ->
  exists r, fst (verify_bundle f view ctx bundle st) = Ret r.
Proof.
  induction bundle as [|raw bundle IH]; intros ctx st Hc Ho; cbn [verify_bundle]; [by eexists|].
  destruct (WrapBundleTransaction f raw) as [tx|e]; [|by eexists]. cbn [lv_AnteVerifyTx view_of]. st_unfold.
  pose proof (Hquiet ctx tx st Hc Ho) as Hr. pose proof (Hante ctx tx st Hc) as HA.
  destruct (step (st_store st) tx) as [s1|] eqn:Es.
  - destruct HA as (c1 & Hc1 & ->). apply IH; [done|by eapply Hkeep].
  - destruct HA as (r & s1 & [(c1 & err & Hc1 & ->)|[w ->]] & E); rewrite E in *; [by eexists|done].
Qed.

Lemma VerifyTx_quiet ctx bid bi (st : State) : block_ctx ctx -> ok (st_store st) ->
  exists r, fst (VerifyTx f view ctx bid bi st) = Ret r.
Proof.
  intros Hc Ho. unfold VerifyTx. destruct bi as [bi|]; [|by eexists]. cbn [lv_AnteVerifyTx view_of]. st_unfold.
  pose proof (Hquiet ctx bid st Hc Ho) as Hr. pose proof (Hante ctx bid st Hc) as HA.
  destruct (step (st_store st) bid) as [s1|] eqn:Es.
  - destruct HA as (c1 & Hc1 & ->). apply verify_bundle_quiet; [done|by eapply Hkeep].
  - destruct HA as (r & s1 & [(c1 & err & Hc1 & ->)|[w ->]] & E); rewrite E in *; [by eexists|done].
Qed.

(** ** One bid *)

Context (m n : Z).
Abbreviation empty := (NewProposal m).

Lemma empty_contains bz : Proposals.Contains empty bz = false.
Proof. unfold Proposals.Contains. apply bool_decide_eq_false_2. cbn. set_solver. Qed.

Lemma hash_view tx : lane_tx_hash view tx =
  Ret (match enc tx with Ok bz => Ok (bz, tx_hash bz) | Err e => Err (Wrap "failed to encode transaction" e) end).
Proof.
  unfold lane_tx_hash. cbn [lv_TxEncoder view_of]. rewrite Henc. unfold GetTxHashStr. by destruct (enc tx).
Qed.

(** A bid that is not valid is passed over, and nothing but the selection changes. *)
Lemma try_bid_rejects ctx bid (st : State) : block_ctx ctx -> ok (st_store st) ->
  (forall bi bundle, ~ viable (st_store st) bid bi bundle) ->
  exists d, is_selected d = false /\
    with_cache is_selected (try_bid f view empty n ctx bid) st = (Ret d, st).
Proof.
  intros Hc Ho Hno.
  enough (exists d st', is_selected d = false /\ try_bid f view empty n ctx bid st = (Ret d, st') /\
    st_mempools st' = st_mempools st) as (d & st' & Hd & E & Hm).
  { exists d. split; [done|]. unfold with_cache. rewrite E, Hd. f_equal. destruct st, st'. cbn in *. by subst. }
  unfold try_bid. st_unfold. rewrite hash_view. destruct (enc bid) as [bz|e].
  2: by exists BidRemoved, st.
  rewrite empty_contains. destruct (len bz <=? n); [|by exists BidSkipped, st].
  destruct (GetAuctionBidInfo f bid) as [[bi|]|e] eqn:Ei; [|by exists BidRemoved, st..].
  destruct (VerifyTx_steps block_ctx step lanes l lane f Hante bid bi ctx st Hc) as (Hm & Hok & _).
  destruct (VerifyTx_quiet ctx bid (Some bi) st Hc Ho) as [r Hr].
  destruct (VerifyTx f view ctx bid (Some bi) st) as [o st'] eqn:EV. cbn in Hr, Hm, Hok. subst o.
  destruct r as [err|]; [by exists BidRemoved, st'|]. exfalso.
  destruct (Hok eq_refl) as (bundle & HU & HL).
  apply (Hno bi bundle). split; [done|]. split; [done|by eexists].
Qed.

Lemma wrap_bundle_raw bz bundle txs acc : Forall2 (unwraps f) bundle txs ->
  wrap_bundle f view empty bz acc bundle = Ret (BidSelected (bz :: acc ++ bundle)).
Proof.
  intros HU. revert acc. induction HU as [|raw tx bundle txs Hu _ IH]; intros acc; cbn [wrap_bundle].
  - by rewrite app_nil_r.
  - rewrite Hu, hash_view, (Hwrap raw tx Hu). st_unfold. rewrite empty_contains, IH. by rewrite <- app_assoc.
Qed.

Lemma try_bid_selects ctx bid bi bundle bz s (st : State) : block_ctx ctx ->
  GetAuctionBidInfo f bid = Ok (Some bi) -> Forall2 (unwraps f) (Transactions bi) bundle ->
  steps step (st_store st) (bid :: bundle) = Some s -> enc bid = Ok bz -> len bz <= n ->
  with_cache is_selected (try_bid f view empty n ctx bid) st
  = (Ret (BidSelected (bz :: Transactions bi)), set_store s st).
Proof.
  intros Hc Hi HU HS He Hn. unfold with_cache, try_bid. st_unfold. rewrite hash_view, He, empty_contains.
  replace (len bz <=? n) with true by lia. rewrite Hi.
  destruct (VerifyTx_steps block_ctx step lanes l lane f Hante bid bi ctx st Hc) as (_ & _ & Hok).
  rewrite (Hok bundle s HU HS). by rewrite (wrap_bundle_raw bz _ bundle []).
Qed.

(** ** The selection *)

Lemma select_bid_best ctx bid bi bundle bz s post (st : State) : block_ctx ctx -> ok (st_store st) ->
  GetAuctionBidInfo f bid = Ok (Some bi) -> Forall2 (unwraps f) (Transactions bi) bundle ->
  steps step (st_store st) (bid :: bundle) = Some s -> enc bid = Ok bz -> len bz <= n ->
  forall pre rm, Forall (fun b => forall bi bundle, ~ viable (st_store st) b bi bundle) pre ->
  exists removed, incl removed pre /\
    select_bid f view empty n ctx rm (pre ++ bid :: post) st
    = (Ret (bz :: Transactions bi, rm ++ removed), set_store s st).
Proof.
  intros Hc Ho Hi HU HS He Hn. induction pre as [|b pre IH]; intros rm Hpre; cbn [app select_bid]; st_unfold.
  - exists []. split; [by intros x|]. by rewrite (try_bid_selects ctx bid bi bundle bz s), app_nil_r.
  - inversion Hpre as [|? ? Hb Hpre']; subst. destruct (try_bid_rejects ctx b st Hc Ho Hb) as (d & Hd & ->).
    destruct d; [done| |].
    + destruct (IH rm Hpre') as (removed & Hr & ->). exists removed. split; [|done]. intros x Hx. right. by apply Hr.
    + destruct (IH (rm ++ [b]) Hpre') as (removed & Hr & ->). exists (b :: removed). rewrite <- app_assoc.
      split; [|done]. intros x [->|Hx]; [by left|right; by apply Hr].
Qed.

(** Removing transactions returns. *)
Definition removable (tx : Tx) : Prop := forall mp : M, exists r, fst (lm_Remove tx mp) = Ret r.

Lemma removes_return txs : Forall removable txs -> forall st : State, is_Some (st_mempools st !! l) ->
  exists r st', RemoveTxsFromLane (fun tx => on_mempool l (lm_Remove tx)) txs st = (Ret r, st').
Proof.
  induction 1 as [|tx txs Hr _ IH]; intros st [mp Hmp]; cbn [RemoveTxsFromLane]; [by eexists _, _|].
  st_unfold. unfold on_mempool at 1. rewrite Hmp. destruct (Hr mp) as [r E].
  destruct (lm_Remove tx mp) as [o mp']. cbn in E. subst o. destruct r as [err|]; [by eexists _, _|].
  apply IH. cbn. rewrite lookup_insert_eq. by eexists.
Qed.
End Lane.

(** ** The turn of the auction lane, the first of the block *)

Section Turn.
Context {sdk : Sdk} {DL : DecLaws sdk} {M : Type} {LM : LaneMempool M}.
Abbreviation State := (Lane.State (M := M)).
Abbreviation LaneC := (LaneConstructor (M := M)).
Context (lanes : gmap LaneId LaneC).

(** A proposal that was only appended to. *)
Definition extends (p p' : Proposal) : Prop :=
  (exists new, txs p' = txs p ++ new) /\ voteExtensions p' = voteExtensions p.

#[export] Instance extends_preorder : PreOrder extends.
Proof.
  split.
  - intros p. split; [exists []; by rewrite app_nil_r|done].
  - intros p1 p2 p3 [[new1 H1] H2] [[new2 H3] H4].
    split; [exists (new1 ++ new2); by rewrite H3, H1, <- app_assoc|congruence].
Qed.

Lemma prepare_step_extends ctx (s : State * Proposal) x :
  extends (snd s) (snd (prepare_step lanes ctx s x)).
Proof.
  unfold prepare_step, prepare_turn, prepare_own. st_unfold.
  destruct (GetMaxTxBytesForLane _ _ _) as [n|w]; [|reflexivity].
  destruct (prepareLaneHandler x.2) as [h|]; [|reflexivity]. cbn [call]. unfold on_state at 1.
  destruct (h _ ctx (snd s) n (fst s)) as [[[[new rm]|err]|w] st1]; [|reflexivity..].
  unfold on_state, on_proposal. cbn [fst snd].
  destruct (RemoveTxsFromLane _ rm st1) as [[r|w] st2]; [|reflexivity]. cbn [fst snd].
  pose proof (UpdateProposal_txs (lane_proposal x.2) new (snd s)) as HU.
  destruct (UpdateProposal (lane_proposal x.2) new (snd s)) as [[[err|]|w] p']; [by rewrite HU| |by rewrite HU].
  destruct HU as [H1 H2]. split; [by exists new|done].
Qed.

Lemma prepare_fold_extends ctx xs (s : State * Proposal) :
  extends (snd s) (snd (fold_left (prepare_step lanes ctx) xs s)).
Proof.
  revert s. induction xs as [|x xs IH]; intros s; cbn [fold_left]; [reflexivity|].
  etransitivity; [apply prepare_step_extends|apply IH].
Qed.

Context (block_ctx : Context -> Prop) (step : Store -> Tx -> option Store).
Context (l : LaneId) (lane : LaneC) (f : Factory) (enc : TxEncoder).

Lemma auction_turn_best (ok : Store -> Prop) ctx m (st : State) mp mp' pre bid post bi bundle bz :
  cfg_TxEncoder (cfg lane) = Some enc -> prepareLaneHandler lane = Some (TOB_PrepareLaneHandler f) ->
  dec_val (GetMaxBlockSpace lane) = Some 0 ->
  (forall raw tx, WrapBundleTransaction f raw = Ok tx -> enc tx = Ok raw) ->
  deterministic block_ctx step (AnteVerifyTx lane) ->
  (forall s tx s', step s tx = Some s' -> ok s -> ok s') -> quiet block_ctx ok (AnteVerifyTx lane) -> ok (st_store st) ->
  block_ctx ctx -> st_mempools st !! l = Some mp -> lm_Select mp = (Ret (pre ++ bid :: post), mp') ->
  Forall removable pre ->
  Forall (fun b => forall bi bundle, ~ viable step f (st_store st) b bi bundle) pre ->
  viable step f (st_store st) bid bi bundle -> enc bid = Ok bz ->
  total_len (bz :: Transactions bi) <= m -> m <= max_int64 ->
  exists s', prepare_step lanes ctx (st, NewProposal m) (l, lane) = s' /\
    txs (snd s') = bz :: Transactions bi /\ voteExtensions (snd s') = [].
Proof.
  intros Henc Hp H0 Hwrap Hante Hkeep Hquiet Ho Hc Hmp HS Hrem Hpre (Hi & HU & [s Hs]) He Hsz Hm.
  cbn [total_len] in Hsz. pose proof (total_len_nonneg (Transactions bi)). pose proof (len_nonneg bz).
  unfold prepare_step, prepare_turn, prepare_own. cbn [fst snd]. st_unfold. rewrite Hp. cbn [call fst snd].
  unfold GetMaxTxBytes, GetTotalTxBytes. cbn [NewProposal maxTxBytes totalTxBytes].
  rewrite max_tx_bytes_zero by (unfold in_i64, max_int64 in *; lia || done).
  set (n := Z.max 0 (m - 0)). unfold on_state at 1. cbn [fst snd].
  unfold TOB_PrepareLaneHandler. st_unfold. cbn [lv_id view_of]. unfold on_mempool at 1. rewrite Hmp, HS.
  match goal with |- context [select_bid f _ _ n ctx [] _ ?x] => set (st1 := x) end.
  destruct (select_bid_best block_ctx step lanes l lane f enc Henc Hwrap Hante ok Hkeep Hquiet m n ctx bid bi bundle
    bz s post st1 Hc Ho Hi HU Hs He ltac:(lia) pre [] Hpre) as (removed & Hr & E). fold (NewProposal m) in *.
  rewrite E. unfold on_state, on_proposal. cbn [fst snd app].
  destruct (removes_return l removed) with (st := set_store s st1) as (r & st2 & ER).
  { apply List.Forall_forall. intros x Hx. rewrite List.Forall_forall in Hrem. by apply Hrem, Hr. }
  { cbn. rewrite lookup_insert_eq. by eexists. }
  rewrite ER. cbn [fst snd].
  destruct (UpdateProposal_cases (lane_proposal lane) (bz :: Transactions bi) (NewProposal m)) as [(r0 & HU0 & Hne)|[[? _]|(k & _ & _ & _ & HU0)]].
  - apply NewProposal_wf. lia.
  - cbn. lia.
  - exfalso. revert HU0. unfold UpdateProposal. case_bool_decide; [done|].
    unfold GetMaxTxBytes, GetTotalTxBytes. cbn [NewProposal maxTxBytes totalTxBytes].
    change (lp_GetMaxBlockSpace (lane_proposal lane)) with (GetMaxBlockSpace lane).
    rewrite max_tx_bytes_zero by (unfold in_i64, max_int64 in *; lia || done).
    rewrite partial_size_total by (cbn; lia). cbn [total_len].
    rewrite wrap_i64_id by (unfold in_i64, max_int64 in *; lia).
    destruct (Z.ltb_spec (Z.max 0 (m - 0)) (len bz + total_len (Transactions bi))); [lia|].
    destruct (Z.ltb_spec m (0 + (len bz + total_len (Transactions bi)))); [lia|]. done.
  - done.
  - rewrite HU0. by eexists.
Qed.
End Turn.

(** ** The application *)

Section App.
Context {sdk : Sdk} {L : SkipListLib} {SL : SkipListLaws L} {PC : ParamsCodec}.
#[local] Existing Instance app_lane_mempool.
Abbreviation Mem := (ConstructorMempool (C := string)).

(** Removing a signed transaction from a lane mempool returns. *)
Lemma keyed_removable (tx : Tx) k : key_of tx = Some k -> removable (M := Mem) tx.
Proof.
  unfold key_of, first_signature. intros Hk mp. cbn. unfold LaneMempool.Remove, on_index, PriorityNonce.Remove. st_unfold.
  unfold first_signature. destruct (GetSignaturesV2 tx) as [[[|s sl]|e]|]; [done| |done..].
  repeat first [progress cbn | break_match | by eexists].
Qed.

(** The transactions an ordered mempool visits before one of its own come from other keys and do
    not have a lower priority. *)
Lemma visited_before Pr `{!forall c, Decision (Pr c)} tp prio admits (mp : Mem) k p tx :
  ordered Pr tp prio admits mp -> one_tx_each (LaneMempool.view mp) -> LaneMempool.view mp !! k = Some (p, tx) ->
  exists pre post mp', LaneMempool.Select "" mp = (Ret (pre ++ tx :: post), mp') /\
    forall x, In x pre -> exists k', k' <> k /\ LaneMempool.view mp !! k' = Some (prio x, x) /\
      key_of x = Some k' /\ 0 <= PriorityNonce.Compare tp (prio x) (prio tx).
Proof.
  intros O O1 Hk. destruct (ordered_iterates "" Pr tp prio admits mp O O1) as (it & mp' & HS & Hperm & Hsort).
  assert (Hin : In tx it).
  { apply (Permutation_in _ (symmetry Hperm)), in_map_iff. exists (k, (p, tx)). split; [done|].
    by apply list_elem_of_In, elem_of_map_to_list. }
  destruct (in_split _ _ Hin) as (pre & post & ->). exists pre, post, mp'. split; [done|]. intros x Hx.
  assert (Hx' : In x (pre ++ tx :: post)) by (apply in_app_iff; by left).
  apply (Permutation_in _ Hperm), in_map_iff in Hx' as ([k' [p' x']] & E & Hx'). cbn in E. subst x'.
  apply list_elem_of_In, elem_of_map_to_list in Hx'.
  destruct (od_view _ _ _ _ _ O _ _ _ Hx') as (_ & -> & Hkx). destruct (od_view _ _ _ _ _ O _ _ _ Hk) as (_ & _ & Hkt).
  exists k'. split; [|split; [done|split; [done|]]].
  - intros ->. assert (Hd : NoDup (map key_of (pre ++ tx :: post))).
    { rewrite Hperm, map_map. erewrite map_ext_in with (g := fun x => Some x.1).
      - rewrite <- (map_map fst Some). apply (NoDup_fmap_2 Some). apply NoDup_fst_map_to_list.
      - intros [k0 [p0 t0]] H0. apply list_elem_of_In, elem_of_map_to_list in H0. cbn.
        by apply (od_view _ _ _ _ _ O) in H0 as (_ & _ & ?). }
    rewrite map_app in Hd. cbn in Hd. apply list.NoDup_app in Hd as (_ & Hd & _).
    apply (Hd (key_of x)); [apply list_elem_of_In; by apply in_map|]. rewrite Hkx, Hkt. by left.
  - clear -Hsort Hx. induction pre as [|y pre IH]; [done|]. apply StronglySorted_inv in Hsort as [H1 H2].
    destruct Hx as [->|Hx]; [|by apply IH]. rewrite List.Forall_forall in H2. apply H2.
    apply in_app_iff. right. by left.
Qed.

End App.

(** ** Witness *)

Lemma ex_GetParams_Set k x (s : @Store concrete_sdk) : k <> KeyParams -> GetParams (kv_Set k x s) = GetParams s.
Proof. intros Hk. unfold GetParams. by rewrite kv_get_set_ne. Qed.

Lemma ex_effect_params f s (tx : @Tx concrete_sdk) s' : f = ex_deduct \/ f = ex_verify \/ f = ex_take ->
  f s tx = Some s' -> GetParams s' = GetParams s.
Proof.
  intros [->|[->| ->]].
  - unfold ex_deduct. destruct (c_signers tx) as [[[|payer signers]|]|]; try done. destruct (c_fee tx) as [fee|]; [|done].
    destruct (bank_SendCoins payer ex_collector fee s) as [[[err|]|w] s1] eqn:E; try done. intros [= <-].
    unfold GetParams. by rewrite (bank_send_frame _ _ _ _ _ _ KeyParams E).
  - unfold ex_verify. case_bool_decide; [done|]. by intros [= <-].
  - unfold ex_take. case_bool_decide; [|done]. intros [= <-]. by apply ex_GetParams_Set.
Qed.

Lemma ex_auth_calm o : AuthCalm 11 ex_lib o ex_verdicts (fun w => w = "out of gas"%string).
Proof.
  split.
  - intros next Hn ctx tx st Hc Hp. cbn [ex_lib SetUpContextDecorator]. unfold ex_setup.
    specialize (Hn (with_meter (1000, 0) ctx) tx st Hc Hp).
    destruct (next _ tx false st) as [[[c [err|]]|w] st']; [done..|]. cbn in Hn. by rewrite bool_decide_eq_true_2.
  - intros a next Ha Hn ctx tx st Hc Hp.
    assert (Hjudge : forall f, (f = ex_deduct \/ f = ex_verify \/ f = ex_take) ->
      match fst (ex_judge f ctx tx false next st) with Ret _ => True | Panic w => w = "out of gas"%string end).
    { intros f Hf. unfold ex_judge. destruct (f (st_store st) tx) as [s|] eqn:E; [|done]. apply Hn; [done|].
      unfold params_set. cbn [st_store set_store]. by rewrite (ex_effect_params f _ _ _ Hf E). }
    destruct a; try done; cbn [auth ex_lib]; try (by apply Hn); try (apply Hjudge; by auto).
    change (ConsumeGasForTxSizeDecorator ex_lib (BaseOptions o)) with ex_size. unfold ex_size.
    destruct (ctx_GasLimit ctx <? _); [done|]. by apply Hn.
  - intros [] g s tx g' s'; cbn; try (by intros [= _ <-]).
    + break_match; [done|]. by intros [= _ <-].
    + destruct (ex_deduct s tx) as [s1|] eqn:E; cbn; [|done]. intros [= _ <-]. apply (ex_effect_params ex_deduct s tx); auto.
    + destruct (ex_verify s tx) as [s1|] eqn:E; cbn; [|done]. intros [= _ <-]. apply (ex_effect_params ex_verify s tx); auto.
    + destruct (ex_take s tx) as [s1|] eqn:E; cbn; [|done]. intros [= _ <-]. apply (ex_effect_params ex_take s tx); auto.
Qed.

Lemma ex_params_set : params_set (st_store ex_node).
Proof.
  assert (E : st_store ex_node = ex_funded) by (vm_compute; reflexivity). rewrite E.
  exists ex_params. eexists. split; [apply ex_funded_params|reflexivity].
Qed.

(** The auction lane of the node and what the bid of account 1 is for. *)
Definition ex_tob_mempool : ex_Mem :=
  match st_mempools ex_node !! tob_id with Some mp => mp | None => new_mempool ex_deps tob_id end.
Definition ex_bid_info : BidInfo :=
  match GetAuctionBidInfo (app_factory ex_deps) ex_bid with
  | Ok (Some bi) => bi
  | _ => MkBidInfo [] (MkCoin "" None) [] 0 []
  end.

Lemma checked_entries {A T} (P : T -> bool) (V : gmap (Z * string) (A * T)) k0 k p tx :
  forallb (fun x => bool_decide (x.1 = k0) || P x.2.2) (map_to_list V) = true ->
  k <> k0 -> V !! k = Some (p, tx) -> P tx = true.
Proof.
  intros Hall Hne Hk. rewrite forallb_forall in Hall.
  apply elem_of_map_to_list, list_elem_of_In in Hk. apply Hall in Hk. cbn in Hk.
  by rewrite bool_decide_eq_false_2 in Hk.
Qed.

(** The higher bid of account 2 is not valid at height 11. *)
Definition ex_rejected (tx : @Tx concrete_sdk) : bool :=
  match (app_effect ex_deps 11 ex_verdicts) (st_store ex_node) tx with Some _ => false | None => true end.

Lemma ex_others_rejected : forallb (fun x => bool_decide (x.1 = (0, "01"%string)) || ex_rejected x.2.2)
  (map_to_list (LaneMempool.view ex_tob_mempool)) = true.
Proof. vm_compute. reflexivity. Qed.

Lemma ex_rejected_not_viable bid bi bundle : ex_rejected bid = true ->
  ~ viable (app_effect ex_deps 11 ex_verdicts) (app_factory ex_deps) (st_store ex_node) bid bi bundle.
Proof.
  unfold ex_rejected. generalize (st_store ex_node) as s0. intros s0 Hr (_ & _ & [s Hs]). cbn [steps] in Hs.
  destruct ((app_effect ex_deps 11 ex_verdicts) s0 bid); discriminate.
Qed.

Lemma ex_others_not_viable k' p' bid' bi' bundle' : k' <> (0, "01"%string) ->
  LaneMempool.view ex_tob_mempool !! k' = Some (p', bid') ->
  viable (app_effect ex_deps 11 ex_verdicts) (app_factory ex_deps) (st_store ex_node) bid' bi' bundle' -> compare_coins p' "5stake" < 0.
Proof.
  intros Hne Hk Hv. pose proof (checked_entries ex_rejected _ _ _ _ _ ex_others_rejected Hne Hk) as Hr.
  destruct (ex_rejected_not_viable bid' bi' bundle' Hr Hv).
Qed.

Lemma ex_tob_mempool_at : st_mempools ex_node !! tob_id = Some ex_tob_mempool.
Proof.
  assert (H : match st_mempools ex_node !! tob_id with Some _ => true | None => false end = true)
    by (vm_compute; reflexivity).
  unfold ex_tob_mempool. by destruct (st_mempools ex_node !! tob_id).
Qed.

Lemma ex_bid_transactions : Transactions ex_bid_info = [[x05]; [x06]].
Proof. vm_compute. reflexivity. Qed.

Lemma ex_bid_viable :
  viable (app_effect ex_deps 11 ex_verdicts) (app_factory ex_deps) (st_store ex_node) ex_bid ex_bid_info [ex_tx 2 0 [5]; ex_tx 1 1 [6]].
Proof.
  split; [vm_compute; reflexivity|]. split.
  - rewrite ex_bid_transactions. repeat constructor.
  - assert (H : match steps (app_effect ex_deps 11 ex_verdicts) (st_store ex_node) [ex_bid; ex_tx 2 0 [5]; ex_tx 1 1 [6]] with
      Some _ => true | None => false end = true) by (vm_compute; reflexivity).
    destruct (steps (app_effect ex_deps 11 ex_verdicts) _ _); [by eexists|done].
Qed.

