(* ===== verification/Settlement.v ===== *)
(** * The bid of an accepted block is paid

    The three parts of the auction together: the lane checks that the bid of a proposal is alone at
    its top, the ante decorator of the builder module that the bidder can pay it, and the message
    server, when the block is delivered, takes the payment. *)
From S2P Require Import Prelude Hash Sdk Concrete Proposals LaneMempool Lane LaneFacts AuctionLane AuctionFacts Lanes Abci AbciFacts BuilderTypes Wire BuilderWire BuilderWireFacts Builder BuilderFacts BuilderState PriorityNonce Consensus Mempool App AnteChain AppFacts BestBid.

(** ** The keeper *)

Section Keeper.
Context {sdk : Sdk} {PC : ParamsCodec} {PL : ParamsCodecLaws PC} {DL : DecLaws sdk} {CL : CoinLaws sdk} {DCL : DecCoinLaws sdk}
  {BL : BankLaws sdk} {KL : StoreLaws sdk}.

(** The message server takes the bid [m] on the state [s]: nothing else changes. *)
Definition settled (k : Keeper) (p : Params) (m : MsgAuctionBid) (bidder : bytes) (s : Store) : Prop :=
  exists a v ev s', Amount (msg_Bid m) = Some a /\ dec_val (ProposerFee p) = Some v /\
    AuctionBid k m s = (Ret (Ok ev), s') /\
    paid s s' bidder (reward_account k p s) (default [] (EscrowAccountAddress p)) (Denom (msg_Bid m))
      (proposer_share a v) (a - proposer_share a v) /\
    forall key, kv_Get s' key = kv_Get s key.

(** The bidder can spend the bid, an integer of the bank, which has at most 256 bits. *)
Definition affordable (s : Store) (m : MsgAuctionBid) (bidder : bytes) : Prop :=
  forall a, Amount (msg_Bid m) = Some a -> a < 2 ^ 256 /\ a <= spendable s bidder (Denom (msg_Bid m)).

(** A bid the decorator accepts on a state is paid by the message server on that state, when the bidder can
    spend it. *)
Lemma acceptable_is_settled k p m bidder bi (s : Store) :
  GetParams s = Ok p -> Params_Validate p = Ret None ->
  AccAddressFromBech32 (msg_Bidder m) = Ok bidder ->
  Bidder bi = bidder -> Bid bi = msg_Bid m -> Transactions bi = msg_Transactions m ->
  acceptable s {| Denom := ""; Amount := None |} bi -> affordable s m bidder -> settled k p m bidder s.
Proof.
  intros Hp Hval Haddr Eb Ec Et (q & Hq & Hlen & Hbid & _) Haff. assert (q = p) as -> by congruence.
  rewrite Eb, Ec in Hbid. rewrite Et in Hlen. unfold affordable in Haff.
  destruct (Params_Validate_spec p) as (r & Hr & Hiff). rewrite Hval in Hr. injection Hr as <-.
  destruct (proj1 Hiff eq_refl) as (_ & Hres & Hinc & _ & _ & v & Hv & Hv1).
  destruct (coin_validate _ Hres) as (r & Hr & Hr1). apply coin_validate in Hinc as (i & Hi & _).
  destruct (msg_Bid m) as [d [a|]] eqn:Em.
  2: { exfalso. revert Hbid. unfold ValidateAuctionBid. by rewrite coin_isnil. }
  destruct (Haff a eq_refl) as [Hb Hsp]. cbn [Denom] in Hsp.
  destruct (auction_bid_valid s p bidder d a r i {| Denom := ""; Amount := None |} Hp Hr Hi) as (res & Hres' & Hok); [done|].
  assert (res = None) as -> by congruence. destruct (proj1 Hok eq_refl) as (-> & Hra & _ & _).
  assert (Hcoin : Coin_Validate (MkCoin (Denom (ReserveFee p)) (Some a)) = None).
  { apply (coin_validate_denom _ r); [|lia]. destruct (ReserveFee p) as [d o]. cbn in Hr |- *. by subst o. }
  destruct (pay_bid_spec k p bidder (MkCoin (Denom (ReserveFee p)) (Some a)) a v s) as (coins & s' & Hpay & Hpaid & Hkv); [done|lia|done..|].
  exists a, v. eexists _, s'. rewrite Em. cbn [Amount Denom]. split; [done|]. split; [done|]. split; [|by split].
  unfold AuctionBid. rewrite Haddr. st_unfold. rewrite Hp.
  destruct (Z.ltb_spec (MaxBundleSize p) (wrap_u32 (len (msg_Transactions m)))); [lia|].
  by rewrite Em, Hpay.
Qed.
End Keeper.

(** ** The bid of a transaction *)

Lemma bid_message `{sdk : Sdk} dec tx bi : DefaultGetAuctionBidInfo dec tx = Ok (Some bi) ->
  exists m, GetMsgs tx = [AuctionBidMsg m] /\ AccAddressFromBech32 (msg_Bidder m) = Ok (Bidder bi) /\
    Bid bi = msg_Bid m /\ Transactions bi = msg_Transactions m.
Proof.
  unfold DefaultGetAuctionBidInfo, GetMsgAuctionBidFromTx. cbn zeta. destruct (GetMsgs tx) as [|msg msgs]; [done|].
  destruct (len (omap is_auction_bid (msg :: msgs)) =? 0) eqn:E0; [done|].
  destruct (len (omap is_auction_bid (msg :: msgs)) =? 1); cbn [andb]; [|done].
  destruct (Z.eqb_spec (len (msg :: msgs)) 1) as [E1|]; [|done].
  assert (msgs = []) as -> by (destruct msgs; [done|unfold len in E1; cbn in E1; lia]).
  destruct msg as [m| | | |]; cbn; try done.
  destruct (AccAddressFromBech32 (msg_Bidder m)) as [bidder|] eqn:Ea; [|done].
  destruct (GetTimeoutHeight tx) as [t|]; [|done]. destruct (getBundleSigners dec _); [|done].
  intros [= <-]. by exists m.
Qed.

(** ** The block *)

Section Block.
Context {sdk : Sdk} {L : SkipListLib} {PC : ParamsCodec}.
#[local] Existing Instance app_lane_mempool.
Abbreviation Mem := (ConstructorMempool (C := string)).
Abbreviation State := (Lane.State (M := Mem)).
Context (deps : TestAppDeps).
Abbreviation tob := (view_of (the_lanes deps) tob_id (tob_lane deps (Some (the_ante deps)))).

(** An accepted block passed the checks of the auction lane, on the chain state it was checked on. *)
Lemma accepted_by_auction ctx txs decoded (st st' : State) err :
  ProcessProposalHandler (the_proposals deps) ctx txs st = (Ret (ACCEPT, err), st') ->
  GetDecodedTxs (deps_TxDecoder deps) txs = Ok decoded -> decoded <> [] ->
  tob_check_order (app_factory deps) tob ctx decoded = Ret None /\
  exists rest st1, TOB_ProcessLaneHandler (app_factory deps) tob ctx decoded st = (Ret (Ok rest), st1).
Proof.
  unfold ProcessProposalHandler, the_proposals, NewProposalHandler, ChainProcessLanes. cbn [processLanesHandler Abci.txDecoder].
  rewrite <- (map_map (fun x => lane_of (the_lanes deps) x.1 x.2) ALane), terminate_lanes by done.
  intros H Hd Hne. revert H. rewrite Hd. destruct txs as [|bz txs]; [by injection Hd as <-|].
  rewrite len_cons. pose proof (len_nonneg txs). destruct (Z.eqb_spec (1 + len txs) 0); [lia|].
  cbn [the_chain map app chain_process call]. unfold recover. st_unfold.
  destruct decoded as [|bid others]; [done|]. rewrite len_cons. pose proof (len_nonneg others).
  destruct (Z.eqb_spec (1 + len others) 0); [lia|].
  cbn [ops lane_of lane_CheckOrder lane_ProcessLane fst snd]. unfold CheckOrder at 1, ProcessLane at 1.
  change (checkOrderHandler (tob_lane _ _)) with (Some (TOB_CheckOrderHandler (M := Mem) (app_factory deps))).
  change (processLaneHandler (tob_lane _ _)) with (Some (TOB_ProcessLaneHandler (M := Mem) (app_factory deps))).
  cbn [call]. unfold TOB_CheckOrderHandler. st_unfold.
  destruct (tob_check_order (app_factory deps) tob ctx (bid :: others)) as [[e|]|w]; [done| |done].
  destruct (TOB_ProcessLaneHandler (app_factory deps) tob ctx (bid :: others) st) as [[[rest|e]|w] st1]; [|done..].
  intros _. split; [done|]. by exists rest, st1.
Qed.

Lemma tob_matches ctx tx : lv_Match tob ctx tx = Ret (is_bid deps tx).
Proof.
  etransitivity; [exact (lanes_match deps (Some (the_ante deps)) tob_id ctx tx (or_introl eq_refl))|]. f_equal. unfold lane_for.
  destruct (is_bid deps tx); [by rewrite bool_decide_eq_true_2|].
  rewrite bool_decide_eq_false_2; [done|]. by destruct (is_free tx).
Qed.

(** The bid of a block the lane orders is the first transaction, with its bundle behind it. *)
Lemma ordered_bid ctx decoded i bid bi :
  (forall tx bz, deps_TxEncoder deps tx = Ok bz <-> deps_TxDecoder deps bz = Ok tx) ->
  tob_check_order (app_factory deps) tob ctx decoded = Ret None -> decoded !! i = Some bid ->
  GetAuctionBidInfo (app_factory deps) bid = Ok (Some bi) ->
  i = 0%nat /\ exists bundle rest, decoded = bid :: bundle ++ rest /\
    Forall2 (unwraps (app_factory deps)) (Transactions bi) bundle.
Proof.
  intros Hc Ho Hi Hbi. assert (Hb : is_bid deps bid = true) by (unfold is_bid; by rewrite Hbi).
  destruct (tob_check_order_spec (app_factory deps) tob ctx (is_bid deps) (deps_TxEncoder deps)) with (txs := decoded)
    as (r & Hr & Hiff).
  - apply tob_matches.
  - done.
  - intros tx. unfold is_bid. destruct (GetAuctionBidInfo _ tx) as [[b|]|]; [by exists b|done..].
  - rewrite Ho in Hr. injection Hr as <-.
    destruct (proj1 Hiff eq_refl) as [HF|(b & bi' & bundle & rest & -> & _ & Hbi' & HB & HR)].
    { rewrite list.Forall_lookup in HF. by rewrite (HF i bid Hi) in Hb. }
    destruct i as [|i]; cbn in Hi.
    + injection Hi as ->. rewrite Hbi in Hbi'. injection Hbi' as <-. split; [done|]. exists bundle, rest. split; [done|].
      apply Forall2_flip. refine (List.Forall2_impl _ _ HB). intros tx raw [_ He]. by apply Hc.
    + exfalso. apply lookup_app_Some in Hi as [Hi|[_ Hi]].
      * destruct (Forall2_lookup_l _ _ _ _ _ HB Hi) as (raw & _ & Hno & _). congruence.
      * rewrite list.Forall_lookup in HR. by rewrite (HR _ _ Hi) in Hb.
Qed.

(** The ante handler accepted the bid the lane processes and then its bundle. *)
Lemma processed_bid ctx bid bi others rest (st st1 : State) : GetAuctionBidInfo (app_factory deps) bid = Ok (Some bi) ->
  TOB_ProcessLaneHandler (app_factory deps) tob ctx (bid :: others) st = (Ret (Ok rest), st1) ->
  exists bundle ctx2 st2, Forall2 (unwraps (app_factory deps)) (Transactions bi) bundle /\
    ante_verified (tob_lane deps (Some (the_ante deps))) ctx st (bid :: bundle) ctx2 st2.
Proof.
  intros Hbi. unfold TOB_ProcessLaneHandler. st_unfold. rewrite tob_matches.
  unfold is_bid. rewrite Hbi. cbn [negb].
  destruct (VerifyTx _ _ ctx bid (Some bi) st) as [[[e|]|w] st2] eqn:EV; [done| |done]. intros _.
  destruct (VerifyTx_ante _ _ _ _ _ _ _ _ _ EV) as (bundle & ctx2 & HU & HA). by exists bundle, ctx2, st2.
Qed.
End Block.

(** ** The property *)

(** C4: an accepted block pays its bid.  When a node accepts a proposal and one of its transactions is a
    bid, the bid is the first one and the transactions of its bundle follow it in order, and the ante
    handler accepted the bid and the bundle one after the other on the chain state of the block.  When
    the block is delivered, if the ante handler accepts the bid, whatever gas and transaction bytes the
    context has, and the bidder can spend the bid on the state this leaves, the bid's message succeeds
    there and moves exactly the bid from the bidder, the proposer's share to the rewards account and the
    rest to the escrow account. *)
Theorem accepted_block_pays_its_bid {sdk : Sdk} {L : SkipListLib} {PC : ParamsCodec} {PL : ParamsCodecLaws PC} {DL : DecLaws sdk}
    {CL : CoinLaws sdk} {DCL : DecCoinLaws sdk} {BL : BankLaws sdk} {KL : StoreLaws sdk}
    k deps app mempools ctx txs (st st' : Lane.State (M := ConstructorMempool (C := string))) err decoded i bid bi p :
  New deps = Ret (app, mempools) -> AnteLaws (deps_Ante deps) ->
  (forall a, hands_on (auth (deps_Ante deps) (deps_Options deps) a)) ->
  (forall tx bz, deps_TxEncoder deps tx = Ok bz <-> deps_TxDecoder deps bz = Ok tx) ->
  Params_Validate p = Ret None ->
  ProcessProposalHandler (app_proposalHandler app) ctx txs st = (Ret (ACCEPT, err), st') ->
  GetDecodedTxs (deps_TxDecoder deps) txs = Ok decoded -> decoded !! i = Some bid ->
  GetAuctionBidInfo (app_factory deps) bid = Ok (Some bi) ->
  i = 0%nat /\ exists lane m bundle rest ctx1 st1, app_lanes app !! tob_id = Some lane /\
    GetMsgs bid = [AuctionBidMsg m] /\ decoded = bid :: bundle ++ rest /\
    Forall2 (unwraps (app_factory deps)) (Transactions bi) bundle /\
    ante_verified lane ctx st (bid :: bundle) ctx1 st1 /\
    forall ctx2 st2 ctx3 st3, ctx_IsCheckTx ctx2 = false -> ctx_IsReCheckTx ctx2 = false ->
      GetParams (st_store st2) = Ok p ->
      app_anteHandler app ctx2 bid false st2 = (Ret (ctx3, None), st3) ->
      affordable (st_store st3) m (Bidder bi) -> settled k p m (Bidder bi) (st_store st3).
Proof.
  intros HN Ha Hh Hc Hval HP Hd Hi Hbi. apply New_inv in HN. simplify_eq.
  destruct (accepted_by_auction deps ctx txs decoded st st' err HP Hd) as (Ho & rest0 & st0 & Hq); [by intros ->|].
  destruct (ordered_bid deps ctx decoded i bid bi Hc Ho Hi Hbi) as (-> & bundle & rest & -> & HU). split; [done|].
  destruct (processed_bid deps ctx bid bi _ _ st st0 Hbi Hq) as (bundle' & ctx1 & st1 & HU' & HA).
  rewrite (unwraps_unique _ _ _ _ HU' HU) in HA.
  destruct (bid_message _ bid bi Hbi) as (m & Hm & Haddr & Eb & Et).
  exists (tob_lane deps (Some (the_ante deps))), m, bundle, rest, ctx1, st1. split_and!; try done.
  intros ctx2 st2 ctx3 st3 Hc1 Hc2 Hp2 H3 Haff. cbn [the_app app_anteHandler] in H3. unfold the_ante in H3.
  rewrite (al_chain _ Ha) in H3 by done.
  destruct (accepted_bid_acceptable (deps_Ante deps) (the_options deps) ctx2 bid st2 ctx3 st3 bi Hh Hc1 Hc2 H3 Hbi) as [Hp3 HV].
  eapply (acceptable_is_settled k p m (Bidder bi) bi); try done; [congruence|]. by apply ValidateBidInfo_iff.
Qed.

(** ** Witness *)

Lemma ex_hands_on o a : hands_on (auth ex_lib o a).
Proof.
  assert (Hjudge : forall f, (f = ex_deduct \/ f = ex_verify \/ f = ex_take) -> hands_on (ex_judge f)).
  { intros f Hf ctx tx next st ctx' st'. unfold ex_judge. destruct (f (st_store st) tx) as [s|] eqn:E; [|done].
    intros H. exists ctx, (set_store s st). split_and!; try done. by apply (ex_effect_params f (st_store st) tx). }
  assert (Hpass : hands_on ex_pass) by (intros ctx tx next st ctx' st' H; by exists ctx, st).
  destruct a; try exact Hpass; try (apply Hjudge; by auto); intros ctx tx next st ctx' st' H.
  - change (ex_setup ctx tx false next st = (Ret (ctx', None), st')) in H. unfold ex_setup in H.
    exists (with_meter (1000, 0) ctx), st. split_and!; try done.
    destruct (next _ tx false st) as [[[c [err|]]|w] st1]; [done..|]. by case_bool_decide.
  - change (ex_size ctx tx false next st = (Ret (ctx', None), st')) in H. unfold ex_size in H.
    destruct (ctx_GasLimit ctx <? _); [done|]. eexists _, st. split_and!; try exact H; done.
Qed.

(** The bid of account 1 and its two transactions. *)
Definition ex_block : list bytes := [[x64]; [x05]; [x06]].
Definition ex_processed := ProcessProposalHandler (the_proposals ex_deps) ex_block_ctx ex_block ex_node.

Lemma ex_block_accepted : fst ex_processed = Ret (ACCEPT, None).
Proof. vm_compute. reflexivity. Qed.

(** The context BaseApp delivers the bid in: with its bytes. *)
Definition ex_delivery : Context :=
  {| ctx_BlockHeight := 11; ctx_IsCheckTx := false; ctx_IsReCheckTx := false;
     ctx_Priority := 0; ctx_TxBytes := [x64]; ctx_GasLimit := 0; ctx_GasConsumed := 0 |}.
Definition ex_delivered := app_anteHandler (the_app ex_deps) ex_delivery ex_bid false ex_node.

Lemma accepted_block_pays_its_bid_witness :
  (match fst ex_delivered with Ret (ctx, None) => ctx_GasConsumed ctx = 10 | _ => False end) /\
  0%nat = 0%nat /\ exists lane m bundle rest ctx1 st1, app_lanes (the_app ex_deps) !! tob_id = Some lane /\
    GetMsgs (ex_bid : @Tx concrete_sdk) = [AuctionBidMsg m] /\
    [ex_bid; ex_tx 2 0 [5]; ex_tx 1 1 [6]] = ex_bid :: bundle ++ rest /\
    Forall2 (unwraps (app_factory ex_deps)) (Transactions ex_bid_info) bundle /\
    ante_verified lane ex_block_ctx ex_node (ex_bid :: bundle) ctx1 st1 /\
    forall ctx2 st2 ctx3 st3, ctx_IsCheckTx ctx2 = false -> ctx_IsReCheckTx ctx2 = false ->
      GetParams (st_store st2) = Ok ex_params ->
      app_anteHandler (the_app ex_deps) ctx2 ex_bid false st2 = (Ret (ctx3, None), st3) ->
      affordable (st_store st3) m (Bidder ex_bid_info) -> settled ex_keeper ex_params m (Bidder ex_bid_info) (st_store st3).
Proof.
  split; [vm_compute; reflexivity|].
  apply (accepted_block_pays_its_bid ex_keeper ex_deps (the_app ex_deps) (the_mempools ex_deps)
    ex_block_ctx ex_block ex_node (snd ex_processed) None).
  - apply ex_New.
  - apply ex_ante_laws.
  - apply ex_hands_on.
  - apply ex_codec.
  - vm_compute. reflexivity.
  - rewrite <- ex_block_accepted. apply surjective_pairing.
  - reflexivity.
  - reflexivity.
  - vm_compute. reflexivity.
Defined.

(** At delivery the bid can be spent. *)
Lemma ex_bid_affordable : affordable (st_store (snd ex_delivered))
  {| msg_Bidder := "01"; msg_Bid := MkCoin "stake" (Some 5); msg_Transactions := [[x05]; [x06]] |} (Bidder ex_bid_info).
Proof. intros a [= <-]. vm_compute. split; [reflexivity|discriminate]. Qed.
